(* ===== verification/_CoqProject ===== *)
-Q . S2P
Prelude.v
Effects.v
GoStrings.v
GoTime.v
GoCrypto.v
GoNet.v
AppErrors.v
Network.v
Ipam.v
Host.v
Allocation.v
VmmConfig.v
Instance.v
Manager.v
WarmPool.v
Vsock.v
GuestAgent.v
GuestServer.v
Snapshot.v
PresetEnv.v
Proxy.v
Outbox.v
OutboxRelay.v
Sandbox.v
Tenancy.v
ExecPath.v
Lifecycle.v
Routes.v
Wiring.v
IdentityDB.v
Repositories.v
Walk.v
Identity.v
Ids.v
Provision.v
OutboxDelivery.v
Handlers.v
Auth.v
Tables.v
Router.v
SignIn.v
Runtime.v
Tools.v
