(* ===== verification/Prelude.v ===== *)
(** * Shiyao: a verification development

    Shiyao runs commands of AI agents in Firecracker microVMs.  The daemon
    (cmd/daemon) serves an HTTP API: users log in, manage tokens and create or
    delete sandboxes.  It keeps its rows in PostgreSQL and announces sandbox
    jobs on NATS JetStream.  The worker (cmd/worker) consumes the jobs and
    drives the VM manager, which leases a network, starts Firecracker and
    cleans up.  Inside a VM the guest agent (cmd/guest-agent) executes the
    commands that the daemon sends over vsock.  The snapshot builder makes the
    kernel and root images.  All of it is translated from the Go sources under
    src/shiyao, in the order of the list below; the Rocq names are the Go
    names, with a prefix where two packages use the same one.

    ** Conventions

    A Go function with results [(A, error)] on state [S] is an [ST S A], a
    function [S -> result A * S]: the state survives the error path.  Errors
    are trees (see [error] below) so that [errors.Is] and wrapping are kept.
    Integers are [Z]; where the Go width matters the wrap-around is written
    ([int32], [int64], [uint32] of Prelude).  Strings are byte strings; UTF-8
    decoding is [GoStrings.runes].  Times and durations are nanoseconds.
    [now], new ids and random bytes are arguments, so that an execution is a
    function of them.  A mutex-protected method is given twice where goroutines
    matter: as a whole function, and as the critical sections it consists of,
    which an inductive step relation interleaves.

    ** Files, the code they model, and what they show

    Foundations.
    - Prelude: errors, results, the state monad, widths, list lemmas.
    - Effects: deferred calls, [preserves] (what a computation leaves alone)
      and its tactic [frame], [outcome].
    - GoStrings, GoCrypto, GoNet: what the sources use of strings,
      unicode/utf8, strconv, hex, crypto/sha256, net/netip and net.
    - GoTime: the calendar of the package time and its HTTP date format, with
      the time conversions of pkg/pgconv and pkg/helper.  The times in
      responses read back, in the zone of the process.
    - AppErrors: pkg/errors and pkg/httputil.

    Networks and virtual machines (internal/core).
    - Network: core/network/config.go, policy.go, nftables.go.  The elements
      installed for a VM implement the documented policy; VMs cannot reach
      each other.
    - Ipam: core/network/ipam.go.  Leases are exclusive under any sequence.
    - Host: the interface of the host (netlink, nft, files, the Firecracker
      SDK) as a class [Host] with laws [HostLaws], and a simulated host.
    - Allocation: allocation.go, tap.go.  Setup and any number of releases
      leave no trace, but for the TAP device that a failed setup could not
      delete again.
    - VmmConfig, Instance, Manager, WarmPool: core/vmm.  The lifecycle of an
      instance and that one goroutine at a time is inside it; the limits and
      leases of the manager under every interleaving; the outcome of
      [ProvisionVM]; the retries of [Reconcile]; that the warm pool neither
      loses nor multiplies what is added to it.
    - Vsock: core/vsock.  What the host client writes to the wire, and that it
      delivers bounded frames in order.
    - Proxy: core/proxy and core/websocket.  The proxy dials public addresses
      only; the bridge forwards in order.

    Guest and images.
    - GuestAgent: cmd/guest-agent over the class [GuestOS] with [GuestLaws].
      Commands run confined, and their output arrives.
    - GuestServer: the accept loop of the agent and its goroutines as a step
      relation, in which the start of a command is several steps: its control
      group, its process, its membership and its resource limits.  At most
      [MaxConcurrentCommands] commands run, each for a valid request of the
      host and in a group with limits from its start, and with resource limits
      once it is running; a goroutine alone is [serve].
    - Snapshot: platform/snapshot over [BuildHost]/[BuildLaws] and
      [Store]/[StoreLaws].  A build leaves the host as it was, registers its
      manifest last, and the registry gives back what was put.
    - PresetEnv: the environment file from the builder to the guest agent.

    Jobs and sandboxes.
    - Outbox, OutboxRelay: platform/outbox and adapters/nats/publisher.go.
      The table keeps its constraints, published events stay as they are,
      claims are exclusive, and rounds of the relay drain the outbox, whatever
      the publisher answers.
    - OutboxDelivery: the abstract [Mailbox] that delivers at least once, and
      that the table, any number of relays and the bus refine it under every
      interleaving, crash and failure; no event is lost.
    - Sandbox: platform/sandbox, database/sqlc/sandboxes.sql.go, the
      dispatcher of runtime/daemon and the handlers of runtime/worker.
      Responses with their times, bounded creation whatever statements are
      lost, the outcome of a create job.
    - Tenancy: any sequence of calls of the sandbox service by any number of
      users.  Noninterference: a user's answers do not depend on the others,
      but for what the shared bus answers.
    - ExecPath: a command from the WebSocket of its user through bridge and
      vsock client to the guest agent and back: the output that arrives, and
      that no other guest is reached.
    - Lifecycle: users, the bus, the worker and the manager together, as a
      step relation over one state in which the callbacks of the worker
      advance call by call.  Rows and VMs stay consistent under redelivery,
      reordering and interleaving, as long as two callbacks of one sandbox do
      not overlap.  Part of it also holds when statements are lost and the
      worker dies and starts again; an overlap and a restart that break the
      rest are recorded as examples.
    - Provision: that everything succeeds on a host that works (the class
      [HealthyHost]).  A sandbox from its creation over its running VM to its
      deletion, after which manager, pool, host and table are as before.

    Identity and the API.
    - IdentityDB: the other queries of database/sqlc.
    - Repositories: the repository.go files of the identity modules, through
      which the services reach the queries.
    - Identity: authn, authz, identity/session, users, pat, teamtoken
      (services) and runtime/middleware/auth.go.
    - Ids: pkg/pgconv and pkg/ptr; names derived from UUIDs.
    - Handlers: the HTTP handlers of these modules, with request and response
      bodies.
    - Auth: identity/auth, passwords and one-time codes.
    - Walk: the class [TableRel] and the tactic [walk], which carry a
      relation between table states through a service.
    - Tables: the constraints of migrations/, kept by every statement and
      service.
    - Routes, Router: the routes, CORS and secure configuration; a request
      from the middleware to the tables.  Access control of the whole API,
      and that its tables keep their constraints.
    - Wiring: runtime/daemon/modules.go, [NewModules] and the binding of the
      routes: every request uses the one pool and client of the daemon.
    - SignIn: a login, its cookie and the requests that follow, composed over
      Auth, Identity, Handlers and Router.
    - Runtime: config, adapters/postgres, redis and nats, cmd/daemon,
      cmd/worker and their registries over [Drivers]/[DriverLaws].  Nothing
      is left open, whatever step fails; a lifecycle event that the
      dispatcher publishes reaches one consumer of a worker, the right one.
    - Tools: cmd/cli and core/vmm/benchmark.go.

    ** Interfaces

    Code outside the repository is a parameter: [Host], [GuestOS],
    [BuildHost], [Drivers] for operating system, SDKs and drivers; [JobBus]
    and the argument [bus] for JetStream; [SubjectMatch] for its subject
    wildcards; [Publisher] and [PublishMsg], whose documented answers are
    [OutboxDelivery.Answer]; [Jsonb] for what a JSONB column gives back of
    the text that is written to it; [MapOrder] for the order in which Go visits
    a map; [UnicodeCase] for case mapping beyond ASCII; [Location] for the time zone of the process; [IDKey] for argon2; the resolver and dialer of the proxy.
    The [...Laws] classes state documented behaviour (a removed device is
    gone, a closed connection is not live), [HealthyHost] what the host
    answers when nothing is broken, and each has an instance, the
    simulated systems on which the witnesses run.  The database is the
    finite maps of its tables; a list of faults says which statements the
    connection loses.

    ** Fuel

    Structural recursion is used wherever the code loops over data.  The few
    functions with fuel get it from their input: decoding runes, trimming,
    splitting fields and the bytes of a JSON string use the length of the
    string (every step consumes a byte), parsing an IPv6 address the eight
    groups it may have, streaming output uses the length of the output (every frame is
    non-empty), SHA-256 the length of the padded message (every block
    consumes 64 bytes).  The theorems about them do not mention fuel.

    ** Not modelled

    gin (routing, binding, JSON of bodies), net/http, and the headers that
    gin-contrib/cors and secure write: requests arrive here as parsed values.
    http.Server and the delivery loop of
    the NATS client are I/O.  Log lines, and the non-error arguments of
    error messages, are not kept.  adapters/polar declares types and an
    interface that nothing implements; the files of cloud and most of
    enterprise hold only a package clause, the rest constructors that wrap a
    configuration.  In GuestServer the preparation of a control group is one
    step, although its writes could interleave with those of another command:
    they concern a directory of their own.  Commands run as root in the guest;
    what they do to their own limits is not modelled.

    ** Assumptions

    A statement that the connection loses is not committed: a connection that
    breaks between the commit and the answer is not modelled, except for the
    outbox, where a relay may stop right after a statement.  The clocks of the
    database and of the hosts are one clock, which does not run back past the
    creation of a row (so the CHECK on [sessions.revoked_at] holds), except
    where a login reads them: there nothing relates them.  [nft -f] applies
    its batch as one transaction, as its manual says, and a netlink request
    that fails changes nothing.  A mount command of the snapshot builder that
    fails leaves the mount table alone.  Deadlines of connections are kept
    but no time passes inside a call: a peer that is too slow appears as one
    that is gone. *)

From stdpp Require Export base tactics list gmap strings.
From Stdlib Require Export ZArith Lia.

(** ** Errors

    A Go [error] is kept as the tree its constructors build: a sentinel
    ([errors.New] bound to a package variable and compared with [errors.Is]),
    a message built by [fmt.Errorf] or [errors.New] with the errors its [%w]
    and [%v] verbs refer to, a join, an [AppError] of [pkg/errors], an error
    handed over by code outside
    the repository, or a run-time panic, which ends the call like an error
    does.  A message is identified by its format string; the
    non-error arguments that the verbs print are not kept. *)

#[warnings="-register-all"]
Inductive error : Type :=
  | Sentinel (name : string)
  | Errorf (format : string) (wrapped : list error)
  | Joined (errs : list error)
  | App (status : Z) (code message : string) (wrapped : list error)
  | External (code : Z)
  | Panic (what : string).

(** [errors.Is] on the tree above: a depth-first search for the target. *)
Fixpoint errors_Is (target : string) (e : error) : bool :=
  match e with
  | Sentinel n => String.eqb n target
  | Errorf _ es | Joined es | App _ _ _ es => existsb (errors_Is target) es
  | External _ | Panic _ => false
  end.

(** The outcome of a Go function with results [(A, error)]. *)
Inductive result (A : Type) : Type :=
  | Ok (a : A)
  | Err (e : error).
Arguments Ok {A} a.
Arguments Err {A} e.

Definition is_ok {A} (r : result A) : bool :=
  match r with Ok _ => true | Err _ => false end.

(** A Go function with a single [error] result, run on state [S]: the state
    it leaves behind is kept on the error path too. *)
Definition ST (S A : Type) : Type := S → result A * S.

Definition st_ret {S A} (a : A) : ST S A := λ s, (Ok a, s).
Definition st_fail {S A} (e : error) : ST S A := λ s, (Err e, s).
Definition st_bind {S A B} (c : ST S A) (k : A → ST S B) : ST S B :=
  λ s, match c s with
       | (Ok a, s') => k a s'
       | (Err e, s') => (Err e, s')
       end.
(** [if err := c(); err != nil { return fmt.Errorf(format, err) }] *)
Definition st_wrap {S A} (format : string) (c : ST S A) : ST S A :=
  λ s, match c s with
       | (Ok a, s') => (Ok a, s')
       | (Err e, s') => (Err (Errorf format [e]), s')
       end.
(** Run [c] and hand its outcome, error included, to the continuation. *)
Definition st_try {S A} (c : ST S A) : ST S (result A) :=
  λ s, let '(r, s') := c s in (Ok r, s').

Declare Scope go_scope.
Delimit Scope go_scope with go.
Notation "x <- c ;; k" := (st_bind c (λ x, k))
  (at level 100, c at next level, right associativity) : go_scope.
Notation "c1 ;; c2" := (st_bind c1 (λ _, c2))
  (at level 100, right associativity) : go_scope.

(** ** Machine integers and time *)

Open Scope Z_scope.

Definition wrap_u (w x : Z) : Z := x mod 2 ^ w.
(** Two's complement: the representative of [x] in [-2^(w-1), 2^(w-1)). *)
Definition wrap_s (w x : Z) : Z := (x + 2 ^ (w - 1)) mod 2 ^ w - 2 ^ (w - 1).
Definition int32 := wrap_s 32.
Definition int64 := wrap_s 64.
Definition uint16 := wrap_u 16.
Definition uint32 := wrap_u 32.

(** [time.Time] as nanoseconds since the Unix epoch; [time.Time{}] is the
    first instant of year 1.  [time.Duration] is an [int64] of nanoseconds. *)
Definition Nanosecond : Z := 1.
Definition Millisecond : Z := 1000000.
Definition Second : Z := 1000000000.
Definition Minute : Z := 60 * Second.
Definition Hour : Z := 60 * Minute.
Definition zeroTime : Z := -62135596800 * Second.
Definition IsZero (t : Z) : bool := Z.eqb t zeroTime.

Lemma wrap_s_small w x :
  0 < w → - 2 ^ (w - 1) ≤ x < 2 ^ (w - 1) → wrap_s w x = x.
Proof.
  intros Hw Hx. unfold wrap_s.
  assert (2 ^ w = 2 * 2 ^ (w - 1)) as E.
  { rewrite <- Z.pow_succ_r by lia. f_equal. lia. }
  rewrite Z.mod_small by lia. lia.
Qed.

Lemma wrap_s_range w x : 0 < w → - 2 ^ (w - 1) ≤ wrap_s w x < 2 ^ (w - 1).
Proof.
  intros Hw. unfold wrap_s.
  assert (2 ^ w = 2 * 2 ^ (w - 1)) as E.
  { rewrite <- Z.pow_succ_r by lia. f_equal. lia. }
  assert (0 < 2 ^ (w - 1)) by (apply Z.pow_pos_nonneg; lia).
  pose proof (Z.mod_pos_bound (x + 2 ^ (w - 1)) (2 ^ w)). lia.
Qed.

(** ** Tactics *)

(** Case on the scrutinee of a [match] or [if] of the goal, then of the
    hypotheses, keeping the equation. *)
Ltac case_goal :=
  match goal with
  | |- context [match ?x with _ => _ end] =>
      lazymatch x with
      | context [match _ with _ => _ end] => fail
      | _ => destruct x eqn:?
      end
  end.
Ltac case_hyp :=
  match goal with
  | H : context [match ?x with _ => _ end] |- _ =>
      lazymatch x with
      | context [match _ with _ => _ end] => fail
      | _ => destruct x eqn:?
      end
  end.
(** Walk through every branch of a state-passing computation whose outcome
    is the hypothesis [H]. *)
Ltac run_in H :=
  unfold st_bind, st_ret, st_fail, st_wrap, st_try in H; simpl in H.
Ltac run :=
  unfold st_bind, st_ret, st_fail, st_wrap, st_try; simpl.
Ltac split_runs := repeat (case_hyp; simpl in *; simplify_eq/=).

(** ** Lists *)

Section Lists.
Context {A : Type}.
Implicit Types l : list A.

(** [s[len(s)-1]] and [s[:len(s)-1]] of a non-empty slice, [None] where Go
    panics. *)
Definition pop_last (l : list A) : option (list A * A) :=
  match reverse l with
  | [] => None
  | x :: r => Some (reverse r, x)
  end.

Lemma pop_last_snoc l x : pop_last (l ++ [x]) = Some (l, x).
Proof. unfold pop_last. rewrite reverse_snoc. by rewrite reverse_involutive. Qed.

Lemma pop_last_Some l l' x : pop_last l = Some (l', x) ↔ l = l' ++ [x].
Proof.
  split; [|intros ->; apply pop_last_snoc].
  destruct l as [|y l0 _] using rev_ind; [done|].
  rewrite pop_last_snoc. naive_solver.
Qed.

Lemma pop_last_None l : pop_last l = None ↔ l = [].
Proof.
  destruct l as [|x l _] using rev_ind; [done|].
  rewrite pop_last_snoc. split; [done|]. by destruct l.
Qed.

Section Filter.
Context (P : A → Prop) `{∀ x, Decision (P x)}.

Lemma filter_keep l : (∀ x, x ∈ l → P x) → filter P l = l.
Proof.
  induction l as [|x l IH]; intros Hl; [done|].
  rewrite filter_cons_True by (apply Hl; left). f_equal. apply IH.
  intros y Hy. apply Hl. by right.
Qed.

Lemma filter_none l : (∀ x, x ∈ l → ¬ P x) → filter P l = [].
Proof.
  induction l as [|x l IH]; intros Hl; [done|].
  rewrite filter_cons_False by (apply Hl; left). apply IH.
  intros y Hy. apply Hl. by right.
Qed.
End Filter.

Lemma existsb_elem (f : A → bool) l : existsb f l = true ↔ ∃ x, x ∈ l ∧ f x = true.
Proof. rewrite existsb_exists. by setoid_rewrite list_elem_of_In. Qed.

Lemma forallb_elem (f : A → bool) l : forallb f l = true ↔ ∀ x, x ∈ l → f x = true.
Proof. rewrite forallb_forall. by setoid_rewrite list_elem_of_In. Qed.
End Lists.

Create HintDb shiyao.
Create Rewrite HintDb go_simpl.
#[export] Hint Resolve lookup_insert_eq lookup_delete_eq : shiyao.
