(* ===== verification/Effects.v ===== *)
(** * Reasoning about state-passing computations

    Deferred calls, what a computation leaves unchanged ([preserves]), and
    what holds of its outcome ([outcome]), with a tactic that walks through a
    computation by its constructors. *)

From S2P Require Import Prelude.

(** [defer d()] right after a successful step: [c] is the rest of the
    function. *)
Definition st_defer {W A} (d : ST W unit) (c : ST W A) : ST W A := λ w,
  let '(r, w) := c w in (r, snd (d w)).

(** [if b { c() }] *)
Definition when {W} (b : bool) (c : ST W unit) : ST W unit := if b then c else st_ret tt.

(** [c] leaves the observation [f] of the state as it is, on every path. *)
Definition preserves {W A V} (f : W → V) (c : ST W A) : Prop := ∀ w, f (snd (c w)) = f w.

Create HintDb frame.

Section Frames.
Context {W V : Type} (f : W → V).

Lemma preserves_ret {A} (a : A) : preserves f (st_ret a).
Proof. done. Qed.
Lemma preserves_fail {A} e : preserves f (st_fail (A := A) e).
Proof. done. Qed.
Lemma preserves_pure {A} (g : W → result A) : preserves f (λ w, (g w, w)).
Proof. done. Qed.
Lemma preserves_bind_ok {A B} (c : ST W A) (k : A → ST W B) :
  preserves f c → (∀ a w w', c w = (Ok a, w') → preserves f (k a)) → preserves f (st_bind c k).
Proof.
  intros Hc Hk w. unfold st_bind. specialize (Hc w). destruct (c w) as [[a|e] w'] eqn:E; simpl in *; [|done].
  by rewrite (Hk _ _ _ E).
Qed.
Lemma preserves_bind {A B} (c : ST W A) (k : A → ST W B) :
  preserves f c → (∀ a, preserves f (k a)) → preserves f (st_bind c k).
Proof. intros. by apply preserves_bind_ok. Qed.
Lemma preserves_wrap {A} s (c : ST W A) : preserves f c → preserves f (st_wrap s c).
Proof. intros Hc w. unfold st_wrap. specialize (Hc w). by destruct (c w) as [[] ?]. Qed.
Lemma preserves_try {A} (c : ST W A) : preserves f c → preserves f (st_try c).
Proof. intros Hc w. unfold st_try. specialize (Hc w). by destruct (c w). Qed.
Lemma preserves_defer {A} d (c : ST W A) : preserves f d → preserves f c → preserves f (st_defer d c).
Proof. intros Hd Hc w. unfold st_defer. specialize (Hc w). destruct (c w) as [r w']. simpl in *. by rewrite Hd. Qed.
Lemma preserves_when b (c : ST W unit) : preserves f c → preserves f (when b c).
Proof. by destruct b. Qed.
Lemma preserves_if {A} b (c d : ST W A) : preserves f c → preserves f d → preserves f (if b : bool then c else d).
Proof. by destruct b. Qed.
End Frames.
#[export] Hint Resolve preserves_ret preserves_fail preserves_pure preserves_bind preserves_wrap
  preserves_try preserves_defer preserves_when preserves_if : frame.
#[export] Hint Extern 1 (preserves _ (match ?x with _ => _ end)) => destruct x : frame.

(** Walk through a computation by its outermost constructor. *)
Ltac frame := repeat lazymatch goal with
  | |- preserves _ (st_bind _ _) => apply preserves_bind
  | |- preserves _ (st_wrap _ _) => apply preserves_wrap
  | |- preserves _ (st_try _) => apply preserves_try
  | |- preserves _ (st_defer _ _) => apply preserves_defer
  | |- preserves _ (when _ _) => apply preserves_when
  | |- preserves _ (match ?x with _ => _ end) => destruct x
  | |- preserves _ _ => solve [eauto 2 with frame]
  | |- ∀ _, preserves _ _ => intro
  end.

(** The outcome of a computation: on success [P]; on failure, unless the
    error is one of [late], the observation [f] is as it was. *)
Section Outcome.
Context {W V A : Type} (f : W → V) (P : A → W → Prop) (late : error → Prop).
Definition outcome (c : ST W A) : Prop := ∀ w r w', c w = (r, w') →
  match r with Ok a => P a w' | Err e => late e ∨ f w' = f w end.

Lemma outcome_bind {B} (c : ST W B) (k : B → ST W A) :
  preserves f c → (∀ b w w', c w = (Ok b, w') → outcome (k b)) → outcome (st_bind c k).
Proof.
  intros Hc Hk w r w' E. unfold st_bind in E. specialize (Hc w). specialize (Hk).
  destruct (c w) as [[b|e] w1] eqn:E1; simpl in *; [|simplify_eq; by right].
  apply (Hk b w w1 E1) in E. by rewrite Hc in E.
Qed.
Lemma outcome_fail e : outcome (st_fail e).
Proof. intros w r w' [= <- <-]. by right. Qed.
Lemma outcome_defer d c :
  preserves f d → (∀ a w, P a w → P a (snd (d w))) → outcome c → outcome (st_defer d c).
Proof.
  intros Hd HP Hc w r w' E. unfold st_defer in E. destruct (c w) as [r1 w1] eqn:E1. simplify_eq/=.
  apply Hc in E1. destruct r; [by apply HP|]. by rewrite Hd.
Qed.
End Outcome.

