(* ===== verification/GoStrings.v ===== *)
(** * The parts of Go's [strings], [unicode/utf8], [strconv] and [encoding/hex]
    that the repository uses, on byte strings.

    A Go string is a sequence of bytes; it is Rocq's [string], whose
    characters are bytes.  The functions work on the list of byte values and
    decode UTF-8 the way [utf8.DecodeRune] does, invalid bytes included. *)

From Stdlib Require Import Ascii.
From stdpp Require Export pretty.
From S2P Require Import Prelude.
Open Scope Z_scope.

(** ** Bytes *)

Definition byte_of (c : ascii) : Z := Z.of_N (N_of_ascii c).
Definition ascii_of (b : Z) : ascii := ascii_of_N (Z.to_N b).

Fixpoint bytes (s : string) : list Z :=
  match s with
  | EmptyString => []
  | String c s => byte_of c :: bytes s
  end.

Fixpoint of_bytes (l : list Z) : string :=
  match l with
  | [] => EmptyString
  | b :: l => String (ascii_of b) (of_bytes l)
  end.

(** [len(s)] *)
Definition len (s : string) : Z := Z.of_nat (String.length s).

Definition is_byte (b : Z) : Prop := 0 ≤ b < 256.

Lemma byte_of_range c : is_byte (byte_of c).
Proof. unfold is_byte, byte_of. destruct c as [[] [] [] [] [] [] [] []]; by vm_compute. Qed.

Lemma ascii_of_byte_of c : ascii_of (byte_of c) = c.
Proof. unfold ascii_of, byte_of. by rewrite N2Z.id, ascii_N_embedding. Qed.

Lemma byte_of_ascii_of b : is_byte b → byte_of (ascii_of b) = b.
Proof.
  intros Hb. unfold is_byte, ascii_of, byte_of in *.
  rewrite N_ascii_embedding by lia. lia.
Qed.

Lemma of_bytes_bytes s : of_bytes (bytes s) = s.
Proof. induction s as [|c s IH]; simpl; [done|]. by rewrite ascii_of_byte_of, IH. Qed.

Lemma bytes_of_bytes l : Forall is_byte l → bytes (of_bytes l) = l.
Proof. induction 1 as [|b l Hb _ IH]; simpl; [done|]. by rewrite byte_of_ascii_of, IH. Qed.

Lemma bytes_range s : Forall is_byte (bytes s).
Proof. induction s; simpl; constructor; auto using byte_of_range. Qed.

Lemma bytes_inj s t : bytes s = bytes t → s = t.
Proof. intros E. by rewrite <- (of_bytes_bytes s), E, of_bytes_bytes. Qed.

Lemma bytes_app s t : bytes (s +:+ t) = bytes s ++ bytes t.
Proof. induction s as [|c s IH]; [done|]. simpl. by f_equal. Qed.

Lemma of_bytes_app l k : of_bytes (l ++ k) = of_bytes l +:+ of_bytes k.
Proof. induction l as [|b l IH]; [done|]. simpl. by rewrite IH. Qed.

Lemma length_bytes s : length (bytes s) = String.length s.
Proof. induction s; simpl; auto. Qed.

Lemma str_length_app s t : String.length (s +:+ t) = (String.length s + String.length t)%nat.
Proof. by rewrite <- !length_bytes, bytes_app, length_app. Qed.

Lemma length_of_bytes l : String.length (of_bytes l) = length l.
Proof. induction l; simpl; auto. Qed.

Lemma len_bytes s : len s = Z.of_nat (length (bytes s)).
Proof. unfold len. by rewrite length_bytes. Qed.

(** [string(b[:n])] and the rest of the slice. *)
Definition take_str (n : nat) (s : string) : string := of_bytes (take n (bytes s)).
Definition drop_str (n : nat) (s : string) : string := of_bytes (drop n (bytes s)).

Lemma take_drop_str n s : take_str n s +:+ drop_str n s = s.
Proof. unfold take_str, drop_str. by rewrite <- of_bytes_app, take_drop, of_bytes_bytes. Qed.

Lemma length_take_str n s : String.length (take_str n s) = Nat.min n (String.length s).
Proof. unfold take_str. by rewrite length_of_bytes, length_take, length_bytes. Qed.

Lemma length_drop_str n s : String.length (drop_str n s) = (String.length s - n)%nat.
Proof. unfold drop_str. by rewrite length_of_bytes, length_drop, length_bytes. Qed.

(** ** UTF-8 *)

Definition RuneError : Z := 65533.
Definition is_cont (b : Z) : bool := (128 <=? b) && (b <=? 191).
Definition in_range (lo hi b : Z) : bool := (lo <=? b) && (b <=? hi).

(** The range of the second byte of a sequence that starts with [b0]
    (RFC 3629 without overlong forms and surrogates). *)
Definition second_ok (b0 b1 : Z) : bool :=
  if b0 =? 224 then in_range 160 191 b1
  else if b0 =? 237 then in_range 128 159 b1
  else if b0 =? 240 then in_range 144 191 b1
  else if b0 =? 244 then in_range 128 143 b1
  else is_cont b1.

(** [utf8.DecodeRune]: the rune and its width; an invalid or cut sequence is
    [RuneError] of width 1, the empty slice [RuneError] of width 0. *)
Definition DecodeRune (l : list Z) : Z * nat :=
  match l with
  | [] => (RuneError, 0%nat)
  | b0 :: l1 =>
      if b0 <? 128 then (b0, 1%nat)
      else if in_range 194 223 b0 then
        match l1 with
        | b1 :: _ =>
            if is_cont b1 then ((b0 - 192) * 64 + (b1 - 128), 2%nat)
            else (RuneError, 1%nat)
        | _ => (RuneError, 1%nat)
        end
      else if in_range 224 239 b0 then
        match l1 with
        | b1 :: b2 :: _ =>
            if second_ok b0 b1 && is_cont b2
            then ((b0 - 224) * 4096 + (b1 - 128) * 64 + (b2 - 128), 3%nat)
            else (RuneError, 1%nat)
        | _ => (RuneError, 1%nat)
        end
      else if in_range 240 244 b0 then
        match l1 with
        | b1 :: b2 :: b3 :: _ =>
            if second_ok b0 b1 && is_cont b2 && is_cont b3
            then ((b0 - 240) * 262144 + (b1 - 128) * 4096 + (b2 - 128) * 64 + (b3 - 128), 4%nat)
            else (RuneError, 1%nat)
        | _ => (RuneError, 1%nat)
        end
      else (RuneError, 1%nat)
  end.

(** The runes of a string with their widths, [for _, r := range s]. *)
Fixpoint runes_fuel (fuel : nat) (l : list Z) : list (Z * nat) :=
  match fuel, l with
  | O, _ | _, [] => []
  | S fuel, _ =>
      let '(r, w) := DecodeRune l in
      (r, w) :: runes_fuel fuel (drop w l)
  end.
Definition runes (s : string) : list (Z * nat) :=
  runes_fuel (String.length s) (bytes s).

(** [utf8.RuneCountInString] *)
Definition RuneCountInString (s : string) : Z := Z.of_nat (length (runes s)).

(** [utf8.ValidString]: no invalid sequence is met. *)
Fixpoint valid_utf8_fuel (fuel : nat) (l : list Z) : bool :=
  match fuel, l with
  | O, _ | _, [] => true
  | S fuel, b0 :: _ =>
      let '(r, w) := DecodeRune l in
      if (128 <=? b0) && (w =? 1)%nat then false
      else valid_utf8_fuel fuel (drop w l)
  end.
Definition ValidString (s : string) : bool :=
  valid_utf8_fuel (String.length s) (bytes s).

(** [utf8.RuneStart] and [utf8.DecodeLastRune]: the last rune of [l], found
    by looking back at most four bytes for a start byte. *)
Definition RuneStart (b : Z) : bool := negb (is_cont b).
Fixpoint last_start (fuel : nat) (r : list Z) (n : nat) : nat :=
  match fuel, r with
  | O, _ | _, [] => n
  | S fuel, b :: r => if RuneStart b then S n else last_start fuel r (S n)
  end.
Definition DecodeLastRune (l : list Z) : Z * nat :=
  match reverse l with
  | [] => (RuneError, 0%nat)
  | b :: r =>
      if b <? 128 then (b, 1%nat)
      else
        let n := last_start 3 r 1 in
        let '(rn, w) := DecodeRune (drop (length l - n) l) in
        if (w =? n)%nat then (rn, w) else (RuneError, 1%nat)
  end.

(** [unicode.IsSpace] *)
Definition IsSpace (r : Z) : bool :=
  in_range 9 13 r || (r =? 32) || (r =? 133) || (r =? 160) || (r =? 5760)
  || in_range 8192 8202 r || (r =? 8232) || (r =? 8233) || (r =? 8239)
  || (r =? 8287) || (r =? 12288).

(** ** Package strings *)

Fixpoint trim_left (fuel : nat) (l : list Z) : list Z :=
  match fuel, l with
  | O, _ | _, [] => l
  | S fuel, _ =>
      let '(r, w) := DecodeRune l in
      if IsSpace r then trim_left fuel (drop w l) else l
  end.
Fixpoint trim_right (fuel : nat) (l : list Z) : list Z :=
  match fuel, l with
  | O, _ | _, [] => l
  | S fuel, _ =>
      let '(r, w) := DecodeLastRune l in
      if IsSpace r then trim_right fuel (take (length l - w) l) else l
  end.
Definition TrimSpace (s : string) : string :=
  let l := bytes s in
  let l := trim_left (length l) l in
  of_bytes (trim_right (length l) l).

(** [strings.Fields]: the maximal runs of non-space runes. *)
Fixpoint fields_fuel (fuel : nat) (cur : list Z) (l : list Z) : list string :=
  let flush := match cur with [] => [] | _ => [of_bytes cur] end in
  match fuel, l with
  | O, _ | _, [] => flush
  | S fuel, _ =>
      let '(r, w) := DecodeRune l in
      if IsSpace r then flush ++ fields_fuel fuel [] (drop w l)
      else fields_fuel fuel (cur ++ take w l) (drop w l)
  end.
Definition Fields (s : string) : list string :=
  fields_fuel (String.length s) [] (bytes s).

(** [strings.Split] with a one-byte separator. *)
Fixpoint split_bytes (sep : Z) (cur l : list Z) : list (list Z) :=
  match l with
  | [] => [cur]
  | b :: l => if b =? sep then cur :: split_bytes sep [] l
              else split_bytes sep (cur ++ [b]) l
  end.
Definition Split (s : string) (sep : ascii) : list string :=
  of_bytes <$> split_bytes (byte_of sep) [] (bytes s).

(** [strings.Join] *)
Fixpoint Join_str (l : list string) (sep : string) : string :=
  match l with
  | [] => ""
  | [s] => s
  | s :: l => s +:+ sep +:+ Join_str l sep
  end.

Fixpoint prefix_bytes (p l : list Z) : bool :=
  match p, l with
  | [], _ => true
  | b :: p, c :: l => (b =? c) && prefix_bytes p l
  | _, [] => false
  end.
Definition HasPrefix (s p : string) : bool := prefix_bytes (bytes p) (bytes s).
Definition HasSuffix (s p : string) : bool :=
  prefix_bytes (reverse (bytes p)) (reverse (bytes s)).

(** [strings.ContainsAny] for a set of ASCII characters, and [strings.Contains]. *)
Definition ContainsAny (s chars : string) : bool :=
  existsb (λ b, existsb (Z.eqb b) (bytes chars)) (bytes s).
Fixpoint contains_bytes (p l : list Z) : bool :=
  prefix_bytes p l || match l with [] => false | _ :: l => contains_bytes p l end.
Definition Contains (s sub : string) : bool := contains_bytes (bytes sub) (bytes s).

(** [strings.ReplaceAll] of a one-byte pattern. *)
Definition ReplaceAll (s : string) (old : ascii) (new : string) : string :=
  of_bytes (flat_map (λ b, if b =? byte_of old then bytes new else [b]) (bytes s)).

(** [strings.ToLower]: ASCII letters by arithmetic, any other rune by the
    Unicode case table, which is a parameter; invalid bytes become U+FFFD
    when the string is not ASCII, as in [strings.Map]. *)
Class UnicodeCase := { unicode_ToLower : Z → Z }.

Definition lower_ascii (b : Z) : Z := if in_range 65 90 b then b + 32 else b.
Definition EncodeRune (r : Z) : list Z :=
  if in_range 0 127 r then [r]
  else if in_range 128 2047 r then [192 + r / 64; 128 + r mod 64]
  else if in_range 2048 65535 r && negb (in_range 55296 57343 r) then
    [224 + r / 4096; 128 + r / 64 mod 64; 128 + r mod 64]
  else if in_range 65536 1114111 r then
    [240 + r / 262144; 128 + r / 4096 mod 64; 128 + r / 64 mod 64; 128 + r mod 64]
  else [239; 191; 189].
Definition is_ascii_string (s : string) : bool := forallb (λ b, b <? 128) (bytes s).
Definition ToLower `{UnicodeCase} (s : string) : string :=
  if is_ascii_string s then of_bytes (lower_ascii <$> bytes s)
  else of_bytes (flat_map (λ '(r, _),
         EncodeRune (if r <? 128 then lower_ascii r else unicode_ToLower r)) (runes s)).

(** [strings.EqualFold(s, t)] for an ASCII [t]: simple case folding; outside
    ASCII only U+017F folds to [s] and U+212A to [k]. *)
Definition fold_rune (r : Z) : Z :=
  if r =? 383 then 115 else if r =? 8490 then 107 else lower_ascii r.
Definition EqualFold_ascii (s t : string) : bool :=
  bool_decide (fold_rune ∘ fst <$> runes s = fold_rune <$> bytes t).

(** ** strconv, fmt and hex *)

Definition Itoa (n : Z) : string := pretty n.

Definition hex_digit (d : Z) : Z := if d <? 10 then 48 + d else 87 + d.
(** [%02x] of a byte. *)
Definition hex_byte (b : Z) : list Z := [hex_digit (b / 16); hex_digit (b mod 16)].
(** [hex.EncodeToString] *)
Definition hex_encode (l : list Z) : string := of_bytes (flat_map hex_byte l).

Definition hex_value (c : Z) : option Z :=
  if in_range 48 57 c then Some (c - 48)
  else if in_range 97 102 c then Some (c - 87)
  else if in_range 65 70 c then Some (c - 55)
  else None.
(** [hex.DecodeString], [None] on an odd length or a non-digit. *)
Fixpoint hex_decode_bytes (l : list Z) : option (list Z) :=
  match l with
  | [] => Some []
  | a :: b :: l =>
      x ← hex_value a; y ← hex_value b; r ← hex_decode_bytes l;
      Some (x * 16 + y :: r)
  | [_] => None
  end.
Definition hex_decode (s : string) : option (list Z) := hex_decode_bytes (bytes s).

(** ** Lemmas *)

Lemma hex_digit_range d : 0 ≤ d < 16 → is_byte (hex_digit d).
Proof. unfold hex_digit, is_byte. intros. case_match; lia. Qed.

Lemma hex_value_digit d : 0 ≤ d < 16 → hex_value (hex_digit d) = Some d.
Proof.
  intros Hd. unfold hex_value, hex_digit, in_range.
  destruct (Z.ltb_spec d 10); repeat case_match; try lia; f_equal; lia.
Qed.

Lemma hex_bytes_range l : Forall is_byte l → Forall is_byte (flat_map hex_byte l).
Proof.
  induction 1 as [|b l Hb _ IH]; [constructor|].
  unfold is_byte in Hb. simpl.
  pose proof (Z.mod_pos_bound b 16).
  assert (0 ≤ b / 16 < 16) by (split; [apply Z.div_pos|apply Z.div_lt_upper_bound]; lia).
  repeat (constructor; [apply hex_digit_range; lia|]). exact IH.
Qed.

Lemma hex_decode_encode l : Forall is_byte l → hex_decode (hex_encode l) = Some l.
Proof.
  intros Hl. unfold hex_decode, hex_encode.
  rewrite bytes_of_bytes by by apply hex_bytes_range.
  induction Hl as [|b l Hb _ IH]; [done|]. unfold is_byte in Hb.
  pose proof (Z.mod_pos_bound b 16).
  assert (0 ≤ b / 16 < 16) by (split; [apply Z.div_pos|apply Z.div_lt_upper_bound]; lia).
  simpl in *. rewrite !hex_value_digit by lia. simpl. rewrite IH. simpl.
  do 2 f_equal. pose proof (Z.div_mod b 16). lia.
Qed.

Lemma hex_encode_length l : String.length (hex_encode l) = (2 * length l)%nat.
Proof.
  unfold hex_encode. rewrite length_of_bytes.
  induction l as [|b l IH]; [done|]. simpl in *. rewrite IH. lia.
Qed.

Lemma DecodeRune_width l : l ≠ [] → (1 ≤ snd (DecodeRune l) ≤ 4)%nat ∧ (snd (DecodeRune l) ≤ length l)%nat.
Proof.
  intros Hl. destruct l as [|b0 l]; [done|]. unfold DecodeRune.
  repeat case_match; simpl; lia.
Qed.

Lemma prefix_bytes_app p l : prefix_bytes p (p ++ l) = true.
Proof. induction p; simpl; [done|]. by rewrite Z.eqb_refl. Qed.

Lemma prefix_bytes_spec p l : prefix_bytes p l = true ↔ ∃ k, l = p ++ k.
Proof.
  split; [|intros [k ->]; apply prefix_bytes_app].
  revert l. induction p as [|b p IH]; intros [|c l]; simpl; try done; eauto.
  intros [->%Z.eqb_eq [k ->]%IH]%andb_true_iff. by exists k.
Qed.

Lemma ContainsAny_false s chars :
  ContainsAny s chars = false ↔ Forall (λ b, b ∉ bytes chars) (bytes s).
Proof.
  unfold ContainsAny. rewrite <- not_true_iff_false, existsb_exists, Forall_forall.
  split.
  - intros H b Hb Hc. apply H. exists b. split; [by apply list_elem_of_In|].
    apply existsb_exists. exists b. split; [by apply list_elem_of_In|]. apply Z.eqb_refl.
  - intros H (b & Hb & (c & Hc & ->%Z.eqb_eq)%existsb_exists).
    apply (H c); by apply list_elem_of_In.
Qed.

Lemma string_empty_dec s : {s = ""} + {s ≠ ""}.
Proof. apply decide, _. Defined.

#[export] Hint Resolve bytes_range byte_of_range hex_bytes_range : shiyao.

Example trim_ex : TrimSpace "  a b	 " = "a b".
Proof. reflexivity. Qed.
Example fields_ex : Fields "  a bc  d" = ["a"; "bc"; "d"].
Proof. reflexivity. Qed.
Example split_ex : Split "a$b$$c" "$" = ["a"; "b"; ""; "c"].
Proof. reflexivity. Qed.
Example nbsp_trim : TrimSpace (of_bytes [194; 160; 65; 226; 128; 168]) = "A".
Proof. reflexivity. Qed.

(** [strings.Split] at a separator the piece before it does not contain. *)
Lemma split_bytes_no_sep sep cur l :
  sep ∉ l → split_bytes sep cur l = [cur ++ l].
Proof.
  revert cur. induction l as [|b l IH]; intros cur Hl; cbn; [by rewrite app_nil_r|].
  apply not_elem_of_cons in Hl as [Hb Hl].
  destruct (Z.eqb_spec b sep); [congruence|]. rewrite IH by done.
  by rewrite <- app_assoc.
Qed.

Lemma split_bytes_app sep cur l k :
  sep ∉ l → split_bytes sep cur (l ++ sep :: k) = (cur ++ l) :: split_bytes sep [] k.
Proof.
  revert cur. induction l as [|b l IH]; intros cur Hl; cbn.
  - by rewrite Z.eqb_refl, app_nil_r.
  - apply not_elem_of_cons in Hl as [Hb Hl].
    destruct (Z.eqb_spec b sep); [congruence|]. rewrite IH by done.
    by rewrite <- app_assoc.
Qed.

(** A text of printable ASCII characters without blanks has nothing to trim. *)
Definition plain (b : Z) : Prop := 33 ≤ b < 127.
Lemma plain_not_space b : plain b → IsSpace b = false.
Proof.
  intros Hb. unfold plain in Hb. unfold IsSpace, in_range. repeat rewrite orb_false_iff. repeat rewrite andb_false_iff. lia.
Qed.
Lemma DecodeRune_plain b l : plain b → DecodeRune (b :: l) = (b, 1%nat).
Proof. intros Hb. unfold plain in Hb. cbn [DecodeRune]. by rewrite (proj2 (Z.ltb_lt b 128)) by lia. Qed.
Lemma trim_left_plain n b l : plain b → trim_left n (b :: l) = b :: l.
Proof.
  intros Hb. destruct n as [|n]; [done|]. cbn [trim_left]. by rewrite DecodeRune_plain, plain_not_space by done.
Qed.
Lemma trim_right_plain n l : Forall plain l → trim_right n l = l.
Proof.
  intros Hl. destruct n as [|n]; [done|]. destruct l as [|b l]; [done|]. cbn [trim_right]. unfold DecodeLastRune.
  destruct (reverse (b :: l)) as [|c r] eqn:E; [done|].
  assert (plain c) as Hc. { eapply Forall_forall in Hl; [exact Hl|]. rewrite <- elem_of_reverse, E. by left. }
  rewrite (proj2 (Z.ltb_lt c 128)) by (unfold plain in Hc; lia). by rewrite plain_not_space.
Qed.
(** What [TrimSpace] leaves has a byte other than the space, or is empty. *)
Lemma trim_right_not_blank n l :
  (length l ≤ n)%nat → Forall (λ b, b = 32) (trim_right n l) → trim_right n l = [].
Proof.
  revert l. induction n as [|n IH]; intros l Hn; [by destruct l; [|cbn in Hn; lia]|].
  destruct l as [|b l]; [done|]. cbn [trim_right]. destruct (DecodeLastRune (b :: l)) as [r w] eqn:Ed.
  destruct (IsSpace r) eqn:Hs.
  - apply IH. rewrite length_take. assert (0 < w)%nat; [|cbn [length] in *; lia].
    revert Ed. unfold DecodeLastRune. destruct (reverse (b :: l)) as [|c q] eqn:E.
    { by apply (f_equal length) in E; rewrite length_reverse in E. }
    destruct (c <? 128); [intros [= _ <-]; lia|]. destruct (DecodeRune _) as [rn w'].
    destruct (Nat.eqb_spec w' (last_start 3 q 1)) as [->|]; intros [= _ <-]; [|lia].
    assert (∀ f q n, (n ≤ last_start f q n)%nat) as Hl.
    { clear. intros f. induction f as [|f IH]; intros [|x q] n; cbn; try lia. destruct (RuneStart x); [lia|].
      specialize (IH q (S n)). lia. }
    exact (Hl 3%nat q 1%nat).
  - intros Hall. exfalso. revert Ed. unfold DecodeLastRune. destruct (reverse (b :: l)) as [|c q] eqn:E.
    { by apply (f_equal length) in E; rewrite length_reverse in E. }
    assert (c = 32) as ->. { rewrite Forall_forall in Hall. apply Hall. rewrite <- elem_of_reverse, E. by left. }
    cbn. intros [= <- _]. done.
Qed.
Lemma TrimSpace_not_blank s :
  TrimSpace s ≠ "" → existsb (λ b, negb (b =? 32)) (bytes (TrimSpace s)) = true.
Proof.
  unfold TrimSpace. set (l := trim_left _ _). intros Hne. apply not_false_iff_true. intros Hex.
  assert (Forall is_byte (trim_right (length l) l)) as Hb.
  { assert (Forall is_byte l) as Hl.
    { unfold l. generalize (length (bytes s)) at 1 as n. intros n. generalize (bytes_range s). generalize (bytes s) as k.
      induction n as [|n IH]; intros k Hk; [done|]. destruct k as [|b k]; [done|]. cbn [trim_left].
      destruct (DecodeRune (b :: k)) as [r w]. destruct (IsSpace r); [|done]. by apply IH, Forall_drop. }
    generalize dependent l. intros l _ _ Hl. generalize (length l) at 1 as n. intros n. revert l Hl.
    induction n as [|n IH]; intros l Hl; [done|]. destruct l as [|b l]; [done|]. cbn [trim_right].
    destruct (DecodeLastRune (b :: l)) as [r w]. destruct (IsSpace r); [|done]. by apply IH, Forall_take. }
  rewrite bytes_of_bytes in Hex by done. apply Hne. rewrite trim_right_not_blank; [done|done|].
  apply Forall_forall. intros b Hin. destruct (Z.eqb_spec b 32) as [|Hb']; [done|]. exfalso.
  assert (existsb (λ b, negb (b =? 32)) (trim_right (length l) l) = true) as Ht; [|congruence].
  apply existsb_elem. exists b. split; [done|]. apply negb_true_iff. by apply Z.eqb_neq.
Qed.
Lemma TrimSpace_plain s : Forall plain (bytes s) → TrimSpace s = s.
Proof.
  intros Hs. unfold TrimSpace.
  assert (trim_left (length (bytes s)) (bytes s) = bytes s) as ->; [|by rewrite trim_right_plain, of_bytes_bytes].
  destruct (bytes s) as [|b l]; [done|]. apply Forall_cons in Hs as [Hb _]. by apply trim_left_plain.
Qed.
