(* ===== verification/GoTime.v ===== *)
(** * Calendar dates and pkg/helper: times in responses

    [time.Time.Format] with the layout [http.TimeFormat], as [FormatTime] of
    pkg/helper and the login handler use it, and a reader of the HTTP date
    format against which it is checked.  Go formats a time in the zone of its
    location; pgx hands out the times of the database in the local zone of
    the process. *)

From S2P Require Import Prelude GoStrings.
Open Scope Z_scope.

(** The local zone: its offset from UTC, in seconds, at a moment. *)
Class Location := { utc_offset : Z → Z }.
Definition UTC : Location := {| utc_offset := λ _, 0 |}.

(** ** The calendar: package time *)

Definition secondsPerDay : Z := 86400.
Definition daysPer400Years : Z := 365 * 400 + 97.
Definition daysPer100Years : Z := 365 * 100 + 24.
Definition daysPer4Years : Z := 365 * 4 + 1.
(** Seconds from the first instant of year 1 to 1970. *)
Definition unixToInternal : Z := 62135596800.

Definition isLeap (year : Z) : bool := (year mod 4 =? 0) && (negb (year mod 100 =? 0) || (year mod 400 =? 0)).
(** The days of a common year before each month. *)
Definition daysBefore : list Z := [0; 31; 59; 90; 120; 151; 181; 212; 243; 273; 304; 334; 365].
Definition days_before (month : Z) : Z := default 0 (daysBefore !! Z.to_nat month).

(** Year and day of the year of day [d], counted from the first of year 1.
    The shifts cut off the leap day at the end of a cycle. *)
Definition year_yday (d : Z) : Z * Z :=
  let n := d / daysPer400Years in
  let y := 400 * n in let d := d - daysPer400Years * n in
  let n := d / daysPer100Years in let n := n - Z.shiftr n 2 in
  let y := y + 100 * n in let d := d - daysPer100Years * n in
  let n := d / daysPer4Years in
  let y := y + 4 * n in let d := d - daysPer4Years * n in
  let n := d / 365 in let n := n - Z.shiftr n 2 in
  (y + n + 1, d - 365 * n).

(** Month, from 0, and day of the month of a day of the year. *)
Definition month_day (leap : bool) (yday : Z) : Z * Z :=
  if leap && (yday =? 31 + 29 - 1) then (1, 29)
  else
    let day := if leap && (31 + 29 - 1 <? yday) then yday - 1 else yday in
    let month := day / 31 in
    let fin := days_before (month + 1) in
    if fin <=? day then (month + 1, day - fin + 1) else (month, day - days_before month + 1).

(** Monday is the first day of year 1. *)
Definition weekday (d : Z) : Z := (d + 1) mod 7.

(** ** Format with http.TimeFormat *)

Definition day_names : list string := ["Sun"; "Mon"; "Tue"; "Wed"; "Thu"; "Fri"; "Sat"].
Definition month_names : list string :=
  ["Jan"; "Feb"; "Mar"; "Apr"; "May"; "Jun"; "Jul"; "Aug"; "Sep"; "Oct"; "Nov"; "Dec"].
Definition name_of (names : list string) (i : Z) : list Z := bytes (default "" (names !! Z.to_nat i)).

(** [appendInt] for the widths that the layout has. *)
Definition appendInt (x width : Z) : list Z :=
  let u := Z.abs x in
  (if x <? 0 then [45] else []) ++
  (if (width =? 2) && (u <? 100) then [48 + u / 10; 48 + u mod 10]
   else if (width =? 4) && (u <? 10000) then
     [48 + u / 1000; 48 + u / 100 mod 10; 48 + u / 10 mod 10; 48 + u mod 10]
   else bytes (Itoa u)).

(** [t.Format(http.TimeFormat)]: Mon, 02 Jan 2006 15:04:05 GMT.  The last
    word is text of the layout, whatever the zone of the time. *)
Definition Format `{Location} (t : Z) : string :=
  let abs := t / Second + utc_offset t + unixToInternal in
  let d := abs / secondsPerDay in
  let s := abs mod secondsPerDay in
  let '(year, yday) := year_yday d in
  let '(month, day) := month_day (isLeap year) yday in
  of_bytes (name_of day_names (weekday d) ++ bytes ", " ++ appendInt day 2 ++ bytes " " ++
            name_of month_names month ++ bytes " " ++ appendInt year 4 ++ bytes " " ++
            appendInt (s / 3600) 2 ++ bytes ":" ++ appendInt (s mod 3600 / 60) 2 ++ bytes ":" ++
            appendInt (s mod 60) 2 ++ bytes " GMT").

(** ** pkg/helper/helper.go *)

(** [pgconv.TimestamptzToTime] *)
Definition TimestamptzToTime (value : option Z) : Z := match value with None => zeroTime | Some t => t end.
Definition FormatTime `{Location} (value : option Z) : string :=
  match value with
  | None => ""
  | Some _ => let t := TimestamptzToTime value in if IsZero t then "" else Format t
  end.

(** ** A reader of HTTP dates *)

Definition digit (b : Z) : option Z := if (48 <=? b) && (b <=? 57) then Some (b - 48) else None.
Definition number (l : list Z) : option Z :=
  foldl (λ acc b, n ← acc; x ← digit b; Some (10 * n + x)) (Some 0) l.
Definition index_of (names : list string) (name : list Z) : option Z :=
  '(i, _) ← list_find (λ n, bytes n = name) names; Some (Z.of_nat i).

(** The days before a year and before a month of it, by the rules of the
    Gregorian calendar. *)
Definition days_before_year (y : Z) : Z := 365 * (y - 1) + (y - 1) / 4 - (y - 1) / 100 + (y - 1) / 400.
Definition month_length (leap : bool) (m : Z) : Z :=
  default 0 ([31; if leap then 29 else 28; 31; 30; 31; 30; 31; 31; 30; 31; 30; 31] !! Z.to_nat m).
Fixpoint days_of_months (leap : bool) (m : nat) : Z :=
  match m with O => 0 | S m => days_of_months leap m + month_length leap (Z.of_nat m) end.
Definition day_number (year month day : Z) : Z :=
  days_before_year year + days_of_months (isLeap year) (Z.to_nat month) + (day - 1).

(** The moment that an HTTP date denotes, in seconds since 1970: the fields
    at their places, within their ranges, with the right day of the week. *)
Definition http_date (s : string) : option Z :=
  let l := bytes s in
  let field i n := take n (drop i l) in
  wd ← index_of day_names (field 0%nat 3%nat);
  day ← number (field 5%nat 2%nat);
  month ← index_of month_names (field 8%nat 3%nat);
  year ← number (field 12%nat 4%nat);
  hour ← number (field 17%nat 2%nat);
  minute ← number (field 20%nat 2%nat);
  sec ← number (field 23%nat 2%nat);
  let d := day_number year month day in
  if bool_decide (length l = 29%nat) &&
     forallb (λ '(i, text), bool_decide (field i (String.length text) = bytes text))
       [(3%nat, ", "); (7%nat, " "); (11%nat, " "); (16%nat, " "); (19%nat, ":"); (22%nat, ":"); (25%nat, " GMT")] &&
     (1 <=? day) && (day <=? month_length (isLeap year) month) && (hour <? 24) && (minute <? 60) && (sec <? 60) &&
     (wd =? weekday d)
  then Some (d * secondsPerDay + hour * 3600 + minute * 60 + sec - unixToInternal)
  else None.

(** ** The calendar functions are inverse *)

(** A cycle of [k] units whose last one is a day longer, cut as Go cuts it. *)
Lemma cycle_cut d c n :
  0 < c → n = d / c → 0 ≤ d ≤ 4 * c →
  0 ≤ n - Z.shiftr n 2 ≤ 3 ∧ 0 ≤ d - c * (n - Z.shiftr n 2) ≤ c ∧
  (d - c * (n - Z.shiftr n 2) = c → d = 4 * c).
Proof.
  intros Hc -> Hd. rewrite Z.shiftr_div_pow2 by lia. change (2 ^ 2) with 4.
  pose proof (Z.div_mod d c ltac:(lia)). pose proof (Z.mod_pos_bound d c ltac:(lia)).
  assert (0 ≤ d / c ≤ 4) as Hn by nia.
  destruct (decide (d / c = 4)) as [E|]; [rewrite E in *; change (4 / 4) with 1; nia|].
  rewrite (Z.div_small (d / c) 4) by lia. nia.
Qed.
Lemma div_unique a b q r : 0 ≤ r < b → a = b * q + r → a / b = q.
Proof. intros. symmetry. apply (Z.div_unique a b q r); lia. Qed.
Lemma mod_unique a b q r : 0 ≤ r < b → a = b * q + r → a mod b = r.
Proof. intros. symmetry. apply (Z.mod_unique a b q r); lia. Qed.

(** Years in their cycles: the days before the year, and whether it is a
    leap year. *)
Lemma cycle_year q c f o :
  0 ≤ c ≤ 3 → 0 ≤ f ≤ 24 → 0 ≤ o ≤ 3 →
  let y := 400 * q + 100 * c + 4 * f + o + 1 in
  days_before_year y = daysPer400Years * q + daysPer100Years * c + daysPer4Years * f + 365 * o ∧
  isLeap y = (o =? 3) && (negb (f =? 24) || (c =? 3)).
Proof.
  intros Hc Hf Ho y. unfold days_before_year, daysPer400Years, daysPer100Years, daysPer4Years.
  replace (y - 1) with (400 * q + 100 * c + 4 * f + o) by (unfold y; lia). split.
  - rewrite (div_unique _ 4 (100 * q + 25 * c + f) o) by lia.
    rewrite (div_unique _ 100 (4 * q + c) (4 * f + o)) by lia.
    rewrite (div_unique _ 400 q (100 * c + 4 * f + o)) by lia. lia.
  - unfold isLeap, y.
    assert ((400 * q + 100 * c + 4 * f + o + 1) mod 4 = (o + 1) mod 4) as -> by
      (apply (mod_unique _ 4 (100 * q + 25 * c + f + (o + 1) / 4)); [|pose proof (Z.div_mod (o + 1) 4)]; [apply Z.mod_pos_bound|]; lia).
    assert ((400 * q + 100 * c + 4 * f + o + 1) mod 100 = (4 * f + o + 1) mod 100) as -> by
      (apply (mod_unique _ 100 (4 * q + c + (4 * f + o + 1) / 100)); [|pose proof (Z.div_mod (4 * f + o + 1) 100)];
          [apply Z.mod_pos_bound|]; lia).
    assert ((400 * q + 100 * c + 4 * f + o + 1) mod 400 = (100 * c + 4 * f + o + 1) mod 400) as -> by
      (apply (mod_unique _ 400 (q + (100 * c + 4 * f + o + 1) / 400)); [|pose proof (Z.div_mod (100 * c + 4 * f + o +
          1) 400)]; [apply Z.mod_pos_bound|]; lia).
    clear y. destruct (Z.eqb_spec o 3) as [->|]; cbn [andb].
    + change ((3 + 1) mod 4 =? 0) with true. cbn [andb]. destruct (Z.eqb_spec f 24) as [->|]; cbn [negb orb].
      * change ((4 * 24 + 3 + 1) mod 100) with 0. cbn [negb orb Z.eqb].
        destruct (Z.eqb_spec c 3) as [->|]; [reflexivity|]. apply Z.eqb_neq. rewrite Z.mod_small; lia.
      * rewrite (Z.mod_small (4 * f + 3 + 1)) by lia. by rewrite (proj2 (Z.eqb_neq _ 0)) by lia.
    + rewrite (Z.mod_small (o + 1)) by lia. by rewrite (proj2 (Z.eqb_neq _ 0)) by lia.
Qed.

Lemma year_yday_spec d :
  let '(year, yday) := year_yday d in
  days_before_year year + yday = d ∧ 0 ≤ yday < (if isLeap year then 366 else 365).
Proof.
  unfold year_yday. set (q := d / daysPer400Years). set (d1 := d - daysPer400Years * q).
  assert (0 ≤ d1 < daysPer400Years) as H1.
  { unfold d1, q. pose proof (Z.div_mod d daysPer400Years). pose proof (Z.mod_pos_bound d daysPer400Years).
    unfold daysPer400Years in *. lia. }
  destruct (cycle_cut d1 daysPer100Years _ ltac:(done) eq_refl) as (Hc & H2 & H2'); [unfold daysPer400Years, daysPer100Years in *; lia|].
  set (c := _ - Z.shiftr (d1 / _) 2) in *. set (d2 := d1 - daysPer100Years * c) in *.
  set (f := d2 / daysPer4Years). set (d3 := d2 - daysPer4Years * f).
  assert (0 ≤ d3 < daysPer4Years ∧ 0 ≤ f ≤ 24) as [H3 Hf].
  { unfold d3, f. pose proof (Z.div_mod d2 daysPer4Years). pose proof (Z.mod_pos_bound d2 daysPer4Years).
    unfold daysPer4Years, daysPer100Years in *. lia. }
  destruct (cycle_cut d3 365 _ ltac:(done) eq_refl) as (Ho & H4 & H4'); [unfold daysPer4Years in *; lia|].
  set (o := _ - Z.shiftr (d3 / _) 2) in *. set (d4 := d3 - 365 * o) in *.
  destruct (cycle_year q c f o Hc Hf Ho) as [Hy Hl]. cbn zeta in Hy, Hl. rewrite Hy, Hl.
  split; [unfold d4, d3, d2, d1; lia|].
  assert (d4 = 365 → o = 3 ∧ (f = 24 → c = 3)) as Hleap.
  { intros E. specialize (H4' E). unfold d4, d3, d2, d1, daysPer400Years, daysPer100Years, daysPer4Years in *. lia. }
  destruct (Z.eqb_spec o 3), (Z.eqb_spec f 24), (Z.eqb_spec c 3); cbn [andb negb orb]; lia.
Qed.

(** A range of integers is checked by evaluation. *)
Lemma check_range (f : Z → bool) (n : nat) :
  forallb (λ i, f (Z.of_nat i)) (seq 0 n) = true → ∀ x, 0 ≤ x < Z.of_nat n → f x = true.
Proof.
  intros Hf x Hx. rewrite forallb_forall in Hf. specialize (Hf (Z.to_nat x)). rewrite Z2Nat.id in Hf by lia.
  apply Hf. apply in_seq. lia.
Qed.

Definition month_day_ok (leap : bool) (yday : Z) : bool :=
  let '(month, day) := month_day leap yday in
  (0 <=? month) && (month <? 12) && (1 <=? day) && (day <=? month_length leap month) && (day <? 100) &&
  (days_of_months leap (Z.to_nat month) + (day - 1) =? yday).
Lemma month_day_spec (leap : bool) yday :
  0 ≤ yday < (if leap then 366 else 365) →
  let '(month, day) := month_day leap yday in
  0 ≤ month < 12 ∧ 1 ≤ day ≤ month_length leap month ∧ day < 100 ∧
  days_of_months leap (Z.to_nat month) + (day - 1) = yday.
Proof.
  intros Hy. assert (month_day_ok leap yday = true) as Hok.
  { destruct leap; [apply (check_range _ 366)|apply (check_range _ 365)]; solve [vm_compute; reflexivity|lia]. }
  revert Hok. unfold month_day_ok. destruct (month_day leap yday) as [month day]. lia.
Qed.

(** The reader understands what is printed. *)
Lemma index_of_name names i :
  NoDup names → 0 ≤ i < Z.of_nat (length names) → index_of names (name_of names i) = Some i.
Proof.
  intros Hnd Hi. destruct (lookup_lt_is_Some_2 names (Z.to_nat i)) as [n Hn]; [lia|].
  unfold index_of, name_of. rewrite Hn. cbn [from_option]. change (id n) with n.
  assert (list_find (λ m, bytes m = bytes n) names = Some (Z.to_nat i, n)) as ->.
  { apply list_find_Some. split_and!; [done|done|]. intros j m Hj Hlt Hm%bytes_inj. subst m.
    pose proof (NoDup_lookup _ _ _ _ Hnd Hn Hj). lia. }
  cbn. f_equal. lia.
Qed.
Lemma number_two x : 0 ≤ x < 100 → number (appendInt x 2) = Some x ∧ length (appendInt x 2) = 2%nat.
Proof.
  intros Hx. pose (f (x : Z) := bool_decide (number (appendInt x 2) = Some x ∧ length (appendInt x 2) = 2%nat)).
  apply (bool_decide_eq_true_1 (number (appendInt x 2) = Some x ∧ length (appendInt x 2) = 2%nat)).
  apply (check_range f 100); [vm_compute; reflexivity|lia].
Qed.
Lemma number_four x : 0 ≤ x < 10000 → number (appendInt x 4) = Some x ∧ length (appendInt x 4) = 4%nat.
Proof.
  intros Hx. pose (f (x : Z) := bool_decide (number (appendInt x 4) = Some x ∧ length (appendInt x 4) = 4%nat)).
  apply (bool_decide_eq_true_1 (number (appendInt x 4) = Some x ∧ length (appendInt x 4) = 4%nat)).
  apply (check_range f (Z.to_nat 10000)); [vm_compute; reflexivity|lia].
Qed.
Lemma day_name_length i : 0 ≤ i < 7 → length (name_of day_names i) = 3%nat.
Proof.
  intros Hi. apply Nat.eqb_eq, (check_range (λ i, Nat.eqb (length (name_of day_names i)) 3) 7); [reflexivity|lia].
Qed.
Lemma month_name_length i : 0 ≤ i < 12 → length (name_of month_names i) = 3%nat.
Proof.
  intros Hi. apply Nat.eqb_eq, (check_range (λ i, Nat.eqb (length (name_of month_names i)) 3) 12); [reflexivity|lia].
Qed.

Lemma name_is_bytes names i : Forall is_byte (name_of names i).
Proof. apply bytes_range. Qed.
Lemma appendInt_is_bytes x w : 0 ≤ x → Forall is_byte (appendInt x w).
Proof.
  intros Hx. unfold appendInt. rewrite (proj2 (Z.ltb_ge _ _)), Z.abs_eq by lia. cbn [app].
  assert (∀ y, is_byte (48 + y mod 10)) as Hd by (intros y; pose proof (Z.mod_pos_bound y 10); unfold is_byte; lia).
  destruct ((w =? 2) && (x <? 100)) eqn:E2.
  { rewrite !Forall_cons. split_and!; [|apply Hd|constructor]. unfold is_byte. pose proof (Z.div_mod x 10). pose proof
      (Z.mod_pos_bound x 10). lia. }
  destruct ((w =? 4) && (x <? 10000)) eqn:E4; [|apply bytes_range].
  rewrite !Forall_cons. split_and!; try apply Hd; [|constructor]. unfold is_byte. pose proof (Z.div_mod x 1000). pose
      proof (Z.mod_pos_bound x 1000). lia.
Qed.

(** A text put together from fields of the right widths is read field by
    field. *)
Lemma http_date_fields wd dy mo yr ho mi se w day month year hour minute sec :
  length wd = 3%nat → length dy = 2%nat → length mo = 3%nat → length yr = 4%nat →
  length ho = 2%nat → length mi = 2%nat → length se = 2%nat →
  Forall (Forall is_byte) [wd; dy; mo; yr; ho; mi; se] →
  index_of day_names wd = Some w → number dy = Some day → index_of month_names mo = Some month →
  number yr = Some year → number ho = Some hour → number mi = Some minute → number se = Some sec →
  1 ≤ day ≤ month_length (isLeap year) month → hour < 24 → minute < 60 → sec < 60 →
  w = weekday (day_number year month day) →
  http_date (of_bytes (wd ++ bytes ", " ++ dy ++ bytes " " ++ mo ++ bytes " " ++ yr ++ bytes " " ++
                       ho ++ bytes ":" ++ mi ++ bytes ":" ++ se ++ bytes " GMT")) =
    Some (day_number year month day * secondsPerDay + hour * 3600 + minute * 60 + sec - unixToInternal).
Proof.
  intros L1 L2 L3 L4 L5 L6 L7 Hb Hw Hday Hmonth Hyear Hhour Hmin Hsec Hd Hh Hm Hs ->.
  unfold http_date. rewrite bytes_of_bytes by
    (rewrite !Forall_cons in Hb; rewrite !Forall_app; destruct Hb as (?&?&?&?&?&?&?&_); split_and!; auto using bytes_range).
  destruct wd as [|? [|? [|? []]]]; try discriminate L1. destruct dy as [|? [|? []]]; try discriminate L2.
  destruct mo as [|? [|? [|? []]]]; try discriminate L3. destruct yr as [|? [|? [|? [|? []]]]]; try discriminate L4.
  destruct ho as [|? [|? []]]; try discriminate L5. destruct mi as [|? [|? []]]; try discriminate L6.
  destruct se as [|? [|? []]]; try discriminate L7.
  set (known := forallb _ _). assert (known = true) as -> by reflexivity.
  cbn [app bytes take drop]. rewrite Hw, Hday, Hmonth, Hyear, Hhour, Hmin, Hsec. cbn [mbind option_bind].
  rewrite bool_decide_eq_true_2 by reflexivity.
  rewrite (proj2 (Z.leb_le 1 day)), (proj2 (Z.leb_le day _)), (proj2 (Z.ltb_lt hour _)), (proj2 (Z.ltb_lt minute _)),
    (proj2 (Z.ltb_lt sec _)), Z.eqb_refl by lia. done.
Qed.

(** The last second of year 9999. *)
Definition maxFormattable : Z := 253402300800.

Lemma day_number_range d year yday :
  year_yday d = (year, yday) → 0 ≤ d < (unixToInternal + maxFormattable) / secondsPerDay → 0 ≤ year < 10000.
Proof.
  intros E Hd. change ((unixToInternal + maxFormattable) / secondsPerDay) with (days_before_year 10000) in Hd.
  pose proof (year_yday_spec d) as Hs. rewrite E in Hs. destruct Hs as [<- Hy]. destruct (isLeap year);
    unfold days_before_year in *; change ((10000 - 1) / 4) with 2499 in *; change ((10000 - 1) / 100) with 99 in *;
    change ((10000 - 1) / 400) with 24 in *;
    pose proof (Z.div_mod (year - 1) 4 ltac:(lia)); pose proof (Z.mod_pos_bound (year - 1) 4 ltac:(lia));
    pose proof (Z.div_mod (year - 1) 100 ltac:(lia)); pose proof (Z.mod_pos_bound (year - 1) 100 ltac:(lia));
    pose proof (Z.div_mod (year - 1) 400 ltac:(lia)); pose proof (Z.mod_pos_bound (year - 1) 400 ltac:(lia)); lia.
Qed.

(** The text of a time, read as an HTTP date, is the second of that time
    shifted by the offset of the local zone. *)
Lemma Format_read `{Location} t :
  let s := t / Second + utc_offset t in
  - unixToInternal ≤ s < maxFormattable → http_date (Format t) = Some s.
Proof.
  intros s Hs. unfold Format. fold s. set (abs := s + unixToInternal). set (d := abs / secondsPerDay).
  set (r := abs mod secondsPerDay).
  assert (0 ≤ abs < unixToInternal + maxFormattable) as Ha by (unfold abs; lia).
  assert (abs = secondsPerDay * d + r ∧ 0 ≤ r < 86400) as [Hdr Hr].
  { split; [by apply Z.div_mod|by apply Z.mod_pos_bound]. }
  assert (0 ≤ d < (unixToInternal + maxFormattable) / secondsPerDay) as Hd.
  { unfold unixToInternal, maxFormattable, secondsPerDay in *.
    change ((62135596800 + 253402300800) / 86400) with 3652059. lia. }
  clearbody d r. pose proof (year_yday_spec d) as Hyd. destruct (year_yday d) as [year yday] eqn:Ey.
  destruct Hyd as [Hday Hy]. pose proof (day_number_range _ _ _ Ey Hd) as Hyr.
  pose proof (month_day_spec _ _ Hy) as Hmd. destruct (month_day (isLeap year) yday) as [month day].
  destruct Hmd as (Hmo & Hdy & Hdy' & Hmd).
  assert (day_number year month day = d) as Hdn by (unfold day_number; lia).
  assert (0 ≤ weekday d < 7) as Hwd by (apply Z.mod_pos_bound; lia).
  assert (0 ≤ r / 3600 < 24 ∧ 0 ≤ r mod 3600 / 60 < 60 ∧ 0 ≤ r mod 60 < 60 ∧
          r = r / 3600 * 3600 + r mod 3600 / 60 * 60 + r mod 60) as (Hh & Hm & Hsec & Hsplit).
  { pose proof (Z.div_mod r 3600). pose proof (Z.mod_pos_bound r 3600). pose proof (Z.div_mod (r mod 3600) 60).
    pose proof (Z.mod_pos_bound (r mod 3600) 60). pose proof (Z.mod_pos_bound r 60).
    assert (r mod 60 = r mod 3600 mod 60) by (symmetry; apply Z.mod_mod_divide; by exists 60). lia. }
  pose proof (number_two day ltac:(lia)) as [Nd Ld]. pose proof (number_four year ltac:(lia)) as [Ny Ly].
  pose proof (number_two _ (conj (proj1 Hh) (Z.lt_trans _ _ 100 (proj2 Hh) eq_refl))) as [Nh Lh].
  pose proof (number_two _ (conj (proj1 Hm) (Z.lt_trans _ _ 100 (proj2 Hm) eq_refl))) as [Nm Lm].
  pose proof (number_two _ (conj (proj1 Hsec) (Z.lt_trans _ _ 100 (proj2 Hsec) eq_refl))) as [Ns Ls].
  rewrite (http_date_fields _ _ _ _ _ _ _ (weekday d) day month year (r / 3600) (r mod 3600 / 60) (r mod 60));
    rewrite ?Hdn; try done; try lia.
  - f_equal. unfold secondsPerDay, abs in *. lia.
  - by apply day_name_length.
  - by apply month_name_length.
  - rewrite !Forall_cons. split_and!; first [apply name_is_bytes|apply appendInt_is_bytes; lia|constructor].
  - apply index_of_name; [|done]. apply (bool_decide_unpack _). by vm_compute.
  - apply index_of_name; [|done]. apply (bool_decide_unpack _). by vm_compute.
Qed.

Lemma Format_nonempty `{Location} t : Format t ≠ "".
Proof.
  unfold Format. destruct (year_yday _) as [year yday]. destruct (month_day _ _) as [month day].
  rewrite !of_bytes_app. intros E%(f_equal String.length). rewrite !str_length_app in E. cbn in E. lia.
Qed.

(** C39: A time in a response reads back.  [FormatTime] gives the empty text
    exactly for a time that is absent or zero; every other time up to the
    year 9999 is shown as an HTTP date, with the right day of the week, that
    denotes the second of this time, shifted by the offset of the zone of the
    process: the time itself in UTC, and in no other zone. *)
Theorem response_times_roundtrip `{Location} value :
  (FormatTime value = "" ↔ value = None ∨ value = Some zeroTime) ∧
  ∀ t, value = Some t → t ≠ zeroTime →
    let s := t / Second + utc_offset t in
    - unixToInternal ≤ s < maxFormattable →
    http_date (FormatTime value) = Some s ∧
    (http_date (FormatTime value) = Some (t / Second) ↔ utc_offset t = 0).
Proof.
  unfold FormatTime, IsZero. split.
  - destruct value as [t|]; cbn [TimestamptzToTime]; [|by split; [left|]].
    destruct (Z.eqb_spec t zeroTime) as [->|Hne]; [by split; [right|]|].
    split; [by intros E%Format_nonempty|intros [?|[= ?]]; done].
  - intros t -> Hne. cbn zeta. intros Hs. cbn [TimestamptzToTime]. rewrite (proj2 (Z.eqb_neq _ _) Hne), Format_read by done.
    split; [done|]. split; [intros [= E]; lia|intros ->]. by rewrite Z.add_0_r.
Qed.
Lemma response_times_roundtrip_witness :
  http_date (@FormatTime UTC (Some (1709251199 * Second))) = Some 1709251199.
Proof.
  destruct (@response_times_roundtrip UTC (Some (1709251199 * Second))) as [_ Hread].
  refine (proj1 (Hread _ eq_refl _ _)); [discriminate|]. vm_compute. split; [discriminate|reflexivity].
Defined.

Example format_reference_time : @Format UTC (1136214245 * Second) = "Mon, 02 Jan 2006 15:04:05 GMT".
Proof. vm_compute. reflexivity. Qed.
Example format_leap_day : @Format UTC (1709251199 * Second) = "Thu, 29 Feb 2024 23:59:59 GMT".
Proof. vm_compute. reflexivity. Qed.
(** East of Greenwich the text names a moment that is yet to come. *)
Example format_in_local_zone :
  @Format {| utc_offset := λ _, 3600 |} (1136214245 * Second) = "Mon, 02 Jan 2006 16:04:05 GMT".
Proof. vm_compute. reflexivity. Qed.
