(* ===== verification/GoCrypto.v ===== *)
(** * SHA-256, as [crypto/sha256] computes it

    The repository hashes VM ids, tokens, one-time codes and snapshot files.
    The hash is executable, so the names and digests that the code derives
    from it can be evaluated. *)

From S2P Require Import Prelude GoStrings.
Open Scope Z_scope.

Definition add32 (x y : Z) : Z := (x + y) mod 2 ^ 32.
Definition rotr (n x : Z) : Z :=
  Z.lor (Z.shiftr x n) (Z.land (Z.shiftl x (32 - n)) (2 ^ 32 - 1)).
Definition not32 (x : Z) : Z := 2 ^ 32 - 1 - x.

(** The constants are the first 32 bits of the fractional parts of the cube
    roots of the first 64 primes, and of the square roots of the first 8. *)
Definition is_prime (n : Z) : bool :=
  forallb (λ d, negb (n mod d =? 0)) (Z.of_nat <$> seq 2 (Z.to_nat n - 2)).
Definition primes_upto (n : nat) : list Z := filter (λ k, is_prime k = true) (Z.of_nat <$> seq 2 (n - 1)).
(** The integer cube root below [2 ^ bits], bit by bit. *)
Fixpoint cube_root (bits : nat) (acc n : Z) : Z :=
  match bits with
  | O => acc
  | S k => let c := acc + 2 ^ Z.of_nat k in cube_root k (if c * c * c <=? n then c else acc) n
  end.
Definition sha_K : list Z :=
  Eval vm_compute in (λ p, cube_root 36 0 (p * 2 ^ 96) mod 2 ^ 32) <$> primes_upto 311.
Definition sha_H0 : list Z :=
  Eval vm_compute in (λ p, Z.sqrt (p * 2 ^ 64) mod 2 ^ 32) <$> primes_upto 19.

Definition be_word (l : list Z) : Z := foldl (λ acc b, acc * 256 + b) 0 l.
Definition be_bytes32 (x : Z) : list Z :=
  [x / 2 ^ 24 mod 256; x / 2 ^ 16 mod 256; x / 2 ^ 8 mod 256; x mod 256].

(** The message schedule, kept most recent word first. *)
Definition schedule_word (w : list Z) : Z :=
  let nth n := nth n w 0 in
  let s0 := let x := nth 14%nat in
            Z.lxor (Z.lxor (rotr 7 x) (rotr 18 x)) (Z.shiftr x 3) in
  let s1 := let x := nth 1%nat in
            Z.lxor (Z.lxor (rotr 17 x) (rotr 19 x)) (Z.shiftr x 10) in
  add32 (add32 (nth 15%nat) s0) (add32 (nth 6%nat) s1).
Fixpoint schedule (n : nat) (w : list Z) : list Z :=
  match n with
  | O => reverse w
  | S n => schedule n (schedule_word w :: w)
  end.

Record sha_vars := ShaVars { va : Z; vb : Z; vc : Z; vd : Z; ve : Z; vf : Z; vg : Z; vh : Z }.
Definition sha_round (v : sha_vars) (kw : Z * Z) : sha_vars :=
  let '(k, w) := kw in
  let S1 := Z.lxor (Z.lxor (rotr 6 (ve v)) (rotr 11 (ve v))) (rotr 25 (ve v)) in
  let ch := Z.lxor (Z.land (ve v) (vf v)) (Z.land (not32 (ve v)) (vg v)) in
  let t1 := add32 (add32 (add32 (vh v) S1) (add32 ch k)) w in
  let S0 := Z.lxor (Z.lxor (rotr 2 (va v)) (rotr 13 (va v))) (rotr 22 (va v)) in
  let maj := Z.lxor (Z.lxor (Z.land (va v) (vb v)) (Z.land (va v) (vc v)))
                    (Z.land (vb v) (vc v)) in
  let t2 := add32 S0 maj in
  ShaVars (add32 t1 t2) (va v) (vb v) (vc v) (add32 (vd v) t1) (ve v) (vf v) (vg v).

Fixpoint chunks (fuel n : nat) (l : list Z) : list (list Z) :=
  match fuel, l with
  | O, _ | _, [] => []
  | S fuel, _ => take n l :: chunks fuel n (drop n l)
  end.

Definition sha_block (h : sha_vars) (block : list Z) : sha_vars :=
  let w := schedule 48 (reverse (be_word <$> chunks 16 4 block)) in
  let v := foldl sha_round h (zip sha_K w) in
  ShaVars (add32 (va h) (va v)) (add32 (vb h) (vb v)) (add32 (vc h) (vc v))
          (add32 (vd h) (vd v)) (add32 (ve h) (ve v)) (add32 (vf h) (vf v))
          (add32 (vg h) (vg v)) (add32 (vh h) (vh v)).

Definition sha_pad (l : list Z) : list Z :=
  let n := length l in
  let zeros := Z.to_nat ((55 - Z.of_nat n) mod 64) in
  l ++ [128] ++ repeat 0 zeros ++
  be_bytes32 (Z.of_nat n * 8 / 2 ^ 32) ++ be_bytes32 (Z.of_nat n * 8 mod 2 ^ 32).

Definition sha_init : sha_vars :=
  match sha_H0 with
  | [a; b; c; d; e; f; g; h] => ShaVars a b c d e f g h
  | _ => ShaVars 0 0 0 0 0 0 0 0
  end.

(** [sha256.Sum256] *)
Definition Sum256 (l : list Z) : list Z :=
  let p := sha_pad l in
  let v := foldl sha_block sha_init (chunks (length p) 64 p) in
  flat_map be_bytes32 [va v; vb v; vc v; vd v; ve v; vf v; vg v; vh v].

Lemma Sum256_length l : length (Sum256 l) = 32%nat.
Proof. done. Qed.

Lemma be_bytes32_range x : Forall is_byte (be_bytes32 x).
Proof. repeat constructor; apply Z.mod_pos_bound; lia. Qed.

Lemma Sum256_range l : Forall is_byte (Sum256 l).
Proof.
  unfold Sum256. cbv zeta.
  generalize (foldl sha_block sha_init (chunks (length (sha_pad l)) 64 (sha_pad l))).
  intros v. cbn [flat_map].
  repeat (apply Forall_app; split; [apply be_bytes32_range|]). constructor.
Qed.

(** [hex.EncodeToString(sha256.Sum256([]byte(s)))] *)
Definition sha256_hex (s : string) : string := hex_encode (Sum256 (bytes s)).

Lemma sha256_hex_length s : String.length (sha256_hex s) = 64%nat.
Proof. unfold sha256_hex. by rewrite hex_encode_length. Qed.

(** The test vectors of FIPS 180-4. *)
Example sha256_abc :
  sha256_hex "abc" = "ba7816bf8f01cfea414140de5dae2223b00361a396177a9cb410ff61f20015ad".
Proof. vm_compute. reflexivity. Qed.
Example sha256_empty :
  sha256_hex "" = "e3b0c44298fc1c149afbf4c8996fb92427ae41e4649b934ca495991b7852b855".
Proof. vm_compute. reflexivity. Qed.
Example sha256_two_blocks :
  sha256_hex "abcdbcdecdefdefgefghfghighijhijkijkljklmklmnlmnomnopnopq"
  = "248d6a61d20638b8e5c026930c3e6039a33ce45964ff2167f6ecedd419db06c1".
Proof. vm_compute. reflexivity. Qed.
