(* ===== verification/GoNet.v ===== *)
(** * The parts of Go's [net] and [net/netip] that the repository uses

    Parsing of IP addresses and CIDR blocks, and the address classes the
    egress policies test.  A [net.IP] is a list of 4 or 16 bytes, [nil] is
    [None]; a [netip.Addr] is [Addr4] or [Addr6]. *)

From S2P Require Import Prelude GoStrings.
Open Scope Z_scope.

Definition is_digit (b : Z) : bool := in_range 48 57 b.
Definition c_dot : Z := 46.
Definition c_colon : Z := 58.
Definition c_percent : Z := 37.
Definition c_slash : Z := 47.

Inductive Addr : Type :=
  | Addr4 (b : list Z)
  | Addr6 (b : list Z) (zone : list Z).

(** [parseIPv4Fields]: the four octets.  [val] and [digLen] are the value and
    the number of digits of the octet being read, [fields] the octets before
    it, latest first. *)
Fixpoint parse_v4 (l : list Z) (val : Z) (digLen : nat) (fields : list Z) : option (list Z) :=
  match l with
  | [] => if (length fields =? 3)%nat then Some (reverse (val :: fields)) else None
  | b :: l =>
      if is_digit b then
        if (digLen =? 1)%nat && (val =? 0) then None
        else
          let val := val * 10 + (b - 48) in
          if 255 <? val then None else parse_v4 l val (S digLen) fields
      else if b =? c_dot then
        if (digLen =? 0)%nat || match l with [] => true | _ => false end then None
        else if (length fields =? 3)%nat then None
        else parse_v4 l 0 0 (val :: fields)
      else None
  end.
Definition parseIPv4Fields (l : list Z) : option (list Z) := parse_v4 l 0 0 [].

(** The leading hexadecimal digits of [l], their number and value. *)
Fixpoint hex_group (l : list Z) (n : nat) (acc : Z) : nat * Z * list Z :=
  match l with
  | [] => (n, acc, [])
  | b :: l' =>
      match hex_value b with
      | Some d => hex_group l' (S n) (acc * 16 + d)
      | None => (n, acc, l)
      end
  end.

(** The loop of [parseIPv6]: [pre] are the bytes written so far, [ell] the
    position of the ellipsis.  [Some (rest, pre, ell)] when the loop ends. *)
Fixpoint v6_loop (fuel : nat) (s pre : list Z) (ell : option nat)
  : option (list Z * list Z * option nat) :=
  match fuel with
  | O => Some (s, pre, ell)
  | S fuel =>
      let '(off, acc, rest) := hex_group s 0 0 in
      if (off =? 0)%nat || (4 <? off)%nat then None
      else
        match rest with
        | b :: _ =>
            if b =? c_dot then
              if (match ell with None => negb (length pre =? 12)%nat | Some _ => false end)
                 || (16 <? length pre + 4)%nat then None
              else
                match parseIPv4Fields s with
                | Some v4 => Some ([], pre ++ v4, ell)
                | None => None
                end
            else
              let pre := pre ++ [acc / 256; acc mod 256] in
              if b =? c_colon then
                match rest with
                | _ :: c :: rest'' =>
                    if c =? c_colon then
                      match ell with
                      | Some _ => None
                      | None =>
                          match rest'' with
                          | [] => Some ([], pre, Some (length pre))
                          | _ => v6_loop fuel rest'' pre (Some (length pre))
                          end
                      end
                    else v6_loop fuel (c :: rest'') pre ell
                | _ => None
                end
              else None
        | [] => Some ([], pre ++ [acc / 256; acc mod 256], ell)
        end
  end.

Definition v6_finish (s pre : list Z) (ell : option nat) : option (list Z) :=
  match s with
  | _ :: _ => None
  | [] =>
      if (length pre <? 16)%nat then
        match ell with
        | None => None
        | Some e => Some (take e pre ++ repeat 0 (16 - length pre) ++ drop e pre)
        end
      else match ell with Some _ => None | None => Some pre end
  end.

(** The position of the first [c] splits [l]. *)
Fixpoint cut (c : Z) (l : list Z) : option (list Z * list Z) :=
  match l with
  | [] => None
  | b :: l => if b =? c then Some ([], l)
              else match cut c l with
                   | Some (x, y) => Some (b :: x, y)
                   | None => None
                   end
  end.

Definition parseIPv6 (l : list Z) : option Addr :=
  match (match cut c_percent l with
         | None => Some (l, [])
         | Some (s, zone) => match zone with [] => None | _ => Some (s, zone) end
         end) with
  | None => None
  | Some (s, zone) =>
      match (match s with
             | a :: b :: s' =>
                 if (a =? c_colon) && (b =? c_colon) then
                   match s' with
                   | [] => Some (repeat 0 16)
                   | _ => '(r, pre, ell) ← v6_loop 8 s' [] (Some 0%nat); v6_finish r pre ell
                   end
                 else '(r, pre, ell) ← v6_loop 8 s [] None; v6_finish r pre ell
             | _ => '(r, pre, ell) ← v6_loop 8 s [] None; v6_finish r pre ell
             end) with
      | Some ip => Some (Addr6 ip zone)
      | None => None
      end
  end.

(** [netip.ParseAddr]: the first of [.], [:] and [%] decides the family. *)
Fixpoint addr_family (l : list Z) : option Z :=
  match l with
  | [] => None
  | b :: l => if (b =? c_dot) || (b =? c_colon) || (b =? c_percent) then Some b
              else addr_family l
  end.
Definition ParseAddr_bytes (l : list Z) : option Addr :=
  match addr_family l with
  | Some b => if b =? c_dot then Addr4 <$> parseIPv4Fields l
              else if b =? c_colon then parseIPv6 l
              else None
  | None => None
  end.
Definition ParseAddr (s : string) : option Addr := ParseAddr_bytes (bytes s).

Definition As16 (a : Addr) : list Z :=
  match a with
  | Addr4 b => repeat 0 10 ++ [255; 255] ++ b
  | Addr6 b _ => b
  end.
Definition BitLen (a : Addr) : Z := match a with Addr4 _ => 32 | Addr6 _ _ => 128 end.
Definition zone_of (a : Addr) : list Z := match a with Addr4 _ => [] | Addr6 _ z => z end.

(** [net.ParseIP] *)
Definition ParseIP (s : string) : option (list Z) :=
  match ParseAddr s with
  | Some a => match zone_of a with [] => Some (As16 a) | _ => None end
  | None => None
  end.

(** [IP.To4] *)
Definition To4 (ip : list Z) : option (list Z) :=
  if (length ip =? 4)%nat then Some ip
  else if (length ip =? 16)%nat && bool_decide (take 12 ip = repeat 0 10 ++ [255; 255])
  then Some (drop 12 ip)
  else None.

(** [IP.Equal]: an IPv4 address and its IPv6-mapped form are equal. *)
Definition IP_Equal (x y : list Z) : bool :=
  match To4 x, To4 y with
  | Some a, Some b => bool_decide (a = b)
  | _, _ => bool_decide (x = y)
  end.

(** [dtoi]: the leading decimal digits, [None] when there is none or the
    value reaches 0xFFFFFF. *)
Fixpoint dtoi_loop (l : list Z) (n : Z) (i : nat) : option (Z * nat * list Z) :=
  match l with
  | b :: l' =>
      if is_digit b then
        let n := n * 10 + (b - 48) in
        if 16777215 <=? n then None else dtoi_loop l' n (S i)
      else if (i =? 0)%nat then None else Some (n, i, l)
  | [] => if (i =? 0)%nat then None else Some (n, i, [])
  end.

(** [CIDRMask(ones, 8*n)] on [n] bytes and [IP.Mask]. *)
Definition mask_byte (k : Z) : Z :=
  if 8 <=? k then 255 else if k <=? 0 then 0 else 256 - 2 ^ (8 - k).
Definition CIDRMask (ones : Z) (n : nat) : list Z :=
  (λ i, mask_byte (ones - 8 * Z.of_nat i)) <$> seq 0 n.
Definition mask_ip (ip mask : list Z) : list Z := zip_with Z.land ip mask.

Record IPNet := { net_ip : list Z; net_mask : list Z }.

(** [IPNet.Contains] *)
Definition Contains_ip (n : IPNet) (ip : list Z) : bool :=
  let x := default ip (To4 ip) in
  let nn := default (net_ip n) (To4 (net_ip n)) in
  if negb (length x =? length nn)%nat then false
  else if negb (length nn =? length (net_mask n))%nat then false
  else bool_decide (zip_with Z.land nn (net_mask n) = zip_with Z.land x (net_mask n)).

(** [net.ParseCIDR]: the address (16 bytes) and the network. *)
Definition ParseCIDR (s : string) : option (list Z * IPNet) :=
  match cut c_slash (bytes s) with
  | None => None
  | Some (addr, mask) =>
      match ParseAddr_bytes addr with
      | None => None
      | Some a =>
          match zone_of a, dtoi_loop mask 0 0 with
          | [], Some (n, _, []) =>
              if BitLen a <? n then None
              else
                let m := CIDRMask n (Z.to_nat (BitLen a / 8)) in
                let ip4 := match a with Addr4 b => b | Addr6 b _ => b end in
                Some (As16 a, {| net_ip := mask_ip ip4 m; net_mask := m |})
          | _, _ => None
          end
      end
  end.

(** ** Address classes of [netip.Addr] *)

Definition Unmap (a : Addr) : Addr :=
  match a with
  | Addr6 b _ =>
      if bool_decide (take 12 b = repeat 0 10 ++ [255; 255]) then Addr4 (drop 12 b) else a
  | _ => a
  end.
Definition byte_n (n : nat) (a : Addr) : Z :=
  nth n (match a with Addr4 b => b | Addr6 b _ => b end) 0.
Definition Is4 (a : Addr) : bool := match a with Addr4 _ => true | _ => false end.
Definition all_zero (l : list Z) : bool := forallb (Z.eqb 0) l.

Definition IsUnspecified (a : Addr) : bool :=
  match a with
  | Addr4 b => all_zero b
  | Addr6 b z => all_zero b && match z with [] => true | _ => false end
  end.
Definition IsLoopback (a : Addr) : bool :=
  match Unmap a with
  | Addr4 _ as a => byte_n 0 a =? 127
  | Addr6 b _ => bool_decide (b = repeat 0 15 ++ [1])
  end.
Definition IsMulticast (a : Addr) : bool :=
  match Unmap a with
  | Addr4 _ as a => Z.land (byte_n 0 a) 240 =? 224
  | Addr6 _ _ as a => byte_n 0 a =? 255
  end.
Definition IsLinkLocalUnicast (a : Addr) : bool :=
  match Unmap a with
  | Addr4 _ as a => (byte_n 0 a =? 169) && (byte_n 1 a =? 254)
  | Addr6 _ _ as a => (byte_n 0 a =? 254) && (Z.land (byte_n 1 a) 192 =? 128)
  end.
Definition IsPrivate (a : Addr) : bool :=
  match Unmap a with
  | Addr4 _ as a =>
      (byte_n 0 a =? 10)
      || ((byte_n 0 a =? 172) && (Z.land (byte_n 1 a) 240 =? 16))
      || ((byte_n 0 a =? 192) && (byte_n 1 a =? 168))
  | Addr6 _ _ as a => Z.land (byte_n 0 a) 254 =? 252
  end.
Definition IsGlobalUnicast (a : Addr) : bool :=
  let a := Unmap a in
  if match a with
     | Addr4 b => all_zero b || bool_decide (b = [255; 255; 255; 255])
     | _ => false
     end then false
  else negb (IsUnspecified a) && negb (IsLoopback a) && negb (IsMulticast a)
       && negb (IsLinkLocalUnicast a).

(** [netip.ParseAddr(ip.String())] of a [net.IP] of 4 or 16 bytes: the text
    form of an IPv4-mapped address is the dotted IPv4 form. *)
Definition AddrOfIP (ip : list Z) : Addr :=
  match To4 ip with
  | Some b => Addr4 b
  | None => Addr6 ip []
  end.

(** [Addr.String]: the dotted form; groups of an IPv6 address in hexadecimal
    without leading zeros, the longest run of at least two zero groups
    written as the ellipsis, the first one of several. *)
Definition dotted (b : list Z) : string := Join_str (Itoa <$> b) ".".
Definition v6_groups (b : list Z) : list Z :=
  (λ i, 256 * nth (2 * i) b 0 + nth (2 * i + 1) b 0) <$> seq 0 8.
Fixpoint zero_run (l : list Z) : nat :=
  match l with x :: l => if x =? 0 then S (zero_run l) else O | [] => O end.
Definition longest_zeros (g : list Z) : option (nat * nat) :=
  foldl (λ best i, let n := zero_run (drop i g) in
                   if (2 <=? n)%nat && (match best with Some (_, m) => m | None => O end <? n)%nat
                   then Some (i, n) else best) None (seq 0 8).
(** [appendHex] *)
Definition hex_group_text (x : Z) : string :=
  let ds := [x / 4096; x / 256 mod 16; x / 16 mod 16; x mod 16] in
  of_bytes (hex_digit <$> drop (Nat.min 3 (zero_run ds)) ds).
Definition v6_text (b : list Z) : string :=
  let g := hex_group_text <$> v6_groups b in
  match longest_zeros (v6_groups b) with
  | None => Join_str g ":"
  | Some (i, n) => Join_str (take i g) ":" +:+ "::" +:+ Join_str (drop (i + n) g) ":"
  end.
Definition Addr_String (a : Addr) : string :=
  match a with
  | Addr4 b => dotted b
  | Addr6 b zone =>
      (if bool_decide (take 12 b = repeat 0 10 ++ [255; 255]) then "::ffff:" +:+ dotted (drop 12 b) else v6_text b)
        +:+ match zone with [] => "" | _ => "%" +:+ of_bytes zone end
  end.

(** ** Facts *)

Lemma parse_v4_length l val d fields r :
  parse_v4 l val d fields = Some r → length r = 4%nat.
Proof.
  revert val d fields. induction l as [|b l IH]; intros val d fields; simpl.
  - destruct (Nat.eqb_spec (length fields) 3); [|done].
    intros [= <-]. rewrite length_reverse. simpl. lia.
  - repeat case_match; try done; eauto.
Qed.

Lemma To4_As16_v4 b : length b = 4%nat → To4 (As16 (Addr4 b)) = Some b.
Proof.
  intros Hb. destruct b as [|b0 [|b1 [|b2 [|b3 [|]]]]]; try done.
Qed.

Example parse_v4_ex : ParseAddr "192.168.0.1" = Some (Addr4 [192; 168; 0; 1]).
Proof. reflexivity. Qed.
Example parse_v4_leading_zero : ParseAddr "192.168.00.1" = None.
Proof. reflexivity. Qed.
Example parse_v4_short : ParseAddr "1.2.3" = None.
Proof. reflexivity. Qed.
Example parse_v6_ex :
  ParseAddr "fe80::1:2" = Some (Addr6 (254 :: 128 :: repeat 0 11 ++ [1; 0; 2]) []).
Proof. reflexivity. Qed.
Example parse_v6_mapped : ParseIP "::ffff:10.0.0.1" = ParseIP "10.0.0.1".
Proof. reflexivity. Qed.
Example parse_v6_zone : ParseIP "fe80::1%eth0" = None.
Proof. reflexivity. Qed.
Example parse_v6_full : is_Some (ParseAddr "2001:4860:4860:0:0:0:0:8888").
Proof. eexists. reflexivity. Qed.
Example parse_v6_two_ellipses : ParseAddr "1::2::3" = None.
Proof. reflexivity. Qed.
Example parse_cidr_ex :
  ParseCIDR "172.16.7.2/24" =
  Some (As16 (Addr4 [172; 16; 7; 2]),
        {| net_ip := [172; 16; 7; 0]; net_mask := [255; 255; 255; 0] |}).
Proof. reflexivity. Qed.

Example addr_string_v4 : Addr_String (Addr4 [192; 168; 0; 1]) = "192.168.0.1".
Proof. vm_compute. reflexivity. Qed.
Example addr_string_v6 :
  Addr_String <$> [Addr6 (254 :: 128 :: repeat 0 11 ++ [1; 0; 2]) []; Addr6 (repeat 0 15 ++ [1]) [];
                   Addr6 (repeat 0 10 ++ [255; 255; 10; 0; 0; 1]) []; Addr6 (254 :: 128 :: repeat 0 13 ++ [1]) (bytes "eth0")]
  = ["fe80::1:2"; "::1"; "::ffff:10.0.0.1"; "fe80::1%eth0"].
Proof. vm_compute. reflexivity. Qed.
