(* ===== verification/AppErrors.v ===== *)
(** * pkg/errors, pkg/httputil: application errors and HTTP responses

    And the relational conventions that the repositories share: an id that
    is not there, a constraint that does not hold. *)

From S2P Require Import Prelude GoStrings.
Open Scope Z_scope.

Definition StatusOK : Z := 200.
Definition StatusCreated : Z := 201.
Definition StatusAccepted : Z := 202.

Definition NewBadRequest (message : string) : error := App 400 "BAD_REQUEST" message [].
Definition NewUnauthorized (message : string) : error := App 401 "UNAUTHORIZED" message [].
Definition NewForbidden (message : string) : error := App 403 "FORBIDDEN" message [].
Definition NewNotFound (message : string) : error := App 404 "NOT_FOUND" message [].
Definition NewConflict (message : string) : error := App 409 "CONFLICT" message [].
Definition NewPaymentRequired (message : string) : error := App 402 "PAYMENT_REQUIRED" message [].
Definition NewPayloadTooLarge (message : string) : error := App 413 "PAYLOAD_TOO_LARGE" message [].
Definition NewStepUpRequired (message : string) : error := App 403 "STEP_UP_REQUIRED" message [].
Definition NewNotImplemented (message : string) : error := App 501 "NOT_IMPLEMENTED" message [].
Definition NewTooManyRequests (message : string) : error := App 429 "TOO_MANY_REQUESTS" message [].
Definition NewInternal (message : string) (err : option error) : error :=
  App 500 "INTERNAL_ERROR" message (option_list err).
Definition NewServiceUnavailable (message : string) (err : option error) : error :=
  App 503 "SERVICE_UNAVAILABLE" message (option_list err).

(** [errors.AsType[*AppError]]: the first application error of the tree. *)
Fixpoint as_app_error (e : error) : option (Z * string * string) :=
  match e with
  | App status code message _ => Some (status, code, message)
  | Errorf _ es | Joined es =>
      (fix go (l : list error) : option (Z * string * string) :=
         match l with
         | [] => None
         | e :: l => match as_app_error e with Some x => Some x | None => go l end
         end) es
  | _ => None
  end.

(** The JSON envelope: status, success, data, code and message. *)
Record Response (A : Type) := mkResponse {
  resp_status : Z; resp_success : bool; resp_data : option A; resp_error : option (string * string);
}.
Arguments mkResponse {A} _ _ _ _.
Arguments resp_status {A} _.
Arguments resp_success {A} _.
Arguments resp_data {A} _.
Arguments resp_error {A} _.

Definition httputil_OK {A} (data : A) : Response A := mkResponse StatusOK true (Some data) None.
Definition httputil_Created {A} (data : A) : Response A := mkResponse StatusCreated true (Some data) None.
Definition httputil_Accepted {A} (data : A) : Response A := mkResponse StatusAccepted true (Some data) None.

Definition error_object (e : error) : string * string :=
  match as_app_error e with
  | Some (_, code, message) => (code, message)
  | None => ("INTERNAL_ERROR", "An unexpected error occurred")
  end.
Definition httputil_Partial {A} (status : Z) (data : A) (e : error) : Response A :=
  mkResponse status false (Some data) (Some (error_object e)).
Definition httputil_Error {A} (e : error) : Response A :=
  mkResponse (match as_app_error e with Some (s, _, _) => s | None => 500 end) false None
    (Some (error_object e)).

(** ** The database *)

Definition ErrNoRows : error := Sentinel "no rows in result set".
(** A statement refused by a constraint of the schema. *)
Definition constraint_violation (name : string) : error := Errorf name [].
