(* ===== verification/Network.v ===== *)
(** * core/network: guest network configuration and firewall policy

    [config.go], [policy.go] and [nftables.go].  The input of [nft -f -] is
    kept as a batch of typed commands; [nft_text] prints a batch, and
    [nftVMElements], the text that the code writes, is proved to be the
    printed form.  The base ruleset is translated rule by rule into
    [forward_verdict]. *)

From Stdlib Require Import Ascii.
From S2P Require Import Prelude GoStrings GoNet.
Open Scope Z_scope.

Record Config := mkConfig {
  TapName : string;
  HostIP : string;
  GuestIP : string;
  AllowedPorts : list Z;
  UplinkInterface : string;
}.

Definition DefaultConfig (tapName : string) : Config :=
  {| TapName := tapName; HostIP := "172.16.0.1"; GuestIP := "172.16.0.2/24";
     AllowedPorts := [443; 80; 53]; UplinkInterface := "eth0" |}.

Definition port_ok (port : Z) : bool := negb ((port <? 1) || (65535 <? port)).

Definition Validate (n : Config) : result unit :=
  if bool_decide (TapName n = "") then Err (Errorf "tap name is required" [])
  else if bool_decide (UplinkInterface n = "") then
    Err (Errorf "uplink interface is required" [])
  else
    match ParseIP (HostIP n) with
    | None => Err (Errorf "invalid host IP %q" [])
    | Some hostIP =>
        match To4 hostIP with
        | None => Err (Errorf "IPv6 host IP %q is unsupported" [])
        | Some _ =>
            match ParseCIDR (GuestIP n) with
            | None => Err (Errorf "invalid guest IP/CIDR %q: %w" [])
            | Some (guestIP, guestNet) =>
                match To4 guestIP with
                | None => Err (Errorf "IPv6 guest IP %q is unsupported" [])
                | Some _ =>
                    if negb (Contains_ip guestNet guestIP) then
                      Err (Errorf "guest IP %q is not valid for network %q" [])
                    else if negb (Contains_ip guestNet hostIP) then
                      Err (Errorf "host IP %q is not in guest network %q" [])
                    else if negb (forallb port_ok (AllowedPorts n)) then
                      Err (Errorf "invalid allowed port %d" [])
                    else Ok tt
                end
            end
        end
    end.

(** [AllowsTCPDestination]: the documented firewall contract. *)
Definition AllowsTCPDestination (c : Config) (destination : option (list Z)) (port : Z) : bool :=
  match ParseIP (HostIP c), destination with
  | Some gateway, Some destination =>
      if negb (IP_Equal gateway destination) then false
      else existsb (λ allowed, allowed =? port) (AllowedPorts c)
  | _, _ => false
  end.

(** ** nftables *)

Definition HostProxyPort : Z := 8080.
Definition CloudMetadataIP : list Z := [169; 254; 169; 254].

(** [tapNameExpr], [^[[:alnum:]_-]{1,15}$]. *)
Definition tap_char (b : Z) : bool :=
  in_range 48 57 b || in_range 65 90 b || in_range 97 122 b || (b =? 95) || (b =? 45).
Definition tapNameExpr (s : string) : bool :=
  (1 <=? len s) && (len s <=? 15) && forallb tap_char (bytes s).

Definition validateNftConfig (cfg : Config) : result unit :=
  match Validate cfg with
  | Err e => Err e
  | Ok _ =>
      if negb (tapNameExpr (TapName cfg)) then
        Err (Errorf "invalid tap name %q for nftables" [])
      else
        match (ip ← ParseIP (HostIP cfg); To4 ip) with
        | None => Err (Errorf "IPv4 host gateway is required" [])
        | Some _ => Ok tt
        end
  end.

Inductive Action := act_add | act_delete.
Definition action_text (a : Action) : string :=
  match a with act_add => "add" | act_delete => "delete" end.

(** The elements of the three shared sets. *)
Inductive Element :=
  | guest_taps (tap : string)
  | guest_tcp_allow (tap host : string) (port : Z)
  | guest_udp_allow (tap host : string) (port : Z).

Definition Command : Type := Action * Element.

Inductive Batch :=
  | BaseRuleset
  | Elements (cmds : list Command).

Definition nl : string := String (ascii_of 10) "".

Definition element_text (a : string) (e : Element) : string :=
  a +:+ " element inet shiyao " +:+
  match e with
  | guest_taps tap => "guest_taps { " +:+ tap +:+ " }"
  | guest_tcp_allow tap host port =>
      "guest_tcp_allow { " +:+ tap +:+ " . " +:+ host +:+ " . " +:+ Itoa port +:+ " }"
  | guest_udp_allow tap host port =>
      "guest_udp_allow { " +:+ tap +:+ " . " +:+ host +:+ " . " +:+ Itoa port +:+ " }"
  end +:+ nl.

Definition nftBaseRuleset : string :=
"add table inet shiyao
add set inet shiyao guest_taps { type ifname; }
add set inet shiyao guest_tcp_allow { type ifname . ipv4_addr . inet_service; }
add set inet shiyao guest_udp_allow { type ifname . ipv4_addr . inet_service; }
add chain inet shiyao forward { type filter hook forward priority filter; policy accept; }
add rule inet shiyao forward iifname @guest_taps ip daddr 169.254.169.254 drop
add rule inet shiyao forward iifname @guest_taps ct state established,related accept
add rule inet shiyao forward iifname . ip daddr . tcp dport @guest_tcp_allow accept
add rule inet shiyao forward iifname . ip daddr . udp dport @guest_udp_allow accept
add rule inet shiyao forward iifname @guest_taps drop
add rule inet shiyao forward oifname @guest_taps ct state established,related accept
".

(** The text that [nft] reads for a batch. *)
Definition nft_text (b : Batch) : string :=
  match b with
  | BaseRuleset => nftBaseRuleset
  | Elements cmds =>
      foldr (λ '(a, e) acc, element_text (action_text a) e +:+ acc) "" cmds
  end.

(** [nftVMElements], as the code prints it. *)
Definition nftVMElements (action : string) (cfg : Config) : string :=
  action +:+ " element inet shiyao guest_taps { " +:+ TapName cfg +:+ " }" +:+ nl +:+
  action +:+ " element inet shiyao guest_udp_allow { " +:+ TapName cfg +:+ " . "
         +:+ HostIP cfg +:+ " . 53 }" +:+ nl +:+
  action +:+ " element inet shiyao guest_tcp_allow { " +:+ TapName cfg +:+ " . "
         +:+ HostIP cfg +:+ " . " +:+ Itoa HostProxyPort +:+ " }" +:+ nl +:+
  foldr (λ port acc,
    if bool_decide (port ≠ HostProxyPort) then
      action +:+ " element inet shiyao guest_tcp_allow { " +:+ TapName cfg +:+ " . "
             +:+ HostIP cfg +:+ " . " +:+ Itoa port +:+ " }" +:+ nl +:+ acc
    else acc) "" (AllowedPorts cfg).

(** The same batch as typed commands. *)
Definition vm_elements (cfg : Config) : list Element :=
  guest_taps (TapName cfg)
  :: guest_udp_allow (TapName cfg) (HostIP cfg) 53
  :: guest_tcp_allow (TapName cfg) (HostIP cfg) HostProxyPort
  :: (guest_tcp_allow (TapName cfg) (HostIP cfg)
      <$> filter (λ port, port ≠ HostProxyPort) (AllowedPorts cfg)).
Definition nftAddVM (cfg : Config) : Batch := Elements (pair act_add <$> vm_elements cfg).
Definition nftDeleteVM (cfg : Config) : Batch := Elements (pair act_delete <$> vm_elements cfg).

(** ** The rules

    The sets of the table [inet shiyao], addresses as four bytes. *)
#[global] Instance Element_eq_dec : EqDecision Element.
Proof. solve_decision. Defined.
#[global] Instance Action_eq_dec : EqDecision Action.
Proof. solve_decision. Defined.

(** The elements present in the sets, as they were written. *)
Notation NftSets := (list Element).

Inductive Proto := tcp | udp | other_proto.
#[global] Instance Proto_eq_dec : EqDecision Proto.
Proof. solve_decision. Defined.
Record Packet := {
  iifname : string; oifname : string; daddr : list Z;
  proto : Proto; dport : Z; established_or_related : bool }.
Inductive Verdict := v_accept | v_drop.

(** An [ipv4_addr] element written in dotted form stands for its bytes. *)
Definition addr_matches (host : string) (a : list Z) : bool :=
  bool_decide (parseIPv4Fields (bytes host) = Some a).

Definition in_guest_taps (s : NftSets) (tap : string) : bool :=
  existsb (λ e, match e with guest_taps t => bool_decide (t = tap) | _ => false end) s.
Definition in_tcp_allow (s : NftSets) (tap : string) (a : list Z) (port : Z) : bool :=
  existsb (λ e, match e with
                | guest_tcp_allow t h p => bool_decide (t = tap) && addr_matches h a && (p =? port)
                | _ => false end) s.
Definition in_udp_allow (s : NftSets) (tap : string) (a : list Z) (port : Z) : bool :=
  existsb (λ e, match e with
                | guest_udp_allow t h p => bool_decide (t = tap) && addr_matches h a && (p =? port)
                | _ => false end) s.

(** The chain [forward]: the first rule with a verdict decides, the chain's
    policy is accept. *)
Definition forward_verdict (s : NftSets) (p : Packet) : Verdict :=
  if in_guest_taps s (iifname p) && bool_decide (daddr p = CloudMetadataIP) then v_drop
  else if in_guest_taps s (iifname p) && established_or_related p then v_accept
  else if bool_decide (proto p = tcp) && in_tcp_allow s (iifname p) (daddr p) (dport p) then v_accept
  else if bool_decide (proto p = udp) && in_udp_allow s (iifname p) (daddr p) (dport p) then v_accept
  else if in_guest_taps s (iifname p) then v_drop
  else if in_guest_taps s (oifname p) && established_or_related p then v_accept
  else v_accept.

(** [nft] applies a batch as one transaction: adding a present element is a
    no-op, deleting an absent one fails the whole batch. *)
Definition apply_cmd (c : Command) (s : NftSets) : option NftSets :=
  match c with
  | (act_add, e) => if bool_decide (e ∈ s) then Some s else Some (e :: s)
  | (act_delete, e) => if bool_decide (e ∈ s) then Some (filter (λ x, x ≠ e) s)
                   else None
  end.
Fixpoint apply_cmds (cs : list Command) (s : NftSets) : option NftSets :=
  match cs with
  | [] => Some s
  | c :: cs => match apply_cmd c s with Some s' => apply_cmds cs s' | None => None end
  end.

(** ** Theorems *)

(** An element that concerns the TAP interface [tap]. *)
Definition element_tap (e : Element) : string :=
  match e with guest_taps t | guest_tcp_allow t _ _ | guest_udp_allow t _ _ => t end.
Definition tap_fresh (tap : string) (s : NftSets) : Prop :=
  Forall (λ e, element_tap e ≠ tap) s.

Lemma string_app_assoc (a b c : string) : (a +:+ b) +:+ c = a +:+ (b +:+ c).
Proof. apply bytes_inj. by rewrite !bytes_app, app_assoc. Qed.
#[export] Hint Rewrite string_app_assoc : go_simpl.

Section Text.
Variable a : Action.
Variable cfg : Config.

Lemma ports_text :
  nft_text (Elements (pair a <$> (guest_tcp_allow (TapName cfg) (HostIP cfg)
    <$> filter (λ port, port ≠ HostProxyPort) (AllowedPorts cfg))))
  = foldr (λ port acc,
      if bool_decide (port ≠ HostProxyPort) then
        action_text a +:+ " element inet shiyao guest_tcp_allow { " +:+ TapName cfg +:+ " . "
               +:+ HostIP cfg +:+ " . " +:+ Itoa port +:+ " }" +:+ nl +:+ acc
      else acc) "" (AllowedPorts cfg).
Proof.
  induction (AllowedPorts cfg) as [|port ports IH]; [done|].
  rewrite filter_cons. cbn [foldr].
  destruct (decide (port ≠ HostProxyPort)) as [Hp|Hp].
  - rewrite bool_decide_eq_true_2 by done.
    cbn [nft_text fmap list_fmap foldr] in *. rewrite IH. unfold element_text.
    by rewrite !string_app_assoc.
  - by rewrite bool_decide_eq_false_2.
Qed.

Lemma vm_elements_text :
  nft_text (Elements (pair a <$> vm_elements cfg)) = nftVMElements (action_text a) cfg.
Proof.
  unfold vm_elements, nftVMElements. rewrite <- ports_text.
  cbn [nft_text fmap list_fmap foldr]. unfold element_text.
  by rewrite !string_app_assoc.
Qed.
End Text.

(** Adding elements only ever puts new ones in front. *)
Lemma apply_add_mem es s s' :
  apply_cmds (pair act_add <$> es) s = Some s' → ∀ e, e ∈ s' ↔ e ∈ es ∨ e ∈ s.
Proof.
  revert s. induction es as [|x es IH]; intros s; cbn.
  - intros [= <-] e. set_solver.
  - case_bool_decide as Hx; intros H e; rewrite (IH _ H e); set_solver.
Qed.

Lemma apply_add_total es s : ∃ s', apply_cmds (pair act_add <$> es) s = Some s'.
Proof.
  revert s. induction es as [|x es IH]; intros s; cbn; [by eexists|].
  case_bool_decide; apply IH.
Qed.

Lemma in_tcp_allow_spec s tap a port :
  in_tcp_allow s tap a port = true ↔
  ∃ h, guest_tcp_allow tap h port ∈ s ∧ parseIPv4Fields (bytes h) = Some a.
Proof.
  unfold in_tcp_allow, addr_matches. rewrite existsb_elem. split.
  - intros (e & He & Hm). destruct e as [|t h p|]; try done.
    apply andb_true_iff in Hm as [[Ht%bool_decide_eq_true Ha%bool_decide_eq_true]%andb_true_iff ->%Z.eqb_eq].
    subst. eauto.
  - intros (h & Hh & Ha). eexists. split; [exact Hh|].
    cbn. by rewrite (bool_decide_eq_true_2 (tap = tap)), bool_decide_eq_true_2, Z.eqb_refl.
Qed.

Lemma in_udp_allow_spec s tap a port :
  in_udp_allow s tap a port = true ↔
  ∃ h, guest_udp_allow tap h port ∈ s ∧ parseIPv4Fields (bytes h) = Some a.
Proof.
  unfold in_udp_allow, addr_matches. rewrite existsb_elem. split.
  - intros (e & He & Hm). destruct e as [| |t h p]; try done.
    apply andb_true_iff in Hm as [[Ht%bool_decide_eq_true Ha%bool_decide_eq_true]%andb_true_iff ->%Z.eqb_eq].
    subst. eauto.
  - intros (h & Hh & Ha). eexists. split; [exact Hh|].
    cbn. by rewrite (bool_decide_eq_true_2 (tap = tap)), bool_decide_eq_true_2, Z.eqb_refl.
Qed.

Lemma in_guest_taps_spec s tap : in_guest_taps s tap = true ↔ guest_taps tap ∈ s.
Proof.
  unfold in_guest_taps. rewrite existsb_elem. split.
  - intros (e & He & Hm). destruct e; try done. apply bool_decide_eq_true in Hm. by subst.
  - intros H. eexists. split; [exact H|]. by apply bool_decide_eq_true_2.
Qed.

Lemma elem_of_vm_elements cfg e :
  e ∈ vm_elements cfg ↔
  e = guest_taps (TapName cfg)
  ∨ e = guest_udp_allow (TapName cfg) (HostIP cfg) 53
  ∨ ∃ port, e = guest_tcp_allow (TapName cfg) (HostIP cfg) port
            ∧ (port = HostProxyPort ∨ port ∈ AllowedPorts cfg).
Proof.
  unfold vm_elements. rewrite !elem_of_cons, list_elem_of_fmap.
  setoid_rewrite list_elem_of_filter. split.
  - intros [->|[->|[->|(p & -> & _ & Hp)]]]; eauto 10.
  - intros [->|[->|(p & -> & [->|Hp])]]; auto.
    destruct (decide (p = HostProxyPort)) as [->|Hne]; eauto 10.
Qed.

Lemma apply_delete es s :
  NoDup es → (∀ e, e ∈ es → e ∈ s) →
  apply_cmds (pair act_delete <$> es) s = Some (filter (λ x, x ∉ es) s).
Proof.
  intros Hnd. revert s. induction Hnd as [|e es He Hnd IH]; intros s Hin;
    cbn [fmap list_fmap apply_cmds apply_cmd].
  - f_equal. symmetry. apply filter_keep. set_solver.
  - rewrite bool_decide_eq_true_2 by set_solver. rewrite IH.
    + f_equal. rewrite list_filter_filter. apply list_filter_iff. set_solver.
    + intros x Hx. apply list_elem_of_filter. set_solver.
Qed.

Lemma apply_add_fresh es s :
  NoDup es → (∀ e, e ∈ es → e ∉ s) →
  apply_cmds (pair act_add <$> es) s = Some (reverse es ++ s).
Proof.
  intros Hnd. revert s. induction Hnd as [|e es He Hnd IH]; intros s Hin;
    cbn [fmap list_fmap apply_cmds apply_cmd]; [done|].
  rewrite bool_decide_eq_false_2 by set_solver.
  rewrite IH by set_solver. by rewrite reverse_cons, <- app_assoc.
Qed.

Lemma vm_elements_tap cfg e : e ∈ vm_elements cfg → element_tap e = TapName cfg.
Proof. rewrite elem_of_vm_elements. naive_solver. Qed.

Lemma vm_elements_NoDup cfg : NoDup (AllowedPorts cfg) → NoDup (vm_elements cfg).
Proof.
  intros Hnd. unfold vm_elements.
  repeat (apply NoDup_cons; split;
          [rewrite ?elem_of_cons, list_elem_of_fmap; setoid_rewrite list_elem_of_filter; naive_solver|]).
  apply NoDup_fmap_2; [intros x y; congruence|]. by apply NoDup_filter.
Qed.

Lemma fresh_not_mem tap s e : tap_fresh tap s → element_tap e = tap → e ∉ s.
Proof. unfold tap_fresh. rewrite Forall_forall. naive_solver. Qed.

(** What the two spellings of a batch say is the same text. *)
Theorem nft_batches_print_source_text cfg :
  nft_text (nftAddVM cfg) = nftVMElements "add" cfg ∧
  nft_text (nftDeleteVM cfg) = nftVMElements "delete" cfg.
Proof. split; apply vm_elements_text. Qed.

(** A packet from a managed TAP passes the chain exactly when it does not go
    to the metadata service and belongs to a known flow or matches an
    allow-set entry of that TAP. *)
Theorem forward_default_deny s p :
  in_guest_taps s (iifname p) = true →
  forward_verdict s p = v_accept ↔
  daddr p ≠ CloudMetadataIP ∧
  (established_or_related p = true
   ∨ proto p = tcp ∧ in_tcp_allow s (iifname p) (daddr p) (dport p) = true
   ∨ proto p = udp ∧ in_udp_allow s (iifname p) (daddr p) (dport p) = true).
Proof.
  intros Hg. unfold forward_verdict. rewrite Hg. cbn [andb].
  repeat case_bool_decide; destruct (established_or_related p); cbn [andb];
    destruct (in_tcp_allow s (iifname p) (daddr p) (dport p));
    destruct (in_udp_allow s (iifname p) (daddr p) (dport p)); naive_solver.
Qed.

(** ** Installing and removing one VM *)

Section OneVM.
Context (cfg : Config) (gw : list Z) (s s' : NftSets).
Hypothesis gateway_dotted : parseIPv4Fields (bytes (HostIP cfg)) = Some gw.
Hypothesis tap_unused : tap_fresh (TapName cfg) s.
Hypothesis installed : apply_cmds (pair act_add <$> vm_elements cfg) s = Some s'.

Lemma installed_guest_taps tap :
  in_guest_taps s' tap = true ↔ tap = TapName cfg ∨ in_guest_taps s tap = true.
Proof.
  rewrite !in_guest_taps_spec, (apply_add_mem _ _ _ installed), elem_of_vm_elements.
  naive_solver.
Qed.

Lemma installed_tcp tap a port :
  in_tcp_allow s' tap a port = true ↔
  (tap = TapName cfg ∧ a = gw ∧ (port = HostProxyPort ∨ port ∈ AllowedPorts cfg))
  ∨ in_tcp_allow s tap a port = true.
Proof.
  rewrite !in_tcp_allow_spec. setoid_rewrite (apply_add_mem _ _ _ installed).
  setoid_rewrite elem_of_vm_elements. split.
  - intros (h & [[?|[?|(q & [= -> -> ->] & Hq)]]|Hh] & Ha); try done; [|eauto].
    left. split; [done|]. split; [congruence|done].
  - intros [(-> & -> & Hp)|(h & Hh & Ha)]; [|eauto]. eauto 10.
Qed.

Lemma installed_udp tap a port :
  in_udp_allow s' tap a port = true ↔
  (tap = TapName cfg ∧ a = gw ∧ port = 53) ∨ in_udp_allow s tap a port = true.
Proof.
  rewrite !in_udp_allow_spec. setoid_rewrite (apply_add_mem _ _ _ installed).
  setoid_rewrite elem_of_vm_elements. split.
  - intros (h & [[?|[[= -> -> ->]|(q & ? & Hq)]]|Hh] & Ha); try done; [|eauto].
    left. split; [done|]. split; [congruence|done].
  - intros [(-> & -> & Hp)|(h & Hh & Ha)]; [|eauto]. subst. eauto 10.
Qed.

Lemma fresh_allows_nothing a port :
  in_tcp_allow s (TapName cfg) a port = false ∧ in_udp_allow s (TapName cfg) a port = false.
Proof.
  split; apply not_true_iff_false;
    [rewrite in_tcp_allow_spec|rewrite in_udp_allow_spec];
    intros (h & Hh & _); by eapply fresh_not_mem in Hh.
Qed.
End OneVM.

(** The gateway of a configuration whose host address is written dotted. *)
Lemma dotted_ParseIP h gw :
  parseIPv4Fields (bytes h) = Some gw → addr_family (bytes h) = Some c_dot →
  ParseIP h = Some (As16 (Addr4 gw)).
Proof.
  intros Hp Hf. unfold ParseIP, ParseAddr, ParseAddr_bytes. by rewrite Hf, Hp.
Qed.

Lemma IP_Equal_v4 a b :
  length a = 4%nat → length b = 4%nat →
  IP_Equal (As16 (Addr4 a)) (As16 (Addr4 b)) = bool_decide (a = b).
Proof. intros Ha Hb. unfold IP_Equal. by rewrite !To4_As16_v4. Qed.

(** C3: The batch that installs a VM gives its TAP, for new TCP flows, the
    destinations of [AllowsTCPDestination] and the host proxy port of the
    gateway, and nothing else. *)
Theorem firewall_implements_policy cfg gw s s' p :
  parseIPv4Fields (bytes (HostIP cfg)) = Some gw →
  addr_family (bytes (HostIP cfg)) = Some c_dot →
  tap_fresh (TapName cfg) s →
  apply_cmds (pair act_add <$> vm_elements cfg) s = Some s' →
  iifname p = TapName cfg → proto p = tcp → established_or_related p = false →
  length (daddr p) = 4%nat →
  forward_verdict s' p = v_accept ↔
  daddr p ≠ CloudMetadataIP ∧
  (AllowsTCPDestination cfg (Some (As16 (Addr4 (daddr p)))) (dport p) = true
   ∨ daddr p = gw ∧ dport p = HostProxyPort).
Proof.
  intros Hgw Hfam Hfresh Hinst Hif Htcp Hnew Hlen.
  assert (in_guest_taps s' (iifname p) = true) as Hg.
  { apply (installed_guest_taps cfg s s' Hinst). by left. }
  rewrite (forward_default_deny _ _ Hg), Htcp, Hnew.
  rewrite (installed_tcp cfg gw s s' Hgw Hinst), Hif.
  destruct (fresh_allows_nothing cfg s Hfresh (daddr p) (dport p)) as [Ht _]. rewrite Ht.
  unfold AllowsTCPDestination. rewrite (dotted_ParseIP _ _ Hgw Hfam).
  rewrite IP_Equal_v4 by (done || by eapply parse_v4_length).
  assert (existsb (λ allowed, allowed =? dport p) (AllowedPorts cfg) = true
          ↔ dport p ∈ AllowedPorts cfg) as Hports.
  { rewrite existsb_elem. setoid_rewrite Z.eqb_eq. naive_solver. }
  case_bool_decide as Heq; cbn [negb]; naive_solver.
Qed.

(** A VM's batch changes no verdict for packets of other interfaces. *)
Theorem firewall_isolates_taps cfg gw s s' p :
  parseIPv4Fields (bytes (HostIP cfg)) = Some gw →
  apply_cmds (pair act_add <$> vm_elements cfg) s = Some s' →
  iifname p ≠ TapName cfg → oifname p ≠ TapName cfg →
  forward_verdict s' p = forward_verdict s p.
Proof.
  intros Hgw Hinst Hi Ho. unfold forward_verdict.
  assert (in_guest_taps s' (iifname p) = in_guest_taps s (iifname p)) as ->.
  { apply eq_true_iff_eq. rewrite (installed_guest_taps cfg s s' Hinst). naive_solver. }
  assert (in_guest_taps s' (oifname p) = in_guest_taps s (oifname p)) as ->.
  { apply eq_true_iff_eq. rewrite (installed_guest_taps cfg s s' Hinst). naive_solver. }
  assert (in_tcp_allow s' (iifname p) (daddr p) (dport p)
          = in_tcp_allow s (iifname p) (daddr p) (dport p)) as ->.
  { apply eq_true_iff_eq. rewrite (installed_tcp cfg gw s s' Hgw Hinst). naive_solver. }
  assert (in_udp_allow s' (iifname p) (daddr p) (dport p)
          = in_udp_allow s (iifname p) (daddr p) (dport p)) as ->.
  { apply eq_true_iff_eq. rewrite (installed_udp cfg gw s s' Hgw Hinst). naive_solver. }
  done.
Qed.

Lemma vm_delete_after_add cfg s s' :
  tap_fresh (TapName cfg) s → NoDup (AllowedPorts cfg) →
  apply_cmds (pair act_add <$> vm_elements cfg) s = Some s' →
  apply_cmds (pair act_delete <$> vm_elements cfg) s' = Some s.
Proof.
  intros Hfresh Hnd Hinst.
  assert (∀ e, e ∈ vm_elements cfg → e ∉ s) as Hnew.
  { intros e He. eapply fresh_not_mem; [done|]. by apply vm_elements_tap. }
  pose proof (vm_elements_NoDup cfg Hnd) as Hnd'.
  rewrite (apply_add_fresh _ _ Hnd' Hnew) in Hinst. injection Hinst as <-.
  rewrite apply_delete by (done || intros e He; rewrite elem_of_app, elem_of_reverse; auto).
  f_equal. rewrite filter_app, filter_none, filter_keep; [done| |].
  - intros e He He'. by apply (Hnew e).
  - intros e. rewrite elem_of_reverse. auto.
Qed.

(** Removing a VM restores the sets as they were before its installation
    when no allowed port is listed twice. *)
Theorem firewall_delete_undoes_add cfg s s' :
  tap_fresh (TapName cfg) s → NoDup (AllowedPorts cfg) →
  apply_cmds (pair act_add <$> vm_elements cfg) s = Some s' →
  apply_cmds (pair act_delete <$> vm_elements cfg) s' = Some s.
Proof. apply vm_delete_after_add. Qed.

(** [Validate] accepts a port list with a repetition, and the removal batch
    of such a configuration fails although its installation succeeded. *)
Definition dup_cfg : Config :=
  {| TapName := "shy0"; HostIP := "172.16.0.1"; GuestIP := "172.16.0.2/24";
     AllowedPorts := [443; 443]; UplinkInterface := "eth0" |}.
Theorem duplicate_port_blocks_cleanup :
  validateNftConfig dup_cfg = Ok tt ∧
  (apply_cmds (pair act_add <$> vm_elements dup_cfg) [] ≫= λ s',
     apply_cmds (pair act_delete <$> vm_elements dup_cfg) s') = None ∧
  is_Some (apply_cmds (pair act_add <$> vm_elements dup_cfg) []).
Proof. split; [|split]; [vm_compute; reflexivity..|]. eexists. vm_compute. reflexivity. Qed.

(** ** A VM whose guest may reach HTTPS on its gateway *)

Definition web_cfg : Config := mkConfig "tap0" "172.16.0.1" "172.16.0.2/24" [443; 53] "eth0".
Definition web_sets : NftSets := default [] (apply_cmds (pair act_add <$> vm_elements web_cfg) []).
Definition web_packet (tap : string) (port : Z) : Packet :=
  {| iifname := tap; oifname := "eth0"; daddr := [172; 16; 0; 1]; proto := tcp; dport := port;
     established_or_related := false |}.

Lemma firewall_implements_policy_witness :
  forward_verdict web_sets (web_packet "tap0" 443) = v_accept ∧
  forward_verdict web_sets (web_packet "tap0" 22) ≠ v_accept.
Proof.
  assert (∀ port, forward_verdict web_sets (web_packet "tap0" port) = v_accept ↔
    [172; 16; 0; 1] ≠ CloudMetadataIP ∧
    (AllowsTCPDestination web_cfg (Some (As16 (Addr4 [172; 16; 0; 1]))) port = true
     ∨ [172; 16; 0; 1] = [172; 16; 0; 1] ∧ port = HostProxyPort)) as Hv.
  { intros port. apply (firewall_implements_policy web_cfg [172; 16; 0; 1] [] web_sets (web_packet "tap0" port));
      first [by intros ? ?%elem_of_nil|by vm_compute|done]. }
  split; [apply Hv; split; [done|by left]|].
  intros [_ [Hp|[_ Hp]]]%Hv; vm_compute in Hp; done.
Defined.
Lemma firewall_isolates_taps_witness :
  forward_verdict web_sets (web_packet "tap1" 443) = forward_verdict [] (web_packet "tap1" 443).
Proof. apply (firewall_isolates_taps web_cfg [172; 16; 0; 1]); by vm_compute. Defined.
Lemma firewall_delete_undoes_add_witness :
  apply_cmds (pair act_delete <$> vm_elements web_cfg) web_sets = Some [].
Proof.
  apply (firewall_delete_undoes_add web_cfg []); [constructor| |by vm_compute].
  apply (bool_decide_eq_true_1 (NoDup _)). vm_compute. reflexivity.
Defined.
