(* ===== verification/Ipam.v ===== *)
(** * core/network/ipam.go: subnets and VSOCK context ids

    [IPAMPool] hands out one of 256 guest subnets and one of 1022 context
    ids; both are stacks of free numbers with a map of the numbers in use.
    The map values are kept, since the code reads [p.usedSubnets[idx]]. *)

From S2P Require Import Prelude GoStrings GoCrypto GoNet Network.
Open Scope Z_scope.

Definition MaxSubnets : Z := 256.
Definition MinGuestCID : Z := 3.
Definition MaxGuestCID : Z := 1024.

Record IPAMPool := mkIPAMPool {
  freeSubnets : list Z;
  usedSubnets : gmap Z bool;
  freeCIDs : list Z;
  usedCIDs : gmap Z bool;
}.

Definition NewIPAMPool : IPAMPool :=
  {| freeSubnets := seqZ 0 MaxSubnets;
     usedSubnets := ∅;
     freeCIDs := seqZ MinGuestCID (MaxGuestCID - MinGuestCID + 1);
     usedCIDs := ∅ |}.

(** [uniqueTapName]: "shy" and the first four bytes of the hash in hex. *)
Definition uniqueTapName (vmID : string) : string :=
  "shy" +:+ of_bytes (flat_map hex_byte (take 4 (Sum256 (bytes vmID)))).

Definition host_ip (subnetIdx : Z) : string := "172.16." +:+ Itoa subnetIdx +:+ ".1".
Definition guest_ip (subnetIdx : Z) : string := "172.16." +:+ Itoa subnetIdx +:+ ".2/24".

Definition Allocate (vmID : string) (baseNet : Config) : ST IPAMPool (Config * Z) :=
  λ p,
    match pop_last (freeSubnets p) with
    | None => (Err (Errorf "ipam: subnet pool exhausted (max %d active VMs)" []), p)
    | Some (subnets, subnetIdx) =>
        match pop_last (freeCIDs p) with
        | None => (Err (Errorf "ipam: VSOCK CID pool exhausted" []), p)
        | Some (cids, cid) =>
            (Ok ({| TapName := uniqueTapName vmID;
                    HostIP := host_ip subnetIdx;
                    GuestIP := guest_ip subnetIdx;
                    AllowedPorts := AllowedPorts baseNet;
                    UplinkInterface := UplinkInterface baseNet |}, cid),
             {| freeSubnets := subnets;
                usedSubnets := <[subnetIdx := true]> (usedSubnets p);
                freeCIDs := cids;
                usedCIDs := <[cid := true]> (usedCIDs p) |})
        end
    end.

(** The subnet index that [Release] reads out of a guest address. *)
Definition release_subnet (guestIP : string) : option Z :=
  match ParseCIDR guestIP with
  | Some (ip, _) => ip4 ← To4 ip; ip4 !! 2%nat
  | None => None
  end.

Definition free_slot (k : Z) (free : list Z) (used : gmap Z bool) : list Z * gmap Z bool :=
  if default false (used !! k) then (free ++ [k], base.delete k used) else (free, used).

Definition Release (guestIP : string) (cid : Z) (p : IPAMPool) : IPAMPool :=
  let '(fs, us) :=
    match release_subnet guestIP with
    | Some subnetIdx => free_slot subnetIdx (freeSubnets p) (usedSubnets p)
    | None => (freeSubnets p, usedSubnets p)
    end in
  let '(fc, uc) := free_slot cid (freeCIDs p) (usedCIDs p) in
  {| freeSubnets := fs; usedSubnets := us; freeCIDs := fc; usedCIDs := uc |}.

(** ** The invariant

    A half of the pool over the numbers [lo, hi): every number is either on
    the stack, once, or in the map. *)
Record slots_wf (lo hi : Z) (free : list Z) (used : gmap Z bool) : Prop := {
  slots_nodup : NoDup free;
  slots_free : ∀ k, k ∈ free ↔ lo ≤ k < hi ∧ used !! k = None;
  slots_used : ∀ k b, used !! k = Some b → lo ≤ k < hi ∧ b = true;
}.

Record ipam_wf (p : IPAMPool) : Prop := {
  wf_subnets : slots_wf 0 MaxSubnets (freeSubnets p) (usedSubnets p);
  wf_cids : slots_wf MinGuestCID (MaxGuestCID + 1) (freeCIDs p) (usedCIDs p);
}.

Section Slots.
Context (lo hi : Z).
Implicit Types (free : list Z) (used : gmap Z bool).

Lemma slots_wf_take free used k free' :
  slots_wf lo hi free used → pop_last free = Some (free', k) →
  slots_wf lo hi free' (<[k := true]> used) ∧ used !! k = None ∧ lo ≤ k < hi.
Proof.
  intros [Hnd Hfree Hused] ->%pop_last_Some.
  apply NoDup_app in Hnd as (Hnd & Hdisj & _).
  assert (lo ≤ k < hi ∧ used !! k = None) as [Hr Hk].
  { apply Hfree, elem_of_app. right. by apply list_elem_of_singleton. }
  split; [|done]. split; [done| |].
  - intros j. specialize (Hfree j). rewrite elem_of_app, list_elem_of_singleton in Hfree.
    destruct (decide (j = k)) as [->|Hne].
    + rewrite lookup_insert_eq. split; [|naive_solver].
      intros Hj. exfalso. apply (Hdisj k Hj). by apply list_elem_of_singleton.
    + rewrite lookup_insert_ne by done. naive_solver.
  - intros j b [[<- <-]|[_ Hj]]%lookup_insert_Some; [done|]. by apply Hused.
Qed.

Lemma slots_wf_free free used k :
  slots_wf lo hi free used →
  slots_wf lo hi (free_slot k free used).1 (free_slot k free used).2.
Proof.
  intros [Hnd Hfree Hused]. unfold free_slot.
  destruct (used !! k) as [b|] eqn:Hk; cbn; [|done].
  destruct (Hused k b Hk) as [Hr ->]. cbn. split.
  - apply NoDup_app. repeat split; [done| |apply NoDup_singleton].
    intros j Hj ->%list_elem_of_singleton. apply Hfree in Hj as [_ Hj]. congruence.
  - intros j. rewrite elem_of_app, list_elem_of_singleton, Hfree, lookup_delete_None.
    destruct (decide (j = k)) as [->|]; naive_solver.
  - intros j b [_ Hj]%lookup_delete_Some. by apply Hused.
Qed.

(** Giving back the number just taken restores the stack and the map. *)
Lemma free_slot_take free used k free' :
  pop_last free = Some (free', k) → used !! k = None →
  free_slot k free' (<[k := true]> used) = (free, used).
Proof.
  intros ->%pop_last_Some Hk. unfold free_slot. rewrite lookup_insert_eq. cbn.
  by rewrite delete_insert_id.
Qed.

Lemma slots_count free used :
  lo ≤ hi → slots_wf lo hi free used →
  Z.of_nat (length free) + Z.of_nat (size used) = hi - lo.
Proof.
  intros Hle [Hnd Hfree Hused].
  assert (free ++ (map_to_list used).*1 ≡ₚ seqZ lo (hi - lo)) as Hp.
  { apply NoDup_Permutation.
    - apply NoDup_app. split; [done|]. split; [|apply NoDup_fst_map_to_list].
      intros k Hk ([j b] & -> & Hj%elem_of_map_to_list)%list_elem_of_fmap.
      apply Hfree in Hk as [_ Hk]. cbn in Hk. congruence.
    - apply NoDup_seqZ.
    - intros k. rewrite elem_of_app, Hfree, list_elem_of_fmap, elem_of_seqZ. split.
      + intros [[? ?]|([j b] & -> & Hj%elem_of_map_to_list)]; [lia|].
        apply Hused in Hj as [? _]. cbn. lia.
      + intros Hk. destruct (used !! k) as [b|] eqn:Hu; [right|left; split; [lia|done]].
        exists (k, b). split; [done|]. by apply elem_of_map_to_list. }
  apply Permutation_length in Hp.
  rewrite length_app, length_fmap, length_map_to_list, length_seqZ in Hp. lia.
Qed.
End Slots.

#[export] Hint Resolve slots_wf_free : shiyao.

Lemma new_pool_wf : ipam_wf NewIPAMPool.
Proof.
  split; split; cbn [NewIPAMPool freeSubnets usedSubnets freeCIDs usedCIDs];
    try apply NoDup_seqZ; intros k; rewrite ?elem_of_seqZ, lookup_empty;
    unfold MaxSubnets, MinGuestCID, MaxGuestCID; first [naive_solver lia|done].
Qed.

Lemma allocate_wf vmID base p r p' :
  ipam_wf p → Allocate vmID base p = (r, p') → ipam_wf p'.
Proof.
  intros [Hs Hc]. unfold Allocate.
  destruct (pop_last (freeSubnets p)) as [[fs k]|] eqn:Es; [|by intros [= _ <-]].
  destruct (pop_last (freeCIDs p)) as [[fc c]|] eqn:Ec; [|by intros [= _ <-]].
  intros [= _ <-]. split; cbn; by eapply slots_wf_take.
Qed.

Lemma release_wf guestIP cid p : ipam_wf p → ipam_wf (Release guestIP cid p).
Proof.
  intros [Hs Hc]. unfold Release.
  pose proof (slots_wf_free _ _ _ _ cid Hc) as Hc'.
  destruct (free_slot cid (freeCIDs p) (usedCIDs p)) as [fc uc].
  destruct (release_subnet guestIP) as [k|]; [|by split].
  pose proof (slots_wf_free _ _ _ _ k Hs) as Hs'.
  destruct (free_slot k (freeSubnets p) (usedSubnets p)) as [fs us]. by split.
Qed.

(** ** Addresses of a subnet *)

Definition subnet_addresses_ok (k : Z) : bool :=
  bool_decide (release_subnet (guest_ip k) = Some k)
  && bool_decide (parseIPv4Fields (bytes (host_ip k)) = Some [172; 16; k; 1])
  && bool_decide (addr_family (bytes (host_ip k)) = Some c_dot)
  && is_ok (Validate {| TapName := "t"; HostIP := host_ip k; GuestIP := guest_ip k;
                        AllowedPorts := []; UplinkInterface := "u" |}).

Lemma subnet_addresses_all : forallb subnet_addresses_ok (seqZ 0 256) = true.
Proof. vm_compute. reflexivity. Qed.

Lemma subnet_addresses k : 0 ≤ k < 256 → subnet_addresses_ok k = true.
Proof.
  intros Hk. pose proof (proj1 (forallb_elem _ _) subnet_addresses_all) as H.
  apply H, elem_of_seqZ. lia.
Qed.

Lemma release_subnet_guest_ip k : 0 ≤ k < 256 → release_subnet (guest_ip k) = Some k.
Proof.
  intros Hk%subnet_addresses. unfold subnet_addresses_ok in Hk.
  repeat apply andb_true_iff in Hk as [Hk ?]. by apply bool_decide_eq_true in Hk.
Qed.

Lemma host_ip_dotted k :
  0 ≤ k < 256 →
  parseIPv4Fields (bytes (host_ip k)) = Some [172; 16; k; 1]
  ∧ addr_family (bytes (host_ip k)) = Some c_dot.
Proof.
  intros Hk%subnet_addresses. unfold subnet_addresses_ok in Hk.
  repeat apply andb_true_iff in Hk as [Hk ?]. split; by eapply bool_decide_eq_true.
Qed.

Lemma guest_ip_inj j k : 0 ≤ j < 256 → 0 ≤ k < 256 → guest_ip j = guest_ip k → j = k.
Proof.
  intros Hj Hk E. apply release_subnet_guest_ip in Hj, Hk. congruence.
Qed.

(** [Validate] looks at the interface names and the ports on their own. *)
Lemma Validate_names n t u ports :
  is_ok (Validate n) = true → TapName n ≠ "" → t ≠ "" → u ≠ "" →
  forallb port_ok ports = true →
  Validate {| TapName := t; HostIP := HostIP n; GuestIP := GuestIP n;
              AllowedPorts := ports; UplinkInterface := u |} = Ok tt.
Proof.
  intros Hn Hnt Ht Hu Hports. unfold Validate in *. cbn.
  rewrite !(bool_decide_eq_false_2 (_ = "")) by done.
  rewrite (bool_decide_eq_false_2 (TapName n = "")) in Hn by done.
  rewrite Hports. cbn. repeat (case_match; try done).
Qed.

Lemma hex_tap_chars l : Forall is_byte l → forallb tap_char (flat_map hex_byte l) = true.
Proof.
  assert (∀ d, 0 ≤ d < 16 → tap_char (hex_digit d) = true) as Hd.
  { intros e He. unfold tap_char, hex_digit, in_range. case_match; lia. }
  induction 1 as [|b l Hb _ IH]; [done|]. unfold is_byte in Hb.
  pose proof (Z.mod_pos_bound b 16).
  assert (0 ≤ b / 16 < 16) by (split; [apply Z.div_pos|apply Z.div_lt_upper_bound]; lia).
  cbn [flat_map hex_byte app forallb]. by rewrite !Hd by lia.
Qed.

Lemma uniqueTapName_ok vmID : tapNameExpr (uniqueTapName vmID) = true ∧ uniqueTapName vmID ≠ "".
Proof.
  assert (Forall is_byte (take 4 (Sum256 (bytes vmID)))) as Hr by apply Forall_take, Sum256_range.
  assert (length (take 4 (Sum256 (bytes vmID))) = 4%nat) as Hl
    by (rewrite length_take, Sum256_length; done).
  unfold uniqueTapName. revert Hr Hl. generalize (take 4 (Sum256 (bytes vmID))).
  intros l Hr Hl.
  assert (length (flat_map hex_byte l) = 8%nat) as H8.
  { destruct l as [|a [|b [|c [|d [|]]]]]; done. }
  split; [|done]. unfold tapNameExpr.
  rewrite len_bytes, bytes_app, forallb_app, length_app.
  rewrite bytes_of_bytes by by apply hex_bytes_range.
  by rewrite H8, (hex_tap_chars _ Hr).
Qed.

(** ** Leases *)

Section Lease.
Context (vmID : string) (base cfg : Config) (cid : Z) (p p' : IPAMPool).
Hypothesis pool_wf : ipam_wf p.
Hypothesis allocated : Allocate vmID base p = (Ok (cfg, cid), p').

(** What an allocation takes out of the pool. *)
Lemma allocate_inv :
  ∃ k fs fc,
    pop_last (freeSubnets p) = Some (fs, k) ∧ pop_last (freeCIDs p) = Some (fc, cid) ∧
    0 ≤ k < 256 ∧ usedSubnets p !! k = None ∧
    MinGuestCID ≤ cid ≤ MaxGuestCID ∧ usedCIDs p !! cid = None ∧
    GuestIP cfg = guest_ip k ∧ HostIP cfg = host_ip k ∧ TapName cfg = uniqueTapName vmID ∧
    AllowedPorts cfg = AllowedPorts base ∧ UplinkInterface cfg = UplinkInterface base ∧
    p' = {| freeSubnets := fs; usedSubnets := <[k := true]> (usedSubnets p);
            freeCIDs := fc; usedCIDs := <[cid := true]> (usedCIDs p) |}.
Proof.
  destruct pool_wf as [Hs Hc]. revert allocated. unfold Allocate.
  destruct (pop_last (freeSubnets p)) as [[fs k]|] eqn:Es; [|done].
  destruct (pop_last (freeCIDs p)) as [[fc c]|] eqn:Ec; [|done].
  intros [= <- <- <-].
  destruct (slots_wf_take _ _ _ _ _ _ Hs Es) as (_ & Hk & Hkr).
  destruct (slots_wf_take _ _ _ _ _ _ Hc Ec) as (_ & Hcn & Hcr).
  exists k, fs, fc. unfold MaxSubnets in *. repeat split; try done; lia.
Qed.

Lemma release_undoes_allocate : Release (GuestIP cfg) cid p' = p.
Proof.
  destruct allocate_inv as (k & fs & fc & Es & Ec & Hk & Hku & Hc & Hcu & -> & _ & _ & _ & _ & ->).
  unfold Release. rewrite release_subnet_guest_ip by done. cbn.
  rewrite (free_slot_take (freeSubnets p)) by done.
  rewrite (free_slot_take (freeCIDs p)) by done. by destruct p.
Qed.

Lemma allocated_config_valid :
  UplinkInterface base ≠ "" → forallb port_ok (AllowedPorts base) = true →
  validateNftConfig cfg = Ok tt.
Proof.
  intros Hu Hports.
  destruct allocate_inv as (k & fs & fc & _ & _ & Hk & _ & _ & _ & Hg & Hh & Ht & Ha & Hup & _).
  destruct (uniqueTapName_ok vmID) as [Htap Hne].
  assert (Validate cfg = Ok tt) as Hv.
  { destruct cfg as [t h g ps u]. cbn in *. subst.
    apply (Validate_names {| TapName := "t"; HostIP := host_ip k; GuestIP := guest_ip k;
                             AllowedPorts := []; UplinkInterface := "u" |}); try done.
    apply subnet_addresses in Hk. unfold subnet_addresses_ok in Hk.
    by apply andb_true_iff in Hk as [_ Hk]. }
  unfold validateNftConfig. rewrite Hv, Ht, Htap. cbn.
  destruct (host_ip_dotted k Hk) as [Hd Hf].
  rewrite Hh, (dotted_ParseIP _ _ Hd Hf). reflexivity.
Qed.
End Lease.

(** A lease that some VM holds: the configuration and context id it was given. *)
Record Lease := mkLease { l_cfg : Config; l_cid : Z }.
Definition l_subnet (l : Lease) : Z := default (-1) (release_subnet (GuestIP (l_cfg l))).

(** The pool with the leases held: allocations, failed allocations, and
    releases of a held lease, in any order. *)
Inductive ipam_step : IPAMPool * list Lease → IPAMPool * list Lease → Prop :=
  | step_allocate vmID base p ls cfg cid p' :
      Allocate vmID base p = (Ok (cfg, cid), p') →
      ipam_step (p, ls) (p', mkLease cfg cid :: ls)
  | step_allocate_fails vmID base p ls e p' :
      Allocate vmID base p = (Err e, p') →
      ipam_step (p, ls) (p', ls)
  | step_release p ls1 l ls2 :
      ipam_step (p, ls1 ++ l :: ls2) (Release (GuestIP (l_cfg l)) (l_cid l) p, ls1 ++ ls2).

Record leases_inv (p : IPAMPool) (ls : list Lease) : Prop := {
  inv_wf : ipam_wf p;
  inv_shape : ∀ l, l ∈ ls → ∃ k, 0 ≤ k < 256 ∧ GuestIP (l_cfg l) = guest_ip k
                                  ∧ HostIP (l_cfg l) = host_ip k;
  inv_subnets : ∀ k, is_Some (usedSubnets p !! k) ↔ k ∈ l_subnet <$> ls;
  inv_subnets_nodup : NoDup (l_subnet <$> ls);
  inv_cids : ∀ c, is_Some (usedCIDs p !! c) ↔ c ∈ l_cid <$> ls;
  inv_cids_nodup : NoDup (l_cid <$> ls);
}.

Lemma free_slot_used lo hi free used k :
  slots_wf lo hi free used → is_Some (used !! k) →
  free_slot k free used = (free ++ [k], base.delete k used).
Proof.
  intros Hwf [b Hb]. unfold free_slot. rewrite Hb.
  by destruct (slots_used _ _ _ _ Hwf k b Hb) as [_ ->].
Qed.

Lemma keys_after_delete (used : gmap Z bool) (f : Lease → Z) ls1 l ls2 :
  (∀ k, is_Some (used !! k) ↔ k ∈ f <$> (ls1 ++ l :: ls2)) →
  NoDup (f <$> (ls1 ++ l :: ls2)) →
  (∀ k, is_Some (base.delete (f l) used !! k) ↔ k ∈ f <$> (ls1 ++ ls2))
  ∧ NoDup (f <$> (ls1 ++ ls2)).
Proof.
  rewrite !fmap_app, fmap_cons. intros Hkeys Hnd.
  assert (f l :: ((f <$> ls1) ++ (f <$> ls2)) ≡ₚ (f <$> ls1) ++ f l :: (f <$> ls2)) as Hp
    by apply Permutation_middle.
  rewrite <- Hp in Hnd. apply NoDup_cons in Hnd as [Hfl Hnd]. split; [|done].
  intros k. rewrite lookup_delete_is_Some, Hkeys, <- Hp, elem_of_cons. naive_solver.
Qed.

Lemma leases_inv_release p ls1 l ls2 :
  leases_inv p (ls1 ++ l :: ls2) →
  leases_inv (Release (GuestIP (l_cfg l)) (l_cid l) p) (ls1 ++ ls2).
Proof.
  intros [Hwf Hshape Hsub Hsubnd Hcid Hcidnd].
  destruct (Hshape l) as (k & Hk & Hg & _); [set_solver|].
  assert (l_subnet l = k) as Hlk by (unfold l_subnet; by rewrite Hg, release_subnet_guest_ip).
  destruct (keys_after_delete _ _ _ _ _ Hsub Hsubnd) as [Hsub' Hsubnd'].
  destruct (keys_after_delete _ _ _ _ _ Hcid Hcidnd) as [Hcid' Hcidnd'].
  pose proof (release_wf (GuestIP (l_cfg l)) (l_cid l) p Hwf) as Hwf'.
  revert Hwf'. unfold Release. rewrite Hg, release_subnet_guest_ip by done.
  rewrite (free_slot_used _ _ _ _ _ (wf_subnets _ Hwf))
    by (apply Hsub; rewrite <- Hlk, fmap_app; set_solver).
  rewrite (free_slot_used _ _ _ _ _ (wf_cids _ Hwf))
    by (apply Hcid; rewrite fmap_app; set_solver).
  rewrite Hlk in Hsub'. intros Hwf'. split; cbn; try done. intros l' Hl'. apply Hshape. set_solver.
Qed.

Lemma leases_inv_step c c' :
  ipam_step c c' → leases_inv c.1 c.2 → leases_inv c'.1 c'.2.
Proof.
  intros [vmID base p ls cfg cid p' Ha|vmID base p ls e p' Ha|p ls1 l ls2] Hinv; cbn in *.
  - pose proof (allocate_wf _ _ _ _ _ (inv_wf _ _ Hinv) Ha) as Hwf'.
    destruct (allocate_inv _ _ _ _ _ _ (inv_wf _ _ Hinv) Ha)
      as (k & fs & fc & _ & _ & Hk & Hku & Hc & Hcu & Hg & Hh & _ & _ & _ & ->).
    destruct Hinv as [Hwf Hshape Hsub Hsubnd Hcid Hcidnd].
    assert (l_subnet (mkLease cfg cid) = k) as Hlk
      by (unfold l_subnet; cbn; by rewrite Hg, release_subnet_guest_ip).
    split; cbn [usedSubnets usedCIDs]; [done| | | | |]; rewrite ?fmap_cons, ?Hlk; cbn [l_cid].
    + intros l [->|Hl]%elem_of_cons; [by exists k|]. by apply Hshape.
    + intros j. rewrite lookup_insert_is_Some', elem_of_cons, <- Hsub. by split; intros [->|]; auto.
    + apply NoDup_cons. split; [|done]. rewrite <- Hsub, Hku. by intros [].
    + intros j. rewrite lookup_insert_is_Some', elem_of_cons, <- Hcid. by split; intros [->|]; auto.
    + apply NoDup_cons. split; [|done]. rewrite <- Hcid, Hcu. by intros [].
  - assert (p' = p) as ->; [|done]. revert Ha. unfold Allocate.
    repeat case_match; intros Hx; by simplify_eq.
  - by apply leases_inv_release.
Qed.

Lemma leases_inv_init : leases_inv NewIPAMPool [].
Proof.
  split; cbn [fmap list_fmap NewIPAMPool usedSubnets usedCIDs];
    try apply NoDup_nil_2; try apply new_pool_wf; try set_solver;
    intros k; rewrite lookup_empty, elem_of_nil; split; (by intros []) || done.
Qed.

Lemma leases_inv_reachable c :
  rtc ipam_step (NewIPAMPool, []) c → leases_inv c.1 c.2.
Proof.
  intros Hr. remember (NewIPAMPool, []) as c0 eqn:E.
  assert (leases_inv c0.1 c0.2) as H0 by (subst; apply leases_inv_init). clear E.
  induction Hr; eauto using leases_inv_step.
Qed.

Lemma leases_count p ls :
  leases_inv p ls → size (usedSubnets p) = length ls ∧ size (usedCIDs p) = length ls.
Proof.
  intros [Hwf _ Hsub Hsubnd Hcid Hcidnd].
  assert (∀ (used : gmap Z bool) (f : Lease → Z),
    (∀ k, is_Some (used !! k) ↔ k ∈ f <$> ls) → NoDup (f <$> ls) →
    size used = length ls) as Hcount.
  { intros used f Hkeys Hnd. rewrite <- size_dom.
    rewrite <- (length_fmap f ls), <- (size_list_to_set (C := gset Z)) by done.
    f_equal. apply set_eq. intros k. rewrite elem_of_dom, Hkeys. set_solver. }
  split; by eapply Hcount.
Qed.

Lemma allocate_succeeds_iff vmID base p :
  is_ok (Allocate vmID base p).1 = true ↔ freeSubnets p ≠ [] ∧ freeCIDs p ≠ [].
Proof.
  unfold Allocate.
  destruct (pop_last (freeSubnets p)) as [[fs k]|] eqn:Es.
  - apply pop_last_Some in Es.
    destruct (pop_last (freeCIDs p)) as [[fc c]|] eqn:Ec.
    + apply pop_last_Some in Ec. rewrite Es, Ec. split; [|done]. intros _.
      by split; intros [_ ?]%app_nil.
    + apply pop_last_None in Ec. rewrite Ec. naive_solver.
  - apply pop_last_None in Es. rewrite Es. naive_solver.
Qed.

(** C11: Whatever the order of allocations and releases of held leases, no two
    held leases share a guest address, a gateway address or a context id,
    every context id lies in the guest range, at most 256 leases are held,
    and the next allocation succeeds exactly when fewer are. *)
Theorem ipam_leases_exclusive p ls :
  rtc ipam_step (NewIPAMPool, []) (p, ls) →
  NoDup (GuestIP ∘ l_cfg <$> ls) ∧ NoDup (HostIP ∘ l_cfg <$> ls) ∧ NoDup (l_cid <$> ls) ∧
  Forall (λ l, MinGuestCID ≤ l_cid l ≤ MaxGuestCID) ls ∧
  (length ls ≤ 256)%nat ∧
  ∀ vmID base, is_ok (Allocate vmID base p).1 = true ↔ (length ls < 256)%nat.
Proof.
  intros Hinv%leases_inv_reachable. cbn in Hinv.
  destruct (leases_count _ _ Hinv) as [Hns Hnc].
  destruct Hinv as [Hwf Hshape Hsub Hsubnd Hcid Hcidnd].
  pose proof (slots_count 0 MaxSubnets _ _ ltac:(done) (wf_subnets _ Hwf)) as Hcs.
  pose proof (slots_count MinGuestCID (MaxGuestCID + 1) _ _ ltac:(done) (wf_cids _ Hwf)) as Hcc.
  unfold MaxSubnets, MaxGuestCID, MinGuestCID in Hcs, Hcc.
  assert (∀ f : Lease → string,
    (∀ l l', l ∈ ls → l' ∈ ls → f l = f l' → l_subnet l = l_subnet l') → NoDup (f <$> ls)) as Hstr.
  { intros f Hf. revert Hsubnd Hf. generalize ls. clear.
    induction ls as [|l ls IH]; [constructor|]. rewrite !fmap_cons.
    intros [Hl Hnd]%NoDup_cons Hf. apply NoDup_cons. split.
    - intros (l' & E & Hl')%list_elem_of_fmap. apply Hl.
      rewrite (Hf l l') by (done || by constructor). by apply list_elem_of_fmap_2.
    - apply IH; [done|]. intros. apply Hf; try done; apply elem_of_cons; by right. }
  split; [|split; [|split; [done|split; [|split]]]].
  - apply Hstr. intros l l' _ _ E. unfold l_subnet. cbn in E. by rewrite E.
  - apply Hstr. intros l l' Hl Hl' E.
    destruct (Hshape l Hl) as (k & Hk & Hg & Hh), (Hshape l' Hl') as (k' & Hk' & Hg' & Hh').
    unfold l_subnet. rewrite Hg, Hg', !release_subnet_guest_ip by done. cbn in *.
    destruct (host_ip_dotted k Hk) as [E1 _], (host_ip_dotted k' Hk') as [E2 _]. congruence.
  - apply Forall_forall. intros l Hl.
    assert (is_Some (usedCIDs p !! l_cid l)) as [b Hb] by (apply Hcid; by apply list_elem_of_fmap_2).
    apply (slots_used _ _ _ _ (wf_cids _ Hwf)) in Hb as [? _]. lia.
  - lia.
  - intros vmID base. rewrite allocate_succeeds_iff.
    destruct (freeSubnets p), (freeCIDs p); cbn in *; split; intros; lia || naive_solver lia.
Qed.

(** Releasing a lease right after it was allocated gives back the very pool
    it came from, free stacks included. *)
Theorem ipam_release_undoes_allocate vmID base cfg cid p p' :
  ipam_wf p → Allocate vmID base p = (Ok (cfg, cid), p') →
  Release (GuestIP cfg) cid p' = p.
Proof. apply release_undoes_allocate. Qed.

(** Two allocations and the release of the first. *)
Definition lease_after (vmID : string) (p : IPAMPool) : Lease :=
  match Allocate vmID (DefaultConfig "") p with
  | (Ok (cfg, cid), _) => mkLease cfg cid
  | (Err _, _) => mkLease (DefaultConfig "") 0
  end.
Definition pool_after (vmID : string) (p : IPAMPool) : IPAMPool := (Allocate vmID (DefaultConfig "") p).2.

Lemma ipam_leases_exclusive_witness :
  let p1 := pool_after "a" NewIPAMPool in
  let p2 := pool_after "b" p1 in
  let l1 := lease_after "a" NewIPAMPool in
  let l2 := lease_after "b" p1 in
  l_cid l1 ≠ l_cid l2 ∧ GuestIP (l_cfg l1) ≠ GuestIP (l_cfg l2).
Proof.
  intros p1 p2 l1 l2.
  destruct (ipam_leases_exclusive p2 [l2; l1]) as (Hg & _ & Hc & _).
  - eapply rtc_l; [apply (step_allocate "a" (DefaultConfig "") _ [] (l_cfg l1) (l_cid l1) p1);
                   vm_compute; reflexivity|].
    eapply rtc_l; [apply (step_allocate "b" (DefaultConfig "") _ [_] (l_cfg l2) (l_cid l2) p2);
                   vm_compute; reflexivity|].
    apply rtc_refl.
  - apply NoDup_cons in Hg as [Hg _], Hc as [Hc _]. split; intros E; [apply Hc|apply Hg]; cbn in *; rewrite E; left.
Defined.
