(* ===== verification/Host.v ===== *)
(** * The host the control plane runs on

    Everything [core/network] and [core/vmm] ask of the operating system and
    of the libraries they call: netlink, the [nft] command, the file system,
    the random source and the Firecracker SDK.  The host is an interface: a
    type of states with the operations, and the laws that the theorems about
    resources rely on.  [SimHost] is an implementation that satisfies the
    laws; its failure switches make every error path executable. *)

From S2P Require Import Prelude GoStrings GoNet Network.
Open Scope Z_scope.

Record Context := { ctx_err : option error; ctx_deadline : option Z }.
Definition Background : Context := {| ctx_err := None; ctx_deadline := None |}.
Definition Canceled : Context :=
  {| ctx_err := Some (Sentinel "context canceled"); ctx_deadline := None |}.

Inductive LinkLookup := LinkFound | LinkNotFound | LinkFailed (e : error).
(** What [FileInfo.Mode] says of a path. *)
Inductive FileKind := RegularFile | SymbolicLink | OtherFile.
(** The outcome of [os.Remove]. *)
Inductive RemoveOutcome := Removed | NotExist | RemoveFailed (e : error).

(** The fields of [fc.Config] that the code sets. *)
Record FcConfig := {
  fc_SocketPath : string;
  fc_RootDrive : string;
  fc_RootReadOnly : bool;
  fc_VcpuCount : Z;
  fc_MemSizeMib : Z;
  fc_HostDevName : string;
  fc_MacAddress : string;
  fc_GuestIP : list Z;
  fc_GuestMask : list Z;
  fc_Gateway : list Z;
  fc_VsockCID : Z;
  fc_KernelImagePath : string;
  fc_KernelArgs : string;
}.

Class Host (W : Type) := {
  LinkAdd : string → ST W unit;
  LinkSetUp : string → ST W unit;
  LinkDel : string → ST W unit;
  LinkByName : string → W → LinkLookup * W;
  nftRun : Context → Batch → ST W unit;
  nftTableExists : Context → W → bool * W;
  Lstat : string → ST W FileKind;
  ReadFile : string → ST W (list Z);
  Remove : string → W → RemoveOutcome * W;
  rand_Read : nat → ST W (list Z);
  NewMachine : Context → FcConfig → option (string * string) → ST W Z;
  machine_Start : Context → Z → ST W unit;
  machine_ResumeVM : Context → Z → ST W unit;
  machine_StopVMM : Z → ST W unit;
}.

(** The documented behaviour of netlink and [nft] on the two kinds of host
    network state: the TAP devices and the sets of the table [inet shiyao].
    A failed operation changes neither. *)
Class HostLaws (W : Type) `{Host W} := {
  taps : W → gset string;
  nft_sets : W → option NftSets;
  LinkAdd_law (t : string) (w : W) r w' : LinkAdd t w = (r, w') →
    nft_sets w' = nft_sets w ∧
    match r with
    | Ok _ => t ∉ taps w ∧ taps w' = {[t]} ∪ taps w
    | Err _ => taps w' = taps w
    end;
  LinkSetUp_law t w r w' : LinkSetUp t w = (r, w') →
    nft_sets w' = nft_sets w ∧ taps w' = taps w;
  LinkDel_law t w r w' : LinkDel t w = (r, w') →
    nft_sets w' = nft_sets w ∧
    match r with
    | Ok _ => taps w' = taps w ∖ {[t]}
    | Err _ => taps w' = taps w
    end;
  LinkByName_law t w r w' : LinkByName t w = (r, w') →
    nft_sets w' = nft_sets w ∧ taps w' = taps w ∧
    match r with
    | LinkFound => t ∈ taps w
    | LinkNotFound => t ∉ taps w
    | LinkFailed _ => True
    end;
  nftTableExists_law ctx w b w' : nftTableExists ctx w = (b, w') →
    nft_sets w' = nft_sets w ∧ taps w' = taps w;
  nftRun_law ctx b w r w' : nftRun ctx b w = (r, w') →
    taps w' = taps w ∧
    match r, b with
    | Ok _, BaseRuleset => nft_sets w' = Some (default [] (nft_sets w))
    | Ok _, Elements cmds =>
        ∃ s s', nft_sets w = Some s ∧ apply_cmds cmds s = Some s' ∧ nft_sets w' = Some s'
    | Err _, _ => nft_sets w' = nft_sets w
    end;
}.

(** ** A simulated host *)

Record SimHost := {
  sim_taps : gset string;
  sim_nft : option NftSets;
  sim_files : gmap string FileKind;
  sim_content : gmap string (list Z);
  sim_machines : gmap Z FcConfig;      (** machines created and not stopped *)
  sim_running : gset Z;
  sim_next : Z;
  sim_random : list Z;
  (** names of the operations that fail *)
  sim_broken : gset string;
}.

Definition sim_empty : SimHost :=
  {| sim_taps := ∅; sim_nft := None; sim_files := ∅; sim_content := ∅; sim_machines := ∅;
     sim_running := ∅; sim_next := 0; sim_random := []; sim_broken := ∅ |}.

Definition sim_fails (op : string) (w : SimHost) : bool := bool_decide (op ∈ sim_broken w).
Definition sim_error (op : string) : error := Errorf op [].

Definition set_taps (t : gset string) (w : SimHost) : SimHost :=
  {| sim_taps := t; sim_nft := sim_nft w; sim_files := sim_files w;
     sim_content := sim_content w; sim_machines := sim_machines w;
     sim_running := sim_running w; sim_next := sim_next w;
     sim_random := sim_random w; sim_broken := sim_broken w |}.
Definition set_nft (n : option NftSets) (w : SimHost) : SimHost :=
  {| sim_taps := sim_taps w; sim_nft := n; sim_files := sim_files w;
     sim_content := sim_content w; sim_machines := sim_machines w;
     sim_running := sim_running w; sim_next := sim_next w;
     sim_random := sim_random w; sim_broken := sim_broken w |}.
Definition set_files (f : gmap string FileKind) (w : SimHost) : SimHost :=
  {| sim_taps := sim_taps w; sim_nft := sim_nft w; sim_files := f;
     sim_content := sim_content w; sim_machines := sim_machines w;
     sim_running := sim_running w; sim_next := sim_next w;
     sim_random := sim_random w; sim_broken := sim_broken w |}.
Definition set_machines (m : gmap Z FcConfig) (run : gset Z) (n : Z) (w : SimHost) : SimHost :=
  {| sim_taps := sim_taps w; sim_nft := sim_nft w; sim_files := sim_files w;
     sim_content := sim_content w; sim_machines := m;
     sim_running := run; sim_next := n;
     sim_random := sim_random w; sim_broken := sim_broken w |}.
Definition set_broken (b : gset string) (w : SimHost) : SimHost :=
  {| sim_taps := sim_taps w; sim_nft := sim_nft w; sim_files := sim_files w;
     sim_content := sim_content w; sim_machines := sim_machines w;
     sim_running := sim_running w; sim_next := sim_next w;
     sim_random := sim_random w; sim_broken := b |}.

(** Run [f] unless the switch of [op] or the context makes it fail. *)
Definition sim_op {A} (op : string) (f : SimHost → result A * SimHost) : ST SimHost A :=
  λ w, if sim_fails op w then (Err (sim_error op), w) else f w.

#[export] Instance sim_host : Host SimHost := {
  LinkAdd t := sim_op "LinkAdd" (λ w,
    if bool_decide (t ∈ sim_taps w) then (Err (sim_error "exists"), w)
    else (Ok tt, set_taps ({[t]} ∪ sim_taps w) w));
  LinkSetUp t := sim_op "LinkSetUp" (λ w, (Ok tt, w));
  LinkDel t := sim_op "LinkDel" (λ w, (Ok tt, set_taps (sim_taps w ∖ {[t]}) w));
  LinkByName t w :=
    if sim_fails "LinkByName" w then (LinkFailed (sim_error "LinkByName"), w)
    else (if bool_decide (t ∈ sim_taps w) then LinkFound else LinkNotFound, w);
  nftRun ctx b := sim_op "nftRun" (λ w,
    match ctx_err ctx, b with
    | Some e, _ => (Err e, w)
    | None, BaseRuleset => (Ok tt, set_nft (Some (default [] (sim_nft w))) w)
    | None, Elements cmds =>
        match (s ← sim_nft w; apply_cmds cmds s) with
        | Some s' => (Ok tt, set_nft (Some s') w)
        | None => (Err (sim_error "nft"), w)
        end
    end);
  nftTableExists ctx w := (bool_decide (is_Some (sim_nft w)), w);
  Lstat path := sim_op "Lstat" (λ w,
    match sim_files w !! path with
    | Some k => (Ok k, w)
    | None => (Err (sim_error "ENOENT"), w)
    end);
  ReadFile path := sim_op "ReadFile" (λ w,
    match sim_content w !! path with
    | Some c => (Ok c, w)
    | None => (Err (sim_error "ENOENT"), w)
    end);
  Remove path w :=
    if sim_fails "Remove" w then (RemoveFailed (sim_error "Remove"), w)
    else match sim_files w !! path with
         | Some _ => (Removed, set_files (base.delete path (sim_files w)) w)
         | None => (NotExist, w)
         end;
  rand_Read n := sim_op "rand_Read" (λ w, (Ok (take n (sim_random w ++ repeat 0 n)), w));
  NewMachine ctx cfg snap := sim_op "NewMachine" (λ w,
    (Ok (sim_next w),
     set_machines (<[sim_next w := cfg]> (sim_machines w)) (sim_running w) (sim_next w + 1) w));
  machine_Start ctx m := sim_op "Start" (λ w,
    (Ok tt, set_machines (sim_machines w) ({[m]} ∪ sim_running w) (sim_next w) w));
  machine_ResumeVM ctx m := sim_op "ResumeVM" (λ w,
    (Ok tt, set_machines (sim_machines w) ({[m]} ∪ sim_running w) (sim_next w) w));
  machine_StopVMM m := sim_op "StopVMM" (λ w,
    (Ok tt, set_machines (base.delete m (sim_machines w)) (sim_running w ∖ {[m]})
                         (sim_next w) w));
}.

#[export] Instance sim_host_laws : HostLaws SimHost.
Proof.
  refine {| taps := sim_taps; nft_sets := sim_nft |}; cbn; unfold sim_op;
    intros; repeat (case_bool_decide || case_match); simplify_eq/=; try done;
    try (split; [done|]); try naive_solver.
  match goal with H : _ ≫= _ = Some _ |- _ => apply bind_Some in H as (s & Hs & Ha) end.
  eauto.
Defined.
