(* ===== verification/Allocation.v ===== *)
(** * core/network: TAP devices, firewall entries and the allocation of a VM

    [tap.go], the effects of [nftables.go] and [allocation.go].  An
    [Allocation] owns the TAP device and the firewall entries of one VM and
    the lease of its addresses.  The closures of [a.cleanup] are the two
    constructors of [CleanupStep]; they read [a.cfg] when they run. *)

From S2P Require Import Prelude GoStrings GoNet Network Ipam Host.
Open Scope Z_scope.

Section Tap.
Context {W : Type} `{Host W}.
Implicit Types (w : W) (cfg : Config).

Definition SetupTAP (cfg : Config) : ST W unit := λ w,
  match LinkAdd (TapName cfg) w with
  | (Err e, w) => (Err (Errorf "add tap device %s: %w" [e]), w)
  | (Ok _, w) =>
      match LinkSetUp (TapName cfg) w with
      | (Ok _, w) => (Ok tt, w)
      | (Err e, w) =>
          match LinkDel (TapName cfg) w with
          | (Err ce, w) =>
              (Err (Errorf "bring up tap device %s: %w (also failed to remove tap: %v)" [e; ce]), w)
          | (Ok _, w) => (Err (Errorf "bring up tap device %s: %w" [e]), w)
          end
      end
  end.

Definition CleanupTAP (tapName : string) : ST W unit := λ w,
  match LinkByName tapName w with
  | (LinkNotFound, w) => (Ok tt, w)
  | (LinkFailed e, w) => (Err (Errorf "find tap device %s: %w" [e]), w)
  | (LinkFound, w) =>
      match LinkDel tapName w with
      | (Err e, w) => (Err (Errorf "remove tap device %s: %w" [e]), w)
      | (Ok _, w) => (Ok tt, w)
      end
  end.

Definition SetupFirewall (ctx : Context) (cfg : Config) : ST W unit := λ w,
  match validateNftConfig cfg with
  | Err e => (Err e, w)
  | Ok _ =>
      let '(exists_, w) := nftTableExists ctx w in
      let '(r, w) := if negb exists_
                     then st_wrap "initialize nftables policy: %w" (nftRun ctx BaseRuleset) w
                     else (Ok tt, w) in
      match r with
      | Err e => (Err e, w)
      | Ok _ => st_wrap "add nftables policy for tap %s: %w" (nftRun ctx (nftAddVM cfg)) w
      end
  end.

Definition CleanupFirewall (ctx : Context) (cfg : Config) : ST W unit := λ w,
  match validateNftConfig cfg with
  | Err e => (Err e, w)
  | Ok _ => st_wrap "remove nftables policy for tap %s: %w" (nftRun ctx (nftDeleteVM cfg)) w
  end.

(** ** Allocation *)

Inductive CleanupStep := Clean_TAP | Clean_Firewall.

Record Allocation := mkAllocation {
  a_cfg : Config;
  a_cid : Z;
  a_cleanup : list CleanupStep;
  a_released : bool;
}.

(** [Acquire] on a pool that may be nil. *)
Definition Acquire (vmID : string) (base : Config) : ST (option IPAMPool) Allocation := λ pool,
  match pool with
  | None => (Err (Errorf "network: nil IPAM pool" []), None)
  | Some p =>
      match Allocate vmID base p with
      | (Err e, p) => (Err e, Some p)
      | (Ok (cfg, cid), p) =>
          (Ok {| a_cfg := cfg; a_cid := cid; a_cleanup := []; a_released := false |}, Some p)
      end
  end.

Definition with_cleanup (c : list CleanupStep) (a : Allocation) : Allocation :=
  {| a_cfg := a_cfg a; a_cid := a_cid a; a_cleanup := c; a_released := a_released a |}.
Definition set_released (a : Allocation) : Allocation :=
  {| a_cfg := a_cfg a; a_cid := a_cid a; a_cleanup := a_cleanup a; a_released := true |}.

Definition Setup (ctx : Context) : ST (Allocation * W) unit := λ '(a, w),
  if a_released a then (Err (Errorf "network: allocation already released" []), (a, w))
  else if negb (bool_decide (a_cleanup a = [])) then
    (Err (Errorf "network: allocation already set up" []), (a, w))
  else
    match SetupTAP (a_cfg a) w with
    | (Err e, w) => (Err (Errorf "setup tap: %w" [e]), (a, w))
    | (Ok _, w) =>
        let a := with_cleanup (a_cleanup a ++ [Clean_TAP]) a in
        match SetupFirewall ctx (a_cfg a) w with
        | (Err e, w) => (Err (Errorf "setup firewall: %w" [e]), (a, w))
        | (Ok _, w) => (Ok tt, (with_cleanup (a_cleanup a ++ [Clean_Firewall]) a, w))
        end
    end.

Definition run_step (ctx : Context) (cfg : Config) (s : CleanupStep) : ST W unit :=
  match s with
  | Clean_TAP => CleanupTAP (TapName cfg)
  | Clean_Firewall => CleanupFirewall ctx cfg
  end.

(** The loop of [Release] on the steps in the order it visits them, last
    recorded first: the errors met and the steps that failed. *)
Fixpoint run_cleanup (ctx : Context) (cfg : Config) (steps : list CleanupStep) (w : W)
  : list error * list CleanupStep * W :=
  match steps with
  | [] => ([], [], w)
  | s :: steps =>
      let '(r, w) := run_step ctx cfg s w in
      let '(errs, remaining, w) := run_cleanup ctx cfg steps w in
      match r with
      | Ok _ => (errs, remaining, w)
      | Err e => (Errorf "cleanup step %d: %w" [e] :: errs, s :: remaining, w)
      end
  end.

Definition alloc_Release (ctx : Context) : ST (IPAMPool * Allocation * W) unit := λ '(p, a, w),
  if a_released a then (Ok tt, (p, a, w))
  else
    let '(errs, remaining, w) := run_cleanup ctx (a_cfg a) (reverse (a_cleanup a)) w in
    let a := with_cleanup remaining a in
    match errs with
    | _ :: _ => (Err (Joined errs), (p, a, w))
    | [] => (Ok tt, (Release (GuestIP (a_cfg a)) (a_cid a) p, set_released a, w))
    end.

(** ** What a release does *)

Lemma run_cleanup_errs ctx cfg steps w errs rem w' :
  run_cleanup ctx cfg steps w = (errs, rem, w') → (errs = [] ↔ rem = []) ∧ rem ⊆ steps.
Proof.
  revert w errs rem w'. induction steps as [|s steps IH]; intros w errs rem w'; cbn.
  - intros [= <- <- <-]. done.
  - destruct (run_step ctx cfg s w) as [r w1].
    destruct (run_cleanup ctx cfg steps w1) as [[errs1 rem1] w2] eqn:E.
    destruct (IH _ _ _ _ E) as [Hiff Hsub].
    destruct r; intros [= <- <- <-]; split; try done; set_solver.
Qed.

Lemma release_cases ctx p a w r p' a' w' :
  alloc_Release ctx (p, a, w) = (r, (p', a', w')) →
  a_cfg a' = a_cfg a ∧ a_cid a' = a_cid a ∧
  if a_released a then r = Ok tt ∧ p' = p ∧ a' = a ∧ w' = w
  else match r with
       | Ok _ => p' = Release (GuestIP (a_cfg a)) (a_cid a) p
                 ∧ a_released a' = true ∧ a_cleanup a' = []
       | Err _ => p' = p ∧ a_released a' = false ∧ a_cleanup a' ≠ []
                  ∧ a_cleanup a' ⊆ a_cleanup a
       end.
Proof.
  unfold alloc_Release. destruct (a_released a) eqn:Hr; [by intros [= <- <- <- <-]|].
  destruct (run_cleanup ctx (a_cfg a) (reverse (a_cleanup a)) w) as [[errs rem] w1] eqn:E.
  destruct (run_cleanup_errs _ _ _ _ _ _ _ E) as [Hiff Hsub].
  destruct errs as [|e errs]; intros [= <- <- <- <-]; cbn; repeat split; try naive_solver.
  intros s Hs. apply elem_of_reverse. auto.
Qed.

Lemma setup_keeps_lease ctx a w r a' w' :
  Setup ctx (a, w) = (r, (a', w')) →
  a_cfg a' = a_cfg a ∧ a_cid a' = a_cid a ∧ a_released a' = a_released a.
Proof. unfold Setup. repeat case_match; naive_solver. Qed.
End Tap.

#[global] Instance CleanupStep_eq_dec : EqDecision CleanupStep.
Proof. solve_decision. Defined.

(** ** Host resources are given back *)

(** [SetupTAP] could neither bring the device up nor remove it. *)
Definition tap_abandoned {A} (r : result A) : bool :=
  match r with
  | Err (Errorf outer [Errorf inner _]) =>
      String.eqb outer "setup tap: %w" &&
      String.eqb inner "bring up tap device %s: %w (also failed to remove tap: %v)"
  | _ => false
  end.

Section Owned.
Context {W : Type} `{HostLaws W}.
Context (cfg : Config) (T0 : gset string) (s0 : NftSets).
Hypothesis tap_new : TapName cfg ∉ T0.
Hypothesis entries_new : tap_fresh (TapName cfg) s0.
Hypothesis ports_distinct : NoDup (AllowedPorts cfg).

(** The host is the initial one plus what the recorded cleanup steps undo. *)
Definition host_owned (steps : list CleanupStep) (w : W) : Prop :=
  taps w = (if decide (Clean_TAP ∈ steps) then {[TapName cfg]} ∪ T0 else T0) ∧
  default [] (nft_sets w) =
    (if decide (Clean_Firewall ∈ steps) then reverse (vm_elements cfg) ++ s0 else s0).

(** Only which steps are recorded matters, not their order. *)
#[global] Instance host_owned_proper : Proper ((≡ₚ) ==> (=) ==> iff) host_owned.
Proof.
  intros l k Hp w ? <-. unfold host_owned.
  rewrite (decide_ext (Clean_TAP ∈ l) (Clean_TAP ∈ k)) by by rewrite Hp.
  by rewrite (decide_ext (Clean_Firewall ∈ l) (Clean_Firewall ∈ k)) by by rewrite Hp.
Qed.

Lemma vm_add_result s s' :
  apply_cmds (pair act_add <$> vm_elements cfg) s = Some s' → s = s0 →
  s' = reverse (vm_elements cfg) ++ s0.
Proof.
  intros Ha ->. rewrite apply_add_fresh in Ha; [by injection Ha|..].
  - by apply vm_elements_NoDup.
  - intros e He. eapply fresh_not_mem; [done|]. by apply vm_elements_tap.
Qed.

Lemma cleanup_tap_owned rest w r w' :
  Clean_TAP ∉ rest → host_owned (Clean_TAP :: rest) w →
  CleanupTAP (TapName cfg) w = (r, w') →
  host_owned (match r with Ok _ => rest | Err _ => Clean_TAP :: rest end) w'.
Proof.
  intros Hnot [Ht Hn]. unfold CleanupTAP.
  rewrite decide_True in Ht by constructor.
  destruct (LinkByName (TapName cfg) w) as [l w1] eqn:E.
  destruct (LinkByName_law _ _ _ _ E) as (Hn1 & Ht1 & Hl).
  assert (∀ l, (Clean_Firewall ∈ Clean_TAP :: l) ↔ Clean_Firewall ∈ l) as Hfw by set_solver.
  destruct l as [| |e].
  - destruct (LinkDel (TapName cfg) w1) as [r2 w2] eqn:E2.
    destruct (LinkDel_law _ _ _ _ E2) as [Hn2 Ht2].
    destruct r2; intros [= <- <-]; split; rewrite ?Hn2, ?Hn1, ?Hn, ?Ht2, ?Ht1, ?Ht.
    + rewrite decide_False by done. set_solver.
    + apply decide_ext, Hfw.
    + by rewrite decide_True by constructor.
    + done.
  - exfalso. apply Hl. rewrite Ht. set_solver.
  - intros [= <- <-]. split; rewrite ?Hn1, ?Ht1; [|done].
    by rewrite decide_True by constructor.
Qed.

Lemma cleanup_firewall_owned ctx rest w r w' :
  Clean_Firewall ∉ rest → host_owned (Clean_Firewall :: rest) w →
  CleanupFirewall ctx cfg w = (r, w') →
  host_owned (match r with Ok _ => rest | Err _ => Clean_Firewall :: rest end) w'.
Proof.
  intros Hnot [Ht Hn]. unfold CleanupFirewall, st_wrap.
  rewrite decide_True in Hn by constructor.
  assert (∀ l, (Clean_TAP ∈ Clean_Firewall :: l) ↔ Clean_TAP ∈ l) as Htp by set_solver.
  destruct (validateNftConfig cfg).
  2: { intros [= <- <-]. split; [done|]. by rewrite decide_True by constructor. }
  destruct (nftRun ctx (nftDeleteVM cfg) w) as [r2 w2] eqn:E.
  destruct (nftRun_law _ _ _ _ _ E) as [Ht2 Hn2].
  destruct r2; intros [= <- <-]; split; rewrite ?Ht2, ?Ht.
  - apply decide_ext, Htp.
  - destruct Hn2 as (s & s' & Hs & Ha & ->). rewrite Hs in Hn. cbn in Hn. subst s. cbn.
    rewrite decide_False by done.
    rewrite (vm_delete_after_add cfg s0) in Ha; [by injection Ha|done|done|].
    apply apply_add_fresh; [by apply vm_elements_NoDup|].
    intros e He. eapply fresh_not_mem; [done|]. by apply vm_elements_tap.
  - done.
  - rewrite Hn2, Hn. by rewrite decide_True by constructor.
Qed.

Lemma run_cleanup_owned ctx acc steps w errs rem w' :
  NoDup (acc ++ steps) → host_owned (acc ++ steps) w →
  run_cleanup ctx cfg steps w = (errs, rem, w') →
  host_owned (acc ++ rem) w' ∧ NoDup (acc ++ rem).
Proof.
  revert acc w errs rem w'.
  induction steps as [|s steps IH]; intros acc w errs rem w' Hnd Hown; cbn.
  - by intros [= <- <- <-].
  - destruct (run_step ctx cfg s w) as [r w1] eqn:Er.
    destruct (run_cleanup ctx cfg steps w1) as [[errs1 rem1] w2] eqn:E.
    assert (s :: acc ++ steps ≡ₚ acc ++ s :: steps) as Hp by apply Permutation_middle.
    rewrite <- Hp in Hnd, Hown.
    pose proof Hnd as [Hs Hnd']%NoDup_cons.
    assert (host_owned (match r with Ok _ => acc ++ steps | Err _ => s :: acc ++ steps end) w1)
      as Hown1.
    { destruct s; cbn in Er; [by eapply cleanup_tap_owned|by eapply cleanup_firewall_owned]. }
    destruct r; intros [= <- <- <-].
    + by eapply IH.
    + destruct (IH (s :: acc) w1 errs1 rem1 w2) as [Ho Hn]; [done..|].
      assert (s :: acc ++ rem1 ≡ₚ acc ++ s :: rem1) as Hp' by apply Permutation_middle.
      by rewrite <- Hp'.
Qed.

Lemma setup_owned ctx a w r a' w' :
  a_cfg a = cfg → a_cleanup a = [] → host_owned [] w →
  Setup ctx (a, w) = (r, (a', w')) → tap_abandoned r = false →
  host_owned (a_cleanup a') w' ∧ NoDup (a_cleanup a').
Proof.
  intros Hcfg Hcl [Ht Hn] HS Hab. revert HS. unfold Setup.
  destruct (a_released a); [intros [= <- <- <-]; rewrite Hcl; by repeat constructor|].
  rewrite Hcl, Hcfg, bool_decide_eq_true_2 by done. cbn [negb]. unfold SetupTAP.
  destruct (LinkAdd (TapName cfg) w) as [r1 w1] eqn:E1.
  destruct (LinkAdd_law _ _ _ _ E1) as [Hn1 Ht1].
  destruct r1; [|intros [= <- <- <-]; rewrite Hcl; repeat split;
                 [by rewrite Ht1|by rewrite Hn1|constructor]].
  destruct Ht1 as [Hnew Ht1].
  destruct (LinkSetUp (TapName cfg) w1) as [r2 w2] eqn:E2.
  destruct (LinkSetUp_law _ _ _ _ E2) as [Hn2 Ht2].
  destruct r2.
  2: { destruct (LinkDel (TapName cfg) w2) as [r3 w3] eqn:E3.
       destruct (LinkDel_law _ _ _ _ E3) as [Hn3 Ht3].
       destruct r3; intros [= <- <- <-]; [|done].
       rewrite Hcl. repeat split; [|by rewrite Hn3, Hn2, Hn1|constructor].
       rewrite Ht3, Ht2, Ht1, Ht. cbn. set_solver. }
  assert (host_owned [Clean_TAP] w2) as Hown2.
  { split; cbn; [by rewrite Ht2, Ht1, Ht|by rewrite Hn2, Hn1]. }
  cbn [a_cfg with_cleanup]. rewrite Hcfg. unfold SetupFirewall, st_wrap.
  destruct (validateNftConfig cfg);
    [|intros [= <- <- <-]; cbn; rewrite ?Hcl; split; [done|apply NoDup_singleton]].
  destruct (nftTableExists ctx w2) as [b w3] eqn:E3.
  destruct (nftTableExists_law _ _ _ _ E3) as [Hn3 Ht3].
  destruct (if negb b then _ else _) as [r4 w4] eqn:E4.
  assert (host_owned [Clean_TAP] w4) as Hown4.
  { destruct Hown2 as [Hw2t Hw2n]. destruct b; cbn in E4.
    - injection E4 as <- <-. split; [by rewrite Ht3|by rewrite Hn3].
    - destruct (nftRun ctx BaseRuleset w3) as [r5 w5] eqn:E5.
      destruct (nftRun_law _ _ _ _ _ E5) as [Ht5 Hn5].
      destruct r5; injection E4 as <- <-; split; rewrite ?Ht5, ?Hn5, ?Ht3; cbn;
        rewrite ?Hn3; done. }
  destruct r4; [|intros [= <- <- <-]; cbn; rewrite ?Hcl; split; [done|apply NoDup_singleton]].
  destruct (nftRun ctx (nftAddVM cfg) w4) as [r5 w5] eqn:E5.
  destruct (nftRun_law _ _ _ _ _ E5) as [Ht5 Hn5].
  destruct Hown4 as [Hw4t Hw4n]. cbn in Hw4t, Hw4n.
  destruct r5; intros [= <- <- <-]; cbn; rewrite ?Hcl; cbn.
  - destruct Hn5 as (s & s' & Hs & Ha & Hs'). rewrite Hs in Hw4n. cbn in Hw4n.
    split; [split; cbn|].
    + by rewrite Ht5.
    + rewrite Hs'. cbn. by eapply vm_add_result.
    + apply NoDup_cons. split; [set_solver|apply NoDup_singleton].
  - split; [split; cbn; [by rewrite Ht5|by rewrite Hn5]|apply NoDup_singleton].
Qed.
End Owned.

Lemma setup_abandoned {W} `{HostLaws W} ctx a (w : W) r a' w' :
  a_released a = false → a_cleanup a = [] → Setup ctx (a, w) = (r, (a', w')) → tap_abandoned r = true →
  a' = a ∧ taps w' = {[TapName (a_cfg a)]} ∪ taps w ∧ nft_sets w' = nft_sets w.
Proof.
  intros Hr Hcl. unfold Setup. rewrite Hr, Hcl, bool_decide_eq_true_2 by done. cbn [negb]. unfold SetupTAP.
  destruct (LinkAdd (TapName (a_cfg a)) w) as [[u|e] w1] eqn:E1; [|by intros [= <- <- <-]].
  destruct (LinkAdd_law _ _ _ _ E1) as (Hn1 & _ & Ht1).
  destruct (LinkSetUp (TapName (a_cfg a)) w1) as [[u2|e2] w2] eqn:E2; destruct (LinkSetUp_law _ _ _ _ E2) as [Hn2 Ht2].
  - destruct (SetupFirewall ctx _ w2) as [[u3|e3] w3]; [by intros [= <- <- <-]|]. intros [= <- <- <-]. by destruct e3.
  - destruct (LinkDel (TapName (a_cfg a)) w2) as [[u3|e3] w3] eqn:E3; [by intros [= <- <- <-]|].
    destruct (LinkDel_law _ _ _ _ E3) as [Hn3 Ht3]. intros [= <- <- <-] _. by rewrite Ht3, Ht2, Ht1, Hn3, Hn2, Hn1.
Qed.

(** One call of [Release] on the pool, the allocation and the host, with any
    outcome. *)
Definition release_call {W} `{Host W} (c c' : IPAMPool * Allocation * W) : Prop :=
  ∃ ctx r, alloc_Release ctx c = (r, c').

Section Attempts.
Context {W : Type} `{HostLaws W}.
Context (cfg : Config) (T0 : gset string) (s0 : NftSets) (p1 : IPAMPool) (cid : Z).
Hypothesis tap_new : TapName cfg ∉ T0.
Hypothesis entries_new : tap_fresh (TapName cfg) s0.
Hypothesis ports_distinct : NoDup (AllowedPorts cfg).

Definition attempt_inv (c : IPAMPool * Allocation * W) : Prop :=
  let '(p, a, w) := c in
  a_cfg a = cfg ∧ a_cid a = cid ∧
  host_owned cfg T0 s0 (a_cleanup a) w ∧ NoDup (a_cleanup a) ∧
  (if a_released a then p = Release (GuestIP cfg) cid p1 ∧ a_cleanup a = [] else p = p1).

Lemma attempt_inv_step c c' : release_call c c' → attempt_inv c → attempt_inv c'.
Proof.
  destruct c as [[p a] w], c' as [[p' a'] w']. intros (ctx & r & Hr).
  intros (Hcfg & Hcid & Hown & Hnd & Hpool). revert Hr. unfold alloc_Release.
  destruct (a_released a) eqn:Hrel; [by intros [= <- <- <- <-]; cbn; rewrite Hrel|].
  destruct (run_cleanup _ _ _ _) as [[errs rem] w1] eqn:E. rewrite Hcfg in E.
  destruct (run_cleanup_errs _ _ _ _ _ _ _ E) as [Hiff _].
  destruct (run_cleanup_owned cfg T0 s0 tap_new entries_new ports_distinct ctx []
              (reverse (a_cleanup a)) w errs rem w1) as [Hown' Hnd']; [| |done|].
  1,2: cbn; by rewrite reverse_Permutation.
  destruct errs as [|e errs]; intros [= <- <- <- <-]; cbn in *; rewrite ?Hrel, ?Hcfg, ?Hcid, ?Hpool.
  - rewrite (proj1 Hiff eq_refl) in *. repeat (split; [done|]). done.
  - repeat (split; [done|]). done.
Qed.
End Attempts.

(** An allocation without recorded steps is released without touching the host. *)
Lemma release_nothing {W} `{HostLaws W} p a (w : W) p2 a2 w2 :
  a_cleanup a = [] → a_released a = false → rtc release_call (p, a, w) (p2, a2, w2) →
  w2 = w ∧ if a_released a2 then p2 = Release (GuestIP (a_cfg a)) (a_cid a) p else p2 = p.
Proof.
  intros Hcl Hrel Hrtc. set (inv := λ c : IPAMPool * Allocation * W, let '(q, b, v) := c in
    v = w ∧ a_cleanup b = [] ∧ a_cfg b = a_cfg a ∧ a_cid b = a_cid a ∧
    if a_released b then q = Release (GuestIP (a_cfg a)) (a_cid a) p else q = p).
  assert (inv (p, a, w)) as Hinv by (cbn; by rewrite Hrel).
  assert (inv (p2, a2, w2)) as (? & _ & _ & _ & ?); [|done].
  induction Hrtc as [|c [[q b] v] c2 (ctx & r & Hstep) _ IH]; [done|]. apply IH. clear IH.
  destruct c as [[q0 b0] v0]. destruct Hinv as (-> & Hc & Hg & Hi & Hp). revert Hstep. unfold alloc_Release.
  destruct (a_released b0) eqn:Hb; [intros [= <- <- <- <-]; cbn; by rewrite Hb|].
  rewrite Hc. cbn. intros [= <- <- <- <-]. cbn. by rewrite Hg, Hi, Hp.
Qed.

(** C10: After [Setup], whether it succeeded or failed half way, and any number of
    [Release] calls: once the allocation is released, the firewall sets are
    those of before and the lease went back to the pool exactly once; the TAP
    devices are those of before too, unless [Setup] reported that it could
    neither bring up nor remove the new one, which then stays.  While the
    allocation is not released the lease is still held.  The configuration
    lists no port twice, and neither its TAP name nor its firewall elements
    are in use before. *)
Theorem setup_and_releases_leave_no_trace {W} `{HostLaws W}
    ctx p a w r a1 w1 p2 a2 w2 :
  a_cleanup a = [] → a_released a = false →
  TapName (a_cfg a) ∉ taps w → tap_fresh (TapName (a_cfg a)) (default [] (nft_sets w)) →
  NoDup (AllowedPorts (a_cfg a)) →
  Setup ctx (a, w) = (r, (a1, w1)) →
  rtc release_call (p, a1, w1) (p2, a2, w2) →
  if a_released a2
  then taps w2 = (if tap_abandoned r then {[TapName (a_cfg a)]} ∪ taps w else taps w)
       ∧ default [] (nft_sets w2) = default [] (nft_sets w)
       ∧ p2 = Release (GuestIP (a_cfg a)) (a_cid a) p
  else p2 = p.
Proof.
  intros Hcl Hrel Hnew Hfresh Hports HS Hrtc. destruct (tap_abandoned r) eqn:Hab.
  { destruct (setup_abandoned _ _ _ _ _ _ Hrel Hcl HS Hab) as (-> & Ht & Hn).
    destruct (release_nothing _ _ _ _ _ _ Hcl Hrel Hrtc) as [-> Hp]. destruct (a_released a2); [|done].
    by rewrite Ht, Hn. }
  destruct (setup_keeps_lease _ _ _ _ _ _ HS) as (Hc1 & Hid1 & Hr1).
  destruct (setup_owned (a_cfg a) (taps w) _ Hnew Hfresh Hports ctx a w r a1 w1)
    as [Hown Hnd]; try done.
  assert (attempt_inv (a_cfg a) (taps w) (default [] (nft_sets w)) p (a_cid a) (p, a1, w1)) as Hinv.
  { cbn. rewrite Hr1, Hrel. done. }
  remember (p, a1, w1) as c eqn:Ec. remember (p2, a2, w2) as c' eqn:Ec'. clear Ec.
  induction Hrtc as [c|c c1 c2 Hstep _ IH]; subst.
  - destruct Hinv as (_ & _ & [Ht Hn] & _ & Hp).
    destruct (a_released a2); [|done]. destruct Hp as [-> Hp]. rewrite Hp in *. done.
  - apply IH; [done|]. by eapply attempt_inv_step.
Qed.

Definition leak_alloc : Allocation :=
  {| a_cfg := DefaultConfig "shy0"; a_cid := 3; a_cleanup := []; a_released := false |}.
Definition leak_host : SimHost := set_broken {["LinkSetUp"; "LinkDel"]} sim_empty.
(** The comment of [Setup] says that a failed setup stays owned by the
    allocation; a device that could be added but neither brought up nor
    removed is not, and outlives a successful [Release]. *)
Theorem abandoned_tap_is_not_owned :
  let '(r, (a1, w1)) := Setup Background (leak_alloc, leak_host) in
  let w1 := set_broken ∅ w1 in
  let '(r2, (p2, a2, w2)) := alloc_Release Background (NewIPAMPool, a1, w1) in
  tap_abandoned r = true ∧ a_cleanup a1 = [] ∧ r2 = Ok tt ∧ a_released a2 = true ∧ "shy0" ∈ sim_taps w2.
Proof.
  cbn -[NewIPAMPool]. by repeat split.
Qed.

(** A setup that succeeds, a release that fails once and is retried. *)
Lemma setup_and_releases_leave_no_trace_witness :
  let s := Setup Background (leak_alloc, sim_empty) in
  let failed := alloc_Release Background (NewIPAMPool, s.2.1, set_broken {["LinkDel"]} s.2.2) in
  let '(p2, a2, w2) := (alloc_Release Background (NewIPAMPool, s.2.1, s.2.2)).2 in
  is_ok failed.1 = false ∧ taps w2 = ∅ ∧ default [] (nft_sets w2) = [].
Proof.
  pose proof (setup_and_releases_leave_no_trace Background NewIPAMPool leak_alloc sim_empty
    (Setup Background (leak_alloc, sim_empty)).1 (Setup Background (leak_alloc, sim_empty)).2.1
    (Setup Background (leak_alloc, sim_empty)).2.2) as Hr.
  intros s failed. destruct (alloc_Release Background (NewIPAMPool, s.2.1, s.2.2)) as [r [[p2 a2] w2]] eqn:E.
  specialize (Hr p2 a2 w2). assert (a_released a2 = true) as Ha.
  { change a2 with (r, (p2, a2, w2)).2.1.2. rewrite <- E. vm_compute. reflexivity. }
  rewrite Ha in Hr. cbn [snd]. split; [vm_compute; reflexivity|].
  destruct Hr as (Ht & Hn & _); [done|done|by vm_compute|constructor|
    |by vm_compute| |done].
  - apply (bool_decide_eq_true_1 (NoDup _)). vm_compute. reflexivity.
  - apply rtc_once. exists Background, r. done.
Defined.
