(* ===== verification/VmmConfig.v ===== *)
(** * core/vmm: configuration, lifecycle states and the checks of firecracker.go
    and snapshot.go *)

From Stdlib Require Import Ascii.
From S2P Require Import Prelude GoStrings GoCrypto GoNet Network Host.
Open Scope Z_scope.

(** ** lifecycle.go *)

Inductive State :=
  | StateCreated | StateConfiguring | StateConfigured | StateStarting
  | StateRunning | StateStopping | StateStopped | StateCleanupFailed.
#[global] Instance State_eq_dec : EqDecision State.
Proof. solve_decision. Defined.

(** The [iota] value of a state, and the name of any [uint8]. *)
Definition State_to_uint8 (s : State) : Z :=
  match s with
  | StateCreated => 0 | StateConfiguring => 1 | StateConfigured => 2 | StateStarting => 3
  | StateRunning => 4 | StateStopping => 5 | StateStopped => 6 | StateCleanupFailed => 7
  end.
Definition State_String (s : Z) : string :=
  if s =? 0 then "created" else if s =? 1 then "configuring"
  else if s =? 2 then "configured" else if s =? 3 then "starting"
  else if s =? 4 then "running" else if s =? 5 then "stopping"
  else if s =? 6 then "stopped" else if s =? 7 then "cleanup-failed"
  else "unknown".

(** ** config.go *)

Record vmm_Config := {
  KernelPath : string;
  RootfsPath : string;
  VCPUCount : Z;
  MemSizeMB : Z;
  BootArgs : string;
  GuestAgentPath : string;
}.
Record SnapshotConfig := {
  MemFilePath : string;
  StateFilePath : string;
  EnableResume : bool;
}.
Record SnapshotIntegrity := {
  ExpectedMemHash : string;
  ExpectedStateHash : string;
  KernelHash : string;
  RootfsHash : string;
}.
Definition no_integrity : SnapshotIntegrity :=
  {| ExpectedMemHash := ""; ExpectedStateHash := ""; KernelHash := ""; RootfsHash := "" |}.

Definition vmm_DefaultConfig : vmm_Config :=
  {| KernelPath := ""; RootfsPath := ""; VCPUCount := 2; MemSizeMB := 512;
     BootArgs := "console=ttyS0 reboot=k panic=1 pci=off";
     GuestAgentPath := "/usr/local/bin/shiyao-agent" |}.

Definition vmm_Validate (c : vmm_Config) : result unit :=
  if bool_decide (KernelPath c = "") then Err (Errorf "kernel path is required" [])
  else if bool_decide (RootfsPath c = "") then Err (Errorf "rootfs path is required" [])
  else if VCPUCount c <=? 0 then Err (Errorf "vcpu count must be greater than 0" [])
  else if MemSizeMB c <=? 0 then Err (Errorf "memory size must be greater than 0" [])
  else if bool_decide (GuestAgentPath c = "") then Err (Errorf "guest agent path is required" [])
  else Ok tt.

(** ** firecracker.go *)

(** [net.HardwareAddr.String] *)
Definition mac_text (l : list Z) : string := Join_str (of_bytes ∘ hex_byte <$> l) ":".

Definition generateMAC (vmID : string) : string :=
  let hash := Sum256 (bytes vmID) in
  let h n := nth n hash 0 in
  mac_text [2; Z.land (h 0%nat) 254; h 1%nat; h 2%nat; h 3%nat; h 4%nat].

(** [filepath.IsAbs] on Unix. *)
Definition IsAbs (path : string) : bool := HasPrefix path "/".

Definition init_prefix : string := "init=".

(** The space characters that the guest agent path may not contain: tab,
    carriage return, newline and space. *)
Definition agent_path_blanks : string := of_bytes [9; 13; 10; 32].

Definition guestKernelArgs (bootArgs guestAgentPath : string) : result string :=
  let guestAgentPath := TrimSpace guestAgentPath in
  if bool_decide (guestAgentPath = "") || negb (IsAbs guestAgentPath)
     || ContainsAny guestAgentPath agent_path_blanks then
    Err (Errorf "guest agent path must be an absolute path without whitespace" [])
  else
    let args := Fields (TrimSpace bootArgs) in
    let trusted := filter (λ arg, HasPrefix arg init_prefix = false) args in
    Ok (Join_str (trusted ++ [init_prefix +:+ guestAgentPath]) " ").

(** The characters that a VM id may not contain: slash, backslash, colon,
    star, question mark, double quote, angle brackets and bar. *)
Definition vmid_bad_chars : string := of_bytes [47; 92; 92; 58; 42; 63; 34; 60; 62; 124].

Definition validateVMID (vmID : string) : result unit :=
  if bool_decide (vmID = "") then Err (Errorf "vm ID is required" [])
  else if 64 <? len vmID then Err (Errorf "vm ID is too long" [])
  else if ContainsAny vmID vmid_bad_chars then
    Err (Errorf "vm ID %q contains invalid characters" [])
  else Ok tt.

Section Assets.
Context {W : Type} `{Host W}.

Definition validateRegularFile (path label : string) : ST W unit := λ w,
  if bool_decide (path = "") then (Err (Errorf "%s path is required" []), w)
  else
    match Lstat path w with
    | (Err e, w) => (Err (Errorf "stat %s: %w" [e]), w)
    | (Ok SymbolicLink, w) => (Err (Errorf "%s must not be a symbolic link" []), w)
    | (Ok OtherFile, w) => (Err (Errorf "%s must be a regular file" []), w)
    | (Ok RegularFile, w) => (Ok tt, w)
    end.

Definition validateRuntimeAssets (cfg : vmm_Config) (snap : SnapshotConfig) : ST W unit :=
  (if EnableResume snap then
     validateRegularFile (MemFilePath snap) "snapshot memory file" ;;
     validateRegularFile (StateFilePath snap) "snapshot state file"
   else
     validateRegularFile (KernelPath cfg) "kernel image" ;;
     validateRegularFile (RootfsPath cfg) "root filesystem")%go.

(** ** snapshot.go *)

Definition computeFileHash (path : string) : ST W string :=
  (data <- ReadFile path ;; st_ret (hex_encode (Sum256 data)))%go.

Definition check_hash (path expected read_msg mismatch_msg : string) : ST W unit :=
  if bool_decide (expected = "") then st_ret tt
  else
    (hash <- st_wrap read_msg (computeFileHash path) ;;
     if bool_decide (hash = expected) then st_ret tt
     else st_fail (Errorf mismatch_msg []))%go.

Definition validateSnapshotIntegrity (integ : SnapshotIntegrity) (snap : SnapshotConfig)
  : ST W unit :=
  if bool_decide (ExpectedMemHash integ = "") && bool_decide (ExpectedStateHash integ = "")
  then st_ret tt
  else
    (check_hash (MemFilePath snap) (ExpectedMemHash integ)
       "compute memory file hash: %w" "memory file hash mismatch: expected %s, got %s" ;;
     check_hash (StateFilePath snap) (ExpectedStateHash integ)
       "compute state file hash: %w" "state file hash mismatch: expected %s, got %s")%go.
End Assets.

(** ** The kernel command line has one [init=] *)

Lemma is_cont_ge b : is_cont b = true → 128 ≤ b.
Proof. unfold is_cont. lia. Qed.

Lemma second_ok_ge b0 b1 : second_ok b0 b1 = true → 128 ≤ b1.
Proof. unfold second_ok, in_range, is_cont. repeat case_match; lia. Qed.

(** The bytes that a rune takes: one ASCII byte, or bytes above ASCII. *)
Lemma DecodeRune_bytes l r w :
  DecodeRune l = (r, w) →
  (∃ l', l = r :: l' ∧ w = 1%nat) ∨ Forall (λ b, 128 ≤ b) (take w l).
Proof.
  destruct l as [|b0 l1]; cbn [DecodeRune]; [intros [= <- <-]; right; constructor|].
  destruct (Z.ltb_spec b0 128); [intros [= <- <-]; eauto|]. intros HD. right.
  repeat match type of HD with
         | (if ?c then _ else _) = _ => destruct c eqn:?
         | match ?x with _ => _ end = _ => destruct x
         end;
    injection HD as <- <-; cbn [take];
    repeat match goal with
           | H : _ && _ = true |- _ => apply andb_true_iff in H as [? ?]
           | H : is_cont _ = true |- _ => apply is_cont_ge in H
           | H : second_ok _ _ = true |- _ => apply second_ok_ge in H
           end; by repeat constructor.
Qed.

(** No byte of a non-space rune is the space character. *)
Lemma DecodeRune_no_blank l r w :
  DecodeRune l = (r, w) → IsSpace r = false → 32 ∉ take w l.
Proof.
  intros [(l' & -> & ->)|Hall]%DecodeRune_bytes HS.
  - cbn [take]. intros <-%list_elem_of_singleton. by vm_compute in HS.
  - intros H32. rewrite Forall_forall in Hall. apply Hall in H32. lia.
Qed.

Lemma fields_fuel_step fuel cur l :
  l ≠ [] →
  fields_fuel (S fuel) cur l =
  let '(r, w) := DecodeRune l in
  if IsSpace r
  then match cur with [] => [] | _ => [of_bytes cur] end ++ fields_fuel fuel [] (drop w l)
  else fields_fuel fuel (cur ++ take w l) (drop w l).
Proof. by destruct l. Qed.

Lemma fields_fuel_no_blank fuel cur l s :
  32 ∉ cur → Forall is_byte cur → Forall is_byte l →
  s ∈ fields_fuel fuel cur l → 32 ∉ bytes s.
Proof.
  assert (∀ cur s, 32 ∉ cur → Forall is_byte cur →
    s ∈ (match cur with [] => [] | _ => [of_bytes cur] end) → 32 ∉ bytes s) as Hflush.
  { intros c t Hc Hr. destruct c as [|b c]; [set_solver|].
    intros ->%list_elem_of_singleton. by rewrite bytes_of_bytes. }
  revert cur l. induction fuel as [|fuel IH]; intros cur l Hcur Hrc Hrl.
  { cbn [fields_fuel]. destruct l; by apply Hflush. }
  destruct (decide (l = [])) as [->|Hl]; [by apply Hflush|].
  rewrite fields_fuel_step by done.
  destruct (DecodeRune l) as [r w] eqn:E. destruct (IsSpace r) eqn:HS.
  - rewrite elem_of_app. intros [Hs|Hs]; [by eapply Hflush|].
    apply (IH [] (drop w l)); [set_solver|constructor|by apply Forall_drop|done].
  - apply IH; [|apply Forall_app; split; [done|by apply Forall_take]|by apply Forall_drop].
    rewrite elem_of_app. pose proof (DecodeRune_no_blank _ _ _ E HS). tauto.
Qed.

Lemma Fields_no_blank s f : f ∈ Fields s → 32 ∉ bytes f.
Proof.
  apply fields_fuel_no_blank; [set_solver|constructor|apply bytes_range].
Qed.

Lemma Split_Join l :
  l ≠ [] → Forall (λ s, 32 ∉ bytes s) l → Split (Join_str l " ") " "%char = l.
Proof.
  intros Hne. unfold Split. change (byte_of " "%char) with 32.
  induction l as [|s l IH]; [done|]. intros [Hs Hl]%Forall_cons.
  destruct l as [|t l].
  - cbn [Join_str]. rewrite split_bytes_no_sep by done. cbn. by rewrite of_bytes_bytes.
  - cbn [Join_str]. rewrite !bytes_app. cbn [bytes app].
    change (byte_of " "%char) with 32. rewrite split_bytes_app by done.
    cbn [app]. rewrite fmap_cons, of_bytes_bytes. f_equal.
    apply IH; done.
Qed.

(** The boot command line built for a guest is the configured arguments
    without any [init=] of their own, followed by one [init=] naming the
    trusted guest agent: no configured argument can replace the init. *)
Theorem kernel_args_trusted_init bootArgs agent s :
  guestKernelArgs bootArgs agent = Ok s →
  ∃ args, Split s " "%char = args ++ [init_prefix +:+ TrimSpace agent] ∧
          (∀ a, a ∈ args ↔ a ∈ Fields (TrimSpace bootArgs) ∧ HasPrefix a init_prefix = false) ∧
          IsAbs (TrimSpace agent) = true.
Proof.
  unfold guestKernelArgs.
  destruct (bool_decide (TrimSpace agent = "")); [done|].
  destruct (IsAbs (TrimSpace agent)) eqn:Habs; [|done]. cbn [negb orb].
  destruct (ContainsAny (TrimSpace agent) agent_path_blanks) eqn:Hb; [done|]. intros [= <-].
  exists (filter (λ arg, HasPrefix arg init_prefix = false) (Fields (TrimSpace bootArgs))).
  split; [|split; [|done]].
  - apply Split_Join; [by destruct (filter _ _)|].
    apply Forall_app. split; [|apply Forall_singleton].
    + apply Forall_forall. intros a [_ Ha]%list_elem_of_filter. by eapply Fields_no_blank.
    + rewrite bytes_app, elem_of_app. intros [H32|H32]; [by vm_compute in H32; set_solver|].
      apply ContainsAny_false in Hb. rewrite Forall_forall in Hb.
      apply (Hb 32 H32). cbn. set_solver.
  - intros a. rewrite list_elem_of_filter. tauto.
Qed.

Lemma kernel_args_trusted_init_witness :
  ∃ args, Split "panic=1 init=/agent" " "%char = args ++ [init_prefix +:+ TrimSpace "/agent"].
Proof.
  destruct (kernel_args_trusted_init " panic=1  init=/bin/sh" "/agent" "panic=1 init=/agent") as (args & Hs & _);
    [vm_compute; reflexivity|]. by exists args.
Defined.
