(* ===== verification/Instance.v ===== *)
(** * core/vmm/instance.go: the lifecycle of one microVM

    [Configure], [Start] and [Stop] run their host calls outside the
    instance's mutex.  Each is therefore split at the mutex: the critical
    sections ([configure_begin], [start_begin], ...) are functions on the
    [Instance], the calls in between run on the pool, the lease and the host.
    The methods are the compositions that the code writes; the section
    [Interleaving] runs the same critical sections from many goroutines. *)

From S2P Require Import Prelude GoStrings GoCrypto GoNet Network Ipam Host Allocation VmmConfig.
Open Scope Z_scope.

Record Instance := mkInstance {
  i_ID : string;
  i_InstanceID : string;
  i_SocketPath : string;
  i_cfg : vmm_Config;
  i_network : option Allocation;
  i_GuestCID : Z;                    (** [vsockCfg.GuestCID] *)
  i_snapCfg : SnapshotConfig;
  i_snapInteg : SnapshotIntegrity;
  i_machine : option Z;
  i_state : State;
}.

Definition NewInstance (id socketPath : string) (cfg : vmm_Config) (allocation : option Allocation)
    (guestCID : Z) (snapCfg : SnapshotConfig) : Instance :=
  {| i_ID := id; i_InstanceID := ""; i_SocketPath := socketPath; i_cfg := cfg;
     i_network := allocation; i_GuestCID := guestCID; i_snapCfg := snapCfg;
     i_snapInteg := no_integrity; i_machine := None; i_state := StateCreated |}.

Definition set_state (s : State) (i : Instance) : Instance :=
  {| i_ID := i_ID i; i_InstanceID := i_InstanceID i; i_SocketPath := i_SocketPath i;
     i_cfg := i_cfg i; i_network := i_network i; i_GuestCID := i_GuestCID i;
     i_snapCfg := i_snapCfg i; i_snapInteg := i_snapInteg i; i_machine := i_machine i;
     i_state := s |}.
Definition set_machine (m : option Z) (i : Instance) : Instance :=
  {| i_ID := i_ID i; i_InstanceID := i_InstanceID i; i_SocketPath := i_SocketPath i;
     i_cfg := i_cfg i; i_network := i_network i; i_GuestCID := i_GuestCID i;
     i_snapCfg := i_snapCfg i; i_snapInteg := i_snapInteg i; i_machine := m;
     i_state := i_state i |}.
Definition set_network (n : option Allocation) (i : Instance) : Instance :=
  {| i_ID := i_ID i; i_InstanceID := i_InstanceID i; i_SocketPath := i_SocketPath i;
     i_cfg := i_cfg i; i_network := n; i_GuestCID := i_GuestCID i;
     i_snapCfg := i_snapCfg i; i_snapInteg := i_snapInteg i; i_machine := i_machine i;
     i_state := i_state i |}.
Definition set_InstanceID (s : string) (i : Instance) : Instance :=
  {| i_ID := i_ID i; i_InstanceID := s; i_SocketPath := i_SocketPath i;
     i_cfg := i_cfg i; i_network := i_network i; i_GuestCID := i_GuestCID i;
     i_snapCfg := i_snapCfg i; i_snapInteg := i_snapInteg i; i_machine := i_machine i;
     i_state := i_state i |}.

(** ** Critical sections *)

Definition configure_begin (instanceID : string) (i : Instance) : result unit * Instance :=
  if negb (bool_decide (i_state i = StateCreated)) then
    (Err (Errorf "instance %s cannot be configured in state %s" []), i)
  else (Ok tt, set_InstanceID instanceID (set_state StateConfiguring i)).

(** The end of [Configure]: the machine is stored, or, in the deferred
    function, the state says whether the network was cleaned up. *)
Definition configure_done (machine : Z) (i : Instance) : Instance :=
  set_state StateConfigured (set_machine (Some machine) i).
Definition configure_failed (cleaned : bool) (i : Instance) : Instance :=
  set_state (if cleaned then StateCreated else StateCleanupFailed) i.

Definition start_begin (i : Instance) : result Z * Instance :=
  if negb (bool_decide (i_state i = StateConfigured)) then
    (Err (Errorf "instance %s cannot be started in state %s" []), i)
  else match i_machine i with
       | None => (Err (Errorf "machine not configured" []), i)
       | Some machine => (Ok machine, set_state StateStarting i)
       end.
Definition start_failed (i : Instance) : Instance := set_state StateConfigured i.
Definition start_done (i : Instance) : result unit * Instance :=
  if negb (bool_decide (i_state i = StateStarting)) then
    (Err (Errorf "instance %s start completed in unexpected state %s" []), i)
  else (Ok tt, set_state StateRunning i).

(** [Stop] does nothing unless there is something to stop. *)
Definition stoppable (s : State) : bool :=
  match s with
  | StateRunning | StateConfigured | StateCleanupFailed => true
  | _ => false
  end.
Definition stop_begin (i : Instance) : bool * Instance :=
  if stoppable (i_state i) then (true, set_state StateStopping i) else (false, i).

Definition stop_end (machineStopped networkReleased socketRemoved : bool) (errs : list error)
    (i : Instance) : result unit * Instance :=
  let i := if machineStopped then set_machine None i else i in
  if negb (bool_decide (errs = [])) || negb machineStopped || negb networkReleased
     || negb socketRemoved
  then (Err (Errorf "stop instance %s: %w" [Joined errs]), set_state StateCleanupFailed i)
  else (Ok tt, set_state StateStopped i).

(** ** Methods *)

Section Methods.
Context {W : Type} `{Host W}.

(** The pool, the instance and the host. *)
Definition VM : Type := IPAMPool * Instance * W.

Definition generateInstanceID : ST W string :=
  (b <- rand_Read 16 ;; st_ret (hex_encode b))%go.

(** What [Configure] does between its critical sections: the network
    resources, then the Firecracker machine. *)
Definition fc_config (i : Instance) (netCfg : Config) (guestIP : list Z) (guestNet : IPNet)
    (gatewayIP : list Z) (kernelPath kernelArgs : string) : FcConfig :=
  {| fc_SocketPath := i_SocketPath i; fc_RootDrive := RootfsPath (i_cfg i);
     fc_RootReadOnly := true; fc_VcpuCount := VCPUCount (i_cfg i);
     fc_MemSizeMib := MemSizeMB (i_cfg i); fc_HostDevName := TapName netCfg;
     fc_MacAddress := generateMAC (i_ID i); fc_GuestIP := guestIP;
     fc_GuestMask := net_mask guestNet; fc_Gateway := gatewayIP;
     fc_VsockCID := i_GuestCID i; fc_KernelImagePath := kernelPath;
     fc_KernelArgs := kernelArgs |}.

Definition create_machine (ctx : Context) (i : Instance) (netCfg : Config) : ST W Z := λ w,
  match ParseCIDR (GuestIP netCfg) with
  | None => (Err (Errorf "parse guest IP %q: %w" []), w)
  | Some (guestIP, guestNet) =>
      match ParseIP (HostIP netCfg) with
      | None => (Err (Errorf "parse host/gateway IP %q: invalid IP" []), w)
      | Some gatewayIP =>
          let mk := fc_config i netCfg guestIP guestNet gatewayIP in
          if EnableResume (i_snapCfg i) then
            if bool_decide (MemFilePath (i_snapCfg i) = "")
               || bool_decide (StateFilePath (i_snapCfg i) = "")
            then (Err (Errorf "snapshot restore enabled but snapshot paths are missing" []), w)
            else
              match validateSnapshotIntegrity (i_snapInteg i) (i_snapCfg i) w with
              | (Err e, w) => (Err (Errorf "validate snapshot integrity: %w" [e]), w)
              | (Ok _, w) =>
                  st_wrap "create firecracker machine: %w"
                    (NewMachine ctx (mk "" "")
                       (Some (MemFilePath (i_snapCfg i), StateFilePath (i_snapCfg i)))) w
              end
          else
            match guestKernelArgs (BootArgs (i_cfg i)) (GuestAgentPath (i_cfg i)) with
            | Err e => (Err e, w)
            | Ok kernelArgs =>
                st_wrap "create firecracker machine: %w"
                  (NewMachine ctx (mk (KernelPath (i_cfg i)) kernelArgs) None) w
            end
      end
  end.

Definition configure_body (ctx : Context) (i : Instance) : ST (Allocation * W) Z := λ '(a, w),
  match Setup ctx (a, w) with
  | (Err e, (a, w)) => (Err (Errorf "setup network resources: %w" [e]), (a, w))
  | (Ok _, (a, w)) =>
      let '(r, w) := create_machine ctx i (a_cfg a) w in (r, (a, w))
  end.

Definition Configure (ctx : Context) : ST VM unit := λ '(p, i, w),
  match generateInstanceID w with
  | (Err e, w) => (Err (Errorf "generate instance ID: %w" [e]), (p, i, w))
  | (Ok instanceID, w) =>
      match vmm_Validate (i_cfg i) with
      | Err e => (Err (Errorf "invalid config: %w" [e]), (p, i, w))
      | Ok _ =>
          match validateRuntimeAssets (i_cfg i) (i_snapCfg i) w with
          | (Err e, w) => (Err e, (p, i, w))
          | (Ok _, w) =>
              match i_network i with
              | None => (Err (Panic "nil network lease"), (p, i, w))
              | Some a =>
                  match Validate (a_cfg a) with
                  | Err e => (Err (Errorf "invalid network config: %w" [e]), (p, i, w))
                  | Ok _ =>
                      match configure_begin instanceID i with
                      | (Err e, i) => (Err e, (p, i, w))
                      | (Ok _, i) =>
                          match configure_body ctx i (a, w) with
                          | (Ok machine, (a, w)) =>
                              (Ok tt, (p, configure_done machine (set_network (Some a) i), w))
                          | (Err e, (a, w)) =>
                              match alloc_Release Background (p, a, w) with
                              | (Err ce, (p, a, w)) =>
                                  (Err (Joined [e; Errorf "cleanup network resources after configure failure: %w" [ce]]),
                                   (p, configure_failed false (set_network (Some a) i), w))
                              | (Ok _, (p, a, w)) =>
                                  (Err e, (p, configure_failed true (set_network (Some a) i), w))
                              end
                          end
                      end
                  end
              end
          end
      end
  end.

Definition Start (ctx : Context) : ST VM unit := λ '(p, i, w),
  match start_begin i with
  | (Err e, i) => (Err e, (p, i, w))
  | (Ok machine, i) =>
      let resume := EnableResume (i_snapCfg i) in
      match (if resume then machine_ResumeVM ctx machine w else machine_Start ctx machine w) with
      | (Err e, w) =>
          (Err (Errorf (if resume then "resume microvm snapshot: %w" else "start guest os: %w") [e]),
           (p, start_failed i, w))
      | (Ok _, w) => let '(r, i) := start_done i in (r, (p, i, w))
      end
  end.

Definition stop_machine (m : option Z) (w : W) : bool * list error * W :=
  match m with
  | None => (true, [], w)
  | Some m => match machine_StopVMM m w with
              | (Ok _, w) => (true, [], w)
              | (Err e, w) => (false, [Errorf "stop vmm: %w" [e]], w)
              end
  end.
Definition stop_network (ctx : Context) (n : option Allocation) (p : IPAMPool) (w : W)
  : bool * list error * (IPAMPool * option Allocation * W) :=
  match n with
  | None => (false, [], (p, None, w))
  | Some a => match alloc_Release ctx (p, a, w) with
              | (Ok _, (p, a, w)) => (true, [], (p, Some a, w))
              | (Err e, (p, a, w)) =>
                  (false, [Errorf "release network resources: %w" [e]], (p, Some a, w))
              end
  end.
Definition stop_socket (machineStopped : bool) (path : string) (w : W) : bool * list error * W :=
  if machineStopped then
    match Remove path w with
    | (RemoveFailed e, w) => (false, [Errorf "remove socket: %w" [e]], w)
    | (_, w) => (true, [], w)
    end
  else (false, [], w).

Definition Stop (ctx : Context) : ST VM unit := λ '(p, i, w),
  let '(go, i) := stop_begin i in
  if negb go then (Ok tt, (p, i, w))
  else
    let '(machineStopped, e1, w) := stop_machine (i_machine i) w in
    let '(networkReleased, e2, (p, n, w)) := stop_network ctx (i_network i) p w in
    let '(socketRemoved, e3, w) := stop_socket machineStopped (i_SocketPath i) w in
    let '(r, i) := stop_end machineStopped networkReleased socketRemoved (e1 ++ e2 ++ e3)
                            (set_network n i) in
    (r, (p, i, w)).
End Methods.

Arguments VM W : clear implicits.

(** ** Each method on its own *)

(** The states a completed call can lead to. *)
Inductive lifecycle : State → State → Prop :=
  | lc_same s : lifecycle s s
  | lc_configured : lifecycle StateCreated StateConfigured
  | lc_configure_cleanup : lifecycle StateCreated StateCleanupFailed
  | lc_running : lifecycle StateConfigured StateRunning
  | lc_stopped s : stoppable s = true → lifecycle s StateStopped
  | lc_stop_failed s : stoppable s = true → lifecycle s StateCleanupFailed.
#[export] Hint Constructors lifecycle : shiyao.

(** What each resting state says of the machine and of the lease. *)
Definition lease_live (i : Instance) : Prop :=
  ∃ a, i_network i = Some a ∧ a_released a = false ∧ a_cleanup a = [Clean_TAP; Clean_Firewall].
Definition inst_wf (i : Instance) : Prop :=
  match i_state i with
  | StateCreated => i_machine i = None
  | StateConfigured | StateRunning => is_Some (i_machine i) ∧ lease_live i
  | StateStopped =>
      i_machine i = None ∧ ∃ a, i_network i = Some a ∧ a_released a = true
  | StateCleanupFailed => True
  | StateConfiguring | StateStarting | StateStopping => False
  end.

Section MethodFacts.
Context {W : Type} `{Host W}.
Implicit Types (w : W) (p : IPAMPool).

Lemma setup_ok_cleanup ctx a w a' w' :
  Setup ctx (a, w) = (Ok tt, (a', w')) →
  a_released a = false ∧ a_cleanup a' = [Clean_TAP; Clean_Firewall] ∧ a_released a' = false
  ∧ a_cfg a' = a_cfg a ∧ a_cid a' = a_cid a.
Proof.
  unfold Setup. destruct (a_released a) eqn:Hr; [done|].
  case_bool_decide as Hc; [|done]. cbn [negb].
  destruct (SetupTAP (a_cfg a) w) as [[]  w1]; [|done].
  destruct (SetupFirewall ctx _ w1) as [[] w2]; [|done].
  intros [= <- <-]. cbn. by rewrite Hc, Hr.
Qed.

Lemma stop_network_facts ctx n p w b e p' n' w' :
  stop_network ctx n p w = (b, e, (p', n', w')) →
  (b = true → e = [] ∧ ∃ a', n' = Some a' ∧ a_released a' = true) ∧
  (b = false → n = None ∧ e = [] ∨ e ≠ []).
Proof.
  unfold stop_network. destruct n as [a|]; [|by intros [= <- <- <- <- <-]; split; [|auto]].
  destruct (alloc_Release ctx (p, a, w)) as [r [[p1 a1] w1]] eqn:E.
  apply release_cases in E as (_ & _ & E).
  destruct r; intros [= <- <- <- <- <-]; split; try done; intros _.
  - split; [done|]. exists a1. split; [done|]. destruct (a_released a) eqn:Hr; [|by destruct E as (_&?&_)].
    destruct E as (_ & _ & -> & _). done.
  - by right.
Qed.

(** [Stop] leaves the instance stopped, with machine, lease and socket gone,
    or in [StateCleanupFailed] with an error. *)
Lemma stop_cases ctx p i w r p' i' w' :
  stoppable (i_state i) = true →
  Stop ctx (p, i, w) = (r, (p', i', w')) →
  match r with
  | Ok _ => i_state i' = StateStopped ∧ i_machine i' = None
            ∧ ∃ a', i_network i' = Some a' ∧ a_released a' = true
  | Err _ => i_state i' = StateCleanupFailed
  end.
Proof.
  intros Hs. unfold Stop, stop_begin. rewrite Hs. cbn [negb i_machine i_network set_state i_SocketPath].
  destruct (stop_machine (i_machine i) w) as [[ms e1] w1].
  destruct (stop_network ctx (i_network i) p w1) as [[nr e2] [[p2 n2] w2]] eqn:En.
  destruct (stop_socket ms (i_SocketPath i) w2) as [[sr e3] w3].
  destruct (stop_network_facts _ _ _ _ _ _ _ _ _ En) as [Hok _]. unfold stop_end.
  destruct (negb _ || negb ms || negb nr || negb sr) eqn:Hb; intros [= <- <- <- <-]; cbn.
  - destruct ms; done.
  - destruct ms, nr; cbn in Hb; rewrite ?orb_true_r in Hb; try done.
    destruct (Hok eq_refl) as (_ & a' & -> & Ha'). cbn. eauto.
Qed.

Lemma stop_noop ctx p i w :
  stoppable (i_state i) = false → Stop ctx (p, i, w) = (Ok tt, (p, i, w)).
Proof. intros Hs. unfold Stop, stop_begin. by rewrite Hs. Qed.

Lemma configure_early ctx p i w r p' i' w' :
  Configure ctx (p, i, w) = (r, (p', i', w')) →
  i_state i ≠ StateCreated → is_ok r = false ∧ p' = p ∧ i' = i.
Proof.
  intros HC Hs. revert HC. unfold Configure, configure_begin.
  rewrite bool_decide_eq_false_2 by done. cbn [negb].
  repeat (case_match; simplify_eq/=); by intros [= <- <- <- <-].
Qed.

Lemma configure_cases ctx p i w r p' i' w' :
  Configure ctx (p, i, w) = (r, (p', i', w')) → i_state i = StateCreated →
  match r with
  | Ok _ => p' = p ∧ i_state i' = StateConfigured ∧ is_Some (i_machine i') ∧ lease_live i'
  | Err _ => (p' = p ∧ i' = i)
             ∨ i_machine i' = i_machine i ∧
               (i_state i' = StateCleanupFailed ∨
                i_state i' = StateCreated ∧ ∃ a', i_network i' = Some a' ∧ a_released a' = true)
  end.
Proof.
  intros HC Hs. revert HC. unfold Configure, configure_begin.
  rewrite bool_decide_eq_true_2 by done. cbn [negb].
  destruct (generateInstanceID w) as [[id|e] w1]; [|intros [= <- <- <- <-]; auto].
  destruct (vmm_Validate (i_cfg i)) as [[]|e]; [|intros [= <- <- <- <-]; auto].
  destruct (validateRuntimeAssets (i_cfg i) (i_snapCfg i) w1) as [[[]|e] w2];
    [|intros [= <- <- <- <-]; auto].
  destruct (i_network i) as [a|]; [|intros [= <- <- <- <-]; auto].
  destruct (Validate (a_cfg a)) as [[]|e]; [|intros [= <- <- <- <-]; auto].
  destruct (configure_body ctx _ (a, w2)) as [[m|e] [a1 w3]] eqn:Eb.
  - intros [= <- <- <- <-]. split; [done|]. split; [done|]. split; [by eexists|].
    exists a1. split; [done|]. unfold configure_body in Eb.
    destruct (Setup ctx (a, w2)) as [[[]|e] [a2 w4]] eqn:ES; [|done].
    destruct (create_machine _ _ _ _) as [r5 w5]. injection Eb as -> -> ->.
    by apply setup_ok_cleanup in ES as (_ & ? & ? & _).
  - destruct (alloc_Release Background (p, a1, w3)) as [[u|ce] [[p4 a4] w4]] eqn:Er;
      intros [= <- <- <- <-]; right; (split; [done|]).
    + right. split; [done|]. exists a4. split; [done|].
      apply release_cases in Er as (_ & _ & Er).
      destruct (a_released a1) eqn:Hr; [by destruct Er as (_&_&->&_)|by destruct Er as (_&?&_)].
    + by left.
Qed.

Lemma start_cases ctx p i w r p' i' w' :
  Start ctx (p, i, w) = (r, (p', i', w')) →
  p' = p ∧ i_network i' = i_network i ∧ i_machine i' = i_machine i ∧
  match r with
  | Ok _ => i_state i = StateConfigured ∧ i_state i' = StateRunning ∧ is_Some (i_machine i)
  | Err _ => i_state i' = i_state i
  end.
Proof.
  unfold Start, start_begin.
  case_bool_decide as Hs; cbn [negb]; [|by intros [= <- <- <- <-]].
  destruct (i_machine i) as [m|] eqn:Hm; [|by intros [= <- <- <- <-]].
  cbn [EnableResume i_snapCfg set_state].
  destruct (if EnableResume _ then _ else _) as [[u|e] w1].
  - cbn. intros [= <- <- <- <-]. cbn. rewrite Hm. eauto 10.
  - intros [= <- <- <- <-]. by cbn; rewrite Hs.
Qed.
End MethodFacts.

(** C4: Every completed call moves the instance along the lifecycle and keeps
    its machine and lease consistent with its state; [Stopped] is final. *)
Theorem instance_lifecycle {W} `{Host W} ctx (m : Context → ST (VM W) unit) p i w r p' i' w' :
  m = Configure ∨ m = Start ∨ m = Stop →
  inst_wf i → m ctx (p, i, w) = (r, (p', i', w')) →
  lifecycle (i_state i) (i_state i') ∧ inst_wf i' ∧
  (i_state i = StateStopped → i' = i).
Proof.
  intros [->|[->| ->]] Hwf Hm.
  - destruct (decide (i_state i = StateCreated)) as [Hs|Hs].
    2: { destruct (configure_early _ _ _ _ _ _ _ _ Hm Hs) as (_ & _ & ->). auto with shiyao. }
    pose proof (configure_cases _ _ _ _ _ _ _ _ Hm Hs) as Hc. rewrite Hs. split; [|split; [|done]].
    + destruct r; [destruct Hc as (_ & -> & _); auto with shiyao|].
      destruct Hc as [[_ ->]|[_ [-> |[-> _]]]]; rewrite ?Hs; auto with shiyao.
    + unfold inst_wf in *. rewrite Hs in Hwf.
      destruct r; [by destruct Hc as (_ & -> & ?)|].
      destruct Hc as [[_ ->]|[Hmach [-> |[-> _]]]]; [by rewrite Hs|done|congruence].
  - destruct (start_cases _ _ _ _ _ _ _ _ Hm) as (_ & Hn & Hmc & Hr).
    unfold inst_wf, lease_live in *. rewrite Hn, Hmc. destruct r.
    + destruct Hr as (Hs & Hs' & Hmach). rewrite Hs in *. rewrite Hs'. split; [apply lc_running|]. by split.
    + rewrite Hr. split; [apply lc_same|]. split; [done|].
      intros Hs. revert Hm. unfold Start, start_begin. rewrite Hs.
      cbn. by intros [= _ _ <- _].
  - destruct (stoppable (i_state i)) eqn:Hs.
    + pose proof (stop_cases _ _ _ _ _ _ _ _ Hs Hm) as Hc. unfold inst_wf.
      destruct r; [destruct Hc as (Hs' & Hmach & a' & Ha & Hrel); rewrite Hs'|rewrite Hc];
        (split; [auto with shiyao|]); (split; [|by intros E; rewrite E in Hs]); [|done].
      split; [done|]. by exists a'.
    + rewrite stop_noop in Hm by done. injection Hm as <- <- <- <-. auto with shiyao.
Qed.

(** ** Many goroutines

    The calls between two critical sections may run at any speed, so another
    goroutine can enter a method in the meantime.  A goroutine that passed
    the first critical section of a method is in flight until it runs the
    last one; what the host answered in between is arbitrary. *)

Inductive InFlight := InConfigure | InStart | InStop.

Definition transient (s : State) : option InFlight :=
  match s with
  | StateConfiguring => Some InConfigure
  | StateStarting => Some InStart
  | StateStopping => Some InStop
  | _ => None
  end.

Inductive inst_step : Instance * gmap nat InFlight → Instance * gmap nat InFlight → Prop :=
  | is_configure_begin t id i i' fl :
      fl !! t = None → configure_begin id i = (Ok tt, i') →
      inst_step (i, fl) (i', <[t := InConfigure]> fl)
  | is_configure_rejected t id i i' e fl :
      fl !! t = None → configure_begin id i = (Err e, i') → inst_step (i, fl) (i', fl)
  | is_configure_done t machine a i fl :
      fl !! t = Some InConfigure →
      inst_step (i, fl) (configure_done machine (set_network a i), base.delete t fl)
  | is_configure_failed t cleaned a i fl :
      fl !! t = Some InConfigure →
      inst_step (i, fl) (configure_failed cleaned (set_network a i), base.delete t fl)
  | is_start_begin t machine i i' fl :
      fl !! t = None → start_begin i = (Ok machine, i') →
      inst_step (i, fl) (i', <[t := InStart]> fl)
  | is_start_rejected t e i i' fl :
      fl !! t = None → start_begin i = (Err e, i') → inst_step (i, fl) (i', fl)
  | is_start_failed t i fl :
      fl !! t = Some InStart → inst_step (i, fl) (start_failed i, base.delete t fl)
  | is_start_done t r i i' fl :
      fl !! t = Some InStart → start_done i = (r, i') →
      inst_step (i, fl) (i', base.delete t fl)
  | is_stop_begin t i i' fl :
      fl !! t = None → stop_begin i = (true, i') →
      inst_step (i, fl) (i', <[t := InStop]> fl)
  | is_stop_nothing t i i' fl :
      fl !! t = None → stop_begin i = (false, i') → inst_step (i, fl) (i', fl)
  | is_stop_end t ms nr sr errs a r i i' fl :
      fl !! t = Some InStop → stop_end ms nr sr errs (set_network a i) = (r, i') →
      inst_step (i, fl) (i', base.delete t fl).

(** At most one goroutine is in flight, and the state names its method. *)
Definition single_flight (c : Instance * gmap nat InFlight) : Prop :=
  match transient (i_state c.1) with
  | Some k => ∃ t, c.2 = {[t := k]}
  | None => c.2 = ∅
  end.

Lemma single_flight_lookup i fl t k :
  single_flight (i, fl) → fl !! t = Some k →
  fl = {[t := k]} ∧ transient (i_state i) = Some k.
Proof.
  unfold single_flight. cbn. destruct (transient (i_state i)) as [k'|]; [|by intros ->].
  intros [t' ->] [<- <-]%lookup_singleton_Some. done.
Qed.

Lemma single_flight_rest i fl :
  single_flight (i, fl) → transient (i_state i) = None → fl = ∅.
Proof. unfold single_flight. cbn. by intros H Hn; rewrite Hn in H. Qed.

Lemma single_flight_step c c' : inst_step c c' → single_flight c → single_flight c'.
Proof.
  assert (∀ i fl t k, single_flight (i, fl) → fl !! t = Some k → base.delete t fl = ∅) as Hdel.
  { intros i fl t k Hsf Hl. destruct (single_flight_lookup _ _ _ _ Hsf Hl) as [-> _].
    apply delete_singleton_eq. }
  intros Hst Hsf. destruct Hst as
    [t id i i' fl Hl E|t id i i' e fl Hl E|t m a i fl Hl|t c a i fl Hl|t m i i' fl Hl E
    |t e i i' fl Hl E|t i fl Hl|t r i i' fl Hl E|t i i' fl Hl E|t i i' fl Hl E
    |t ms nr sr errs a r i i' fl Hl E].
  - revert E. unfold configure_begin. case_bool_decide as Hs; [|done]. intros [= <-].
    rewrite (single_flight_rest _ _ Hsf) by by rewrite Hs. by exists t.
  - revert E. unfold configure_begin. case_bool_decide; [done|]. by intros [= _ <-].
  - unfold single_flight. cbn. by eapply Hdel.
  - unfold single_flight. destruct c; cbn; by eapply Hdel.
  - revert E. unfold start_begin. case_bool_decide as Hs; [|done].
    destruct (i_machine i); [|done]. intros [= _ <-].
    rewrite (single_flight_rest _ _ Hsf) by by rewrite Hs. by exists t.
  - revert E. unfold start_begin. case_bool_decide; [destruct (i_machine i)|]; try done;
      by intros [= _ <-].
  - unfold single_flight. cbn. by eapply Hdel.
  - destruct (single_flight_lookup _ _ _ _ Hsf Hl) as [_ Ht].
    revert E. unfold start_done. case_bool_decide as Hs; intros [= _ <-].
    + unfold single_flight. cbn. by eapply Hdel.
    + by destruct (i_state i).
  - revert E. unfold stop_begin. destruct (stoppable (i_state i)) eqn:Hs; [|done]. intros [= <-].
    rewrite (single_flight_rest _ _ Hsf) by by destruct (i_state i). by exists t.
  - revert E. unfold stop_begin. destruct (stoppable (i_state i)); [done|]. by intros [= <-].
  - revert E. unfold stop_end. destruct (negb _ || _ || _ || _), ms; intros [= _ <-];
      unfold single_flight; cbn; by eapply Hdel.
Qed.

(** C13: However many goroutines call [Configure], [Start] and [Stop] on one
    instance, at most one of them is past its first critical section, its
    method is the one the transient state names, and a start that finishes
    finds the instance still starting: the error "start completed in
    unexpected state" cannot be returned. *)
Theorem instance_single_flight id sock cfg a cid snap i fl :
  rtc inst_step (NewInstance id sock cfg a cid snap, ∅) (i, fl) →
  single_flight (i, fl) ∧
  (∀ t, fl !! t = Some InStart → start_done i = (Ok tt, set_state StateRunning i)).
Proof.
  intros Hr. assert (single_flight (i, fl)) as Hsf.
  { remember (_, ∅) as c eqn:Ec. remember (i, fl) as c' eqn:Ec'.
    assert (single_flight c) as Hc by by subst. clear Ec. revert Ec'.
    induction Hr as [c|c c1 c2 Hst _ IH]; intros ->; [done|].
    apply IH; [|done]. by eapply single_flight_step. }
  split; [done|]. intros t Ht.
  destruct (single_flight_lookup _ _ _ _ Hsf Ht) as [_ Hs]. unfold start_done.
  rewrite bool_decide_eq_true_2; [done|]. by destruct (i_state i).
Qed.

(** A lease that was given back cannot be set up again. *)
Lemma configure_released {W} `{Host W} ctx p i a (w : W) :
  i_network i = Some a → a_released a = true → is_ok (Configure ctx (p, i, w)).1 = false.
Proof.
  intros Hn Hr. unfold Configure, configure_begin, configure_body, Setup. rewrite Hn, Hr.
  repeat (case_match; simplify_eq/=; try done).
Qed.

(** [Configure] that fails either leaves the pool and the instance as they
    were, or ends the instance's life: the state says [Created] again, but
    no later [Configure] can succeed, because the lease went back to the
    pool; or the cleanup is still due. *)
Theorem failed_configure_is_final {W} `{Host W} ctx p i w e p' i' w' :
  Configure ctx (p, i, w) = (Err e, (p', i', w')) → i_state i = StateCreated →
  (p' = p ∧ i' = i) ∨ i_state i' = StateCleanupFailed ∨
  i_state i' = StateCreated ∧ (∀ ctx2 p2 (w2 : W), is_ok (Configure ctx2 (p2, i', w2)).1 = false).
Proof.
  intros HC Hs. destruct (configure_cases _ _ _ _ _ _ _ _ HC Hs) as [?|[_ [?|(? & a & Ha & Hr)]]];
    [by left|by right; left|right; right].
  split; [done|]. intros. by eapply configure_released.
Qed.

(** ** A concrete VM on the simulated host *)

Definition demo_cfg : vmm_Config :=
  {| KernelPath := "/k"; RootfsPath := "/r"; VCPUCount := 2; MemSizeMB := 512; BootArgs := "panic=1";
     GuestAgentPath := "/agent" |}.
Definition demo_snap : SnapshotConfig :=
  {| MemFilePath := ""; StateFilePath := ""; EnableResume := false |}.
Definition demo_host : SimHost := set_files {["/k" := RegularFile; "/r" := RegularFile]} sim_empty.
Definition demo_instance : Instance :=
  NewInstance "vm-a" "/tmp/a.sock" demo_cfg
    (Some (mkAllocation (mkConfig "tap0" "172.16.0.1" "172.16.0.2/24" [443] "eth0") 3 [] false)) 3 demo_snap.
Definition demo_configured : result unit * VM SimHost :=
  Configure Background (NewIPAMPool, demo_instance, demo_host).

Lemma instance_lifecycle_witness :
  demo_configured.1 = Ok tt ∧
  lifecycle StateCreated (i_state demo_configured.2.1.2) ∧ inst_wf demo_configured.2.1.2.
Proof.
  split; [vm_compute; reflexivity|].
  destruct (instance_lifecycle (W := SimHost) Background Configure NewIPAMPool demo_instance demo_host
              demo_configured.1 demo_configured.2.1.1 demo_configured.2.1.2 demo_configured.2.2)
    as (Hl & Hw & _).
  - by left.
  - vm_compute. done.
  - vm_compute. reflexivity.
  - done.
Defined.

(** One goroutine configures while another tries to start too early, then
    starts. *)
Lemma instance_single_flight_witness :
  let i := set_state StateStarting (configure_done 0 (set_network None
             (set_InstanceID "x" (set_state StateConfiguring demo_instance)))) in
  start_done i = (Ok tt, set_state StateRunning i).
Proof.
  intros i.
  destruct (instance_single_flight "vm-a" "/tmp/a.sock" demo_cfg (i_network demo_instance) 3 demo_snap i
              (<[1%nat := InStart]> (base.delete 0%nat (<[0%nat := InConfigure]> ∅)))) as [_ Hs].
  - eapply rtc_l; [apply (is_configure_begin 0 "x"); reflexivity|].
    eapply rtc_l; [eapply (is_start_rejected 1); reflexivity|].
    eapply rtc_l; [apply (is_configure_done 0 0 None); reflexivity|].
    eapply rtc_l; [eapply (is_start_begin 1 0); reflexivity|]. apply rtc_refl.
  - apply (Hs 1%nat). reflexivity.
Defined.
