(* ===== verification/Manager.v ===== *)
(** * core/vmm/manager.go: the registry of microVMs

    The manager maps VM ids to instance pointers.  Pointers are kept as such:
    [m_heap] holds the instances and [m_instances] the map of the code, so
    that an instance can outlive its map entry and be compared by identity.
    The blocks that the code runs under the manager's mutex are definitions
    of their own; the methods compose them, and the section on interleaving
    runs them in any order. *)

From S2P Require Import Prelude GoStrings GoNet Network Ipam Host Allocation VmmConfig Instance.
Open Scope Z_scope.

Record ManagerLimits := { MaxVMs : Z; MaxConcurrentProvision : Z }.
Definition DefaultManagerLimits : ManagerLimits :=
  {| MaxVMs := 256; MaxConcurrentProvision := 8 |}.

Record Manager := mkManager {
  m_instances : gmap string nat;
  m_heap : gmap nat Instance;
  m_baseCfg : vmm_Config;
  m_netCfg : Config;
  m_snapCfg : SnapshotConfig;
  m_ipam : IPAMPool;
  m_limits : ManagerLimits;
  m_provision : Z;                 (** tokens in the channel [provision] *)
  m_tempDir : string;              (** [os.TempDir()] *)
}.

Definition ErrBackpressure : error := Sentinel "vmm admission limit reached".

Definition normalize_limits (l : ManagerLimits) : ManagerLimits :=
  {| MaxVMs := if MaxVMs l <=? 0 then MaxVMs DefaultManagerLimits else MaxVMs l;
     MaxConcurrentProvision :=
       if MaxConcurrentProvision l <=? 0 then MaxConcurrentProvision DefaultManagerLimits
       else MaxConcurrentProvision l |}.

Definition NewManagerWithLimits (tempDir : string) (baseCfg : vmm_Config) (netCfg : Config)
    (snapCfg : SnapshotConfig) (limits : ManagerLimits) : Manager :=
  {| m_instances := ∅; m_heap := ∅; m_baseCfg := baseCfg; m_netCfg := netCfg;
     m_snapCfg := snapCfg; m_ipam := NewIPAMPool; m_limits := normalize_limits limits;
     m_provision := 0; m_tempDir := tempDir |}.

Definition set_instances (x : gmap string nat) (m : Manager) : Manager :=
  {| m_instances := x; m_heap := m_heap m; m_baseCfg := m_baseCfg m; m_netCfg := m_netCfg m;
     m_snapCfg := m_snapCfg m; m_ipam := m_ipam m; m_limits := m_limits m;
     m_provision := m_provision m; m_tempDir := m_tempDir m |}.
Definition set_heap (x : gmap nat Instance) (m : Manager) : Manager :=
  {| m_instances := m_instances m; m_heap := x; m_baseCfg := m_baseCfg m; m_netCfg := m_netCfg m;
     m_snapCfg := m_snapCfg m; m_ipam := m_ipam m; m_limits := m_limits m;
     m_provision := m_provision m; m_tempDir := m_tempDir m |}.
Definition set_ipam (x : IPAMPool) (m : Manager) : Manager :=
  {| m_instances := m_instances m; m_heap := m_heap m; m_baseCfg := m_baseCfg m;
     m_netCfg := m_netCfg m; m_snapCfg := m_snapCfg m; m_ipam := x; m_limits := m_limits m;
     m_provision := m_provision m; m_tempDir := m_tempDir m |}.
Definition set_provision (x : Z) (m : Manager) : Manager :=
  {| m_instances := m_instances m; m_heap := m_heap m; m_baseCfg := m_baseCfg m;
     m_netCfg := m_netCfg m; m_snapCfg := m_snapCfg m; m_ipam := m_ipam m;
     m_limits := m_limits m; m_provision := x; m_tempDir := m_tempDir m |}.

(** ** Blocks under the manager's mutex *)

Definition resident (m : Manager) : Z := Z.of_nat (size (m_instances m)).
Definition at_capacity (m : Manager) : bool := MaxVMs (m_limits m) <=? resident m.

Definition err_resident : error := Errorf "%w: maximum of %d resident VMs" [ErrBackpressure].
Definition err_exists : error := Errorf "vm %s already exists" [].

Definition create_admit (vmID : string) (m : Manager) : result unit :=
  if at_capacity m then Err err_resident
  else match m_instances m !! vmID with
       | Some _ => Err err_exists
       | None => Ok tt
       end.

Definition create_acquire (vmID : string) : ST Manager Allocation := λ m,
  match Acquire vmID (m_netCfg m) (Some (m_ipam m)) with
  | (r, Some p) => (r, set_ipam p m)
  | (r, None) => (r, m)
  end.

(** The directory of [os.TempDir] is a clean path, and a valid VM id has no
    separator, so [filepath.Join] only puts a slash between them. *)
Definition socket_path (tempDir vmID : string) : string :=
  tempDir +:+ "/firecracker-" +:+ vmID +:+ ".sock".

Definition new_ptr (m : Manager) : nat := fresh (dom (m_heap m) : gset nat).

Definition create_register (vmID : string) (a : Allocation) : ST Manager nat := λ m,
  match m_instances m !! vmID with
  | Some _ => (Err err_exists, m)
  | None =>
      if at_capacity m then (Err err_resident, m)
      else
        let inst := NewInstance vmID (socket_path (m_tempDir m) vmID) (m_baseCfg m) (Some a)
                                (a_cid a) (m_snapCfg m) in
        (Ok (new_ptr m),
         set_instances (<[vmID := new_ptr m]> (m_instances m))
           (set_heap (<[new_ptr m := inst]> (m_heap m)) m))
  end.

(** [if m.instances[vmID] == inst { delete(m.instances, vmID) }] *)
Definition remove_entry (vmID : string) (inst : nat) (m : Manager) : Manager :=
  if bool_decide (m_instances m !! vmID = Some inst)
  then set_instances (base.delete vmID (m_instances m)) m else m.

(** ** Methods *)

Section Methods.
Context {W : Type} `{Host W}.

(** A method of the instance [inst], on the shared pool. *)
Definition on_instance {A} (inst : nat) (f : ST (VM W) A) : ST (Manager * W) A := λ '(m, w),
  match m_heap m !! inst with
  | None => (Err (Panic "nil instance"), (m, w))
  | Some i =>
      let '(r, (p, i, w)) := f (m_ipam m, i, w) in
      (r, (set_ipam p (set_heap (<[inst := i]> (m_heap m)) m), w))
  end.

Definition CreateVM (vmID : string) : ST (Manager * W) nat := λ '(m, w),
  match validateVMID vmID with
  | Err e => (Err e, (m, w))
  | Ok _ =>
      match create_admit vmID m with
      | Err e => (Err e, (m, w))
      | Ok _ =>
          match create_acquire vmID m with
          | (Err e, m) => (Err (Errorf "allocate resources for vm %s: %w" [e]), (m, w))
          | (Ok a, m) =>
              match create_register vmID a m with
              | (Ok inst, m) => (Ok inst, (m, w))
              | (Err e, m) =>
                  let '(_, (p, _, w)) := alloc_Release Background (m_ipam m, a, w) in
                  (Err e, (set_ipam p m, w))
              end
          end
      end
  end.

Definition removeFailedVM (ctx : Context) (vmID : string) (inst : nat) : ST (Manager * W) unit :=
  λ s, match on_instance inst (Stop ctx) s with
       | (Err e, s) => (Err e, s)
       | (Ok _, (m, w)) => (Ok tt, (remove_entry vmID inst m, w))
       end.

(** The two failure branches of [ProvisionVM]. *)
Definition provision_failed (ctx : Context) (vmID : string) (inst : nat)
    (what clean : string) (e : error) : ST (Manager * W) nat := λ s,
  match removeFailedVM ctx vmID inst s with
  | (Err ce, s) => (Err (Joined [Errorf what [e]; Errorf clean [ce]]), s)
  | (Ok _, s) => (Err (Errorf what [e]), s)
  end.

Definition provision_body (ctx : Context) (vmID : string) : ST (Manager * W) nat := λ s,
  match ctx_err ctx with
  | Some e => (Err e, s)
  | None =>
      match CreateVM vmID s with
      | (Err e, s) => (Err e, s)
      | (Ok inst, s) =>
          match on_instance inst (Configure ctx) s with
          | (Err e, s) =>
              provision_failed ctx vmID inst "configure vm %s: %w" "cleanup vm %s: %w" e s
          | (Ok _, s) =>
              match on_instance inst (Start ctx) s with
              | (Err e, s) =>
                  provision_failed ctx vmID inst "start vm %s: %w" "cleanup vm %s: %w" e s
              | (Ok _, s) => (Ok inst, s)
              end
          end
      end
  end.

Definition ProvisionVM (ctx : Context) (vmID : string) : ST (Manager * W) nat := λ '(m, w),
  if m_provision m <? MaxConcurrentProvision (m_limits m) then
    let '(r, (m, w)) := provision_body ctx vmID (set_provision (m_provision m + 1) m, w) in
    (r, (set_provision (m_provision m - 1) m, w))
  else (Err (Errorf "%w: %d provisioning operations already running" [ErrBackpressure]), (m, w)).

(** The instances to retry, in the order [range] visits the map; the
    order is the runtime's choice and a parameter here. *)
Definition cleanup_failed (m : Manager) (item : string * nat) : bool :=
  match m_heap m !! item.2 with
  | Some i => bool_decide (i_state i = StateCleanupFailed)
  | None => false
  end.
Fixpoint reconcile_items (ctx : Context) (items : list (string * nat)) (s : Manager * W)
  : list error * (Manager * W) :=
  match items with
  | [] => ([], s)
  | (id, inst) :: items =>
      match on_instance inst (Stop ctx) s with
      | (Err e, s) =>
          let '(errs, s) := reconcile_items ctx items s in
          (Errorf "reconcile vm %s: %w" [e] :: errs, s)
      | (Ok _, (m, w)) => reconcile_items ctx items (remove_entry id inst m, w)
      end
  end.
Definition Reconcile (order : list (string * nat)) (ctx : Context) : ST (Manager * W) unit :=
  λ '(m, w),
  let '(errs, s) := reconcile_items ctx (filter (λ x, cleanup_failed m x = true) order) (m, w) in
  match errs with
  | [] => (Ok tt, s)
  | _ => (Err (Joined errs), s)
  end.

Definition DestroyVM (ctx : Context) (vmID : string) : ST (Manager * W) unit := λ '(m, w),
  match m_instances m !! vmID with
  | None => (Err (Errorf "vm %s not found" []), (m, w))
  | Some inst =>
      match on_instance inst (Stop ctx) (m, w) with
      | (Err e, s) => (Err (Errorf "stop vm %s: %w" [e]), s)
      | (Ok _, (m, w)) => (Ok tt, (remove_entry vmID inst m, w))
      end
  end.
End Methods.

Definition GetVM (vmID : string) (m : Manager) : result nat :=
  match m_instances m !! vmID with
  | None => Err (Errorf "vm %s not found" [])
  | Some inst => Ok inst
  end.
(** The ids in the order [range] visits the map. *)
Definition ListVMs (order : list (string * nat)) : list string := order.*1.

(** ** What an instance's method does to the pool *)

Definition lease_of (a : Allocation) : Lease := mkLease (a_cfg a) (a_cid a).
(** The lease an instance still holds. *)
Definition inst_lease (i : Instance) : option Lease :=
  match i_network i with
  | Some a => if a_released a then None else Some (lease_of a)
  | None => None
  end.

(** The pool is untouched, or the lease of the instance went back to it. *)
Definition lease_effect (p : IPAMPool) (l : option Lease) (p' : IPAMPool) (l' : option Lease) : Prop :=
  (p' = p ∧ l' = l) ∨
  (∃ x, l = Some x ∧ l' = None ∧ p' = Ipam.Release (GuestIP (l_cfg x)) (l_cid x) p).
Definition inst_effect (p : IPAMPool) (i : Instance) (p' : IPAMPool) (i' : Instance) : Prop :=
  i_ID i' = i_ID i ∧ lease_effect p (inst_lease i) p' (inst_lease i').

Section Effects.
Context {W : Type} `{Host W}.

Lemma release_effect ctx p a (w : W) r p' a' w' :
  alloc_Release ctx (p, a, w) = (r, (p', a', w')) →
  lease_effect p (if a_released a then None else Some (lease_of a))
               p' (if a_released a' then None else Some (lease_of a')).
Proof.
  intros (Hc & Hid & E)%release_cases. unfold lease_of. rewrite Hc, Hid.
  destruct (a_released a) eqn:Hr.
  - destruct E as (_ & -> & -> & _). rewrite Hr. by left.
  - destruct r; destruct E as (-> & -> & _); [|by left]. right. by eexists.
Qed.

Lemma configure_body_keeps ctx i a (w : W) r a' w' :
  configure_body ctx i (a, w) = (r, (a', w')) → lease_of a' = lease_of a ∧ a_released a' = a_released a.
Proof.
  unfold configure_body, lease_of. destruct (Setup ctx (a, w)) as [[u|e] [a1 w1]] eqn:ES;
    destruct (setup_keeps_lease _ _ _ _ _ _ ES) as (<- & <- & <-).
  - by destruct (create_machine _ _ _ _) as [? ?]; intros [= _ <- _].
  - by intros [= _ <- _].
Qed.

Lemma configure_effect ctx p i (w : W) r p' i' w' :
  Configure ctx (p, i, w) = (r, (p', i', w')) → inst_effect p i p' i'.
Proof.
  unfold Configure, configure_begin.
  assert (inst_effect p i p i) as Hsame by by split; [|left].
  destruct (generateInstanceID w) as [[id|e] w1]; [|by intros [= <- <- <- <-]].
  destruct (vmm_Validate (i_cfg i)) as [[]|e]; [|by intros [= <- <- <- <-]].
  destruct (validateRuntimeAssets _ _ w1) as [[[]|e] w2]; [|by intros [= <- <- <- <-]].
  destruct (i_network i) as [a|] eqn:Hn; [|by intros [= <- <- <- <-]].
  destruct (Validate (a_cfg a)) as [[]|e]; [|by intros [= <- <- <- <-]].
  case_bool_decide; cbn [negb]; [|by intros [= <- <- <- <-]].
  destruct (configure_body ctx _ (a, w2)) as [r3 [a3 w3]] eqn:Eb.
  destruct (configure_body_keeps _ _ _ _ _ _ _ Eb) as [Hl Hr].
  assert (inst_lease i = if a_released a3 then None else Some (lease_of a3)) as Hlease
    by (unfold inst_lease; by rewrite Hn, Hl, Hr).
  destruct r3 as [m|e].
  - intros [= <- <- <- <-]. split; [done|]. left. by rewrite Hlease.
  - destruct (alloc_Release Background (p, a3, w3)) as [[u|ce] [[p4 a4] w4]] eqn:Er;
      intros [= <- <- <- <-]; (split; [done|]); rewrite Hlease; by eapply release_effect.
Qed.

Lemma start_effect ctx p i (w : W) r p' i' w' :
  Start ctx (p, i, w) = (r, (p', i', w')) → inst_effect p i p' i'.
Proof.
  unfold Start, start_begin, start_done. intros E.
  assert (p' = p ∧ i_ID i' = i_ID i ∧ i_network i' = i_network i) as (-> & Hid & Hn).
  { repeat (case_match; simplify_eq/=); done. }
  split; [done|]. left. unfold inst_lease. by rewrite Hn.
Qed.

Lemma stop_effect ctx p i (w : W) r p' i' w' :
  Stop ctx (p, i, w) = (r, (p', i', w')) → inst_effect p i p' i'.
Proof.
  unfold Stop, stop_begin. destruct (stoppable (i_state i)); [|by intros [= <- <- <- <-]; split; [|left]].
  cbn [negb i_machine i_network set_state i_SocketPath].
  destruct (stop_machine (i_machine i) w) as [[ms e1] w1].
  destruct (stop_network ctx (i_network i) p w1) as [[nr e2] [[p2 n2] w2]] eqn:En.
  destruct (stop_socket ms (i_SocketPath i) w2) as [[sr e3] w3].
  destruct (stop_end ms nr sr _ _) as [r4 i4] eqn:Es. intros [= <- <- <- <-].
  assert (i_ID i4 = i_ID i ∧ i_network i4 = n2) as [Hid Hn4].
  { revert Es. unfold stop_end. destruct (negb _ || _ || _ || _), ms; by intros [= <- <-]. }
  split; [done|]. unfold inst_lease. rewrite Hn4.
  revert En. unfold stop_network. destruct (i_network i) as [a|]; [|intros [= <- <- <- <- <-]; by left].
  destruct (alloc_Release ctx (p, a, w1)) as [[u|e] [[p5 a5] w5]] eqn:Er;
    intros [= <- <- <- <- <-]; by eapply release_effect.
Qed.
End Effects.

(** ** Any interleaving of the blocks

    A configuration is the manager with the allocations that some call of
    [CreateVM] has acquired and not yet registered. *)

Inductive mgr_step : Manager * list Allocation → Manager * list Allocation → Prop :=
  | ms_acquire vmID a m m' fl :
      create_acquire vmID m = (Ok a, m') → mgr_step (m, fl) (m', a :: fl)
  | ms_acquire_fails vmID e m m' fl :
      create_acquire vmID m = (Err e, m') → mgr_step (m, fl) (m', fl)
  | ms_register vmID a inst m m' fl1 fl2 :
      create_register vmID a m = (Ok inst, m') → mgr_step (m, fl1 ++ a :: fl2) (m', fl1 ++ fl2)
  | ms_give_back a m fl1 fl2 :
      mgr_step (m, fl1 ++ a :: fl2)
               (set_ipam (Ipam.Release (GuestIP (a_cfg a)) (a_cid a) (m_ipam m)) m, fl1 ++ fl2)
  | ms_instance inst i i' p' m fl :
      m_heap m !! inst = Some i → inst_effect (m_ipam m) i p' i' →
      mgr_step (m, fl) (set_ipam p' (set_heap (<[inst := i']> (m_heap m)) m), fl)
  | ms_remove vmID inst m fl : mgr_step (m, fl) (remove_entry vmID inst m, fl)
  | ms_slot_take m fl :
      m_provision m < MaxConcurrentProvision (m_limits m) →
      mgr_step (m, fl) (set_provision (m_provision m + 1) m, fl)
  | ms_slot_free m fl :
      0 < m_provision m → mgr_step (m, fl) (set_provision (m_provision m - 1) m, fl).

(** The leases that are out: those in flight and those of instances. *)
Definition heap_leases (h : gmap nat Instance) : list Lease :=
  omap inst_lease (map_to_list h).*2.
Definition held (m : Manager) (fl : list Allocation) : list Lease :=
  (lease_of <$> fl) ++ heap_leases (m_heap m).

Record manager_inv (m : Manager) (fl : list Allocation) : Prop := {
  mi_resident : resident m ≤ MaxVMs (m_limits m);
  mi_slots : 0 ≤ m_provision m ≤ MaxConcurrentProvision (m_limits m);
  mi_keys id inst : m_instances m !! id = Some inst →
    ∃ i, m_heap m !! inst = Some i ∧ i_ID i = id;
  mi_leases : leases_inv (m_ipam m) (held m fl);
  mi_fresh : Forall (λ a, a_cleanup a = [] ∧ a_released a = false) fl;
}.

#[export] Instance leases_inv_proper : Proper ((=) ==> (≡ₚ) ==> iff) leases_inv.
Proof.
  assert (∀ p l k, l ≡ₚ k → leases_inv p l → leases_inv p k) as Himp.
  { intros p l k Hp [Hwf Hsh Hs Hsn Hc Hcn]. split; try done.
    - intros x. rewrite <- Hp. apply Hsh.
    - intros x. by rewrite Hs, Hp.
    - by rewrite <- Hp.
    - intros x. by rewrite Hc, Hp.
    - by rewrite <- Hp. }
  intros p ? <- l k Hp. split; by apply Himp.
Qed.

Lemma heap_leases_insert h k i :
  heap_leases (<[k := i]> h) ≡ₚ option_list (inst_lease i) ++ heap_leases (base.delete k h).
Proof.
  unfold heap_leases. rewrite <- insert_delete_eq.
  rewrite map_to_list_insert by apply lookup_delete_eq. cbn.
  by destruct (inst_lease i).
Qed.

Lemma heap_leases_lookup h k i :
  h !! k = Some i → heap_leases h ≡ₚ option_list (inst_lease i) ++ heap_leases (base.delete k h).
Proof. intros Hk. rewrite <- heap_leases_insert. by rewrite insert_id. Qed.

Lemma create_acquire_spec vmID m r m' :
  create_acquire vmID m = (r, m') →
  ∃ p' x, Allocate vmID (m_netCfg m) (m_ipam m) = (x, p') ∧ m' = set_ipam p' m ∧
    match r with
    | Ok a => x = Ok (a_cfg a, a_cid a) ∧ a_cleanup a = [] ∧ a_released a = false
    | Err e => x = Err e
    end.
Proof.
  unfold create_acquire, Acquire. destruct (Allocate _ _ _) as [[[cfg cid]|e] p'];
    intros [= <- <-]; by eexists _, _.
Qed.

Lemma new_ptr_fresh m : m_heap m !! new_ptr m = None.
Proof. apply (not_elem_of_dom (D := gset nat)). unfold new_ptr. apply is_fresh. Qed.

Lemma leases_give_back p ls x rest :
  leases_inv p ls → ls ≡ₚ x :: rest →
  leases_inv (Ipam.Release (GuestIP (l_cfg x)) (l_cid x) p) rest.
Proof. intros Hinv Hp. rewrite Hp in Hinv. by apply (leases_inv_release p [] x rest). Qed.

Lemma manager_inv_register vmID a inst m m' fl1 fl2 :
  manager_inv m (fl1 ++ a :: fl2) → create_register vmID a m = (Ok inst, m') →
  manager_inv m' (fl1 ++ fl2).
Proof.
  intros [Hres Hslot Hkeys Hl Hfr]. unfold create_register.
  destruct (m_instances m !! vmID) eqn:Hid; [done|].
  unfold at_capacity. destruct (MaxVMs (m_limits m) <=? resident m) eqn:Hcap; [done|].
  apply Z.leb_gt in Hcap. intros [= <- <-].
  apply Forall_app in Hfr as [Hfr1 [[_ Hrel] Hfr2]%Forall_cons].
  split; cbn.
  - unfold resident in *. cbn. rewrite map_size_insert_None by done. lia.
  - done.
  - intros id ptr. rewrite lookup_insert_Some. intros [[<- <-]|[Hne Hl2]].
    + rewrite lookup_insert_eq. by eexists.
    + destruct (Hkeys _ _ Hl2) as (i & Hi & Hid'). exists i. split; [|done].
      rewrite lookup_insert_ne; [done|]. intros <-. by rewrite new_ptr_fresh in Hi.
  - unfold held in *. cbn. rewrite heap_leases_insert, delete_id by apply new_ptr_fresh.
    unfold inst_lease. cbn. rewrite Hrel. cbn.
    assert ((lease_of <$> fl1 ++ fl2) ++ lease_of a :: heap_leases (m_heap m) ≡ₚ
            (lease_of <$> fl1 ++ a :: fl2) ++ heap_leases (m_heap m)) as ->; [|done].
    rewrite !fmap_app, fmap_cons. solve_Permutation.
  - by apply Forall_app.
Qed.

Lemma manager_inv_step c c' : mgr_step c c' → manager_inv c.1 c.2 → manager_inv c'.1 c'.2.
Proof.
  intros Hst Hinv. destruct Hst as
    [vmID a m m' fl Ha|vmID e m m' fl Ha|vmID a inst m m' fl1 fl2 Hr|a m fl1 fl2
    |inst i i' p' m fl Hi [Hid He]|vmID inst m fl|m fl Hlt|m fl Hlt]; cbn in *.
  - destruct Hinv as [Hres Hslot Hkeys Hl Hfr].
    destruct (create_acquire_spec _ _ _ _ Ha) as (p' & x & Hall & -> & -> & Hf).
    split; try done; [|by constructor].
    pose proof (leases_inv_step (m_ipam m, held m fl) (p', lease_of a :: held m fl)) as Hs.
    apply Hs; [|done]. by eapply step_allocate.
  - destruct (create_acquire_spec _ _ _ _ Ha) as (p' & x & Hall & -> & ->).
    destruct Hinv as [Hres Hslot Hkeys Hl Hfr]. split; try done.
    pose proof (leases_inv_step (m_ipam m, held m fl) (p', held m fl)) as Hs.
    apply Hs; [|done]. by eapply step_allocate_fails.
  - by eapply manager_inv_register.
  - destruct Hinv as [Hres Hslot Hkeys Hl Hfr]. split; try done.
    + apply (leases_give_back _ _ (lease_of a) _ Hl). unfold held. cbn.
      rewrite !fmap_app, fmap_cons. solve_Permutation.
    + apply Forall_app in Hfr as [? [_ ?]%Forall_cons]. by apply Forall_app.
  - destruct Hinv as [Hres Hslot Hkeys Hl Hfr]. split; try done; cbn.
    + intros id ptr Hl2. destruct (Hkeys _ _ Hl2) as (j & Hj & Hidj).
      destruct (decide (ptr = inst)) as [->|Hne].
      * rewrite lookup_insert_eq. exists i'. split; [done|]. congruence.
      * rewrite lookup_insert_ne by done. eauto.
    + unfold held in *. cbn. rewrite heap_leases_insert.
      rewrite (heap_leases_lookup _ _ _ Hi) in Hl.
      destruct He as [[-> ->]|(x & Hx & -> & ->)]; [done|].
      apply (leases_give_back _ _ _ _ Hl). rewrite Hx. cbn. solve_Permutation.
  - destruct Hinv as [Hres Hslot Hkeys Hl Hfr]. unfold remove_entry.
    case_bool_decide as Hb; [|by split]. split; try done; cbn.
    + unfold resident in *. cbn. rewrite map_size_delete_Some by eauto. lia.
    + intros id ptr [_ Hl2]%lookup_delete_Some. eauto.
  - destruct Hinv as [Hres Hslot Hkeys Hl Hfr]. split; try done. cbn. lia.
  - destruct Hinv as [Hres Hslot Hkeys Hl Hfr]. split; try done. cbn. lia.
Qed.

Lemma manager_inv_init tmp base net snap limits :
  manager_inv (NewManagerWithLimits tmp base net snap limits) [].
Proof.
  split; cbn.
  - unfold resident. cbn. rewrite map_size_empty. destruct (Z.leb_spec (MaxVMs limits) 0); cbn; lia.
  - destruct (Z.leb_spec (MaxConcurrentProvision limits) 0); lia.
  - intros id inst. by rewrite lookup_empty.
  - apply leases_inv_init.
  - constructor.
Qed.

Lemma manager_inv_reachable c c' : rtc mgr_step c c' → manager_inv c.1 c.2 → manager_inv c'.1 c'.2.
Proof. induction 1; eauto using manager_inv_step. Qed.

(** ** The methods are sequences of blocks *)

(** A run of blocks that leaves the admission slots as they were. *)
Definition mgr_run (m m' : Manager) : Prop :=
  (∀ fl, rtc mgr_step (m, fl) (m', fl)) ∧ m_provision m' = m_provision m ∧ m_limits m' = m_limits m.

#[export] Instance mgr_run_preorder : PreOrder mgr_run.
Proof.
  split.
  - intros m. by split.
  - intros m1 m2 m3 (H1 & Hp1 & Hl1) (H2 & Hp2 & Hl2). split; [|by split; congruence].
    intros fl. by transitivity (m2, fl).
Qed.

Lemma mgr_run_remove id inst m : mgr_run m (remove_entry id inst m).
Proof.
  split; [intros fl; apply rtc_once, ms_remove|].
  unfold remove_entry. by case_bool_decide.
Qed.

Section Runs.
Context {W : Type} `{Host W}.

(** A computation on the manager and the host that is a run of blocks. *)
Definition runs {A} (f : ST (Manager * W) A) : Prop :=
  ∀ m w r m' w', f (m, w) = (r, (m', w')) → mgr_run m m'.

Lemma on_instance_runs {A} inst (f : ST (VM W) A) :
  (∀ p i w r p' i' w', f (p, i, w) = (r, (p', i', w')) → inst_effect p i p' i') →
  runs (on_instance inst f).
Proof.
  intros Hf m w r m' w'. unfold on_instance.
  destruct (m_heap m !! inst) as [i|] eqn:Hi; [|by intros [= <- <- <-]].
  destruct (f (m_ipam m, i, w)) as [r1 [[p1 i1] w1]] eqn:E. intros [= <- <- <-].
  split; [|done]. intros fl. eapply rtc_once, ms_instance; eauto.
Qed.

Lemma stop_runs ctx inst : runs (on_instance inst (Stop ctx)).
Proof. apply on_instance_runs. intros *. apply stop_effect. Qed.
Lemma configure_runs ctx inst : runs (on_instance inst (Configure ctx)).
Proof. apply on_instance_runs. intros *. apply configure_effect. Qed.
Lemma start_runs ctx inst : runs (on_instance inst (Start ctx)).
Proof. apply on_instance_runs. intros *. apply start_effect. Qed.

Lemma create_runs vmID : runs (CreateVM (W := W) vmID).
Proof.
  intros m w r m' w'. unfold CreateVM.
  destruct (validateVMID vmID) as [[]|e]; [|by intros [= <- <- <-]].
  destruct (create_admit vmID m) as [[]|e]; [|by intros [= <- <- <-]].
  destruct (create_acquire vmID m) as [[a|e] m1] eqn:Ea;
    destruct (create_acquire_spec _ _ _ _ Ea) as (p' & x & Hall & Hm1 & Hx).
  2: { intros [= <- <- <-]. split; [|by subst].
       intros fl. by eapply rtc_once, ms_acquire_fails. }
  destruct Hx as (_ & Hcl & Hrel).
  destruct (create_register vmID a m1) as [[inst|e] m2] eqn:Er.
  - intros [= <- <- <-]. split.
    + intros fl. eapply rtc_l; [by eapply ms_acquire|].
      eapply rtc_once, (ms_register _ _ _ _ _ [] fl). done.
    + revert Er. unfold create_register.
      repeat case_match; intros [= <- <-]; by subst.
  - assert (m2 = m1) as ->.
    { revert Er. unfold create_register. repeat case_match; by intros [= _ <-]. }
    unfold alloc_Release. rewrite Hrel, Hcl. cbn. intros [= <- <- <-].
    split; [|by subst]. intros fl. eapply rtc_l; [by eapply ms_acquire|].
    eapply rtc_once, (ms_give_back _ _ [] fl).
Qed.

Lemma remove_failed_runs ctx vmID inst : runs (removeFailedVM ctx vmID inst).
Proof.
  intros m w r m' w'. unfold removeFailedVM.
  destruct (on_instance inst (Stop ctx) (m, w)) as [[u|e] [m1 w1]] eqn:E;
    apply stop_runs in E; intros [= <- <- <-]; [|done].
  etransitivity; [done|]. apply mgr_run_remove.
Qed.

Lemma provision_failed_runs ctx vmID inst what clean e :
  runs (provision_failed ctx vmID inst what clean e).
Proof.
  intros m w r m' w'. unfold provision_failed.
  destruct (removeFailedVM ctx vmID inst (m, w)) as [[u|ce] [m1 w1]] eqn:E;
    apply remove_failed_runs in E; by intros [= <- <- <-].
Qed.

Lemma provision_body_runs ctx vmID : runs (provision_body ctx vmID).
Proof.
  intros m w r m' w'. unfold provision_body.
  destruct (ctx_err ctx); [by intros [= <- <- <-]|].
  destruct (CreateVM vmID (m, w)) as [[inst|e] [m1 w1]] eqn:Ec; apply create_runs in Ec;
    [|by intros [= <- <- <-]].
  rewrite Ec. clear Ec.
  destruct (on_instance inst (Configure ctx) (m1, w1)) as [[u|e] [m2 w2]] eqn:E2;
    apply configure_runs in E2; rewrite E2; [|apply provision_failed_runs].
  destruct (on_instance inst (Start ctx) (m2, w2)) as [[u3|e3] [m3 w3]] eqn:E3;
    apply start_runs in E3; rewrite E3; [by intros [= <- <- <-]|apply provision_failed_runs].
Qed.

Lemma provision_runs ctx vmID m (w : W) r m' w' :
  0 ≤ m_provision m → ProvisionVM ctx vmID (m, w) = (r, (m', w')) → mgr_run m m'.
Proof.
  intros H0. unfold ProvisionVM.
  destruct (Z.ltb_spec (m_provision m) (MaxConcurrentProvision (m_limits m))) as [Hlt|_];
    [|by intros [= <- <- <-]].
  destruct (provision_body ctx vmID _) as [r1 [m1 w1]] eqn:E.
  apply provision_body_runs in E as (Hst & Hp & Hl). intros [= <- <- <-]. cbn in Hp.
  split; [|cbn; split; [lia|done]].
  intros fl. eapply rtc_l; [by apply ms_slot_take|].
  eapply rtc_r; [apply Hst|]. apply ms_slot_free. lia.
Qed.

Lemma reconcile_items_runs ctx items m w errs m' w' :
  reconcile_items (W := W) ctx items (m, w) = (errs, (m', w')) → mgr_run m m'.
Proof.
  revert m w errs m' w'. induction items as [|[id inst] items IH]; intros m w errs m' w';
    cbn [reconcile_items].
  - by intros [= <- <- <-].
  - destruct (on_instance inst (Stop ctx) (m, w)) as [[u|e] [m1 w1]] eqn:E; apply stop_runs in E.
    + intros E2. rewrite E, (mgr_run_remove id inst m1). eapply IH, E2.
    + destruct (reconcile_items ctx items (m1, w1)) as [errs2 [m2 w2]] eqn:E2.
      intros [= <- <- <-]. rewrite E. eapply IH, E2.
Qed.

Lemma reconcile_runs order ctx : runs (Reconcile (W := W) order ctx).
Proof.
  intros m w r m' w'. unfold Reconcile.
  destruct (reconcile_items _ _ _) as [errs [m1 w1]] eqn:E. apply reconcile_items_runs in E.
  destruct errs; by intros [= <- <- <-].
Qed.

Lemma destroy_runs ctx vmID : runs (DestroyVM (W := W) ctx vmID).
Proof.
  intros m w r m' w'. unfold DestroyVM.
  destruct (m_instances m !! vmID) as [inst|]; [|by intros [= <- <- <-]].
  destruct (on_instance inst (Stop ctx) (m, w)) as [[u|e] [m1 w1]] eqn:E;
    apply stop_runs in E; rewrite E; intros [= <- <- <-]; [apply mgr_run_remove|done].
Qed.
End Runs.

(** One call of a method by a client of the manager. *)
Inductive mgr_call {W} `{Host W} : Manager * W → Manager * W → Prop :=
  | call_create vmID s r s' : CreateVM vmID s = (r, s') → mgr_call s s'
  | call_provision ctx vmID s r s' : ProvisionVM ctx vmID s = (r, s') → mgr_call s s'
  | call_reconcile order ctx s r s' : Reconcile order ctx s = (r, s') → mgr_call s s'
  | call_destroy ctx vmID s r s' : DestroyVM ctx vmID s = (r, s') → mgr_call s s'
  | call_configure inst ctx s r s' : on_instance inst (Configure ctx) s = (r, s') → mgr_call s s'
  | call_start inst ctx s r s' : on_instance inst (Start ctx) s = (r, s') → mgr_call s s'
  | call_stop inst ctx s r s' : on_instance inst (Stop ctx) s = (r, s') → mgr_call s s'.

Lemma mgr_call_runs {W} `{Host W} s s' :
  mgr_call s s' → 0 ≤ m_provision s.1 → mgr_run s.1 s'.1.
Proof.
  intros [vmID [m w] r [m' w'] E|ctx vmID [m w] r [m' w'] E|o ctx [m w] r [m' w'] E
         |ctx vmID [m w] r [m' w'] E|inst ctx [m w] r [m' w'] E|inst ctx [m w] r [m' w'] E
         |inst ctx [m w] r [m' w'] E] H0; cbn in *.
  - by eapply create_runs. - by eapply provision_runs. - by eapply reconcile_runs.
  - by eapply destroy_runs. - by eapply configure_runs. - by eapply start_runs.
  - by eapply stop_runs.
Qed.

(** Every sequence of calls is a sequence of blocks. *)
Theorem manager_calls_are_blocks {W} `{Host W} s s' :
  0 ≤ m_provision s.1 → rtc mgr_call s s' →
  rtc mgr_step (s.1, []) (s'.1, []) ∧ m_provision s'.1 = m_provision s.1.
Proof.
  intros H0 Hr. induction Hr as [s|s1 s2 s3 Hc _ IH]; [done|].
  destruct (mgr_call_runs _ _ Hc H0) as (Hst & Hp & _).
  destruct IH as [IH Hp']; [lia|]. split; [|lia]. by transitivity (s2.1, @nil Allocation).
Qed.

(** C1: Whatever interleaving of the critical sections of [CreateVM],
    [ProvisionVM], [Reconcile], [DestroyVM] and of instance methods runs: the
    resident VMs and the provisioning operations stay within the limits,
    every entry of the map points to an instance of that id, and no two
    live leases share a guest address or a vsock context id. *)
Theorem manager_safe_under_interleaving tmp base net snap limits m fl :
  rtc mgr_step (NewManagerWithLimits tmp base net snap limits, []) (m, fl) →
  resident m ≤ MaxVMs (m_limits m) ∧
  0 ≤ m_provision m ≤ MaxConcurrentProvision (m_limits m) ∧
  (∀ id inst, m_instances m !! id = Some inst → ∃ i, m_heap m !! inst = Some i ∧ i_ID i = id) ∧
  (∀ inst inst' i i' l l', m_heap m !! inst = Some i → m_heap m !! inst' = Some i' →
     inst_lease i = Some l → inst_lease i' = Some l' → inst ≠ inst' →
     l_cid l ≠ l_cid l' ∧ GuestIP (l_cfg l) ≠ GuestIP (l_cfg l')).
Proof.
  intros Hr. destruct (manager_inv_reachable _ _ Hr (manager_inv_init _ _ _ _ _))
    as [Hres Hslot Hkeys Hl _]; cbn in *.
  repeat (split; [done|]). intros k k' i i' l l' Hi Hi' Hli Hli' Hne.
  assert (held m fl ≡ₚ l :: l' :: (lease_of <$> fl) ++
            heap_leases (base.delete k' (base.delete k (m_heap m)))) as Hp.
  { unfold held. rewrite (heap_leases_lookup _ _ _ Hi), Hli. cbn.
    rewrite (heap_leases_lookup (base.delete k (m_heap m)) k' i')
      by by rewrite lookup_delete_ne. rewrite Hli'. cbn. solve_Permutation. }
  rewrite Hp in Hl. destruct Hl as [_ _ _ Hs _ Hc]. rewrite !fmap_cons in Hs, Hc.
  apply NoDup_cons in Hs as [Hs _], Hc as [Hc _]. split.
  - intros E. apply Hc. rewrite E. left.
  - intros E. apply Hs. unfold l_subnet. rewrite E. left.
Qed.

(** ** Outcomes of the methods *)

Section Outcomes.
Context {W : Type} `{Host W}.

Lemma on_instance_inv {A} inst (f : ST (VM W) A) m w r m' w' i :
  m_heap m !! inst = Some i → on_instance inst f (m, w) = (r, (m', w')) →
  m_instances m' = m_instances m ∧
  ∃ p' i', f (m_ipam m, i, w) = (r, (p', i', w')) ∧ m_ipam m' = p' ∧
           m_heap m' = <[inst := i']> (m_heap m).
Proof.
  intros Hi. unfold on_instance. rewrite Hi.
  destruct (f (m_ipam m, i, w)) as [r1 [[p1 i1] w1]]. intros [= <- <- <-].
  split; [done|]. by exists p1, i1.
Qed.

Lemma create_fails vmID m (w : W) e m' w' :
  CreateVM vmID (m, w) = (Err e, (m', w')) →
  m_instances m' = m_instances m ∧ m_heap m' = m_heap m.
Proof.
  unfold CreateVM. destruct (validateVMID vmID) as [[]|]; [|by intros [= _ <- _]].
  destruct (create_admit vmID m) as [[]|]; [|by intros [= _ <- _]].
  destruct (create_acquire vmID m) as [[a|?] m1] eqn:Ea;
    destruct (create_acquire_spec _ _ _ _ Ea) as (p' & x & _ & -> & _); [|by intros [= _ <- _]].
  destruct (create_register vmID a _) as [[?|?] m2] eqn:Er; [done|].
  destruct (alloc_Release _ _) as [? [[? ?] ?]]. intros [= <- <- <-]. cbn.
  revert Er. unfold create_register. repeat case_match; by intros [= _ <-].
Qed.

Lemma create_succeeds vmID m (w : W) inst m' w' :
  CreateVM vmID (m, w) = (Ok inst, (m', w')) →
  w' = w ∧ m_instances m !! vmID = None ∧ m_instances m' = <[vmID := inst]> (m_instances m) ∧
  m_heap m !! inst = None ∧ m_limits m' = m_limits m ∧ m_provision m' = m_provision m ∧
  ∃ a, Allocate vmID (m_netCfg m) (m_ipam m) = (Ok (a_cfg a, a_cid a), m_ipam m') ∧
    a_cleanup a = [] ∧ a_released a = false ∧
    m_heap m' = <[inst := NewInstance vmID (socket_path (m_tempDir m) vmID) (m_baseCfg m)
                            (Some a) (a_cid a) (m_snapCfg m)]> (m_heap m).
Proof.
  unfold CreateVM. destruct (validateVMID vmID) as [[]|]; [|done].
  destruct (create_admit vmID m) as [[]|]; [|done].
  destruct (create_acquire vmID m) as [[a|?] m1] eqn:Ea; [|done].
  destruct (create_acquire_spec _ _ _ _ Ea) as (p' & x & Hall & -> & -> & Hcl & Hrel).
  unfold create_register. cbn [m_instances set_ipam].
  destruct (m_instances m !! vmID); [by destruct (alloc_Release _ _) as [? [[? ?] ?]]|].
  destruct (at_capacity _); [by destruct (alloc_Release _ _) as [? [[? ?] ?]]|].
  intros [= <- <- <-]. do 3 (split; [done|]). split; [apply (new_ptr_fresh (set_ipam p' m))|].
  do 2 (split; [done|]). by exists a.
Qed.

(** The entry is gone, or still there for [Reconcile] to find. *)
Definition gone_or_visible (vmID : string) (m : Manager) : Prop :=
  m_instances m !! vmID = None ∨
  ∃ inst i, m_instances m !! vmID = Some inst ∧ m_heap m !! inst = Some i ∧
            i_state i = StateCleanupFailed.

Lemma stop_on_instance ctx inst m w r m' w' i :
  m_heap m !! inst = Some i → on_instance inst (Stop ctx) (m, w) = (r, (m', w')) →
  is_ok r = false → ∃ i', m_heap m' = <[inst := i']> (m_heap m) ∧ i_state i' = StateCleanupFailed.
Proof.
  intros Hi E Hr. destruct (on_instance_inv _ _ _ _ _ _ _ _ Hi E) as (_ & p' & i' & Hs & _ & Hh).
  exists i'. split; [done|]. destruct (stoppable (i_state i)) eqn:Hst.
  - pose proof (stop_cases _ _ _ _ _ _ _ _ Hst Hs) as Hc. by destruct r.
  - rewrite stop_noop in Hs by done. by injection Hs as <-.
Qed.

Lemma remove_entry_own vmID inst m :
  m_instances m !! vmID = Some inst → m_instances (remove_entry vmID inst m) !! vmID = None.
Proof.
  intros E. unfold remove_entry. rewrite bool_decide_eq_true_2 by done. cbn. apply lookup_delete_eq.
Qed.

Lemma provision_failed_outcome ctx vmID inst what clean e0 m w r m' w' i :
  m_heap m !! inst = Some i → m_instances m !! vmID = Some inst →
  provision_failed (W := W) ctx vmID inst what clean e0 (m, w) = (r, (m', w')) →
  is_ok r = false ∧ gone_or_visible vmID m'.
Proof.
  intros Hi Hid. unfold provision_failed, removeFailedVM.
  destruct (on_instance inst (Stop ctx) (m, w)) as [[u|e] [m1 w1]] eqn:E.
  - intros [= <- <- <-]. split; [done|]. left. apply remove_entry_own.
    by destruct (on_instance_inv _ _ _ _ _ _ _ _ Hi E) as [-> _].
  - destruct (stop_on_instance _ _ _ _ _ _ _ _ Hi E eq_refl) as (i' & Hh & Hs).
    intros [= <- <- <-]. split; [done|]. right. exists inst, i'.
    destruct (on_instance_inv _ _ _ _ _ _ _ _ Hi E) as [-> _].
    by rewrite Hh, lookup_insert_eq.
Qed.

Lemma provision_body_outcome ctx vmID m w r m' w' :
  m_instances m !! vmID = None →
  provision_body (W := W) ctx vmID (m, w) = (r, (m', w')) →
  match r with
  | Ok inst => m_instances m' = <[vmID := inst]> (m_instances m) ∧
      ∃ i, m_heap m' !! inst = Some i ∧ i_ID i = vmID ∧ i_state i = StateRunning
           ∧ is_Some (i_machine i) ∧ lease_live i
  | Err _ => gone_or_visible vmID m'
  end.
Proof.
  intros Hid. unfold provision_body. destruct (ctx_err ctx); [intros [= <- <- <-]; by left|].
  destruct (CreateVM vmID (m, w)) as [[inst|e] [m1 w1]] eqn:Ec.
  2: { intros [= <- <- <-]. left. by destruct (create_fails _ _ _ _ _ _ Ec) as [-> _]. }
  destruct (create_succeeds _ _ _ _ _ _ Ec) as (_ & _ & Hm1 & _ & _ & _ & a & _ & _ & _ & Hh1).
  assert (m_instances m1 !! vmID = Some inst) as Hid1 by by rewrite Hm1, lookup_insert_eq.
  assert (m_heap m1 !! inst = Some (NewInstance vmID (socket_path (m_tempDir m) vmID) (m_baseCfg m)
                            (Some a) (a_cid a) (m_snapCfg m))) as Hi1 by by rewrite Hh1, lookup_insert_eq.
  destruct (on_instance inst (Configure ctx) (m1, w1)) as [[u|e] [m2 w2]] eqn:E2;
    destruct (on_instance_inv _ _ _ _ _ _ _ _ Hi1 E2) as (Hm2 & p2 & i2 & HC & _ & Hh2);
    (assert (m_heap m2 !! inst = Some i2) as Hi2 by by rewrite Hh2, lookup_insert_eq).
  2: { intros E. eapply provision_failed_outcome in E as [Hr ?]; [|done|by rewrite Hm2].
       by destruct r. }
  pose proof (configure_cases _ _ _ _ _ _ _ _ HC eq_refl) as (_ & Hs2 & Hmach & Hlive).
  destruct (configure_effect _ _ _ _ _ _ _ _ HC) as [HID _].
  destruct (on_instance inst (Start ctx) (m2, w2)) as [[u3|e3] [m3 w3]] eqn:E3;
    destruct (on_instance_inv _ _ _ _ _ _ _ _ Hi2 E3) as (Hm3 & p3 & i3 & HS & _ & Hh3);
    (assert (m_heap m3 !! inst = Some i3) as Hi3 by by rewrite Hh3, lookup_insert_eq).
  2: { intros E. eapply provision_failed_outcome in E as [Hr ?]; [|done|by rewrite Hm3, Hm2].
       by destruct r. }
  intros [= <- <- <-]. split; [congruence|].
  destruct (start_cases _ _ _ _ _ _ _ _ HS) as (_ & Hn & Hmc & _ & Hs3 & _).
  destruct (start_effect _ _ _ _ _ _ _ _ HS) as [HID3 _].
  exists i3. unfold lease_live in *. rewrite Hn, Hmc, HID3, HID. done.
Qed.
End Outcomes.

Lemma provision_cases {W} `{Host W} ctx vmID m w r m' w' :
  m_instances m !! vmID = None → ProvisionVM ctx vmID (m, w) = (r, (m', w')) →
  match r with
  | Ok inst => m_instances m' = <[vmID := inst]> (m_instances m) ∧
      ∃ i, m_heap m' !! inst = Some i ∧ i_ID i = vmID ∧ i_state i = StateRunning
           ∧ is_Some (i_machine i) ∧ lease_live i
  | Err _ => gone_or_visible vmID m'
  end.
Proof.
  intros Hid. unfold ProvisionVM. destruct (_ <? _); [|intros [= <- <- <-]; by left].
  destruct (provision_body ctx vmID _) as [r1 [m1 w1]] eqn:Eb. intros [= <- <- <-].
  by apply provision_body_outcome in Eb.
Qed.

(** C7: [ProvisionVM] of a new id: on success the map gains exactly that entry,
    and the instance is running, with a machine and a live lease whose TAP
    and firewall are set up; on failure the entry is not left behind, unless
    its cleanup failed, in which case it is where [Reconcile] looks.  The
    admission slot is given back in every case. *)
Theorem provision_outcome {W} `{Host W} ctx vmID m w r m' w' :
  m_instances m !! vmID = None → ProvisionVM ctx vmID (m, w) = (r, (m', w')) →
  0 ≤ m_provision m → m_provision m' = m_provision m ∧
  match r with
  | Ok inst => m_instances m' = <[vmID := inst]> (m_instances m) ∧
      ∃ i, m_heap m' !! inst = Some i ∧ i_ID i = vmID ∧ i_state i = StateRunning
           ∧ is_Some (i_machine i) ∧ lease_live i
  | Err _ => gone_or_visible vmID m'
  end.
Proof.
  intros Hid E H0. split; [by apply (provision_runs _ _ _ _ _ _ _ H0 E)|].
  by eapply provision_cases.
Qed.

(** A provisioning whose [Configure] fails before it changes the state (here:
    the random source fails) leaves no entry, but its lease stays out: [Stop]
    does nothing in [StateCreated]. *)
Theorem early_failure_leaks_lease {W} `{Host W} ctx vmID m w e0 w1 cfg cid p1 :
  validateVMID vmID = Ok tt → ctx_err ctx = None →
  m_provision m < MaxConcurrentProvision (m_limits m) →
  at_capacity m = false → m_instances m !! vmID = None →
  Allocate vmID (m_netCfg m) (m_ipam m) = (Ok (cfg, cid), p1) →
  generateInstanceID w = (Err e0, w1) →
  ∃ e m', ProvisionVM ctx vmID (m, w) = (Err e, (m', w1)) ∧
    m_instances m' = m_instances m ∧ m_ipam m' = p1.
Proof.
  intros Hv Hctx Hslot Hcap Hid Hall Hgen. unfold ProvisionVM.
  rewrite (proj2 (Z.ltb_lt _ _) Hslot). unfold provision_body, CreateVM. rewrite Hctx, Hv.
  unfold create_admit. change (at_capacity (set_provision _ m)) with (at_capacity m).
  rewrite Hcap. cbn [m_instances set_provision]. rewrite Hid.
  unfold create_acquire, Acquire. cbn [m_netCfg m_ipam set_provision]. rewrite Hall.
  unfold create_register. cbn [m_instances set_ipam set_provision]. rewrite Hid.
  change (at_capacity (set_ipam _ _)) with (at_capacity m). rewrite Hcap.
  cbn [a_cid]. unfold provision_failed, removeFailedVM, on_instance. cbn [m_heap set_instances set_heap].
  rewrite lookup_insert_eq. unfold Configure. rewrite Hgen. cbn [m_heap set_ipam set_heap].
  rewrite lookup_insert_eq. rewrite stop_noop by done. eexists _, _. split; [done|].
  unfold remove_entry. cbn. rewrite bool_decide_eq_true_2 by by rewrite lookup_insert_eq. cbn.
  by rewrite delete_insert_id.
Qed.

(** [DestroyVM] of an instance that is not running, configured or in failed
    cleanup reports success and forgets the instance: nothing is stopped and
    its lease stays out. *)
Theorem destroy_forgets_unfinished {W} `{Host W} ctx vmID m (w : W) inst i :
  m_instances m !! vmID = Some inst → m_heap m !! inst = Some i →
  stoppable (i_state i) = false →
  DestroyVM ctx vmID (m, w)
  = (Ok tt, (set_instances (base.delete vmID (m_instances m)) m, w)).
Proof.
  intros Hid Hi Hs. unfold DestroyVM, on_instance. rewrite Hid, Hi, stop_noop by done.
  rewrite insert_id by done. unfold remove_entry. cbn. rewrite bool_decide_eq_true_2 by done.
  by destruct m.
Qed.

Section ReconcileItems.
Context {W : Type} `{Host W}.

(** What became of the item [x]. *)
Definition item_settled (m : Manager) (x : string * nat) : Prop :=
  m_instances m !! x.1 = None ∨
  m_instances m !! x.1 = Some x.2 ∧ cleanup_failed m x = true.

Lemma on_instance_other {A} inst (f : ST (VM W) A) m w r m' w' k :
  on_instance inst f (m, w) = (r, (m', w')) → k ≠ inst → m_heap m' !! k = m_heap m !! k.
Proof.
  unfold on_instance. destruct (m_heap m !! inst) as [i|]; [|by intros [= _ <- _]].
  destruct (f _) as [? [[? ?] ?]]. intros [= _ <- _] ?. cbn. by rewrite lookup_insert_ne.
Qed.

Lemma remove_entry_other vmID inst m id :
  id ≠ vmID → m_instances (remove_entry vmID inst m) !! id = m_instances m !! id.
Proof.
  intros Hne. unfold remove_entry. case_bool_decide; [|done]. cbn. by rewrite lookup_delete_ne.
Qed.
Lemma remove_entry_heap vmID inst m : m_heap (remove_entry vmID inst m) = m_heap m.
Proof. unfold remove_entry. by case_bool_decide. Qed.

Lemma reconcile_items_spec ctx items m w errs m' w' :
  NoDup items.*1 → NoDup items.*2 →
  (∀ x, x ∈ items → m_instances m !! x.1 = Some x.2 ∧ is_Some (m_heap m !! x.2)) →
  reconcile_items (W := W) ctx items (m, w) = (errs, (m', w')) →
  (∀ x, x ∈ items → item_settled m' x) ∧
  (errs = [] → ∀ x, x ∈ items → m_instances m' !! x.1 = None) ∧
  (∀ id, id ∉ items.*1 → m_instances m' !! id = m_instances m !! id) ∧
  (∀ k, k ∉ items.*2 → m_heap m' !! k = m_heap m !! k).
Proof.
  revert m w errs m' w'. induction items as [|[id inst] items IH]; intros m w errs m' w' Hn1 Hn2 Hin;
    cbn [reconcile_items].
  { intros [= <- <- <-]. by split_and!; try set_solver. }
  apply NoDup_cons in Hn1 as [Hid1 Hn1], Hn2 as [Hid2 Hn2]. cbn [fst snd] in *.
  destruct (Hin (id, inst)) as [Hm [i Hi]]; [left|]. cbn in Hm, Hi.
  destruct (on_instance inst (Stop ctx) (m, w)) as [r1 [m1 w1]] eqn:E.
  destruct (on_instance_inv _ _ _ _ _ _ _ _ Hi E) as (Hm1 & _).
  assert (∀ k, k ≠ inst → m_heap m1 !! k = m_heap m !! k) as Hh1
    by (intros; by eapply on_instance_other).
  assert (∀ m2, (∀ id', id' ≠ id → m_instances m2 !! id' = m_instances m !! id') →
            m_heap m2 = m_heap m1 → ∀ x, x ∈ items →
            m_instances m2 !! x.1 = Some x.2 ∧ is_Some (m_heap m2 !! x.2)) as Hin2.
  { intros m2 Hi2 Hh2 x Hx. destruct (Hin x) as [Ha Hb]; [by right|].
    rewrite Hi2, Hh2, Hh1; [done|..]; intros Heq;
      [apply Hid2|apply Hid1]; rewrite <- Heq; by apply list_elem_of_fmap_2. }
  destruct r1 as [u|e].
  - intros E2. destruct (IH _ _ _ _ _ Hn1 Hn2 (Hin2 (remove_entry id inst m1)
      ltac:(intros; rewrite remove_entry_other by done; by rewrite Hm1)
      ltac:(apply remove_entry_heap)) E2) as (Hs & Hok & Hoi & Hoh).
    assert (m_instances m' !! id = None) as Hgone.
    { rewrite Hoi by done. apply remove_entry_own. by rewrite Hm1. }
    split_and!.
    + intros x [->|Hx]%elem_of_cons; [by left|by apply Hs].
    + intros He x [->|Hx]%elem_of_cons; [done|by apply Hok].
    + intros id' [Hne Hid']%not_elem_of_cons. rewrite Hoi by done.
      rewrite remove_entry_other by done. by rewrite Hm1.
    + intros k [Hne Hk]%not_elem_of_cons. rewrite Hoh by done.
      rewrite remove_entry_heap. by apply Hh1.
  - destruct (stop_on_instance _ _ _ _ _ _ _ _ Hi E eq_refl) as (i' & Hh & Hst).
    destruct (reconcile_items ctx items (m1, w1)) as [errs2 [m2 w2]] eqn:E2.
    intros [= <- <- <-].
    destruct (IH _ _ _ _ _ Hn1 Hn2 (Hin2 m1 ltac:(intros; by rewrite Hm1) eq_refl) E2)
      as (Hs & Hok & Hoi & Hoh).
    split_and!.
    + intros x [->|Hx]%elem_of_cons; [|by apply Hs]. right. cbn.
      rewrite Hoi, Hm1 by done. split; [done|]. unfold cleanup_failed. cbn.
      rewrite Hoh, Hh, lookup_insert_eq by done. by apply bool_decide_eq_true_2.
    + done.
    + intros id' [Hne Hid']%not_elem_of_cons. by rewrite Hoi, Hm1.
    + intros k [Hne Hk]%not_elem_of_cons. rewrite Hoh by done. by apply Hh1.
Qed.
End ReconcileItems.

(** Entries of the map point to distinct instances. *)
Lemma entries_distinct m fl order :
  manager_inv m fl → order ≡ₚ map_to_list (m_instances m) →
  NoDup order.*1 ∧ NoDup order.*2 ∧
  (∀ x, x ∈ order ↔ m_instances m !! x.1 = Some x.2).
Proof.
  intros Hinv Hp. split_and!.
  - rewrite Hp. apply NoDup_fst_map_to_list.
  - assert (∀ x, x ∈ order → m_instances m !! x.1 = Some x.2) as Hin.
    { intros [id k]. rewrite Hp. apply elem_of_map_to_list. }
    assert (NoDup order) as Hnd by (rewrite Hp; apply NoDup_map_to_list). clear Hp.
    induction order as [|x order IH]; [constructor|]. apply NoDup_cons in Hnd as [Hx Hnd].
    rewrite fmap_cons. apply NoDup_cons. split; [|apply IH; [intros; apply Hin; by right|done]].
    intros (y & Exy & Hy)%list_elem_of_fmap. apply Hx.
    pose proof (Hin x ltac:(left)) as H1. pose proof (Hin y ltac:(by right)) as H2.
    destruct (mi_keys _ _ Hinv _ _ H1) as (i & Hi & Hix), (mi_keys _ _ Hinv _ _ H2) as (j & Hj & Hjy).
    destruct x, y; cbn in *; simplify_eq/=. by simplify_map_eq.
  - intros [id k]. rewrite Hp. apply elem_of_map_to_list.
Qed.

(** C36: [Reconcile], whatever the order in which it visits the map: every
    instance whose cleanup had failed is gone from the map, or still there in
    [StateCleanupFailed]; when it reports no error none is left; the other
    entries keep their instances. *)
Theorem reconcile_retries_cleanup {W} `{Host W} order ctx m fl w r m' w' :
  manager_inv m fl → order ≡ₚ map_to_list (m_instances m) →
  Reconcile (W := W) order ctx (m, w) = (r, (m', w')) →
  (∀ x, x ∈ order → cleanup_failed m x = true → item_settled m' x) ∧
  (r = Ok tt → ∀ x, m_instances m' !! x.1 = Some x.2 → cleanup_failed m' x = false) ∧
  (∀ x, x ∈ order → cleanup_failed m x = false →
        m_instances m' !! x.1 = Some x.2 ∧ m_heap m' !! x.2 = m_heap m !! x.2).
Proof.
  intros Hinv Hp. destruct (entries_distinct _ _ _ Hinv Hp) as (Hn1 & Hn2 & Hin).
  unfold Reconcile. set (items := filter _ order).
  assert (items `sublist_of` order) as Hsub by apply sublist_filter.
  assert (∀ x, x ∈ items ↔ cleanup_failed m x = true ∧ x ∈ order) as Hit
    by (intros x; unfold items; by rewrite list_elem_of_filter).
  destruct (reconcile_items ctx items (m, w)) as [errs [m1 w1]] eqn:E. intros Hr.
  destruct (reconcile_items_spec ctx items m w errs m1 w1) as (Hs & Hok & Hoi & Hoh); [..|done|].
  { eapply sublist_NoDup; [exact Hn1|]. by apply fmap_sublist. }
  { eapply sublist_NoDup; [exact Hn2|]. by apply fmap_sublist. }
  { intros x [_ Hx]%Hit. split; [by apply Hin|]. apply Hin in Hx.
    destruct (mi_keys _ _ Hinv _ _ Hx) as (i & -> & _). by eexists. }
  assert (∀ x, x ∈ order → x ∉ items → x.1 ∉ items.*1 ∧ x.2 ∉ items.*2) as Hout.
  { intros x Hx Hnx. split; intros (y & Exy & Hy)%list_elem_of_fmap; apply Hnx;
      pose proof (proj2 (proj1 (Hit y) Hy)) as Hy'; apply Hin in Hy', Hx;
      destruct (mi_keys _ _ Hinv _ _ Hx) as (i & Hi & Hix), (mi_keys _ _ Hinv _ _ Hy') as (j & Hj & Hjy);
      destruct x, y; cbn in *; simplify_map_eq; done. }
  assert (m' = m1 ∧ (r = Ok tt → errs = [])) as [-> Hre]
    by (destruct errs; injection Hr as <- <- <-; done).
  split_and!.
  - intros x Hx Hc. apply Hs, Hit. done.
  - intros Hrok x Hx. destruct (decide (x ∈ order)) as [Ho|Ho].
    + destruct (decide (x ∈ items)) as [Hi|Hi].
      { by rewrite (Hok (Hre Hrok) x Hi) in Hx. }
      destruct (Hout x Ho Hi) as [_ H2]. unfold cleanup_failed. rewrite Hoh by done.
      destruct (cleanup_failed m x) eqn:Hc; [|done]. exfalso. apply Hi, Hit. done.
    + exfalso. destruct (decide (x.1 ∈ items.*1)) as [(y & Ey & Hy)%list_elem_of_fmap|Hn].
      * rewrite Ey, (Hok (Hre Hrok) y Hy) in Hx. done.
      * rewrite Hoi in Hx by done. apply Ho, Hin. done.
  - intros x Hx Hc. destruct (Hout x Hx) as [H1 H2]; [intros [Hc' _]%Hit; congruence|].
    rewrite Hoi, Hoh by done. split; [by apply Hin|done].
Qed.

(** ** A manager of two VMs on the simulated host *)

Definition demo_manager : Manager :=
  NewManagerWithLimits "/tmp" demo_cfg (DefaultConfig "") demo_snap
    {| MaxVMs := 2; MaxConcurrentProvision := 1 |}.
Definition demo_provision : result nat * (Manager * SimHost) :=
  ProvisionVM Background "vm-a" (demo_manager, demo_host).
(** The machine runs, but its TAP device cannot be deleted. *)
Definition demo_stuck : result unit * (Manager * SimHost) :=
  DestroyVM Background "vm-a" (demo_provision.2.1, set_broken {["LinkDel"]} demo_provision.2.2).

Definition acquired (vmID : string) (m : Manager) : Allocation :=
  match create_acquire vmID m with
  | (Ok a, _) => a
  | (Err _, _) => mkAllocation (DefaultConfig "") 0 [] true
  end.

(** Two creations whose critical sections interleave. *)
Lemma manager_safe_under_interleaving_witness :
  let m1 := (create_acquire "a" demo_manager).2 in
  let m2 := (create_acquire "b" m1).2 in
  let m3 := (create_register "b" (acquired "b" m1) m2).2 in
  let m4 := (create_register "a" (acquired "a" demo_manager) m3).2 in
  resident m4 = 2 ∧ resident m4 ≤ MaxVMs (m_limits m4).
Proof.
  intros m1 m2 m3 m4. split; [vm_compute; reflexivity|].
  apply (manager_safe_under_interleaving "/tmp" demo_cfg (DefaultConfig "") demo_snap
           {| MaxVMs := 2; MaxConcurrentProvision := 1 |} m4 []).
  eapply rtc_l; [apply (ms_acquire "a" (acquired "a" demo_manager) _ m1); vm_compute; reflexivity|].
  eapply rtc_l; [apply (ms_acquire "b" (acquired "b" m1) _ m2); vm_compute; reflexivity|].
  eapply rtc_l; [apply (ms_register "b" (acquired "b" m1) 0 _ m3 []); vm_compute; reflexivity|].
  eapply rtc_l; [apply (ms_register "a" (acquired "a" demo_manager) 1 _ m4 []); vm_compute; reflexivity|].
  apply rtc_refl.
Defined.

Lemma provision_outcome_witness :
  demo_provision.1 = Ok 0%nat ∧ m_instances demo_provision.2.1 = {["vm-a" := 0%nat]}.
Proof.
  assert (demo_provision.1 = Ok 0%nat) as E by (vm_compute; reflexivity). split; [done|].
  destruct (provision_outcome (W := SimHost) Background "vm-a" demo_manager demo_host demo_provision.1
              demo_provision.2.1 demo_provision.2.2) as [_ Hr];
    [done|unfold demo_provision; by destruct (ProvisionVM _ _ _) as [? []]|done|].
  rewrite E in Hr. destruct Hr as [Hr _]. exact Hr.
Defined.

Lemma manager_calls_are_blocks_witness :
  rtc mgr_step (demo_manager, []) ((DestroyVM Background "vm-a" demo_provision.2).2.1, []).
Proof.
  apply (manager_calls_are_blocks (W := SimHost) (demo_manager, demo_host)
           (DestroyVM Background "vm-a" demo_provision.2).2); [done|].
  eapply rtc_l; [eapply (call_provision Background "vm-a"), (surjective_pairing demo_provision)|].
  apply rtc_once. eapply (call_destroy Background "vm-a"), surjective_pairing.
Defined.

Lemma mgr_call_inv {W} `{Host W} s s' :
  mgr_call s s' → 0 ≤ m_provision s.1 → manager_inv s.1 [] → manager_inv s'.1 [].
Proof. intros Hc H0. apply (manager_inv_reachable (s.1, []) (s'.1, [])), (mgr_call_runs _ _ Hc H0). Qed.

(** Provisioning a VM and destroying it, the host changing in between. *)
Lemma provision_destroy_inv {W} `{Host W} ctx vmID m (w : W) f p q :
  p = ProvisionVM ctx vmID (m, w) → q = DestroyVM ctx vmID (p.2.1, f p.2.2) →
  0 ≤ m_provision m → manager_inv m [] → manager_inv q.2.1 [].
Proof.
  intros Hp Hq H0 Hm. destruct p as [r [m1 w1]], q as [r2 [m2 w2]]. symmetry in Hp, Hq. cbn in *.
  assert (0 ≤ m_provision m1) as H1.
  { destruct (mgr_call_runs (m, w) (m1, w1)) as (_ & E & _); [by eapply call_provision|done|cbn in *; lia]. }
  apply (mgr_call_inv (m1, f w1) (m2, w2)); [by eapply call_destroy|done|].
  apply (mgr_call_inv (m, w) (m1, w1)); [by eapply call_provision|done|done].
Qed.
#[local] Strategy expand [demo_provision demo_stuck].
Lemma demo_stuck_inv : manager_inv demo_stuck.2.1 [].
Proof.
  apply (provision_destroy_inv Background "vm-a" demo_manager demo_host (set_broken {["LinkDel"]})
           demo_provision demo_stuck); [reflexivity..|done|apply manager_inv_init].
Qed.

(** The failed cleanup is retried once the host deletes devices again. *)
Lemma reconcile_retries_cleanup_witness :
  let m := demo_stuck.2.1 in
  let done_ := Reconcile [("vm-a", 0%nat)] Background (m, set_broken ∅ demo_stuck.2.2) in
  cleanup_failed m ("vm-a", 0%nat) = true ∧ done_.1 = Ok tt ∧ item_settled done_.2.1 ("vm-a", 0%nat).
Proof.
  intros m done_. assert (cleanup_failed m ("vm-a", 0%nat) = true) as Hc by (vm_compute; reflexivity).
  split; [done|]. split; [vm_compute; reflexivity|].
  destruct (reconcile_retries_cleanup (W := SimHost) [("vm-a", 0%nat)] Background m []
              (set_broken ∅ demo_stuck.2.2) done_.1 done_.2.1 done_.2.2) as [Hs _].
  - apply demo_stuck_inv.
  - vm_compute. reflexivity.
  - unfold done_. by destruct (Reconcile _ _ _) as [? []].
  - apply Hs; [left|done].
Defined.
