(* ===== verification/WarmPool.v ===== *)
(** * core/vmm/pool.go: warm instances leased to tenants

    The pool holds pointers to instances that live in the manager's heap.
    [Checkin] runs the reset function between two critical sections, so it is
    split there, and the step relation at the end interleaves the sections. *)

From S2P Require Import Prelude GoStrings Network Ipam Host Allocation VmmConfig Instance Manager.
Open Scope Z_scope.

Record WarmPool := mkWarmPool {
  wp_capacity : Z;
  wp_idle : list nat;
  wp_inUse : gmap string nat;
}.

Definition NewWarmPool (capacity : Z) : result WarmPool :=
  if capacity <=? 0 then Err (Errorf "warm pool capacity must be greater than zero" [])
  else Ok {| wp_capacity := capacity; wp_idle := []; wp_inUse := ∅ |}.

(** [inst.State() == StateRunning] *)
Definition is_running (m : Manager) (inst : nat) : bool :=
  match m_heap m !! inst with
  | Some i => bool_decide (i_state i = StateRunning)
  | None => false
  end.

(** [Stats]: [(len(p.idle), len(p.inUse))]. *)
Definition Stats (p : WarmPool) : Z * Z :=
  (Z.of_nat (length (wp_idle p)), Z.of_nat (size (wp_inUse p))).
Definition occupancy (p : WarmPool) : Z := (Stats p).1 + (Stats p).2.

Definition with_idle (l : list nat) (p : WarmPool) : WarmPool :=
  {| wp_capacity := wp_capacity p; wp_idle := l; wp_inUse := wp_inUse p |}.
Definition with_inUse (u : gmap string nat) (p : WarmPool) : WarmPool :=
  {| wp_capacity := wp_capacity p; wp_idle := wp_idle p; wp_inUse := u |}.

Definition Add (inst : option nat) (m : Manager) : ST WarmPool unit := λ p,
  match inst with
  | None => (Err (Errorf "warm instance is required" []), p)
  | Some inst =>
      if negb (is_running m inst) then
        (Err (Errorf "warm instance must be running, got %s" []), p)
      else if wp_capacity p <=? occupancy p then
        (Err (Errorf "%w: warm pool capacity %d" [ErrBackpressure]), p)
      else (Ok tt, with_idle (wp_idle p ++ [inst]) p)
  end.

Definition Checkout (leaseID : string) (m : Manager) : ST WarmPool nat := λ p,
  if bool_decide (leaseID = "") then (Err (Errorf "lease ID is required" []), p)
  else match wp_inUse p !! leaseID with
       | Some _ => (Err (Errorf "lease %s already exists" []), p)
       | None =>
           match pop_last (wp_idle p) with
           | None => (Err (Errorf "%w: no warm instances available" [ErrBackpressure]), p)
           | Some (rest, inst) =>
               if negb (is_running m inst) then
                 (Err (Errorf "warm instance %s is not running" []), with_idle (rest ++ [inst]) p)
               else (Ok inst, with_inUse (<[leaseID := inst]> (wp_inUse p)) (with_idle rest p))
           end
       end.

Definition checkin_take (leaseID : string) : ST WarmPool nat := λ p,
  match wp_inUse p !! leaseID with
  | Some inst => (Ok inst, with_inUse (base.delete leaseID (wp_inUse p)) p)
  | None => (Err (Errorf "lease %s not found" []), p)
  end.
Definition checkin_return (inst : nat) (p : WarmPool) : WarmPool :=
  with_idle (wp_idle p ++ [inst]) p.

Section Checkin.
Context {W : Type} `{Host W}.

(** [errors.Join(err, inst.Stop(ctx))] *)
Definition evict (ctx : Context) (inst : nat) (err : error) : ST (Manager * W) unit := λ s,
  match on_instance inst (Stop ctx) s with
  | (Ok _, s) => (Err (Joined [err]), s)
  | (Err se, s) => (Err (Joined [err; se]), s)
  end.

Definition Checkin (ctx : Context) (leaseID : string)
    (reset : option (Context → nat → ST (Manager * W) unit))
  : ST (WarmPool * (Manager * W)) unit := λ '(p, s),
  match reset with
  | None => (Err (Errorf "instance reset function is required" []), (p, s))
  | Some reset =>
      match checkin_take leaseID p with
      | (Err e, p) => (Err e, (p, s))
      | (Ok inst, p) =>
          match reset ctx inst s with
          | (Err e, s) =>
              let '(r, s) := evict ctx inst (Errorf "reset warm instance: %w" [e]) s in (r, (p, s))
          | (Ok _, s) =>
              if negb (is_running s.1 inst) then
                let '(r, s) := evict ctx inst
                  (Errorf "warm reset completed in non-running state %s" []) s in (r, (p, s))
              else (Ok tt, (checkin_return inst p, s))
          end
      end
  end.

(** Reset gates reuse: an instance is back in the pool exactly when its
    reset succeeded and left it running; in every other case the lease is
    gone and [Stop] was called on the instance. *)
Lemma checkin_cases ctx leaseID reset p s r p' s' inst :
  wp_inUse p !! leaseID = Some inst →
  Checkin ctx leaseID (Some reset) (p, s) = (r, (p', s')) →
  let p0 := with_inUse (base.delete leaseID (wp_inUse p)) p in
  (r = Ok tt ∧ reset ctx inst s = (Ok tt, s') ∧ is_running s'.1 inst = true
   ∧ p' = checkin_return inst p0) ∨
  (is_ok r = false ∧ p' = p0 ∧
   ∃ s1, (reset ctx inst s).2 = s1 ∧ s' = (on_instance inst (Stop ctx) s1).2).
Proof.
  intros Hl. unfold Checkin, checkin_take. rewrite Hl.
  destruct (reset ctx inst s) as [[[]|e] s1] eqn:Er.
  - destruct (is_running s1.1 inst) eqn:Hrun; cbn [negb].
    + intros [= <- <- <-]. by left.
    + unfold evict. destruct (on_instance inst (Stop ctx) s1) as [[u|se] s2] eqn:Es;
        intros [= <- <- <-]; right; do 2 (split; [done|]); exists s1; by rewrite Es.
  - unfold evict. destruct (on_instance inst (Stop ctx) s1) as [[u|se] s2] eqn:Es;
      intros [= <- <- <-]; right; do 2 (split; [done|]); exists s1; by rewrite Es.
Qed.
End Checkin.

(** ** Any interleaving

    A configuration is the pool with the instances that some [Checkin] has
    taken and is resetting, those that were evicted, and those that were ever
    added.  [Add] does not look whether the pool has the instance already. *)

Record PoolRun := mkPoolRun {
  c_pool : WarmPool;
  c_resetting : list nat;
  c_evicted : list nat;
  c_added : list nat;
}.
Definition pool_members (c : PoolRun) : list nat :=
  wp_idle (c_pool c) ++ (map_to_list (wp_inUse (c_pool c))).*2 ++ c_resetting c.

Inductive wp_step : PoolRun → PoolRun → Prop :=
  | wp_add inst m p p' rs ev ad :
      Add (Some inst) m p = (Ok tt, p') → wp_step (mkPoolRun p rs ev ad) (mkPoolRun p' rs ev (inst :: ad))
  | wp_checkout leaseID m r p p' rs ev ad :
      Checkout leaseID m p = (r, p') → wp_step (mkPoolRun p rs ev ad) (mkPoolRun p' rs ev ad)
  | wp_take leaseID inst p p' rs ev ad :
      checkin_take leaseID p = (Ok inst, p') → wp_step (mkPoolRun p rs ev ad) (mkPoolRun p' (inst :: rs) ev ad)
  | wp_return inst p rs1 rs2 ev ad :
      wp_step (mkPoolRun p (rs1 ++ inst :: rs2) ev ad) (mkPoolRun (checkin_return inst p) (rs1 ++ rs2) ev ad)
  | wp_evict inst p rs1 rs2 ev ad :
      wp_step (mkPoolRun p (rs1 ++ inst :: rs2) ev ad) (mkPoolRun p (rs1 ++ rs2) (inst :: ev) ad).
Definition new_run (p : WarmPool) : PoolRun := mkPoolRun p [] [] [].

Lemma inUse_insert (u : gmap string nat) k x :
  u !! k = None → (map_to_list (<[k := x]> u)).*2 ≡ₚ x :: (map_to_list u).*2.
Proof. intros Hk. by rewrite map_to_list_insert. Qed.

Lemma inUse_delete (u : gmap string nat) k x :
  u !! k = Some x → (map_to_list u).*2 ≡ₚ x :: (map_to_list (base.delete k u)).*2.
Proof. intros Hk. by rewrite <- (map_to_list_delete u k x). Qed.

Lemma checkout_cases leaseID m r p p' :
  Checkout leaseID m p = (r, p') →
  match r with
  | Ok inst => wp_inUse p !! leaseID = None ∧ wp_idle p = wp_idle p' ++ [inst] ∧
               is_running m inst = true ∧ wp_inUse p' = <[leaseID := inst]> (wp_inUse p) ∧
               wp_capacity p' = wp_capacity p
  | Err _ => p' = p
  end.
Proof.
  unfold Checkout. case_bool_decide; [by intros [= <- <-]|].
  destruct (wp_inUse p !! leaseID) eqn:Hl; [by intros [= <- <-]|].
  destruct (pop_last (wp_idle p)) as [[rest inst]|] eqn:Hp; [|by intros [= <- <-]].
  apply pop_last_Some in Hp. destruct (is_running m inst) eqn:Hr; intros [= <- <-].
  - done.
  - rewrite <- Hp. by destruct p.
Qed.

(** Nothing is lost and nothing is duplicated. *)
Definition accounted (c : PoolRun) : Prop := pool_members c ++ c_evicted c ≡ₚ c_added c.

Lemma wp_step_accounted c c' : wp_step c c' → accounted c → accounted c'.
Proof.
  intros [inst m p p' rs ev ad Ha|l m r p p' rs ev ad Hc|l inst p p' rs ev ad Ht|inst p rs1 rs2 ev ad|inst p rs1 rs2 ev ad];
    unfold accounted, pool_members; cbn [c_pool c_resetting c_evicted c_added]; intros <-.
  - revert Ha. unfold Add. destruct (negb _); [done|]. destruct (_ <=? _); [done|]. intros [= <-].
    cbn. solve_Permutation.
  - apply checkout_cases in Hc. destruct r as [inst|]; [|by subst].
    destruct Hc as (Hl & Hi & _ & Hu & _). rewrite Hi, Hu, inUse_insert by done. solve_Permutation.
  - revert Ht. unfold checkin_take. destruct (wp_inUse p !! l) as [x|] eqn:Hl; [|done].
    intros [= -> <-]. cbn. rewrite (inUse_delete _ _ _ Hl). solve_Permutation.
  - unfold checkin_return. cbn. solve_Permutation.
  - solve_Permutation.
Qed.
Lemma accounted_reachable capacity p0 c :
  NewWarmPool capacity = Ok p0 → rtc wp_step (new_run p0) c → accounted c.
Proof.
  intros Hnew Hr. assert (accounted (new_run p0)) as H0.
  { revert Hnew. unfold NewWarmPool. destruct (_ <=? _); [done|]. intros [= <-]. unfold accounted, pool_members. cbn. by rewrite map_to_list_empty. }
  clear Hnew. induction Hr; eauto using wp_step_accounted.
Qed.

(** C35: However checkouts, checkins and additions interleave, the instances that
    are idle, leased, being reset or evicted are exactly those that were
    added, each as often as it was added: none is lost and none appears
    twice.  So an instance that was added once is in one place only, and two
    leases hold the same instance only if it was added twice. *)
Theorem warm_pool_exclusive capacity p0 c :
  NewWarmPool capacity = Ok p0 → rtc wp_step (new_run p0) c →
  pool_members c ++ c_evicted c ≡ₚ c_added c ∧
  (NoDup (c_added c) → NoDup (pool_members c)) ∧
  (∀ l l' inst, wp_inUse (c_pool c) !! l = Some inst → wp_inUse (c_pool c) !! l' = Some inst →
     l = l' ∨ ∃ others, c_added c ≡ₚ inst :: inst :: others).
Proof.
  intros Hnew Hr. pose proof (accounted_reachable _ _ _ Hnew Hr) as Hacc. split; [done|]. split.
  - unfold accounted in Hacc. rewrite <- Hacc. by intros [? _]%NoDup_app.
  - intros l l' inst Hl Hl'. destruct (decide (l = l')) as [|Hne]; [by left|]. right.
    unfold accounted, pool_members in Hacc. rewrite (inUse_delete _ _ _ Hl) in Hacc.
    rewrite (inUse_delete (base.delete l _) l' inst) in Hacc by by rewrite lookup_delete_ne.
    exists (wp_idle (c_pool c) ++ (map_to_list (base.delete l' (base.delete l (wp_inUse (c_pool c))))).*2 ++
            c_resetting c ++ c_evicted c).
    rewrite <- Hacc. cbn. solve_Permutation.
Qed.

(** ** Capacity *)

(** A call that nothing interrupts. *)
Inductive wp_call {W} `{Host W} : WarmPool → WarmPool → Prop :=
  | wc_add inst m p r p' : Add inst m p = (r, p') → wp_call p p'
  | wc_checkout l m p r p' : Checkout l m p = (r, p') → wp_call p p'
  | wc_checkin ctx l reset p s r p' s' :
      Checkin (W := W) ctx l reset (p, s) = (r, (p', s')) → wp_call p p'.

Lemma wp_call_capacity {W} `{Host W} p p' :
  wp_call (W := W) p p' → occupancy p ≤ wp_capacity p →
  occupancy p' ≤ wp_capacity p' ∧ wp_capacity p' = wp_capacity p.
Proof.
  intros [inst m q r q' Ha|l m q r q' Hc|ctx l reset q s r q' s' Hc] Hle.
  - revert Ha. unfold Add. destruct inst as [inst|]; [|by intros [= _ <-]].
    destruct (negb _); [by intros [= _ <-]|].
    destruct (Z.leb_spec (wp_capacity q) (occupancy q)); [by intros [= _ <-]|].
    intros [= _ <-]. unfold occupancy, Stats in *. cbn in *. rewrite length_app. cbn. lia.
  - apply checkout_cases in Hc. destruct r as [inst|]; [|by subst].
    destruct Hc as (Hl & Hi & _ & Hu & Hcap). split; [|done].
    unfold occupancy, Stats in *. cbn in *. rewrite Hcap, Hu, map_size_insert_None by done.
    rewrite Hi, length_app in Hle. cbn in Hle. lia.
  - destruct reset as [reset|]; [|by injection Hc as _ <- _].
    destruct (wp_inUse q !! l) as [inst|] eqn:Hl.
    + apply checkin_cases with (inst := inst) in Hc; [|done].
      assert (size (wp_inUse q) = S (size (base.delete l (wp_inUse q)))) as Hsz.
      { rewrite map_size_delete_Some by eauto.
        assert (size (wp_inUse q) ≠ 0%nat) by (apply map_size_ne_0_lookup; naive_solver). lia. }
      unfold occupancy, Stats in *. cbn in *.
      destruct Hc as [(_ & _ & _ & ->)|(_ & -> & _)]; cbn; rewrite ?length_app; cbn; lia.
    + revert Hc. unfold Checkin, checkin_take. rewrite Hl. by intros [= _ <- _].
Qed.

(** Calls that do not overlap keep the pool within its capacity. *)
Theorem warm_pool_capacity {W} `{Host W} capacity p0 p :
  NewWarmPool capacity = Ok p0 → rtc (wp_call (W := W)) p0 p →
  (Stats p).1 + (Stats p).2 ≤ capacity.
Proof.
  intros Hnew Hr. assert (occupancy p0 ≤ wp_capacity p0 ∧ wp_capacity p0 = capacity) as [H0 Hc].
  { revert Hnew. unfold NewWarmPool. destruct (Z.leb_spec capacity 0); [done|]. intros [= <-].
    unfold occupancy, Stats. cbn. rewrite map_size_empty. cbn. lia. }
  change (occupancy p ≤ capacity).
  assert (occupancy p ≤ wp_capacity p ∧ wp_capacity p = wp_capacity p0) as [? ?]; [|lia].
  clear Hnew. induction Hr as [|p1 p2 p3 Hc1 _ IH]; [done|].
  destruct (wp_call_capacity _ _ Hc1 H0) as [H1 Hc2]. destruct IH; [done|lia|]. split; [done|lia].
Qed.

(** Two running instances. *)
Definition two_running : Manager :=
  let i := set_state StateRunning
             (NewInstance "vm" "" vmm_DefaultConfig None 3
                {| MemFilePath := ""; StateFilePath := ""; EnableResume := false |}) in
  set_heap {[0%nat := i; 1%nat := i]}
    (NewManagerWithLimits "/tmp" vmm_DefaultConfig (DefaultConfig "shy0")
       {| MemFilePath := ""; StateFilePath := ""; EnableResume := false |} DefaultManagerLimits).
Definition pool_of_one : WarmPool := {| wp_capacity := 1; wp_idle := []; wp_inUse := ∅ |}.

(** An addition while another instance is being reset is admitted, so the
    pool can end up holding more than its capacity. *)
Theorem overlapping_checkin_exceeds_capacity :
  ∃ c, rtc wp_step (new_run pool_of_one) c ∧ c_resetting c = [] ∧ wp_capacity (c_pool c) = 1 ∧ Stats (c_pool c) = (2, 0).
Proof.
  exists (mkPoolRun {| wp_capacity := 1; wp_idle := [1; 0]%nat; wp_inUse := ∅ |} [] [] [1; 0]%nat).
  split; [|by split].
  eapply rtc_l. { apply (wp_add 0%nat two_running). reflexivity. }
  eapply rtc_l. { apply (wp_checkout "lease" two_running (Ok 0%nat)). reflexivity. }
  eapply rtc_l. { apply (wp_take "lease" 0%nat). reflexivity. }
  eapply rtc_l. { apply (wp_add 1%nat two_running). reflexivity. }
  eapply rtc_l. { apply (wp_return 0%nat _ [] []). }
  apply rtc_refl.
Qed.

Definition pool_of_two : WarmPool := {| wp_capacity := 2; wp_idle := []; wp_inUse := ∅ |}.

(** [Add] accepts an instance twice, and two leases then share it. *)
Example added_twice_is_leased_twice :
  ∃ c, rtc wp_step (new_run pool_of_two) c ∧ wp_inUse (c_pool c) = {["b" := 0%nat; "a" := 0%nat]}.
Proof.
  exists (mkPoolRun {| wp_capacity := 2; wp_idle := []; wp_inUse := {["b" := 0%nat; "a" := 0%nat]} |} [] [] [0; 0]%nat).
  split; [|done].
  eapply rtc_l. { apply (wp_add 0%nat two_running). reflexivity. }
  eapply rtc_l. { apply (wp_add 0%nat two_running). reflexivity. }
  eapply rtc_l. { apply (wp_checkout "a" two_running (Ok 0%nat)). reflexivity. }
  eapply rtc_l. { apply (wp_checkout "b" two_running (Ok 0%nat)). reflexivity. }
  apply rtc_refl.
Qed.

(** Two instances added, one of them checked out. *)
Definition pool_in_use : WarmPool := {| wp_capacity := 2; wp_idle := [0%nat]; wp_inUse := {["l" := 1%nat]} |}.

Lemma warm_pool_exclusive_witness : NoDup (pool_members (mkPoolRun pool_in_use [] [] [1; 0]%nat)).
Proof.
  apply (warm_pool_exclusive 2 pool_of_two); [reflexivity| |by apply (bool_decide_eq_true_1 (NoDup _)); vm_compute].
  eapply rtc_l. { apply (wp_add 0%nat two_running). reflexivity. }
  eapply rtc_l. { apply (wp_add 1%nat two_running). reflexivity. }
  eapply rtc_l. { apply (wp_checkout "l" two_running (Ok 1%nat)). reflexivity. }
  apply rtc_refl.
Defined.
Lemma warm_pool_capacity_witness : (Stats pool_in_use).1 + (Stats pool_in_use).2 ≤ 2.
Proof.
  apply (warm_pool_capacity (W := SimHost) 2 pool_of_two); [reflexivity|].
  eapply rtc_l; [eapply (wc_add (Some 0%nat) two_running); reflexivity|].
  eapply rtc_l; [eapply (wc_add (Some 1%nat) two_running); reflexivity|].
  eapply rtc_l; [eapply (wc_checkout "l" two_running); reflexivity|]. apply rtc_refl.
Defined.
