(* ===== verification/Vsock.v ===== *)
(** * core/vsock: the protocol between host and guest agent

    Messages are JSON documents separated by newlines.  A document is kept as
    the Go value it encodes; [EncodeMessage] is what reaches the other side,
    which for strings is not the identity: [encoding/json] replaces every
    byte that is not part of a valid UTF-8 sequence by U+FFFD. *)

From Stdlib Require Import Ascii.
From S2P Require Import Prelude GoStrings GoNet Network Host.
Open Scope Z_scope.

Definition GuestPort : Z := 1024.
Definition ProtocolVersion : Z := 1.
Definition MaxRequestBytes : Z := Z.shiftl 1 20.
Definition MaxOutputBytes : Z := Z.shiftl 10 20.
Definition MaxEnvEntries : Z := 100.
Definition MaxEnvKeyLen : Z := 256.
Definition MaxEnvValLen : Z := Z.shiftl 64 10.
Definition MaxArgs : Z := 256.
Definition MaxArgLen : Z := Z.shiftl 64 10.
Definition MaxCommandLen : Z := 4096.
Definition MaxTimeoutMS : Z := 5 * 60 * 1000.
Definition MaxConcurrentCommands : Z := 4.
Definition MaxStreamFrameBytes : Z := Z.shiftl 64 10.
Definition HostCID : Z := 2.

(** ** The environment allow list *)

Definition fixed_env_keys : list string :=
  ["LANG"; "TZ"; "TERM"; "COLORTERM"; "NO_COLOR"; "FORCE_COLOR"; "PYTHONIOENCODING";
   "GOPROXY"; "GOSUMDB"; "GOFLAGS"; "RUST_BACKTRACE"; "NODE_OPTIONS"].
(** [[A-Z0-9_]] *)
Definition lc_char (b : Z) : bool := in_range 65 90 b || in_range 48 57 b || (b =? 95).
Definition allowedEnvKey (key : string) : bool :=
  existsb (String.eqb key) fixed_env_keys ||
  match bytes key with
  | 76 :: 67 :: 95 :: (_ :: _) as rest => forallb lc_char (drop 3 rest)
  | _ => false
  end.

(** ** Messages *)

Record ExecRequest := mkExecRequest {
  rq_Version : Z;
  rq_ID : string;
  rq_Command : string;
  rq_Args : list string;
  rq_Env : gmap string string;
  rq_TimeoutMS : Z;
  rq_Stream : bool;
}.

(** The text of an error is kept as the error, the empty string as [None]. *)
Record ExecResult := mkExecResult {
  rs_Version : Z;
  rs_ID : string;
  rs_ExitCode : Z;
  rs_Stdout : string;
  rs_Stderr : string;
  rs_Error : option error;
}.

Record ExecFrame := mkExecFrame {
  fr_Version : Z;
  fr_ID : string;
  fr_Stream : string;
  fr_Data : string;
  fr_Result : option ExecResult;
}.

Fixpoint first_error (l : list (result unit)) : result unit :=
  match l with
  | [] => Ok tt
  | Ok _ :: l => first_error l
  | Err e :: _ => Err e
  end.
Definition guard (bad : bool) (format : string) : result unit :=
  if bad then Err (Errorf format []) else Ok tt.

(** [range r.Env] visits the map in some order; only which of several errors
    is reported depends on it. *)
Definition check_env (kv : string * string) : result unit :=
  first_error [
    guard (MaxEnvKeyLen <? len kv.1) "environment key %q too long: %d > %d";
    guard (negb (allowedEnvKey kv.1)) "environment variable %q is not permitted";
    guard (MaxEnvValLen <? len kv.2) "environment value for %q too long: %d > %d"].

Definition rq_Validate (r : ExecRequest) : result unit :=
  first_error ([
    guard (negb (rq_Version r =? ProtocolVersion)) "unsupported protocol version %d";
    guard (bool_decide (rq_ID r = "")) "request id is required";
    guard (128 <? len (rq_ID r)) "request id too long";
    guard (bool_decide (rq_Command r = "")) "command is required";
    guard (rq_TimeoutMS r <? 0) "timeout_ms cannot be negative";
    guard (MaxTimeoutMS <? rq_TimeoutMS r) "timeout_ms exceeds maximum of %d";
    guard (MaxCommandLen <? len (rq_Command r)) "command too long: %d > %d";
    guard (MaxArgs <? Z.of_nat (length (rq_Args r))) "too many arguments: %d > %d"] ++
    ((λ arg, guard (MaxArgLen <? len arg) "argument %d too long: %d > %d") <$> rq_Args r) ++
    [guard (MaxEnvEntries <? Z.of_nat (size (rq_Env r))) "too many environment variables: %d > %d"] ++
    (check_env <$> map_to_list (rq_Env r))).

Lemma first_error_ok l : first_error l = Ok tt ↔ Forall (λ r, r = Ok tt) l.
Proof.
  induction l as [|[[]|e] l IH]; cbn.
  - by split; [constructor|].
  - rewrite IH, Forall_cons. naive_solver.
  - rewrite Forall_cons. split; [done|by intros [? _]].
Qed.

Lemma guard_ok b f : guard b f = Ok tt ↔ b = false.
Proof. by destruct b. Qed.

(** What [Validate] promises to the guest agent. *)
Record request_ok (r : ExecRequest) : Prop := {
  ok_version : rq_Version r = ProtocolVersion;
  ok_id : 0 < len (rq_ID r) ≤ 128;
  ok_command : 0 < len (rq_Command r) ≤ MaxCommandLen;
  ok_timeout : 0 ≤ rq_TimeoutMS r ≤ MaxTimeoutMS;
  ok_args : Z.of_nat (length (rq_Args r)) ≤ MaxArgs ∧ Forall (λ a, len a ≤ MaxArgLen) (rq_Args r);
  ok_env : Z.of_nat (size (rq_Env r)) ≤ MaxEnvEntries ∧
    (∀ k v, rq_Env r !! k = Some v →
       len k ≤ MaxEnvKeyLen ∧ len v ≤ MaxEnvValLen ∧ allowedEnvKey k = true);
}.

Lemma len_pos s : (bool_decide (s = "") = false) ↔ 0 < len s.
Proof. rewrite bool_decide_eq_false. unfold len. destruct s; cbn; split; intros; done || lia. Qed.

Lemma Validate_iff r : rq_Validate r = Ok tt ↔ request_ok r.
Proof.
  unfold rq_Validate. rewrite first_error_ok, !Forall_app, !Forall_cons, !Forall_fmap, Forall_nil.
  rewrite !guard_ok, negb_false_iff, Z.eqb_eq, !len_pos, !Z.ltb_ge. unfold compose.
  assert (Forall (λ a, guard (MaxArgLen <? len a) "argument %d too long: %d > %d" = Ok tt) (rq_Args r)
          ↔ Forall (λ a, len a ≤ MaxArgLen) (rq_Args r)) as Harg.
  { rewrite !Forall_forall. by setoid_rewrite guard_ok; setoid_rewrite Z.ltb_ge. }
  assert (Forall (λ kv, check_env kv = Ok tt) (map_to_list (rq_Env r)) ↔
    ∀ k v, rq_Env r !! k = Some v →
       len k ≤ MaxEnvKeyLen ∧ len v ≤ MaxEnvValLen ∧ allowedEnvKey k = true) as Henv.
  { rewrite Forall_forall.
    assert (∀ kv, check_env kv = Ok tt ↔ len kv.1 ≤ MaxEnvKeyLen ∧ len kv.2 ≤ MaxEnvValLen
                                          ∧ allowedEnvKey kv.1 = true) as Hkv.
    { intros kv. unfold check_env.
      rewrite first_error_ok, !Forall_cons, !guard_ok, !Z.ltb_ge, negb_false_iff, Forall_nil. tauto. }
    split.
    - intros H k v Hkv'. apply (Hkv (k, v)), H. by apply elem_of_map_to_list.
    - intros H [k v] Hin%elem_of_map_to_list. apply Hkv. by apply H. }
  rewrite Harg, Henv. split.
  - intros ((?&?&?&?&?&?&?&?&_)&?&[? _]&?). by split.
  - intros [? [? ?] [? ?] [? ?] [? ?] [? ?]]. tauto.
Qed.

(** ** JSON text *)

Fixpoint json_bytes (fuel : nat) (l : list Z) : list Z :=
  match fuel, l with
  | O, _ | _, [] => []
  | S fuel, b0 :: _ =>
      let '(r, w) := DecodeRune l in
      (if (128 <=? b0) && (w =? 1)%nat then [239; 191; 189] else take w l)
        ++ json_bytes fuel (drop w l)
  end.
(** The string that the decoder at the other end yields. *)
Definition json_string (s : string) : string := of_bytes (json_bytes (String.length s) (bytes s)).

Lemma json_bytes_valid fuel l :
  (length l ≤ fuel)%nat → valid_utf8_fuel fuel l = true → json_bytes fuel l = l.
Proof.
  revert l. induction fuel as [|fuel IH]; intros [|b l] Hlen; cbn [length] in *; [done|lia|done|].
  intros Hv. pose proof (DecodeRune_width (b :: l) ltac:(done)) as Hw.
  cbn [json_bytes valid_utf8_fuel] in *. destruct (DecodeRune (b :: l)) as [r w]. cbn [snd] in Hw.
  destruct ((128 <=? b) && (w =? 1)%nat); [done|].
  rewrite IH; [apply take_drop|rewrite length_drop; cbn in *; lia|done].
Qed.

(** Valid UTF-8 survives the wire. *)
Lemma json_string_valid s : ValidString s = true → json_string s = s.
Proof.
  intros Hv. unfold json_string. rewrite json_bytes_valid; [apply of_bytes_bytes| |done].
  by rewrite length_bytes.
Qed.

Lemma ascii_valid_fuel fuel l : forallb (λ b, b <? 128) l = true → valid_utf8_fuel fuel l = true.
Proof.
  revert l. induction fuel as [|fuel IH]; intros [|b l]; cbn [valid_utf8_fuel forallb]; try done.
  intros [Hb Hl]%andb_true_iff. cbn [DecodeRune]. rewrite Hb.
  apply Z.ltb_lt in Hb. rewrite (proj2 (Z.leb_gt _ _)) by lia. cbn. by apply IH.
Qed.
Lemma ascii_ValidString s : is_ascii_string s = true → ValidString s = true.
Proof. intros Hs. by apply ascii_valid_fuel. Qed.

Inductive Message :=
  | MsgRequest (r : ExecRequest)
  | MsgResult (r : ExecResult)
  | MsgFrame (f : ExecFrame).

Definition json_request (r : ExecRequest) : ExecRequest :=
  {| rq_Version := rq_Version r; rq_ID := json_string (rq_ID r);
     rq_Command := json_string (rq_Command r); rq_Args := json_string <$> rq_Args r;
     rq_Env := list_to_map ((λ '(k, v), (json_string k, json_string v)) <$> map_to_list (rq_Env r));
     rq_TimeoutMS := rq_TimeoutMS r; rq_Stream := rq_Stream r |}.
Definition json_result (r : ExecResult) : ExecResult :=
  {| rs_Version := rs_Version r; rs_ID := json_string (rs_ID r); rs_ExitCode := rs_ExitCode r;
     rs_Stdout := json_string (rs_Stdout r); rs_Stderr := json_string (rs_Stderr r);
     rs_Error := rs_Error r |}.
Definition json_frame (f : ExecFrame) : ExecFrame :=
  {| fr_Version := fr_Version f; fr_ID := json_string (fr_ID f);
     fr_Stream := json_string (fr_Stream f); fr_Data := json_string (fr_Data f);
     fr_Result := json_result <$> fr_Result f |}.

(** ** The length of a request on the wire *)

(** What [json.Marshal] writes for one rune of [w] bytes: an escape of two
    bytes, one of six ([\u] and four digits, also for bytes that are not
    UTF-8), or the rune itself. *)
Definition escaped_size (rune : Z) (w : nat) : Z :=
  if existsb (Z.eqb rune) [34; 92; 8; 9; 10; 12; 13] then 2
  else if (rune <? 32) || existsb (Z.eqb rune) [60; 62; 38; 8232; 8233] then 6
  else if (rune =? RuneError) && (w =? 1)%nat then 6
  else Z.of_nat w.
Fixpoint escaped_bytes (fuel : nat) (l : list Z) : Z :=
  match fuel, l with
  | O, _ | _, [] => 0
  | S fuel, _ => let '(rune, w) := DecodeRune l in escaped_size rune w + escaped_bytes fuel (drop w l)
  end.
Definition quoted_size (s : string) : Z := 2 + escaped_bytes (String.length s) (bytes s).

(** Brackets or braces around items separated by commas. *)
Definition items_size (l : list Z) : Z := 2 + foldr Z.add 0 l + Z.max 0 (Z.of_nat (length l) - 1).
Definition field_size (name : string) (value : Z) : Z := len name + 3 + value.
(** The fields with [omitempty] are left out when they are empty. *)
Definition request_size (r : ExecRequest) : Z :=
  items_size (
    [field_size "version" (len (Itoa (rq_Version r))); field_size "id" (quoted_size (rq_ID r));
     field_size "command" (quoted_size (rq_Command r))] ++
    (if bool_decide (rq_Args r = []) then [] else [field_size "args" (items_size (quoted_size <$> rq_Args r))]) ++
    (if bool_decide (rq_Env r = ∅) then []
     else [field_size "env" (items_size ((λ '(k, v), quoted_size k + 1 + quoted_size v) <$> map_to_list (rq_Env r)))]) ++
    (if rq_TimeoutMS r =? 0 then [] else [field_size "timeout_ms" (len (Itoa (rq_TimeoutMS r)))]) ++
    (if rq_Stream r then [field_size "stream" 4] else [])).
(** The length of the document that Marshal gives for this request. *)
Example request_size_text :
  request_size (mkExecRequest 1 "a" "echo" ["x"; "<"] {["TZ" := "U"]} 20 true) = 108.
Proof. vm_compute. reflexivity. Qed.

(** [json.Marshal] does not fail on these types. *)
Definition EncodeMessage (m : Message) : result Message :=
  Ok match m with
     | MsgRequest r => MsgRequest (json_request r)
     | MsgResult r => MsgResult (json_result r)
     | MsgFrame f => MsgFrame (json_frame f)
     end.

(** [Decode] into the type the reader expects: fields that the type does not
    have are ignored, fields that are absent keep their zero value. *)
Definition decode_result (m : Message) : ExecResult :=
  match m with
  | MsgResult r => r
  | MsgFrame f => mkExecResult (fr_Version f) (fr_ID f) 0 "" "" None
  | MsgRequest r => mkExecResult (rq_Version r) (rq_ID r) 0 "" "" None
  end.
Definition decode_frame (m : Message) : ExecFrame :=
  match m with
  | MsgFrame f => f
  | MsgResult r => mkExecFrame (rs_Version r) (rs_ID r) "" "" None
  | MsgRequest r => mkExecFrame (rq_Version r) (rq_ID r) "" "" None
  end.

(** ** The client *)

(** The connection to a guest: what dialling and writing answer, and the
    outcome of each read. *)
Record Peer := {
  peer_dial : option error;
  peer_write : option error;
  peer_replies : list (result Message);
}.
Definition EOF : error := Sentinel "EOF".
Definition next_reply (l : list (result Message)) : result Message * list (result Message) :=
  match l with
  | [] => (Err EOF, [])
  | r :: l => (r, l)
  end.

Definition fail_if (format : string) (o : option error) : result unit :=
  match o with Some e => Err (Errorf format [e]) | None => Ok tt end.

(** The state of a call is the list of documents written to the guest. *)

(** Dial, set the deadline of the context, and send the request. *)
Definition send_request (p : Peer) (req : ExecRequest) : ST (list Message) unit := λ wire,
  match rq_Validate req with
  | Err e => (Err e, wire)
  | Ok _ =>
      match fail_if "dial guest vsock: %w" (peer_dial p) with
      | Err e => (Err e, wire)
      | Ok _ =>
          match EncodeMessage (MsgRequest req) with
          | Err e => (Err e, wire)
          | Ok payload => (fail_if "send execution request: %w" (peer_write p), wire ++ [payload])
          end
      end
  end.

(** The result, checked. *)
Definition read_result (p : Peer) (req : ExecRequest) : result ExecResult :=
  match (next_reply (peer_replies p)).1 with
  | Err e => Err (Errorf "read execution result: %w" [e])
  | Ok m =>
      let result := decode_result m in
      if negb (rs_Version result =? ProtocolVersion) then
        Err (Errorf "unsupported guest protocol version %d" [])
      else if negb (bool_decide (rs_ID result = rq_ID req)) then
        Err (Errorf "execution result id %q does not match request %q" [])
      else Ok result
  end.
Definition exec_on_wire (p : Peer) (req : ExecRequest) : ST (list Message) ExecResult := λ wire,
  match send_request p req wire with
  | (Err e, wire) => (Err e, wire)
  | (Ok _, wire) => (read_result p req, wire)
  end.
(** The answer alone. *)
Definition Exec (p : Peer) (req : ExecRequest) : result ExecResult := (exec_on_wire p req []).1.

Section Stream.
Context {S : Type}.
Context (receive : ExecFrame → ST S unit).

Fixpoint read_frames (id : string) (replies : list (result Message)) : ST S ExecResult := λ s,
  match replies with
  | [] => (Err (Errorf "read execution frame: %w" [EOF]), s)
  | Err e :: _ => (Err (Errorf "read execution frame: %w" [e]), s)
  | Ok m :: replies =>
      let frame := decode_frame m in
      if negb (fr_Version frame =? ProtocolVersion) || negb (bool_decide (fr_ID frame = id)) then
        (Err (Errorf "invalid execution frame" []), s)
      else
        match fr_Result frame with
        | Some r => (Ok r, s)
        | None =>
            if (negb (bool_decide (fr_Stream frame = "stdout"))
                  && negb (bool_decide (fr_Stream frame = "stderr")))
               || (MaxStreamFrameBytes <? len (fr_Data frame)) then
              (Err (Errorf "invalid execution output frame" []), s)
            else
              match receive frame s with
              | (Err e, s) => (Err e, s)
              | (Ok _, s) => read_frames id replies s
              end
        end
  end.
End Stream.

Definition with_stream (r : ExecRequest) : ExecRequest :=
  {| rq_Version := rq_Version r; rq_ID := rq_ID r; rq_Command := rq_Command r;
     rq_Args := rq_Args r; rq_Env := rq_Env r; rq_TimeoutMS := rq_TimeoutMS r; rq_Stream := true |}.

Definition exec_stream_on_wire {S} (p : Peer) (req : ExecRequest) (receive : option (ExecFrame → ST S unit))
  : ST (list Message * S) ExecResult := λ '(wire, s),
  match receive with
  | None => (Err (Errorf "stream receiver is required" []), (wire, s))
  | Some receive =>
      let req := with_stream req in
      match send_request p req wire with
      | (Err e, wire) => (Err e, (wire, s))
      | (Ok _, wire) =>
          let '(r, s) := read_frames receive (rq_ID req) (peer_replies p) s in (r, (wire, s))
      end
  end.
(** The answer and the state of the receiver. *)
Definition ExecStream {S} (p : Peer) (req : ExecRequest) (receive : option (ExecFrame → ST S unit))
  : ST S ExecResult := λ s, let '(r, (_, s)) := exec_stream_on_wire p req receive ([], s) in (r, s).

(** [SetConnectionDeadline] hands this to [SetDeadline]. *)
Definition SetConnectionDeadline (now timeout : Z) : Z :=
  if timeout <=? 0 then zeroTime else now + timeout.

(** ** Peers *)

(** The remote address of a connection: the context id of a vsock peer. *)
Definition AuthorizeGuestConnection (remote : option Z) (expectedCID : Z) : result unit :=
  if expectedCID <=? HostCID then Err (Errorf "invalid expected guest CID %d" [])
  else match remote with
       | None => Err (Errorf "connection is not a VSOCK connection" [])
       | Some cid => if negb (cid =? expectedCID) then Err (Errorf "unauthorized VSOCK peer CID %d" [])
                     else Ok tt
       end.
Definition AuthorizeHostConnection (remote : option Z) : result unit :=
  match remote with
  | None => Err (Errorf "connection is not a VSOCK connection" [])
  | Some cid => if negb (cid =? HostCID) then Err (Errorf "unauthorized VSOCK host CID %d" [])
                else Ok tt
  end.

Definition SetupListener (listen : result Z) (guestCID port : Z) : result Z :=
  if guestCID <=? HostCID then Err (Errorf "invalid guest CID %d: must be greater than %d" [])
  else if port =? 0 then Err (Errorf "vsock port must be greater than 0" [])
  else match listen with
       | Err e => Err (Errorf "start vsock listener for guest CID %d on port %d: %w" [e])
       | Ok l => Ok l
       end.
Definition CleanupListener (close : option (result unit)) : result unit :=
  match close with
  | None => Ok tt
  | Some (Ok _) => Ok tt
  | Some (Err e) => Err (Errorf "close vsock listener: %w" [e])
  end.

(** ** What the client guarantees *)

(** The request validator accepts exactly the requests within all limits,
    with allow-listed environment keys only. *)
Theorem Validate_accepts_exactly r : rq_Validate r = Ok tt ↔ request_ok r.
Proof. apply Validate_iff. Qed.

(** The frames a receiver has collected. *)
Definition collect (f : ExecFrame) : ST (list ExecFrame) unit := λ s, (Ok tt, s ++ [f]).

Lemma read_frames_bounded id replies s r s' :
  read_frames collect id replies s = (r, s') →
  ∃ fs, s' = s ++ fs ∧
    Forall (λ f, fr_ID f = id ∧ fr_Version f = ProtocolVersion ∧ fr_Result f = None
                 ∧ (fr_Stream f = "stdout" ∨ fr_Stream f = "stderr")
                 ∧ len (fr_Data f) ≤ MaxStreamFrameBytes) fs ∧
    (length fs ≤ length replies)%nat.
Proof.
  revert s. induction replies as [|[m|e] replies IH]; intros s; cbn [read_frames].
  1,3: intros [= <- <-]; exists []; rewrite app_nil_r; repeat split; [constructor|cbn; lia].
  assert (∀ r0, (r0, s) = (r, s') → ∃ fs, s' = s ++ fs ∧ Forall (λ f, fr_ID f = id
                 ∧ fr_Version f = ProtocolVersion ∧ fr_Result f = None
                 ∧ (fr_Stream f = "stdout" ∨ fr_Stream f = "stderr")
                 ∧ len (fr_Data f) ≤ MaxStreamFrameBytes) fs ∧ (length fs ≤ length (Ok m :: replies))%nat)
    as Hstop.
  { intros r0 [= <- <-]. exists []. rewrite app_nil_r. repeat split; [constructor|cbn; lia]. }
  destruct (negb (fr_Version _ =? _) || _) eqn:Hid; [apply Hstop|].
  destruct (fr_Result (decode_frame m)) eqn:Hres; [apply Hstop|].
  destruct (_ || (MaxStreamFrameBytes <? _)) eqn:Hb; [apply Hstop|].
  cbn [collect]. intros (fs & -> & Hfs & Hlen)%IH.
  exists (decode_frame m :: fs). rewrite <- app_assoc. split; [done|]. split; [|cbn; lia].
  constructor; [|done].
  apply orb_false_iff in Hid as [Hv%negb_false_iff%Z.eqb_eq Hi%negb_false_iff%bool_decide_eq_true].
  apply orb_false_iff in Hb as [Hst Hl%Z.ltb_ge].
  split_and!; try done.
  apply andb_false_iff in Hst as [Hst|Hst]; apply negb_false_iff, bool_decide_eq_true in Hst; auto.
Qed.

(** Only a valid request is written, once and encoded, and nothing is reported
    as sent that was not. *)
Lemma send_request_wire p req r wire :
  send_request p req [] = (r, wire) →
  (wire = [] ∧ is_ok r = false ∨ wire = [MsgRequest (json_request req)] ∧ request_ok req).
Proof.
  unfold send_request. destruct (rq_Validate req) as [[]|] eqn:Hv; [|intros [= <- <-]; by left].
  apply Validate_iff in Hv. destruct (fail_if _ (peer_dial p)); [|intros [= <- <-]; by left].
  intros [= _ <-]. by right.
Qed.

Lemma exec_wire_answer p req r wire :
  exec_on_wire p req [] = (r, wire) →
  (wire = [] ∧ is_ok r = false ∨ wire = [MsgRequest (json_request req)] ∧ request_ok req) ∧
  (∀ res, r = Ok res → rs_ID res = rq_ID req ∧ rs_Version res = ProtocolVersion).
Proof.
  unfold exec_on_wire. destruct (send_request p req []) as [r2 w2] eqn:Hw. apply send_request_wire in Hw.
  destruct r2 as [u|e]; [|intros [= <- <-]; split; [naive_solver|done]].
  destruct Hw as [[_ ?]|Hw]; [done|]. intros [= <- <-]. split; [by right|]. intros res. unfold read_result.
  destruct (next_reply _).1 as [m|e]; [|done].
  destruct (Z.eqb_spec (rs_Version (decode_result m)) ProtocolVersion); cbn [negb]; [|done].
  case_bool_decide; cbn [negb]; [|done]. by intros [= <-].
Qed.

(** C23: Whatever a guest answers: [ExecStream] and [Exec] write to it nothing, or
    the one request they were given, encoded, and only when it is within all
    limits of the protocol; without such a write they fail and deliver
    nothing.  [ExecStream] delivers only frames of this request, on stdout or
    stderr, none larger than the frame limit, and no more of them than the
    guest sent; [Exec] answers a result of this request and of this protocol
    version only. *)
Theorem ExecStream_delivers_bounded_frames p req r wire frames r1 wire1 :
  exec_stream_on_wire p req (Some collect) ([], []) = (r, (wire, frames)) →
  exec_on_wire p req [] = (r1, wire1) →
  (wire = [] ∧ is_ok r = false ∧ frames = [] ∨
   wire = [MsgRequest (json_request (with_stream req))] ∧ request_ok (with_stream req)) ∧
  Forall (λ f, fr_ID f = rq_ID req ∧ fr_Version f = ProtocolVersion ∧ fr_Result f = None
               ∧ (fr_Stream f = "stdout" ∨ fr_Stream f = "stderr")
               ∧ len (fr_Data f) ≤ MaxStreamFrameBytes) frames ∧
  (length frames ≤ length (peer_replies p))%nat ∧
  (wire1 = [] ∧ is_ok r1 = false ∨ wire1 = [MsgRequest (json_request req)] ∧ request_ok req) ∧
  (∀ res, r1 = Ok res → rs_ID res = rq_ID req ∧ rs_Version res = ProtocolVersion).
Proof.
  unfold exec_stream_on_wire. intros Es Ex%exec_wire_answer.
  destruct (send_request p (with_stream req) []) as [[[]|e] w] eqn:Hs; apply send_request_wire in Hs as Hw.
  - destruct (read_frames _ _ _ _) as [r3 fs3] eqn:Er. injection Es as <- <- <-.
    apply read_frames_bounded in Er as (fs & -> & Hfs & Hlen). split; [right; by destruct Hw as [[_ ?]|]|].
    split; [done|]. by split.
  - injection Es as <- <- <-. split; [destruct Hw as [[-> ?]|?]; [by left|by right]|].
    split; [constructor|]. split; [cbn; lia|done].
Qed.

(** A guest that writes one line and ends. *)
Definition hello_request : ExecRequest := mkExecRequest ProtocolVersion "s" "echo" ["hi"] ∅ 0 true.
Definition hello_peer : Peer :=
  {| peer_dial := None; peer_write := None;
     peer_replies := [Ok (MsgFrame (mkExecFrame ProtocolVersion "s" "stdout" "hi" None));
                      Ok (MsgFrame (mkExecFrame ProtocolVersion "s" "" ""
                                      (Some (mkExecResult ProtocolVersion "s" 0 "" "" None))))] |}.
Lemma ExecStream_delivers_bounded_frames_witness :
  (exec_stream_on_wire hello_peer hello_request (Some collect) ([], [])).2.1 = [MsgRequest (json_request hello_request)] ∧
  (length (exec_stream_on_wire hello_peer hello_request (Some collect) ([], [])).2.2 ≤ 2)%nat.
Proof.
  destruct (ExecStream_delivers_bounded_frames hello_peer hello_request
    (exec_stream_on_wire hello_peer hello_request (Some collect) ([], [])).1
    (exec_stream_on_wire hello_peer hello_request (Some collect) ([], [])).2.1
    (exec_stream_on_wire hello_peer hello_request (Some collect) ([], [])).2.2
    (exec_on_wire hello_peer hello_request []).1 (exec_on_wire hello_peer hello_request []).2) as (_ & _ & Hl & _).
  - by destruct (exec_stream_on_wire _ _ _ _) as [? []].
  - apply surjective_pairing.
  - split; [vm_compute; reflexivity|exact Hl].
Defined.
