(* ===== verification/GuestAgent.v ===== *)
(** * cmd/guest-agent: the process that runs commands inside a microVM

    [main.go] (serving requests, capturing output, streaming results),
    [limits.go] (cgroup and rlimit confinement) and [rootfs.go] (the
    ephemeral root).  The guest's kernel is the interface [GuestOS]; what the
    theorems need of it are the laws [GuestLaws]. *)

From Stdlib Require Import Ascii.
From S2P Require Import Prelude GoStrings GoNet Network Host Vsock.
Open Scope Z_scope.

(** ** limitedBuffer *)

Record limitedBuffer := mkLimitedBuffer { lb_limit : Z; lb_buf : list Z; lb_truncated : bool }.

(** [Write] never fails and always reports the whole slice as written. *)
Definition Write (p : list Z) (b : limitedBuffer) : limitedBuffer :=
  if lb_truncated b then b
  else
    let remaining := lb_limit b - Z.of_nat (length (lb_buf b)) in
    if remaining <=? 0 then mkLimitedBuffer (lb_limit b) (lb_buf b) true
    else if remaining <? Z.of_nat (length p) then
      mkLimitedBuffer (lb_limit b) (lb_buf b ++ take (Z.to_nat remaining) p) true
    else mkLimitedBuffer (lb_limit b) (lb_buf b ++ p) (lb_truncated b).
Definition lb_String (b : limitedBuffer) : string := of_bytes (lb_buf b).

Definition capture (limit : Z) (chunks : list (list Z)) : limitedBuffer :=
  foldl (λ b p, Write p b) (mkLimitedBuffer limit [] false) chunks.

Lemma capture_snoc limit chunks p : capture limit (chunks ++ [p]) = Write p (capture limit chunks).
Proof. unfold capture. by rewrite foldl_app. Qed.

(** The buffer is the prefix of the output, and it is marked only when the
    output filled it. *)
Lemma capture_prefix limit chunks :
  0 ≤ limit →
  let b := capture limit chunks in
  lb_limit b = limit ∧
  lb_buf b = take (Z.to_nat limit) (concat chunks) ∧
  (lb_truncated b = false → lb_buf b = concat chunks) ∧
  (lb_truncated b = true → limit ≤ Z.of_nat (length (concat chunks))).
Proof.
  intros Hlim. induction chunks as [|p chunks IH] using rev_ind.
  { cbn. rewrite take_nil. split_and!; try done. }
  cbn zeta in *. rewrite capture_snoc, concat_app. cbn [concat]. rewrite app_nil_r.
  destruct IH as (Hl & Hb & Hf & Ht). unfold Write.
  destruct (lb_truncated (capture limit chunks)) eqn:Htr.
  { specialize (Ht eq_refl). split_and!; try done.
    - rewrite Hb, take_app_le; [done|lia].
    - congruence.
    - intros _. rewrite length_app. lia. }
  specialize (Hf eq_refl). rewrite Hl, Hf.
  destruct (Z.leb_spec (limit - Z.of_nat (length (concat chunks))) 0) as [H0|H0]; cbn.
  { split_and!; try done.
    - rewrite take_app_le by lia. congruence.
    - intros _. rewrite length_app. lia. }
  destruct (Z.ltb_spec (limit - Z.of_nat (length (concat chunks))) (Z.of_nat (length p))) as [H1|H1];
    cbn; split_and!; try done.
  - rewrite take_app_ge by lia. f_equal. f_equal. lia.
  - intros _. rewrite length_app. lia.
  - rewrite take_ge by (rewrite length_app; lia). done.
Qed.

(** ** The guest's kernel *)

Inductive WaitOutcome := WaitNil | WaitExit (code : Z) | WaitErr (e : error).

(** One run of a started command until it ends or its deadline passes: the
    writes to its two outputs and whether the deadline came first. *)
Record CmdRun := mkCmdRun {
  run_stdout : list (list Z);
  run_stderr : list (list Z);
  run_timedOut : option error;      (** [ctx.Err()] *)
  run_wait : WaitOutcome;
}.

Record Command := mkCommand {
  cmd_Path : string;
  cmd_Args : list string;
  cmd_Env : list string;
  cmd_cgroup : string;              (** the directory of [CgroupFD] *)
}.

Class GuestOS (G : Type) := {
  g_Environ : G → list string;
  g_ReadFile : string → ST G string;
  g_WriteFile : string → string → ST G unit;
  g_MkdirAll : string → ST G unit;
  g_Mkdir : string → ST G unit;
  g_Remove : string → G → RemoveOutcome * G;
  g_Open : string → ST G unit;
  g_Random : nat → ST G (list Z);
  g_Start : Command → ST G Z;
  (** [Kill(-pid, SIGKILL)] followed by [cmd.Wait()] *)
  g_KillAndReap : Z → G → G;
  (** waiting for the command, killed when the timeout passes *)
  g_Wait : Z → option Z → G → CmdRun * G;
  g_SetRlimit : Z → Z → Z → ST G unit;
  g_GetRlimit : Z → Z → ST G (Z * Z);
  g_Mount : string → string → string → ST G unit;     (** source, target, type *)
  g_MoveMount : string → string → ST G unit;
  g_Unmount : string → ST G unit;
  g_PivotRoot : string → string → ST G unit;
  g_Chdir : string → ST G unit;
  g_Stat : string → G → result (option bool) * G;     (** [None]: no such file *)
}.

(** ** limits.go *)

Definition guestCgroupRoot : string := "/sys/fs/cgroup/shiyao".
Definition guestMemoryMax : Z := Z.shiftl 384 20.
Definition guestPidsMax : Z := 256.
Definition guestCPUQuotaUS : Z := 100000.
Definition guestCPUPeriodUS : Z := 100000.
Definition guestFileMax : Z := Z.shiftl 256 20.
Definition guestNoFileMax : Z := 4096.
Definition RLIMIT_CPU : Z := 0.
Definition RLIMIT_FSIZE : Z := 1.
Definition RLIMIT_NOFILE : Z := 7.

Definition cgroup_settings : list (string * string) :=
  [("memory.max", Itoa guestMemoryMax);
   ("pids.max", Itoa guestPidsMax);
   ("cpu.max", Itoa guestCPUQuotaUS +:+ " " +:+ Itoa guestCPUPeriodUS)].
Definition rlimits : list (Z * Z) :=
  [(RLIMIT_CPU, 300); (RLIMIT_FSIZE, guestFileMax); (RLIMIT_NOFILE, guestNoFileMax)].

Section Limits.
Context {G : Type} `{GuestOS G}.

(** Run one step per element, stop at the first error. *)
Fixpoint each {A} (f : A → ST G unit) (l : list A) : ST G unit := λ w,
  match l with
  | [] => (Ok tt, w)
  | x :: l => match f x w with
              | (Ok _, w) => each f l w
              | (Err e, w) => (Err e, w)
              end
  end.

(** [range] over a map of settings visits it in some order. *)
Definition verifyCgroupFiles (order : list (string * string)) (path : string) : ST G unit :=
  each (λ '(name, expected) w,
    match g_ReadFile (path +:+ "/" +:+ name) w with
    | (Err e, w) => (Err (Errorf "read %s: %w" [e]), w)
    | (Ok got, w) =>
        if negb (bool_decide (TrimSpace got = expected)) then (Err (Errorf "%s = %q, want %q" []), w)
        else (Ok tt, w)
    end) order.

Definition randomCgroupName : ST G string :=
  (b <- g_Random 16 ;; st_ret ("exec-" +:+ hex_encode b))%go.

(** [os.Remove(path)] with its result ignored. *)
Definition discard_cgroup (path : string) (w : G) : G := (g_Remove path w).2.

Definition prepareCgroup (order1 order2 : list (string * string)) : ST G string := λ w,
  match g_MkdirAll guestCgroupRoot w with
  | (Err e, w) => (Err e, w)
  | (Ok _, w) =>
      match g_WriteFile "/sys/fs/cgroup/cgroup.subtree_control" "+cpu +memory +pids" w with
      | (Err e, w) => (Err (Errorf "enable cgroup controllers: %w" [e]), w)
      | (Ok _, w) =>
          match randomCgroupName w with
          | (Err e, w) => (Err e, w)
          | (Ok name, w) =>
              let path := guestCgroupRoot +:+ "/" +:+ name in
              match g_Mkdir path w with
              | (Err e, w) => (Err e, w)
              | (Ok _, w) =>
                  match each (λ '(setting, value), g_WriteFile (path +:+ "/" +:+ setting) value) order1 w with
                  | (Err e, w) => (Err e, discard_cgroup path w)
                  | (Ok _, w) =>
                      match verifyCgroupFiles order2 path w with
                      | (Err e, w) => (Err e, discard_cgroup path w)
                      | (Ok _, w) =>
                          match g_Open path w with
                          | (Err e, w) => (Err e, discard_cgroup path w)
                          | (Ok _, w) => (Ok path, w)
                          end
                      end
                  end
              end
          end
      end
  end.

(** The closure that [prepareCgroup] returns. *)
Definition cleanupCgroup (path : string) : ST G unit := λ w,
  match g_Remove path w with
  | (RemoveFailed e, w) => (Err e, w)
  | (_, w) => (Ok tt, w)
  end.

(** [filepath.Base] of a path that ends in a file name. *)
Definition Base (path : string) : string :=
  default path (last (Split path "/"%char)).

Definition verifyCgroupForProcess (pid : Z) (cgroupPath : string) : ST G unit := λ w,
  match g_ReadFile ("/proc/" +:+ Itoa pid +:+ "/cgroup") w with
  | (Err e, w) => (Err e, w)
  | (Ok data, w) =>
      if negb (Contains data ("/shiyao/" +:+ Base cgroupPath)) then
        (Err (Errorf "process is not a member of %s" []), w)
      else (Ok tt, w)
  end.

Definition applyRlimits (pid : Z) : ST G unit :=
  each (λ '(resource, value), g_SetRlimit pid resource value) rlimits.

Definition verifyRlimits (pid : Z) : ST G unit :=
  each (λ '(resource, value) w,
    match g_GetRlimit pid resource w with
    | (Err e, w) => (Err e, w)
    | (Ok (cur, max), w) =>
        if negb (cur =? value) || negb (max =? value) then
          (Err (Errorf "%s rlimit = (%d,%d), want (%d,%d)" []), w)
        else (Ok tt, w)
    end) rlimits.

(** [killAndReap(); cleanupCgroup()] *)
Definition abandon (pid : Z) (path : string) (w : G) : G :=
  (cleanupCgroup path (g_KillAndReap pid w)).2.

Definition startWithResourceLimits (order1 order2 : list (string * string)) (cmd : string → Command)
  : ST G (Z * string) := λ w,
  match prepareCgroup order1 order2 w with
  | (Err e, w) => (Err (Errorf "prepare cgroup: %w" [e]), w)
  | (Ok path, w) =>
      match g_Start (cmd path) w with
      | (Err e, w) => (Err (Errorf "start command: %w" [e]), (cleanupCgroup path w).2)
      | (Ok pid, w) =>
          match verifyCgroupForProcess pid path w with
          | (Err e, w) => (Err (Errorf "verify cgroup limits: %w" [e]), abandon pid path w)
          | (Ok _, w) =>
              match applyRlimits pid w with
              | (Err e, w) => (Err (Errorf "apply process limits: %w" [e]), abandon pid path w)
              | (Ok _, w) =>
                  match verifyRlimits pid w with
                  | (Err e, w) => (Err (Errorf "verify process limits: %w" [e]), abandon pid path w)
                  | (Ok _, w) => (Ok (pid, path), w)
                  end
              end
          end
      end
  end.
End Limits.

(** ** rootfs.go *)

Definition overlayBase : string := "/dev/shm/shiyao-overlay".
Definition overlay_upper : string := overlayBase +:+ "/upper".
Definition overlay_work : string := overlayBase +:+ "/work".
Definition overlay_newRoot : string := overlayBase +:+ "/newroot".
Definition overlay_oldRoot : string := overlay_newRoot +:+ "/.oldroot".

Section Rootfs.
Context {G : Type} `{GuestOS G}.

(** [cleanupBeforePivot], its errors ignored. *)
Definition cleanupBeforePivot (mountedOverlay mountedTmpfs : bool) (w : G) : G :=
  let w := if mountedOverlay then (g_Unmount overlay_newRoot w).2 else w in
  if mountedTmpfs then (g_Unmount overlayBase w).2 else w.

Definition moveRootMount (src dst : string) : ST G unit := λ w,
  match g_Stat src w with
  | (Err e, w) => (Err e, w)
  | (Ok None, w) => (Ok tt, w)
  | (Ok (Some isDir), w) =>
      if negb isDir then (Err (Errorf "source is not a directory" []), w)
      else match g_MkdirAll dst w with
           | (Err e, w) => (Err e, w)
           | (Ok _, w) => g_MoveMount src dst w
           end
  end.

Definition after_pivot : ST G unit := λ w,
  match g_Chdir "/" w with
  | (Err e, w) => (Err (Errorf "chdir new root: %w" [e]), w)
  | (Ok _, w) =>
      match each (λ name w, match moveRootMount ("/.oldroot/" +:+ name) ("/" +:+ name) w with
                            | (Err e, w) => (Err (Errorf "move %s mount: %w" [e]), w)
                            | (Ok _, w) => (Ok tt, w)
                            end) ["proc"; "sys"; "dev"; "run"] w with
      | (Err e, w) => (Err e, w)
      | (Ok _, w) => st_wrap "detach immutable root: %w" (g_Unmount "/.oldroot") w
      end
  end.

Definition setupEphemeralRootfs : ST G unit := λ w,
  match g_MkdirAll overlayBase w with
  | (Err e, w) => (Err (Errorf "create overlay base: %w" [e]), w)
  | (Ok _, w) =>
      match g_Mount "tmpfs" overlayBase "tmpfs" w with
      | (Err e, w) => (Err (Errorf "mount overlay tmpfs: %w" [e]), w)
      | (Ok _, w) =>
          match each g_MkdirAll [overlay_upper; overlay_work; overlay_newRoot; overlay_oldRoot] w with
          | (Err e, w) =>
              (Err (Errorf "create overlay directory %s: %w" [e]), cleanupBeforePivot false true w)
          | (Ok _, w) =>
              match g_Mount "overlay" overlay_newRoot "overlay" w with
              | (Err e, w) => (Err (Errorf "mount root overlay: %w" [e]), cleanupBeforePivot false true w)
              | (Ok _, w) =>
                  match g_PivotRoot overlay_newRoot overlay_oldRoot w with
                  | (Err e, w) =>
                      (Err (Errorf "pivot root to ephemeral overlay: %w" [e]),
                       cleanupBeforePivot true true w)
                  | (Ok _, w) => after_pivot w
                  end
              end
          end
      end
  end.
End Rootfs.

(** ** main.go *)

(** The lines of the preset file, [strings.Split(data, "\n")]. *)
Definition preset_lines (data : string) : list string :=
  filter (λ line, line ≠ "" ∧ HasPrefix line "#" = false)
         (TrimSpace <$> Split data (ascii_of 10)).

Section Execute.
Context {G : Type} `{GuestOS G}.
Context (order1 order2 : list (string * string)).

Definition loadPresetEnv (w : G) : list string * G :=
  let env := g_Environ w in
  match g_ReadFile "/etc/shiyao-env" w with
  | (Err _, w) => (env, w)
  | (Ok data, w) => (env ++ preset_lines data, w)
  end.

Definition truncation_note : string := of_bytes [10] +:+ "[OUTPUT TRUNCATED DUE TO SIZE LIMIT]".
Definition captured (chunks : list (list Z)) : string :=
  let b := capture MaxOutputBytes chunks in
  if lb_truncated b then lb_String b +:+ truncation_note else lb_String b.

Definition failed_result (id : string) (e : error) : ExecResult :=
  mkExecResult ProtocolVersion id (-1) "" "" (Some e).

(** From the wait to the result. *)
Definition finish (id : string) (run : CmdRun) (cleanup : result unit) : ExecResult :=
  let err := run_timedOut run in
  let err := match cleanup, err with
             | Err e, None => Some (Errorf "cleanup command cgroup: %v" [e])
             | _, _ => err
             end in
  let out := captured (run_stdout run) in
  let errOut := captured (run_stderr run) in
  match run_wait run with
  | WaitNil => mkExecResult ProtocolVersion id 0 out errOut err
  | WaitExit code => mkExecResult ProtocolVersion id code out errOut err
  | WaitErr e =>
      mkExecResult ProtocolVersion id (-1) out errOut (match err with None => Some e | _ => err end)
  end.

Definition run_request (req : ExecRequest) (w : G) : ExecResult * G :=
  let timeout := if 0 <? rq_TimeoutMS req then Some (int64 (rq_TimeoutMS req * Millisecond)) else None in
  let '(preset, w) := loadPresetEnv w in
  let env := preset ++ ((λ '(k, v), k +:+ "=" +:+ v) <$> map_to_list (rq_Env req)) in
  match startWithResourceLimits order1 order2 (mkCommand (rq_Command req) (rq_Args req) env) w with
  | (Err e, w) => (failed_result (rq_ID req) e, w)
  | (Ok (pid, path), w) =>
      let '(run, w) := g_Wait pid timeout w in
      let '(c, w) := cleanupCgroup path w in
      (finish (rq_ID req) run c, w)
  end.

(** The slots in use, and the guest. *)
Definition execute (req : ExecRequest) (s : Z * G) : ExecResult * (Z * G) :=
  let '(slots, w) := s in
  match rq_Validate req with
  | Err e => (failed_result (rq_ID req) e, (slots, w))
  | Ok _ =>
      if slots <? MaxConcurrentCommands then
        let slots := slots + 1 in
        let '(r, w) := run_request req w in
        (r, (slots - 1, w))
      else (failed_result (rq_ID req) (Errorf "guest command concurrency limit reached" []), (slots, w))
  end.
End Execute.

(** A connection: the peer's context id when it is a vsock connection, what
    the decoder finds in the first [MaxRequestBytes] bytes, what was written,
    and after how many writes the connection breaks, if it does. *)
Record Conn := mkConn {
  c_remote : option Z;
  c_in : result Message;
  c_out : list Message;
  c_breaks : option nat;
}.
Definition conn_Write (m : Message) : ST Conn unit := λ c,
  match c_breaks c with
  | Some O => (Err (Errorf "broken pipe" []), c)
  | b => (Ok tt, mkConn (c_remote c) (c_in c) (c_out c ++ [m]) (pred <$> b))
  end.
(** [EncodeMessage] and [Write]. *)
Definition send (m : Message) : ST Conn unit := λ c,
  match EncodeMessage m with
  | Err e => (Err e, c)
  | Ok payload => conn_Write payload c
  end.

Definition sendError (err : error) (c : Conn) : Conn :=
  (send (MsgResult (failed_result "" err)) c).2.

Definition authorizedHost (c : Conn) : bool := is_ok (AuthorizeHostConnection (c_remote c)).

(** The loop over one output; every round sends at least one byte. *)
Fixpoint stream_output (fuel : nat) (id name data : string) : ST Conn unit := λ c,
  match fuel with
  | O => (Ok tt, c)
  | S fuel =>
      if len data <=? 0 then (Ok tt, c)
      else
        let n := Z.to_nat (Z.min (len data) MaxStreamFrameBytes) in
        match send (MsgFrame (mkExecFrame ProtocolVersion id name (take_str n data) None)) c with
        | (Err e, c) => (Err e, c)
        | (Ok _, c) => stream_output fuel id name (drop_str n data) c
        end
  end.

Definition without_output (r : ExecResult) : ExecResult :=
  mkExecResult (rs_Version r) (rs_ID r) (rs_ExitCode r) "" "" (rs_Error r).

Definition streamResult (result : ExecResult) (c : Conn) : Conn :=
  match stream_output (String.length (rs_Stdout result)) (rs_ID result) "stdout" (rs_Stdout result) c with
  | (Err _, c) => c
  | (Ok _, c) =>
      match stream_output (String.length (rs_Stderr result)) (rs_ID result) "stderr" (rs_Stderr result) c with
      | (Err _, c) => c
      | (Ok _, c) =>
          (send (MsgFrame (mkExecFrame ProtocolVersion (rs_ID result) "" ""
                             (Some (without_output result)))) c).2
      end
  end.

(** [DisallowUnknownFields]: a result or a frame with any field that a
    request does not have is refused. *)
Definition decode_request (m : Message) : result ExecRequest :=
  match m with
  | MsgRequest r => Ok r
  | MsgFrame (mkExecFrame v id stream data None) =>
      if bool_decide (stream = "" ∧ data = "") then
        Ok (mkExecRequest v id "" [] ∅ 0 false)
      else Err (Errorf "json: unknown field %q" [])
  | _ => Err (Errorf "json: unknown field %q" [])
  end.

Section Serve.
Context {G : Type} `{GuestOS G}.
Context (order1 order2 : list (string * string)).

Definition serve (c : Conn) (s : Z * G) : Conn * (Z * G) :=
  if negb (authorizedHost c) then (sendError (Errorf "unauthorized vsock peer" []) c, s)
  else
    match (match c_in c with Ok m => decode_request m | Err e => Err e end) with
    | Err e => (sendError (Errorf "decode request: %w" [e]) c, s)
    | Ok req =>
        let '(result, s) := execute order1 order2 req s in
        if rq_Stream req then (streamResult result c, s)
        else ((send (MsgResult result) c).2, s)
    end.
End Serve.

(** ** Confinement *)

(** What the kernel keeps for the agent: its children, their resource limits
    and the mount points.  Only the calls that name them change them. *)
Class GuestLaws (G : Type) `{GuestOS G} := {
  procs : G → gset Z;
  prlimit : G → Z → Z → Z * Z;
  mounts : G → gset string;
  pivoted : G → bool;
  g_same (w w' : G) : Prop :=
    procs w' = procs w ∧ prlimit w' = prlimit w ∧ mounts w' = mounts w ∧ pivoted w' = pivoted w;
  ReadFile_same p w r w' : g_ReadFile p w = (r, w') → g_same w w';
  WriteFile_same p d w r w' : g_WriteFile p d w = (r, w') → g_same w w';
  MkdirAll_same p w r w' : g_MkdirAll p w = (r, w') → g_same w w';
  Mkdir_same p w r w' : g_Mkdir p w = (r, w') → g_same w w';
  Remove_same p w r w' : g_Remove p w = (r, w') → g_same w w';
  Open_same p w r w' : g_Open p w = (r, w') → g_same w w';
  Random_same n w r w' : g_Random n w = (r, w') → g_same w w';
  Start_law c w r w' : g_Start c w = (r, w') →
    match r with
    | Ok pid => pid ∉ procs w ∧ procs w' = {[pid]} ∪ procs w
    | Err _ => procs w' = procs w
    end;
  KillAndReap_law pid w : procs (g_KillAndReap pid w) = procs w ∖ {[pid]};
  SetRlimit_law pid res v w r w' : g_SetRlimit pid res v w = (r, w') → procs w' = procs w;
  GetRlimit_law pid res w r w' : g_GetRlimit pid res w = (r, w') →
    g_same w w' ∧ match r with Ok x => prlimit w pid res = x | Err _ => True end;
  Mount_law s t k w r w' : g_Mount s t k w = (r, w') →
    pivoted w' = pivoted w ∧
    match r with Ok _ => mounts w' = {[t]} ∪ mounts w | Err _ => mounts w' = mounts w end;
  Unmount_law t w r w' : g_Unmount t w = (r, w') →
    pivoted w' = pivoted w ∧
    match r with Ok _ => mounts w' = mounts w ∖ {[t]} | Err _ => mounts w' = mounts w end;
  PivotRoot_law n o w r w' : g_PivotRoot n o w = (r, w') →
    match r with
    | Ok _ => pivoted w' = true
    | Err _ => pivoted w' = pivoted w ∧ mounts w' = mounts w
    end;
  Chdir_law p w r w' : g_Chdir p w = (r, w') → pivoted w' = pivoted w;
  Stat_law p w r w' : g_Stat p w = (r, w') → pivoted w' = pivoted w;
  MoveMount_law s t w r w' : g_MoveMount s t w = (r, w') → pivoted w' = pivoted w;
}.

Section Confinement.
Context {G : Type} `{GuestLaws G}.

Definition quiet {A} (f : ST G A) : Prop := ∀ w r w', f w = (r, w') → g_same w w'.

#[local] Instance g_same_preorder : PreOrder g_same.
Proof. split; [by intros w|]. intros a b c (?&?&?&?) (?&?&?&?). split_and!; congruence. Qed.

Lemma quiet_each {A} (f : A → ST G unit) l : (∀ x, quiet (f x)) → quiet (each f l).
Proof.
  intros Hf. induction l as [|x l IH]; intros w r w'; cbn [each]; [by intros [= <- <-]|].
  destruct (f x w) as [[u|e] w1] eqn:E; apply Hf in E; [|by intros [= <- <-]].
  intros E2%IH. by etransitivity.
Qed.

Lemma verifyCgroupFiles_quiet order path : quiet (verifyCgroupFiles order path).
Proof.
  apply quiet_each. intros [name expected] w r w'.
  destruct (g_ReadFile _ w) as [[got|e] w1] eqn:E; apply ReadFile_same in E;
    [destruct (negb _)|]; by intros [= <- <-].
Qed.

Lemma cleanupCgroup_same path (w : G) : g_same w (cleanupCgroup path w).2.
Proof.
  unfold cleanupCgroup. destruct (g_Remove path w) as [o w1] eqn:E. apply Remove_same in E.
  by destruct o.
Qed.
Lemma discard_same path (w : G) : g_same w (discard_cgroup path w).
Proof. unfold discard_cgroup. destruct (g_Remove path w) as [o w1] eqn:E. by apply Remove_same in E. Qed.

Lemma prepareCgroup_quiet o1 o2 : quiet (prepareCgroup o1 o2).
Proof.
  intros w r w'. unfold prepareCgroup.
  destruct (g_MkdirAll _ w) as [[u|e] w1] eqn:E1; apply MkdirAll_same in E1; [|by intros [= <- <-]].
  destruct (g_WriteFile _ _ w1) as [[u2|e] w2] eqn:E2; apply WriteFile_same in E2; rewrite E1;
    [|by intros [= <- <-]].
  unfold randomCgroupName, st_bind, st_ret.
  destruct (g_Random 16 w2) as [[b|e] w3] eqn:E3; apply Random_same in E3; rewrite E2;
    [|by intros [= <- <-]].
  rewrite E3. destruct (g_Mkdir _ w3) as [[u4|e] w4] eqn:E4; apply Mkdir_same in E4; rewrite E4;
    [|by intros [= <- <-]].
  destruct (each _ o1 w4) as [r5 w5] eqn:E5.
  apply quiet_each in E5; [|intros [? ?] ? ? ?; apply WriteFile_same]. rewrite E5.
  destruct r5 as [u5|e]; [|intros [= <- <-]; apply discard_same].
  destruct (verifyCgroupFiles o2 _ w5) as [r6 w6] eqn:E6. apply verifyCgroupFiles_quiet in E6. rewrite E6.
  destruct r6 as [u6|e]; [|intros [= <- <-]; apply discard_same].
  destruct (g_Open _ w6) as [[u7|e] w7] eqn:E7; apply Open_same in E7; rewrite E7;
    [by intros [= <- <-]|intros [= <- <-]; apply discard_same].
Qed.

Lemma verifyCgroupForProcess_quiet pid path : quiet (verifyCgroupForProcess pid path).
Proof.
  intros w r w'. unfold verifyCgroupForProcess.
  destruct (g_ReadFile _ w) as [[d|e] w1] eqn:E; apply ReadFile_same in E;
    [destruct (negb _)|]; by intros [= <- <-].
Qed.

Lemma abandon_procs pid path (w : G) : procs (abandon pid path w) = procs w ∖ {[pid]}.
Proof.
  unfold abandon. destruct (cleanupCgroup_same path (g_KillAndReap pid w)) as [-> _].
  apply KillAndReap_law.
Qed.

Lemma applyRlimits_procs pid w r w' : applyRlimits pid w = (r, w') → procs w' = procs w.
Proof.
  unfold applyRlimits. generalize rlimits as l. induction l as [|[res v] l IH] in w |- *; cbn [each].
  - by intros [= <- <-].
  - destruct (g_SetRlimit pid res v w) as [[u|e] w1] eqn:E; apply SetRlimit_law in E.
    + intros ->%IH. done.
    + by intros [= <- <-].
Qed.

Lemma verifyRlimits_spec pid w r w' :
  verifyRlimits pid w = (r, w') →
  g_same w w' ∧ (is_ok r = true → ∀ res v, (res, v) ∈ rlimits → prlimit w pid res = (v, v)).
Proof.
  unfold verifyRlimits. generalize rlimits as l. induction l as [|[res v] l IH] in w |- *; cbn [each].
  - intros [= <- <-]. split; [done|]. intros _ ? ? []%elem_of_nil.
  - destruct (g_GetRlimit pid res w) as [[[cur max]|e] w1] eqn:E; apply GetRlimit_law in E as [Hs Hx];
      [|by intros [= <- <-]].
    destruct (negb (cur =? v) || negb (max =? v)) eqn:Hb; [by intros [= <- <-]|].
    apply orb_false_iff in Hb as [Hc%negb_false_iff%Z.eqb_eq Hm%negb_false_iff%Z.eqb_eq]. subst cur max.
    intros E2. destruct (IH _ E2) as [Hs2 Hl]. split; [by etransitivity|].
    intros Hok res' v' [[= -> ->]|Hin]%elem_of_cons; [done|].
    rewrite <- (Hl Hok res' v' Hin). by destruct Hs as (_ & -> & _).
Qed.
End Confinement.

Lemma startWithResourceLimits_confines {G} `{GuestLaws G} order1 order2 cmd (w : G) r w' :
  startWithResourceLimits order1 order2 cmd w = (r, w') →
  match r with
  | Err _ => procs w' = procs w
  | Ok (pid, _) => pid ∉ procs w ∧ procs w' = {[pid]} ∪ procs w ∧
      ∀ res v, (res, v) ∈ rlimits → prlimit w' pid res = (v, v)
  end.
Proof.
  unfold startWithResourceLimits.
  destruct (prepareCgroup order1 order2 w) as [[path|e] w1] eqn:E1;
    apply prepareCgroup_quiet in E1 as (Hp1 & _); [|by intros [= <- <-]].
  destruct (g_Start (cmd path) w1) as [[pid|e] w2] eqn:E2; apply Start_law in E2.
  2: { intros [= <- <-]. destruct (cleanupCgroup_same path w2) as [-> _]. congruence. }
  destruct E2 as [Hnew Hp2]. rewrite Hp1 in Hnew, Hp2.
  assert (∀ w3, procs w3 = procs w2 → procs (abandon pid path w3) = procs w) as Hab.
  { intros w3 E. rewrite abandon_procs, E, Hp2. set_solver. }
  destruct (verifyCgroupForProcess pid path w2) as [[u3|e] w3] eqn:E3;
    apply verifyCgroupForProcess_quiet in E3 as (Hp3 & _); [|intros [= <- <-]; by apply Hab].
  destruct (applyRlimits pid w3) as [r4 w4] eqn:E4. apply applyRlimits_procs in E4.
  destruct r4 as [u4|e]; [|intros [= <- <-]; apply Hab; congruence].
  destruct (verifyRlimits pid w4) as [r5 w5] eqn:E5.
  apply verifyRlimits_spec in E5 as [(Hp5 & Hl5 & _) Hv].
  destruct r5 as [u5|e]; intros [= <- <-]; [|apply Hab; congruence].
  split_and!; [done|congruence|]. intros res v Hin. rewrite Hl5. by apply Hv.
Qed.

(** A command is either confined or not running: when the start fails no
    process is left; when it succeeds exactly one was added and its CPU,
    file size and open files limits, soft and hard, are the agent's. *)
Theorem command_is_confined {G} `{GuestLaws G} order1 order2 cmd (w : G) r w' :
  startWithResourceLimits order1 order2 cmd w = (r, w') →
  match r with
  | Err _ => procs w' = procs w
  | Ok (pid, _) => pid ∉ procs w ∧ procs w' = {[pid]} ∪ procs w ∧
      ∀ res v, (res, v) ∈ rlimits → prlimit w' pid res = (v, v)
  end.
Proof. apply startWithResourceLimits_confines. Qed.

Section AfterPivot.
Context {G : Type} `{GuestLaws G}.

Lemma each_pivoted {A} (f : A → ST G unit) l :
  (∀ x w r w', f x w = (r, w') → pivoted w' = pivoted w) →
  ∀ w r w', each f l w = (r, w') → pivoted w' = pivoted w.
Proof.
  intros Hf. induction l as [|x l IH]; intros w r w'; cbn [each]; [by intros [= <- <-]|].
  destruct (f x w) as [[u|e] w1] eqn:E; apply Hf in E; [|by intros [= <- <-]].
  intros ->%IH. done.
Qed.

Lemma moveRootMount_pivoted src dst w r w' :
  moveRootMount src dst w = (r, w') → pivoted w' = pivoted w.
Proof.
  unfold moveRootMount. destruct (g_Stat src w) as [[[b|]|e] w1] eqn:E1; apply Stat_law in E1;
    try (by intros [= <- <-]).
  destruct (negb b); [by intros [= <- <-]|].
  destruct (g_MkdirAll dst w1) as [[u|e] w2] eqn:E2; apply MkdirAll_same in E2 as (_&_&_&E2).
  - intros ->%MoveMount_law. congruence.
  - intros [= <- <-]. congruence.
Qed.

Lemma after_pivot_pivoted w r w' : after_pivot w = (r, w') → pivoted w' = pivoted w.
Proof.
  unfold after_pivot, st_wrap.
  destruct (g_Chdir "/" w) as [[u|e] w1] eqn:E1; apply Chdir_law in E1; [|by intros [= <- <-]].
  destruct (each _ _ w1) as [r2 w2] eqn:E2. apply each_pivoted in E2.
  2: { intros x v r3 v'. destruct (moveRootMount _ _ v) as [r4 v4] eqn:E3.
       apply moveRootMount_pivoted in E3. destruct r4; by intros [= <- <-]. }
  destruct r2 as [u2|e]; [|intros [= <- <-]; congruence].
  destruct (g_Unmount _ w2) as [r3 w3] eqn:E3. apply Unmount_law in E3 as [E3 _].
  destruct r3; intros [= <- <-]; congruence.
Qed.
End AfterPivot.

Lemma mount_undone (t : string) (X : gset string) : t ∉ X → ({[t]} ∪ X) ∖ {[t]} = X.
Proof. set_solver. Qed.

(** C40: A failure before the root is switched leaves the mount points of before,
    as long as what is mounted can be unmounted. *)
Theorem rootfs_failure_before_pivot {G} `{GuestLaws G} (w : G) e w' :
  (∀ t w1, t ∈ mounts w1 → is_ok (g_Unmount t w1).1 = true) →
  overlayBase ∉ mounts w → overlay_newRoot ∉ mounts w → pivoted w = false →
  setupEphemeralRootfs w = (Err e, w') → pivoted w' = false → mounts w' = mounts w.
Proof.
  intros Hum Hb Hn Hp. unfold setupEphemeralRootfs.
  assert (∀ t w1, t ∈ mounts w1 → mounts (g_Unmount t w1).2 = mounts w1 ∖ {[t]}) as Hun.
  { intros t w1 Hin. specialize (Hum t w1 Hin). destruct (g_Unmount t w1) as [r w2] eqn:E.
    apply Unmount_law in E as [_ E]. by destruct r. }
  destruct (g_MkdirAll overlayBase w) as [[u|e1] w1] eqn:E1; apply MkdirAll_same in E1 as (_&_&Hm1&_);
    [|by intros [= <- <-]].
  destruct (g_Mount "tmpfs" _ _ w1) as [[u2|e2] w2] eqn:E2; apply Mount_law in E2 as [_ Hm2];
    [|by intros [= <- <-]; congruence].
  destruct (each g_MkdirAll _ w2) as [r3 w3] eqn:E3.
  apply quiet_each in E3 as (_&_&Hm3&_); [|intros ? ? ? ?; apply MkdirAll_same].
  rewrite Hm2, Hm1 in Hm3.
  destruct r3 as [u3|e3].
  2: { intros [= <- <-] _. unfold cleanupBeforePivot. rewrite Hun; rewrite Hm3; set_solver. }
  destruct (g_Mount "overlay" _ _ w3) as [[u4|e4] w4] eqn:E4; apply Mount_law in E4 as [_ Hm4].
  2: { intros [= <- <-] _. unfold cleanupBeforePivot. rewrite Hun; rewrite Hm4, Hm3; set_solver. }
  destruct (g_PivotRoot _ _ w4) as [[u5|e5] w5] eqn:E5; apply PivotRoot_law in E5.
  - intros E6%after_pivot_pivoted Hnp. congruence.
  - destruct E5 as [_ Hm5]. intros [= <- <-] _. unfold cleanupBeforePivot.
    assert (mounts (g_Unmount overlay_newRoot w5).2 = {[overlayBase]} ∪ mounts w) as Hov.
    { rewrite Hun; rewrite Hm5, Hm4, Hm3; [|by apply elem_of_union_l, elem_of_singleton].
      apply mount_undone. intros [E%elem_of_singleton|?]%elem_of_union; [by vm_compute in E|done]. }
    rewrite Hun; rewrite Hov; [by apply mount_undone|by apply elem_of_union_l, elem_of_singleton].
Qed.

(** ** Serving *)

(** A command runs only for the host, for a request that passes all limits,
    and while fewer than [MaxConcurrentCommands] run. *)
Theorem only_the_host_runs_commands {G} `{GuestOS G} order1 order2 c (s : Z * G) c' s' :
  serve order1 order2 c s = (c', s') → s' ≠ s →
  c_remote c = Some HostCID ∧ s.1 < MaxConcurrentCommands ∧
  ∃ m req, c_in c = Ok m ∧ decode_request m = Ok req ∧ request_ok req.
Proof.
  unfold serve, authorizedHost, AuthorizeHostConnection.
  destruct (c_remote c) as [cid|]; [|by intros [= _ <-]].
  destruct (Z.eqb_spec cid HostCID) as [->|]; cbn [is_ok negb]; [|by intros [= _ <-]].
  destruct (c_in c) as [m|e]; [|by intros [= _ <-]].
  destruct (decode_request m) as [req|e] eqn:Hd; [|by intros [= _ <-]].
  destruct s as [slots w]. unfold execute.
  destruct (rq_Validate req) as [[]|e] eqn:Hv; [|destruct (rq_Stream req); by intros [= _ <-]].
  destruct (Z.ltb_spec slots MaxConcurrentCommands) as [Hlt|];
    [|destruct (rq_Stream req); by intros [= _ <-]].
  intros _ _. split_and!; [done|done|]. exists m, req. split_and!; [done|done|]. by apply Validate_iff.
Qed.

(** The result of a command carries the first [MaxOutputBytes] bytes of each
    output, in order, whatever the pieces it was written in; the note is
    added only when the output filled the buffer. *)
Theorem output_is_a_prefix chunks :
  let all := concat chunks in
  lb_buf (capture MaxOutputBytes chunks) = take (Z.to_nat MaxOutputBytes) all ∧
  (Z.of_nat (length all) < MaxOutputBytes → captured chunks = of_bytes all) ∧
  len (captured chunks) ≤ MaxOutputBytes + len truncation_note.
Proof.
  intros all. assert (0 ≤ MaxOutputBytes) as H0 by done.
  destruct (capture_prefix MaxOutputBytes chunks ltac:(done)) as (_ & Hb & Hf & Ht).
  cbn zeta in *. fold all in Hb, Hf, Ht. split; [done|].
  unfold captured. destruct (lb_truncated _) eqn:Htr; split.
  - intros Hlt. specialize (Ht eq_refl). lia.
  - unfold len, lb_String. rewrite Hb. rewrite <- !length_bytes, bytes_app, length_app, !length_bytes.
    rewrite length_of_bytes, length_take. revert H0. generalize MaxOutputBytes. intros. lia.
  - intros _. unfold lb_String. by rewrite Hf.
  - unfold len, lb_String. rewrite Hb, length_of_bytes, length_take.
    revert H0. generalize MaxOutputBytes, (String.length truncation_note). intros. lia.
Qed.

(** ** Streaming *)

Definition chunk_size (data : string) : nat := Z.to_nat (Z.min (len data) MaxStreamFrameBytes).
(** The pieces that [stream_output] sends. *)
Fixpoint stream_chunks (fuel : nat) (data : string) : list string :=
  match fuel with
  | O => []
  | S fuel =>
      if len data <=? 0 then []
      else take_str (chunk_size data) data :: stream_chunks fuel (drop_str (chunk_size data) data)
  end.
Definition frame_of (id name data : string) : ExecFrame := mkExecFrame ProtocolVersion id name data None.
Definition push (ms : list Message) (c : Conn) : Conn :=
  mkConn (c_remote c) (c_in c) (c_out c ++ ms) (c_breaks c).

Lemma stream_output_chunks fuel id name data c :
  c_breaks c = None →
  stream_output fuel id name data c =
    (Ok tt, push ((λ d, MsgFrame (json_frame (frame_of id name d))) <$> stream_chunks fuel data) c).
Proof.
  assert (∀ c, push [] c = c) as Hnil by (intros []; unfold push; cbn; by rewrite app_nil_r).
  revert data c. induction fuel as [|fuel IH]; intros data c Hc; cbn [stream_output stream_chunks].
  { cbn. by rewrite Hnil. }
  destruct (len data <=? 0); [cbn; by rewrite Hnil|].
  unfold send, EncodeMessage, conn_Write. rewrite Hc. cbn [fmap option_fmap option_map].
  rewrite IH by done. unfold push. cbn. by rewrite <- app_assoc, Hc.
Qed.

Lemma chunk_size_pos data : 0 < len data → (0 < chunk_size data ≤ String.length data)%nat.
Proof.
  unfold chunk_size, len. assert (0 < MaxStreamFrameBytes) as Hm by done. revert Hm.
  generalize MaxStreamFrameBytes. intros. lia.
Qed.

Lemma stream_chunks_spec fuel data :
  (String.length data ≤ fuel)%nat →
  concat (bytes <$> stream_chunks fuel data) = bytes data ∧
  Forall (λ d, len d ≤ MaxStreamFrameBytes) (stream_chunks fuel data) ∧
  (is_ascii_string data = true → Forall (λ d, is_ascii_string d = true) (stream_chunks fuel data)).
Proof.
  revert data. induction fuel as [|fuel IH]; intros data Hlen; cbn [stream_chunks].
  { destruct data; cbn in Hlen; [|lia]. split_and!; try constructor. }
  destruct (Z.leb_spec (len data) 0) as [H0|H0].
  { unfold len in H0. destruct data; cbn in H0; [|lia]. split_and!; try constructor. }
  pose proof (chunk_size_pos data H0) as Hn.
  destruct (IH (drop_str (chunk_size data) data)) as (Hc & Hb & Ha).
  { rewrite length_drop_str. lia. }
  rewrite fmap_cons. cbn [concat]. rewrite Hc, <- bytes_app, take_drop_str. split_and!; [done|..].
  - constructor; [|done]. unfold len. rewrite length_take_str. unfold chunk_size, len.
    assert (0 < MaxStreamFrameBytes) as Hm by done. revert Hm. generalize MaxStreamFrameBytes. intros. lia.
  - intros Hasc. assert (is_ascii_string (take_str (chunk_size data) data +:+
                           drop_str (chunk_size data) data) = true) as Happ by by rewrite take_drop_str.
    unfold is_ascii_string in Happ. rewrite bytes_app, forallb_app in Happ.
    apply andb_true_iff in Happ as [H1 H2]. constructor; [done|by apply Ha].
Qed.

Lemma read_frames_chunks id name chunks rest s :
  json_string id = id → name = "stdout" ∨ name = "stderr" →
  Forall (λ d, json_string d = d ∧ len d ≤ MaxStreamFrameBytes) chunks →
  read_frames collect id ((Ok <$> ((λ d, MsgFrame (json_frame (frame_of id name d))) <$> chunks)) ++ rest) s
  = read_frames collect id rest (s ++ (frame_of id name <$> chunks)).
Proof.
  intros Hid Hname Hch. revert s. induction Hch as [|d chunks [Hd Hl] _ IH]; intros s; [by rewrite app_nil_r|].
  assert (json_frame (frame_of id name d) = frame_of id name d) as Hf.
  { unfold json_frame, frame_of. cbn [fr_Version fr_ID fr_Stream fr_Data fr_Result].
    rewrite Hid, Hd. by destruct Hname as [-> | ->]. }
  cbn [fmap list_fmap app read_frames decode_frame]. rewrite Hf.
  cbn [frame_of fr_Version fr_ID fr_Result fr_Stream fr_Data].
  rewrite bool_decide_eq_true_2 by done. cbn [negb orb Z.eqb ProtocolVersion Pos.eqb].
  assert (negb (bool_decide (name = "stdout")) && negb (bool_decide (name = "stderr")) = false) as ->.
  { by destruct Hname as [-> | ->]. }
  rewrite (proj2 (Z.ltb_ge _ _) Hl). cbn [orb]. unfold collect at 1.
  fold (frame_of id name d). by rewrite IH, <- app_assoc.
Qed.

(** The text that the frames of one stream carry. *)
Definition stream_text (name : string) (frames : list ExecFrame) : list Z :=
  flat_map (λ f, if String.eqb (fr_Stream f) name then bytes (fr_Data f) else []) frames.

Lemma stream_text_same id name chunks :
  stream_text name (frame_of id name <$> chunks) = concat (bytes <$> chunks).
Proof.
  induction chunks as [|d chunks IH]; [done|]. cbn. rewrite String.eqb_refl. f_equal. apply IH.
Qed.
Lemma stream_text_other id name name' chunks :
  name ≠ name' → stream_text name' (frame_of id name <$> chunks) = [].
Proof.
  intros Hne. induction chunks as [|d chunks IH]; [done|]. cbn.
  by rewrite (proj2 (String.eqb_neq _ _) Hne).
Qed.

Definition peer_of (c : Conn) : Peer :=
  {| peer_dial := None; peer_write := None; peer_replies := Ok <$> c_out c |}.

(** What the guest streams is what the host receives: for ASCII output of
    any length, [ExecStream] on the frames of [streamResult] ends with the
    result of the command, and the stdout and stderr frames it delivered
    concatenate to the two outputs. *)
Theorem streamed_output_arrives result c req :
  c_breaks c = None → c_out c = [] → rs_ID result = rq_ID req → request_ok (with_stream req) →
  ValidString (rq_ID req) = true →
  is_ascii_string (rs_Stdout result) = true → is_ascii_string (rs_Stderr result) = true →
  ∃ frames, ExecStream (peer_of (streamResult result c)) req (Some collect) []
              = (Ok (without_output result), frames) ∧
    stream_text "stdout" frames = bytes (rs_Stdout result) ∧
    stream_text "stderr" frames = bytes (rs_Stderr result).
Proof.
  intros Hc Hout Hid Hreq Hval Ha1 Ha2.
  assert (json_string (rq_ID req) = rq_ID req) as Hj by by apply json_string_valid.
  destruct (stream_chunks_spec (String.length (rs_Stdout result)) (rs_Stdout result)) as (Hc1 & Hb1 & Hv1);
    [done|].
  destruct (stream_chunks_spec (String.length (rs_Stderr result)) (rs_Stderr result)) as (Hc2 & Hb2 & Hv2);
    [done|].
  set (ch1 := stream_chunks _ (rs_Stdout result)) in *.
  set (ch2 := stream_chunks _ (rs_Stderr result)) in *.
  assert (∀ ch, Forall (λ d, is_ascii_string d = true) ch →
            Forall (λ d, len d ≤ MaxStreamFrameBytes) ch →
            Forall (λ d, json_string d = d ∧ len d ≤ MaxStreamFrameBytes) ch) as Hok.
  { intros ch. rewrite !Forall_forall. intros H1 H2 d Hd. split; [|by apply H2].
    by apply json_string_valid, ascii_ValidString, H1. }
  exists ((frame_of (rq_ID req) "stdout" <$> ch1) ++ (frame_of (rq_ID req) "stderr" <$> ch2)).
  split; [|split].
  - unfold ExecStream, exec_stream_on_wire, send_request. rewrite (proj2 (Validate_iff _) Hreq). cbn [peer_of peer_dial peer_write fail_if EncodeMessage].
    unfold streamResult. rewrite (stream_output_chunks _ _ _ _ c Hc). cbn iota beta.
    rewrite stream_output_chunks by done. fold ch1 ch2. cbn [peer_replies]. rewrite Hid.
    unfold send, EncodeMessage, conn_Write. cbn [push c_breaks c_out]. rewrite Hc. cbn [snd c_out].
    rewrite Hout. cbn [app]. unfold peer_of. cbn [peer_replies c_out]. rewrite !fmap_app, <- app_assoc.
    cbn [with_stream rq_ID]. rewrite read_frames_chunks by (auto || apply Hok; auto).
    rewrite read_frames_chunks by (auto || apply Hok; auto).
    cbn [fmap list_fmap read_frames decode_frame json_frame fr_Version fr_ID fr_Result option_fmap option_map].
    rewrite Hj, bool_decide_eq_true_2 by done. cbn [negb orb Z.eqb ProtocolVersion Pos.eqb].
    unfold json_result, without_output.
    cbn [rs_Version rs_ID rs_ExitCode rs_Stdout rs_Stderr rs_Error]. by rewrite Hid, Hj.
  - unfold stream_text. rewrite flat_map_app. fold (stream_text "stdout").
    change (stream_text "stdout" (frame_of (rq_ID req) "stdout" <$> ch1) ++
            stream_text "stdout" (frame_of (rq_ID req) "stderr" <$> ch2) = bytes (rs_Stdout result)).
    rewrite stream_text_same, stream_text_other by done. by rewrite app_nil_r.
  - unfold stream_text. rewrite flat_map_app.
    change (stream_text "stderr" (frame_of (rq_ID req) "stdout" <$> ch1) ++
            stream_text "stderr" (frame_of (rq_ID req) "stderr" <$> ch2) = bytes (rs_Stderr result)).
    by rewrite stream_text_other, stream_text_same.
Qed.

Definition wide_stdout : string := of_bytes (repeat 97 (Z.to_nat 65535) ++ [195; 169]).
Definition wide_result : ExecResult := mkExecResult ProtocolVersion "s" 0 wide_stdout "" None.
Definition quiet_conn : Conn := mkConn (Some HostCID) (Err EOF) [] None.
Definition true_request : ExecRequest := mkExecRequest ProtocolVersion "s" "true" [] ∅ 0 true.
Definition wide_stream : result ExecResult * list ExecFrame :=
  ExecStream (peer_of (streamResult wide_result quiet_conn)) true_request (Some collect) [].

(** Output that is valid UTF-8 but not ASCII can be cut inside a character
    at a frame boundary; the lone byte is replaced by three on the wire, the
    frame then exceeds the limit that the host checks, and the whole
    execution is reported as failed, its output lost. *)
Theorem character_cut_at_frame_boundary :
  ValidString wide_stdout = true ∧ request_ok true_request ∧
  wide_stream = (Err (Errorf "invalid execution output frame" []), []).
Proof.
  split; [vm_compute; reflexivity|]. split; [by apply Validate_iff|vm_compute; reflexivity].
Qed.

(** ** A simulated guest *)

Record SimGuest := mkSimGuest {
  sg_files : gmap string string;
  sg_procs : gset Z;
  sg_rlimits : gmap (Z * Z) (Z * Z);
  sg_mounts : gset string;
  sg_pivoted : bool;
  sg_broken : gset string;          (** names of the operations that fail *)
  sg_groups : gset string;          (** directories of control groups *)
  sg_members : gmap Z string;       (** the group of a process *)
  sg_seed : Z;                      (** the next random byte *)
}.
Definition sg_empty : SimGuest := mkSimGuest ∅ ∅ ∅ ∅ false ∅ ∅ ∅ 0.
Definition sg_op {A} (op : string) (f : SimGuest → result A * SimGuest) : ST SimGuest A :=
  λ w, if bool_decide (op ∈ sg_broken w) then (Err (Errorf op []), w) else f w.
Definition sg_set_files (f : gmap string string) (w : SimGuest) : SimGuest :=
  mkSimGuest f (sg_procs w) (sg_rlimits w) (sg_mounts w) (sg_pivoted w) (sg_broken w) (sg_groups w) (sg_members w) (sg_seed w).
Definition sg_set_procs (x : gset Z) (w : SimGuest) : SimGuest :=
  mkSimGuest (sg_files w) x (sg_rlimits w) (sg_mounts w) (sg_pivoted w) (sg_broken w) (sg_groups w) (sg_members w) (sg_seed w).
Definition sg_set_rlimits (x : gmap (Z * Z) (Z * Z)) (w : SimGuest) : SimGuest :=
  mkSimGuest (sg_files w) (sg_procs w) x (sg_mounts w) (sg_pivoted w) (sg_broken w) (sg_groups w) (sg_members w) (sg_seed w).
Definition sg_set_mounts (m : gset string) (w : SimGuest) : SimGuest :=
  mkSimGuest (sg_files w) (sg_procs w) (sg_rlimits w) m (sg_pivoted w) (sg_broken w) (sg_groups w) (sg_members w) (sg_seed w).
Definition sg_set_pivoted (x : bool) (w : SimGuest) : SimGuest :=
  mkSimGuest (sg_files w) (sg_procs w) (sg_rlimits w) (sg_mounts w) x (sg_broken w) (sg_groups w) (sg_members w) (sg_seed w).
Definition sg_set_broken (x : gset string) (w : SimGuest) : SimGuest :=
  mkSimGuest (sg_files w) (sg_procs w) (sg_rlimits w) (sg_mounts w) (sg_pivoted w) x (sg_groups w) (sg_members w) (sg_seed w).
Definition sg_set_groups (x : gset string) (w : SimGuest) : SimGuest :=
  mkSimGuest (sg_files w) (sg_procs w) (sg_rlimits w) (sg_mounts w) (sg_pivoted w) (sg_broken w) x (sg_members w) (sg_seed w).
Definition sg_set_members (x : gmap Z string) (w : SimGuest) : SimGuest :=
  mkSimGuest (sg_files w) (sg_procs w) (sg_rlimits w) (sg_mounts w) (sg_pivoted w) (sg_broken w) (sg_groups w) x (sg_seed w).
Definition sg_set_seed (x : Z) (w : SimGuest) : SimGuest :=
  mkSimGuest (sg_files w) (sg_procs w) (sg_rlimits w) (sg_mounts w) (sg_pivoted w) (sg_broken w) (sg_groups w) (sg_members w) x.

#[export] Instance sim_guest : GuestOS SimGuest := {
  g_Environ _ := ["PATH=/bin"];
  g_ReadFile p := sg_op "ReadFile" (λ w,
    match sg_files w !! p with Some d => (Ok d, w) | None => (Err (Errorf "ENOENT" []), w) end);
  g_WriteFile p d := sg_op "WriteFile" (λ w, (Ok tt, sg_set_files (<[p := d]> (sg_files w)) w));
  g_MkdirAll p := sg_op "MkdirAll" (λ w, (Ok tt, w));
  g_Mkdir p := sg_op "Mkdir" (λ w,
    if bool_decide (p ∈ sg_groups w) then (Err (Errorf "EEXIST" []), w)
    else (Ok tt, sg_set_groups ({[p]} ∪ sg_groups w) w));
  g_Remove p w := (Removed, sg_set_groups (sg_groups w ∖ {[p]}) w);
  g_Open p := sg_op "Open" (λ w, (Ok tt, w));
  g_Random n := sg_op "Random" (λ w, (Ok (repeat (sg_seed w) n), sg_set_seed ((sg_seed w + 1) mod 256) w));
  g_Start c := sg_op "Start" (λ w,
    let pid := 1 + set_fold Z.max 0 (sg_procs w) in
    if bool_decide (pid ∈ sg_procs w) then (Err (Errorf "EAGAIN" []), w)
    else (Ok pid,
          sg_set_files (<["/proc/" +:+ Itoa pid +:+ "/cgroup" := "0::/shiyao/" +:+ Base (cmd_cgroup c)]> (sg_files w))
            (sg_set_members (<[pid := cmd_cgroup c]> (sg_members w)) (sg_set_procs ({[pid]} ∪ sg_procs w) w))));
  g_KillAndReap pid w := sg_set_procs (sg_procs w ∖ {[pid]}) w;
  g_Wait pid timeout w := (mkCmdRun [[104; 105]] [] None WaitNil, sg_set_procs (sg_procs w ∖ {[pid]}) w);
  g_SetRlimit pid res v := sg_op "SetRlimit" (λ w, (Ok tt, sg_set_rlimits (<[(pid, res) := (v, v)]> (sg_rlimits w)) w));
  g_GetRlimit pid res := sg_op "GetRlimit" (λ w, (Ok (default (0, 0) (sg_rlimits w !! (pid, res))), w));
  g_Mount s t k := sg_op ("Mount " +:+ k) (λ w, (Ok tt, sg_set_mounts ({[t]} ∪ sg_mounts w) w));
  g_MoveMount s t := sg_op "MoveMount" (λ w, (Ok tt, w));
  g_Unmount t w :=
    if bool_decide (t ∈ sg_mounts w) then (Ok tt, sg_set_mounts (sg_mounts w ∖ {[t]}) w)
    else (Err (Errorf "invalid argument" []), w);
  g_PivotRoot n o := sg_op "PivotRoot" (λ w, (Ok tt, sg_set_pivoted true w));
  g_Chdir p := sg_op "Chdir" (λ w, (Ok tt, w));
  g_Stat p w := (Ok (Some true), w);
}.

#[export, refine] Instance sim_guest_laws : GuestLaws SimGuest := {
  procs := sg_procs;
  prlimit w pid res := default (0, 0) (sg_rlimits w !! (pid, res));
  mounts := sg_mounts;
  pivoted := sg_pivoted;
}.
Proof.
  all: cbn; unfold sg_op; intros.
  all: repeat (case_bool_decide || case_match); simplify_eq/=; try done; try (split_and!; done).
Defined.

(** A whole request served by the simulated guest. *)
Example serve_sim :
  (serve cgroup_settings cgroup_settings
     (mkConn (Some HostCID) (Ok (MsgRequest (mkExecRequest 1 "s" "echo" ["hi"] ∅ 0 false))) [] None)
     (0, sg_empty)).1 =
  mkConn (Some HostCID) (Ok (MsgRequest (mkExecRequest 1 "s" "echo" ["hi"] ∅ 0 false)))
    [MsgResult (mkExecResult 1 "s" 0 "hi" "" None)] None.
Proof. vm_compute. reflexivity. Qed.

(** ** The theorems on the simulated guest *)

Definition echo_cmd : string → Command := mkCommand "/bin/echo" ["hi"] [].
Definition echo_started : result (Z * string) * SimGuest :=
  startWithResourceLimits cgroup_settings cgroup_settings echo_cmd sg_empty.
Lemma command_is_confined_witness :
  is_ok echo_started.1 = true ∧
  match echo_started.1 with
  | Ok (pid, _) => prlimit echo_started.2 pid RLIMIT_NOFILE = (guestNoFileMax, guestNoFileMax)
  | Err _ => True
  end.
Proof.
  split; [vm_compute; reflexivity|].
  pose proof (command_is_confined cgroup_settings cgroup_settings echo_cmd sg_empty
                echo_started.1 echo_started.2 (surjective_pairing _)) as Hc.
  destruct echo_started.1 as [[pid path]|e]; [|done]. destruct Hc as (_ & _ & Hl). apply Hl.
  unfold rlimits. set_solver.
Defined.

(** The second overlay mount fails. *)
Definition sg_no_overlay : SimGuest := sg_set_broken {["Mount overlay"]} sg_empty.
Lemma rootfs_failure_before_pivot_witness :
  is_ok (setupEphemeralRootfs sg_no_overlay).1 = false ∧ mounts (setupEphemeralRootfs sg_no_overlay).2 = ∅.
Proof.
  destruct (setupEphemeralRootfs sg_no_overlay) as [[[]|e] w'] eqn:E; [by vm_compute in E|].
  split; [done|].
  pose proof (rootfs_failure_before_pivot sg_no_overlay e w') as Hm. cbn [snd].
  change (mounts w' = mounts sg_no_overlay).
  apply Hm; [|by vm_compute|by vm_compute|done|done|].
  { intros t w1 Ht. cbn. by rewrite bool_decide_eq_true_2. }
  change w' with (@Err () e, w').2. rewrite <- E. vm_compute. reflexivity.
Defined.

Definition echo_conn : Conn :=
  mkConn (Some HostCID) (Ok (MsgRequest (mkExecRequest 1 "s" "echo" ["hi"] ∅ 0 false))) [] None.
Lemma only_the_host_runs_commands_witness :
  c_remote echo_conn = Some HostCID ∧ 0 < MaxConcurrentCommands.
Proof.
  destruct (only_the_host_runs_commands cgroup_settings cgroup_settings echo_conn (0, sg_empty)
    (serve cgroup_settings cgroup_settings echo_conn (0, sg_empty)).1
    (serve cgroup_settings cgroup_settings echo_conn (0, sg_empty)).2 (surjective_pairing _)) as (Hr & Hs & _).
  - intros E. apply (f_equal (λ s, size (sg_files s.2))) in E. vm_compute in E. done.
  - done.
Defined.

Lemma streamed_output_arrives_witness :
  ∃ frames, ExecStream (peer_of (streamResult (mkExecResult ProtocolVersion "s" 0 "out" "err" None) quiet_conn))
              true_request (Some collect) [] = (Ok (mkExecResult ProtocolVersion "s" 0 "" "" None), frames) ∧
    stream_text "stdout" frames = bytes "out" ∧ stream_text "stderr" frames = bytes "err".
Proof.
  apply (streamed_output_arrives (mkExecResult ProtocolVersion "s" 0 "out" "err" None) quiet_conn true_request);
    try (vm_compute; reflexivity). apply Validate_iff. vm_compute. reflexivity.
Defined.
