(* ===== verification/GuestServer.v ===== *)
(** * cmd/guest-agent: many connections at once

    [run] accepts connections and starts a goroutine [serve] for each; the
    goroutines share the channel [commandSlots] and the guest.  Each goroutine
    is a thread with a phase, and the scheduler picks any thread next. *)

From S2P Require Import Prelude GoStrings GoNet Network Host Vsock GuestAgent.
Open Scope Z_scope.

(** ** The parts of serve between the points where others may run *)

(** Where a goroutine is: before the request is read; before the [select] on
    [commandSlots]; with a slot; with a control group for the command; with a
    started process whose membership is not verified yet, whose limits are
    not applied yet, or not verified yet; waiting for the command; with a
    result; done. *)
Inductive Thread :=
  | Accepted (c : Conn)
  | Ready (c : Conn) (req : ExecRequest)
  | Holding (c : Conn) (req : ExecRequest)
  | Prepared (c : Conn) (req : ExecRequest) (cmd : string → Command) (path : string)
  | Started (c : Conn) (req : ExecRequest) (pid : Z) (path : string)
  | Grouped (c : Conn) (req : ExecRequest) (pid : Z) (path : string)
  | Limited (c : Conn) (req : ExecRequest) (pid : Z) (path : string)
  | Running (c : Conn) (req : ExecRequest) (pid : Z) (path : string)
  | Finished (c : Conn) (req : ExecRequest) (r : ExecResult)
  | Closed (c : Conn).

Definition reply (c : Conn) (req : ExecRequest) (r : ExecResult) : Conn :=
  if rq_Stream req then streamResult r c else (send (MsgResult r) c).2.

(** Authorization, decoding and validation. *)
Definition begin_serve (c : Conn) : Thread :=
  if negb (authorizedHost c) then Closed (sendError (Errorf "unauthorized vsock peer" []) c)
  else
    match (match c_in c with Ok m => decode_request m | Err e => Err e end) with
    | Err e => Closed (sendError (Errorf "decode request: %w" [e]) c)
    | Ok req =>
        match rq_Validate req with
        | Err e => Finished c req (failed_result (rq_ID req) e)
        | Ok _ => Ready c req
        end
    end.

(** The [select] with a default. *)
Definition acquire (c : Conn) (req : ExecRequest) (slots : Z) : Thread * Z :=
  if slots <? MaxConcurrentCommands then (Holding c req, slots + 1)
  else (Finished c req (failed_result (rq_ID req) (Errorf "guest command concurrency limit reached" [])), slots).

Section Server.
Context {G : Type} `{GuestOS G}.
Context (order1 order2 : list (string * string)).

(** The steps of [startWithResourceLimits]; on a failure the deferred receive
    frees the slot. *)
Definition command_failed (c : Conn) (req : ExecRequest) (what : string) (e : error) (slots : Z) (w : G) : Thread * (Z * G) :=
  (Finished c req (failed_result (rq_ID req) (Errorf what [e])), (slots - 1, w)).

Definition prepare_command (c : Conn) (req : ExecRequest) (s : Z * G) : Thread * (Z * G) :=
  let '(slots, w) := s in
  let '(preset, w) := loadPresetEnv w in
  let env := preset ++ ((λ '(k, v), k +:+ "=" +:+ v) <$> map_to_list (rq_Env req)) in
  match prepareCgroup order1 order2 w with
  | (Err e, w) => command_failed c req "prepare cgroup: %w" e slots w
  | (Ok path, w) => (Prepared c req (mkCommand (rq_Command req) (rq_Args req) env) path, (slots, w))
  end.
(** From here on the process runs, in its group. *)
Definition start_command (c : Conn) (req : ExecRequest) (cmd : string → Command) (path : string) (s : Z * G)
  : Thread * (Z * G) :=
  let '(slots, w) := s in
  match g_Start (cmd path) w with
  | (Err e, w) => command_failed c req "start command: %w" e slots (cleanupCgroup path w).2
  | (Ok pid, w) => (Started c req pid path, (slots, w))
  end.
(** A check or a change that kills the command when it fails. *)
Definition guard_command (c : Conn) (req : ExecRequest) (pid : Z) (path : string) (what : string) (f : ST G unit)
    (next : Thread) (s : Z * G) : Thread * (Z * G) :=
  let '(slots, w) := s in
  match f w with
  | (Err e, w) => command_failed c req what e slots (abandon pid path w)
  | (Ok _, w) => (next, (slots, w))
  end.

(** From the end of the command to the return of [execute]. *)
Definition end_command (c : Conn) (req : ExecRequest) (pid : Z) (path : string) (s : Z * G) : Thread * (Z * G) :=
  let '(slots, w) := s in
  let timeout := if 0 <? rq_TimeoutMS req then Some (int64 (rq_TimeoutMS req * Millisecond)) else None in
  let '(run, w) := g_Wait pid timeout w in
  let '(r, w) := cleanupCgroup path w in
  (Finished c req (finish (rq_ID req) run r), (slots - 1, w)).

(** One step of one goroutine. *)
Definition thread_step (t : Thread) (s : Z * G) : Thread * (Z * G) :=
  match t with
  | Accepted c => (begin_serve c, s)
  | Ready c req => let '(t, slots) := acquire c req s.1 in (t, (slots, s.2))
  | Holding c req => prepare_command c req s
  | Prepared c req cmd path => start_command c req cmd path s
  | Started c req pid path =>
      guard_command c req pid path "verify cgroup limits: %w" (verifyCgroupForProcess pid path) (Grouped c req pid path) s
  | Grouped c req pid path =>
      guard_command c req pid path "apply process limits: %w" (applyRlimits pid) (Limited c req pid path) s
  | Limited c req pid path =>
      guard_command c req pid path "verify process limits: %w" (verifyRlimits pid) (Running c req pid path) s
  | Running c req pid path => end_command c req pid path s
  | Finished c req r => (Closed (reply c req r), s)
  | Closed c => (Closed c, s)
  end.

Definition run_thread (t : Thread) (s : Z * G) : Thread * (Z * G) :=
  Nat.iter 9 (λ '(t, s), thread_step t s) (t, s).

(** A goroutine that runs alone is [serve]. *)
Lemma thread_is_serve c s :
  run_thread (Accepted c) s = let '(c', s') := serve order1 order2 c s in (Closed c', s').
Proof.
  destruct s as [slots w]. unfold run_thread. cbn [Nat.iter nat_rect thread_step].
  unfold begin_serve, serve. destruct (negb (authorizedHost c)); [done|].
  destruct (match c_in c with Ok m => _ | Err e => _ end) as [req|e]; [|done].
  unfold execute. destruct (rq_Validate req) as [u|e]; cbn [thread_step].
  2: { unfold reply. by destruct (rq_Stream req). }
  unfold acquire. cbn [fst snd]. destruct (slots <? MaxConcurrentCommands); cbn [thread_step].
  2: { unfold reply. by destruct (rq_Stream req). }
  unfold prepare_command, run_request, startWithResourceLimits. destruct (loadPresetEnv w) as [preset w1].
  destruct (prepareCgroup order1 order2 w1) as [[path|e] w2]; cbn [thread_step command_failed].
  2: { unfold reply. by destruct (rq_Stream req). }
  unfold start_command. destruct (g_Start _ w2) as [[pid|e] w3]; cbn [thread_step command_failed].
  2: { unfold reply. by destruct (rq_Stream req). }
  unfold guard_command. destruct (verifyCgroupForProcess pid path w3) as [[u3|e] w4]; cbn [thread_step command_failed].
  2: { unfold reply. by destruct (rq_Stream req). }
  unfold guard_command. destruct (applyRlimits pid w4) as [[u4|e] w5]; cbn [thread_step command_failed].
  2: { unfold reply. by destruct (rq_Stream req). }
  unfold guard_command. destruct (verifyRlimits pid w5) as [[u5|e] w6]; cbn [thread_step command_failed].
  2: { unfold reply. by destruct (rq_Stream req). }
  unfold end_command. destruct (g_Wait pid _ w6) as [run w7]. destruct (cleanupCgroup path w7) as [r w8]; cbn [thread_step].
  unfold reply. by destruct (rq_Stream req).
Qed.

(** ** The server *)

Record Server := mkServer { sv_slots : Z; sv_guest : G; sv_threads : gmap nat Thread }.

(** [run] up to its loop: [listen] is the answer of [vsock.Listen]. *)
Definition boot (listen : result unit) (w : G) : result Server * G :=
  match setupEphemeralRootfs w with
  | (Err e, w) => (Err e, w)
  | (Ok _, w) =>
      match listen with
      | Err e => (Err (Errorf "listen on guest vsock port %d: %w" [e]), w)
      | Ok _ => (Ok (mkServer 0 w ∅), w)
      end
  end.

(** [Accept] starts a goroutine; one of the goroutines moves on. *)
Inductive server_step : Server → Server → Prop :=
  | sv_accept k c sv :
      sv_threads sv !! k = None →
      server_step sv (mkServer (sv_slots sv) (sv_guest sv) (<[k := Accepted c]> (sv_threads sv)))
  | sv_move k t t' slots w sv :
      sv_threads sv !! k = Some t → thread_step t (sv_slots sv, sv_guest sv) = (t', (slots, w)) →
      server_step sv (mkServer slots w (<[k := t']> (sv_threads sv))).
End Server.

(** ** What the kernel keeps apart *)

Definition control_file (path name : string) : string := path +:+ "/" +:+ name.
Definition setting_names : list string := cgroup_settings.*1.

(** The limits of a process are its own, a command that was waited for is
    gone, and a control group is a directory with files that only writing
    them changes.  [groups] are the directories, [group_of] is the group of a
    process, [limit_of] the text of a control file. *)
Class GuestProcesses (G : Type) `{GuestLaws G} := {
  groups : G → gset string;
  group_of : G → Z → string;
  limit_of : G → string → string → string;
  (** what an operation leaves alone, apart from the groups [P] and processes [Q] *)
  kept (P : gset string) (Q : gset Z) (w w' : G) : Prop :=
    groups w ∖ P ⊆ groups w' ∧ procs w ∖ Q ⊆ procs w' ∧
    (∀ path name, path ∈ groups w → path ∉ P → name ∈ setting_names → limit_of w' path name = limit_of w path name) ∧
    (∀ pid, pid ∈ procs w → pid ∉ Q → group_of w' pid = group_of w pid);
  Wait_law pid timeout (w : G) run w' : g_Wait pid timeout w = (run, w') →
    procs w' = procs w ∖ {[pid]} ∧ (∀ p res, p ≠ pid → prlimit w' p res = prlimit w p res) ∧ kept ∅ {[pid]} w w';
  Start_frame c (w : G) r w' : g_Start c w = (r, w') →
    (∀ p res, p ∈ procs w → prlimit w' p res = prlimit w p res) ∧ kept ∅ ∅ w w' ∧
    match r with Ok pid => group_of w' pid = cmd_cgroup c | Err _ => True end;
  Reap_frame pid (w : G) :
    (∀ p res, p ≠ pid → prlimit (g_KillAndReap pid w) p res = prlimit w p res) ∧ kept ∅ {[pid]} w (g_KillAndReap pid w);
  SetRlimit_frame pid res v (w : G) r w' : g_SetRlimit pid res v w = (r, w') →
    (∀ p res', p ≠ pid → prlimit w' p res' = prlimit w p res') ∧ kept ∅ ∅ w w';
  GetRlimit_kept pid res (w : G) r w' : g_GetRlimit pid res w = (r, w') → kept ∅ ∅ w w';
  MkdirAll_kept p (w : G) r w' : g_MkdirAll p w = (r, w') → kept ∅ ∅ w w';
  Random_kept n (w : G) r w' : g_Random n w = (r, w') → kept ∅ ∅ w w';
  Open_kept p (w : G) r w' : g_Open p w = (r, w') → kept ∅ ∅ w w';
  ReadFile_kept p (w : G) r w' : g_ReadFile p w = (r, w') → kept ∅ ∅ w w' ∧
    ∀ path name d, r = Ok d → p = control_file path name → name ∈ setting_names → limit_of w path name = d;
  Mkdir_kept p (w : G) r w' : g_Mkdir p w = (r, w') → kept ∅ ∅ w w' ∧ (is_ok r = true → p ∉ groups w ∧ p ∈ groups w');
  Remove_kept p (w : G) r w' : g_Remove p w = (r, w') → kept {[p]} ∅ w w';
  WriteFile_kept p d (w : G) r w' : g_WriteFile p d w = (r, w') →
    groups w ⊆ groups w' ∧ (∀ pid, group_of w' pid = group_of w pid) ∧
    ∀ path name, name ∈ setting_names → p ≠ control_file path name → limit_of w' path name = limit_of w path name;
}.

(** ** Invariants *)

(** The process of a goroutine, with its request and control group. *)
Definition process (t : Thread) : option (Conn * ExecRequest * Z * string) :=
  match t with
  | Started c req pid path | Grouped c req pid path | Limited c req pid path | Running c req pid path =>
      Some (c, req, pid, path)
  | _ => None
  end.
Definition pids (t : Thread) : gset Z := match process t with Some (_, _, pid, _) => {[pid]} | None => ∅ end.
Definition paths (t : Thread) : gset string :=
  match t, process t with
  | Prepared _ _ _ path, _ => {[path]}
  | _, Some (_, _, _, path) => {[path]}
  | _, None => ∅
  end.
Definition has_process (t : Thread) : bool := bool_decide (is_Some (process t)).
Definition holds_slot (t : Thread) : bool :=
  match t with Holding _ _ | Prepared _ _ _ _ => true | _ => has_process t end.

(** The host sent the request, and it is within the limits of the protocol. *)
Definition asked (c : Conn) (req : ExecRequest) : Prop :=
  c_remote c = Some HostCID ∧ request_ok req ∧ ∃ m, c_in c = Ok m ∧ decode_request m = Ok req.

Section Frames.
Context {G : Type} `{GuestProcesses G}.

(** The control group has the memory, process and CPU limits of the agent. *)
Definition bounded (w : G) (path : string) : Prop :=
  path ∈ groups w ∧ ∀ name value, (name, value) ∈ cgroup_settings → TrimSpace (limit_of w path name) = value.
(** The process has its CPU time, file size and open files limits. *)
Definition confined (w : G) (pid : Z) : Prop := ∀ res v, (res, v) ∈ rlimits → prlimit w pid res = (v, v).
Definition thread_ok (w : G) (t : Thread) : Prop :=
  match t with
  | Ready c req | Holding c req => asked c req
  | Prepared c req cmd path => asked c req ∧ bounded w path ∧ cmd_cgroup (cmd path) = path
  | Started c req pid path | Grouped c req pid path | Limited c req pid path =>
      asked c req ∧ bounded w path ∧ group_of w pid = path
  | Running c req pid path => (asked c req ∧ bounded w path ∧ group_of w pid = path) ∧ confined w pid
  | _ => True
  end.

#[export] Instance kept_preorder P Q : PreOrder (kept (G := G) P Q).
Proof.
  split; [intros w; split_and!; set_solver|]. intros a b c (g1 & p1 & l1 & m1) (g2 & p2 & l2 & m2). split_and!.
  - set_solver.
  - set_solver.
  - intros path name Hp Hn Hs. rewrite l2; [by apply l1| |done|done]. set_solver.
  - intros pid Hp Hn. rewrite m2; [by apply m1| |done]. set_solver.
Qed.
Lemma kept_mono P P' Q Q' (w w' : G) : P ⊆ P' → Q ⊆ Q' → kept P Q w w' → kept P' Q' w w'.
Proof. intros HP HQ (g & p & l & m). split_and!; [set_solver|set_solver| |]; intros; [apply l|apply m]; set_solver. Qed.

Lemma kept_any P Q (w w' : G) : kept ∅ ∅ w w' → kept P Q w w'.
Proof. apply kept_mono; set_solver. Qed.

Definition keeping {A} (f : ST G A) : Prop := ∀ w r w', f w = (r, w') → kept ∅ ∅ w w'.
Lemma keeping_each {A} (f : A → ST G unit) l : (∀ x, keeping (f x)) → keeping (each f l).
Proof.
  intros Hf. induction l as [|x l IH]; intros w r w'; cbn [each]; [by intros [= <- <-]|].
  destruct (f x w) as [[u|e] w1] eqn:E; apply Hf in E; [|by intros [= <- <-]].
  intros E2%IH. by etransitivity.
Qed.

Lemma kept_fresh p Q (w w' : G) : p ∉ groups w → kept {[p]} Q w w' → kept ∅ Q w w'.
Proof.
  intros Hp (g & q & l & m). split_and!; [set_solver|done| |done].
  intros path name Hpath _ Hn. apply l; [done| |done]. set_solver.
Qed.

(** Control files of different groups are different files. *)
Lemma control_file_inj path path' name name' :
  name ∈ setting_names → name' ∈ setting_names → control_file path name = control_file path' name' → path = path'.
Proof.
  assert (∀ x, x ∈ setting_names → x = "memory.max" ∨ x = "pids.max" ∨ x = "cpu.max") as Hn.
  { intros x Hx. unfold setting_names in Hx. cbn in Hx. set_solver. }
  intros Ha%Hn Hb%Hn E. apply (f_equal (λ x, rev (bytes x))) in E. unfold control_file in E.
  rewrite !bytes_app, !rev_app_distr in E.
  destruct Ha as [ -> | [ -> | -> ]], Hb as [ -> | [ -> | -> ]]; cbn in E; simplify_eq;
    by apply bytes_inj, rev_inj.
Qed.

Lemma ReadFile_keeping p : keeping (g_ReadFile (G := G) p).
Proof. intros w r w' E. by apply ReadFile_kept in E as [? _]. Qed.
Lemma loadPresetEnv_kept (w : G) : g_same w (loadPresetEnv w).2 ∧ kept ∅ ∅ w (loadPresetEnv w).2.
Proof.
  unfold loadPresetEnv. destruct (g_ReadFile _ w) as [r w1] eqn:E. pose proof (ReadFile_keeping _ _ _ _ E).
  apply ReadFile_same in E. by destruct r.
Qed.
Lemma verifyCgroupFiles_spec order path (w : G) r w' :
  (∀ x, x ∈ order → x.1 ∈ setting_names) → verifyCgroupFiles order path w = (r, w') →
  kept ∅ ∅ w w' ∧ (is_ok r = true → path ∈ groups w →
    ∀ name value, (name, value) ∈ order → TrimSpace (limit_of w path name) = value).
Proof.
  unfold verifyCgroupFiles. induction order as [|[n v] order IH] in w |- *; intros Hnames; cbn [each].
  - intros [= <- <-]. split; [done|]. intros _ _ ? ? []%elem_of_nil.
  - destruct (g_ReadFile _ w) as [[got|e] w1] eqn:E; apply ReadFile_kept in E as [Hk Hx]; [|by intros [= <- <-]].
    assert (n ∈ setting_names) as Hn by (apply (Hnames (n, v)); left).
    case_bool_decide as Hv; cbn [negb]; [|by intros [= <- <-]]. intros E2.
    destruct (IH w1 ltac:(intros; apply Hnames; by right) E2) as [Hk2 Hall]. split; [by etransitivity|].
    intros Hok Hp name value [[= -> ->]|Hin]%elem_of_cons; [by rewrite (Hx path n got eq_refl eq_refl Hn)|].
    destruct Hk as (Hg & _ & Hl & _). rewrite <- (Hall Hok ltac:(set_solver) name value Hin).
    symmetry. f_equal. apply Hl; [done|set_solver|]. apply (Hnames (name, value)). by right.
Qed.
Lemma write_settings_kept order path (w : G) r w' :
  (∀ x, x ∈ order → x.1 ∈ setting_names) →
  each (λ '(setting, value), g_WriteFile (path +:+ "/" +:+ setting) value) order w = (r, w') →
  kept {[path]} ∅ w w' ∧ groups w ⊆ groups w'.
Proof.
  induction order as [|[n v] order IH] in w |- *; intros Hnames; cbn [each]; [by intros [= <- <-]|].
  destruct (g_WriteFile _ v w) as [r1 w1] eqn:E. pose proof (WriteFile_same _ _ _ _ _ E) as (Hp1 & _).
  apply WriteFile_kept in E as (Hg & Hm & Hl).
  assert (n ∈ setting_names) as Hn by (apply (Hnames (n, v)); left).
  assert (kept {[path]} ∅ w w1) as Hk.
  { split_and!; [set_solver|set_solver| |done]. intros q name _ Hq Hname. apply Hl; [done|].
    intros Eq%control_file_inj; set_solver. }
  destruct r1 as [u|e]; [|by intros [= <- <-]]. intros E2.
  destruct (IH w1 ltac:(intros; apply Hnames; by right) E2) as [Hk2 Hg2]. split; [by etransitivity|set_solver].
Qed.

Lemma cleanupCgroup_kept path (w : G) : kept {[path]} ∅ w (cleanupCgroup path w).2.
Proof. unfold cleanupCgroup. destruct (g_Remove path w) as [o w1] eqn:E. apply Remove_kept in E. by destruct o. Qed.
Lemma discard_kept path (w : G) : kept {[path]} ∅ w (discard_cgroup path w).
Proof. unfold discard_cgroup. destruct (g_Remove path w) as [o w1] eqn:E. by apply Remove_kept in E. Qed.

(** A group is made for the command alone, with the limits in place. *)
Lemma prepareCgroup_spec order1 order2 (w : G) r w' :
  order1 ≡ₚ cgroup_settings → order2 ≡ₚ cgroup_settings → prepareCgroup order1 order2 w = (r, w') →
  kept ∅ ∅ w w' ∧ ∀ path, r = Ok path → path ∉ groups w ∧ bounded w' path.
Proof.
  intros Ho1 Ho2. unfold prepareCgroup.
  assert (∀ order, order ≡ₚ cgroup_settings → ∀ x : string * string, x ∈ order → x.1 ∈ setting_names) as Hnames.
  { intros order Ho x Hx. rewrite Ho in Hx. by apply list_elem_of_fmap_2. }
  destruct (g_MkdirAll _ w) as [[u|e] w1] eqn:E1; apply MkdirAll_kept in E1; [|by intros [= <- <-]].
  destruct (g_WriteFile _ _ w1) as [r2 w2] eqn:E2. pose proof (WriteFile_same _ _ _ _ _ E2) as (Hp2 & _).
  apply WriteFile_kept in E2 as (Hg2 & Hm2 & Hl2).
  assert (kept ∅ ∅ w w2) as Hk2.
  { etransitivity; [exact E1|]. split_and!; [set_solver|set_solver| |done]. intros path name _ _ Hn. apply Hl2; [done|].
    intros Eq. apply (f_equal (λ x, rev (bytes x))) in Eq. unfold control_file in Eq. rewrite !bytes_app, !rev_app_distr in Eq.
    unfold setting_names in Hn. cbn in Hn. apply elem_of_cons in Hn as [ -> |[ -> |[ -> |[]%elem_of_nil]%elem_of_cons]%elem_of_cons];
      by cbn in Eq. }
  clear E1 Hg2 Hm2 Hl2 Hp2. destruct r2 as [u2|e]; [|by intros [= <- <-]].
  unfold randomCgroupName, st_bind, st_ret.
  destruct (g_Random 16 w2) as [[b|e] w3] eqn:E3; apply Random_kept in E3; rewrite E3 in Hk2; [|by intros [= <- <-]].
  set (path := guestCgroupRoot +:+ _). destruct (g_Mkdir path w3) as [r4 w4] eqn:E4.
  apply Mkdir_kept in E4 as [Hk4 Hnew]. destruct r4 as [u4|e]; [|intros [= <- <-]; by split; [etransitivity|]].
  destruct (Hnew eq_refl) as [Hfresh Hin4]. clear Hnew.
  assert (path ∉ groups w) as Hfresh0 by (destruct Hk2 as [Hg _]; set_solver).
  assert (∀ v, kept {[path]} ∅ w4 v → kept ∅ ∅ w v) as Hend.
  { intros v Hv. apply (kept_fresh path); [done|]. etransitivity; [exact (kept_any {[path]} ∅ _ _ Hk2)|].
    etransitivity; [exact (kept_any {[path]} ∅ _ _ Hk4)|done]. }
  destruct (each _ order1 w4) as [r5 w5] eqn:E5.
  apply write_settings_kept in E5 as [Hk5 Hg5]; [|by apply Hnames].
  destruct r5 as [u5|e]; [|intros [= <- <-]; split; [apply Hend; etransitivity; [exact Hk5|apply discard_kept]|done]].
  destruct (verifyCgroupFiles order2 path w5) as [r6 w6] eqn:E6.
  apply verifyCgroupFiles_spec in E6 as [Hk6 Hver]; [|by apply Hnames].
  pose proof (kept_any {[path]} ∅ _ _ Hk6) as Hk6'.
  destruct r6 as [u6|e].
  2: { intros [= <- <-]. split; [|done]. apply Hend. rewrite Hk5, Hk6'. apply discard_kept. }
  destruct (g_Open path w6) as [r7 w7] eqn:E7. apply Open_kept in E7.
  pose proof (kept_any {[path]} ∅ _ _ E7) as Hk7'.
  destruct r7 as [u7|e].
  2: { intros [= <- <-]. split; [|done]. apply Hend. rewrite Hk5, Hk6', Hk7'. apply discard_kept. }
  intros [= <- <-]. split; [apply Hend; by rewrite Hk5, Hk6', Hk7'|]. intros path' [= <-]. split; [done|].
  assert (kept ∅ ∅ w5 w7) as (Hg & _ & Hl & _) by by rewrite Hk6, E7. split; [set_solver|].
  intros name value Hin. rewrite <- Ho2 in Hin. rewrite <- (Hver eq_refl ltac:(set_solver) name value Hin). f_equal.
  apply Hl; [set_solver|set_solver|]. by apply (Hnames order2 Ho2 (name, value)).
Qed.

Lemma abandon_kept pid path (w : G) : kept {[path]} {[pid]} w (abandon pid path w).
Proof.
  unfold abandon. etransitivity.
  - apply (kept_mono ∅ _ {[pid]}); [set_solver|done|apply Reap_frame].
  - apply (kept_mono {[path]} _ ∅); [done|set_solver|apply cleanupCgroup_kept].
Qed.
Lemma abandon_frame pid path (w : G) p res : p ≠ pid → prlimit (abandon pid path w) p res = prlimit w p res.
Proof.
  intros Hp. unfold abandon. destruct (cleanupCgroup_same path (g_KillAndReap pid w)) as (_ & -> & _).
  by apply Reap_frame.
Qed.
Lemma verifyCgroupForProcess_kept pid path : keeping (verifyCgroupForProcess (G := G) pid path).
Proof.
  intros w r w'. unfold verifyCgroupForProcess.
  destruct (g_ReadFile _ w) as [[d|e] w1] eqn:E; apply ReadFile_keeping in E;
    [destruct (negb _)|]; by intros [= <- <-].
Qed.
Lemma applyRlimits_frame pid (w : G) r w' :
  applyRlimits pid w = (r, w') → (∀ p res, p ≠ pid → prlimit w' p res = prlimit w p res) ∧ kept ∅ ∅ w w'.
Proof.
  unfold applyRlimits. generalize rlimits as l. induction l as [|[x v] l IH] in w |- *; cbn [each]; [by intros [= <- <-]|].
  destruct (g_SetRlimit pid x v w) as [[u|e] w1] eqn:E; apply SetRlimit_frame in E as [Hf Hk]; [|by intros [= <- <-]].
  intros [Hf2 Hk2]%IH. split; [|by etransitivity]. intros. rewrite Hf2 by done. by apply Hf.
Qed.
Lemma verifyRlimits_kept pid : keeping (verifyRlimits (G := G) pid).
Proof.
  apply keeping_each. intros [x v] w r w'. destruct (g_GetRlimit pid x w) as [[[cur max]|e] w1] eqn:E;
    apply GetRlimit_kept in E; [destruct (_ || _)|]; by intros [= <- <-].
Qed.

Lemma begin_serve_ok c (w : G) :
  thread_ok w (begin_serve c) ∧ process (begin_serve c) = None ∧ holds_slot (begin_serve c) = false ∧
  paths (begin_serve c) = ∅.
Proof.
  unfold begin_serve, authorizedHost, AuthorizeHostConnection.
  destruct (c_remote c) as [cid|] eqn:Hr; [|done].
  destruct (Z.eqb_spec cid HostCID) as [->|]; cbn [is_ok negb]; [|done].
  destruct (c_in c) as [m|e] eqn:Hm; [|done]. destruct (decode_request m) as [req|e] eqn:Hd; [|done].
  destruct (rq_Validate req) as [[]|e] eqn:Hv; [|done]. split_and!; [|done|done|done].
  split_and!; [done|by apply Validate_iff|eauto].
Qed.
End Frames.

Definition weight (b : bool) : Z := if b then 1 else 0.

(** How many threads satisfy [P]. *)
Definition count (P : Thread → bool) (m : gmap nat Thread) : Z := Z.of_nat (size (filter (λ x, P x.2 = true) m)).

Lemma count_fresh P m k t : m !! k = None → count P (<[k := t]> m) = count P m + weight (P t).
Proof.
  intros Hk. unfold count. destruct (P t) eqn:HP; cbn [weight].
  - rewrite map_filter_insert_True by done. rewrite map_size_insert_None; [lia|]. apply map_lookup_filter_None. auto.
  - rewrite map_filter_insert_not' by (cbn; congruence). lia.
Qed.
Lemma count_insert P m k t t' : m !! k = Some t → count P (<[k := t']> m) = count P m - weight (P t) + weight (P t').
Proof.
  intros Hk. rewrite <- (insert_delete_id m k t) at 2 by done. rewrite <- insert_delete_eq.
  rewrite !count_fresh by apply lookup_delete_eq. lia.
Qed.
Lemma count_le (P Q : Thread → bool) m : (∀ t, P t = true → Q t = true) → count P m ≤ count Q m.
Proof.
  intros HPQ. unfold count. apply Nat2Z.inj_le, map_subseteq_size, map_subseteq_spec.
  intros k t [Hk Hp]%map_lookup_filter_Some. apply map_lookup_filter_Some. auto.
Qed.

Section Invariant.
Context {G : Type} `{GuestProcesses G}.
Context (order1 order2 : list (string * string)).
Hypothesis order1_ok : order1 ≡ₚ cgroup_settings.
Hypothesis order2_ok : order2 ≡ₚ cgroup_settings.

(** What one step of a goroutine does to the slots, the processes and the groups. *)
Record step_effect (t t' : Thread) (slots slots' : Z) (w w' : G) : Prop := {
  se_slots : slots' = slots - weight (holds_slot t) + weight (holds_slot t');
  se_bound : slots ≤ MaxConcurrentCommands → slots' ≤ MaxConcurrentCommands;
  se_ok : thread_ok w' t';
  se_procs : procs w' = (procs w ∖ pids t) ∪ pids t';
  se_new : pids t' ∖ pids t ## procs w;
  se_groups : paths t' ∖ paths t ## groups w;
  se_kept : kept (paths t) (pids t) w w';
  se_frame : ∀ p res, p ∈ procs w → p ∉ pids t → prlimit w' p res = prlimit w p res;
}.

(** A step that changes nothing of the guest. *)
Lemma effect_idle t t' slots slots' (w : G) :
  slots' = slots - weight (holds_slot t) + weight (holds_slot t') →
  (slots ≤ MaxConcurrentCommands → slots' ≤ MaxConcurrentCommands) →
  pids t = ∅ → pids t' = ∅ → paths t' = ∅ → thread_ok w t' → step_effect t t' slots slots' w w.
Proof.
  intros Hs Hb Ht Ht' Hp Hok. split; [done|done|done| | | | |done].
  - rewrite Ht, Ht'. set_solver.
  - rewrite Ht'. set_solver.
  - rewrite Hp. set_solver.
  - by apply kept_any.
Qed.


Lemma bounded_kept P Q (w w' : G) path : kept P Q w w' → path ∉ P → bounded w path → bounded w' path.
Proof.
  intros (g & _ & l & _) HP [Hin Hl]. split; [set_solver|]. intros name value Hnv. rewrite <- (Hl name value Hnv).
  f_equal. apply l; [done|done|]. by apply (list_elem_of_fmap_2 fst _ (name, value)).
Qed.

Lemma prepare_effect c req slots (w : G) t' slots' w' :
  asked c req → prepare_command order1 order2 c req (slots, w) = (t', (slots', w')) →
  step_effect (Holding c req) t' slots slots' w w'.
Proof.
  intros Ha. unfold prepare_command. destruct (loadPresetEnv w) as [preset w1] eqn:E1.
  destruct (loadPresetEnv_kept w) as [(Hp1 & Hl1 & _) Hk1]. rewrite E1 in Hp1, Hl1, Hk1. cbn [snd] in *.
  destruct (prepareCgroup order1 order2 w1) as [r w2] eqn:E2.
  pose proof (prepareCgroup_quiet _ _ _ _ _ E2) as (Hp2 & Hl2 & _).
  apply prepareCgroup_spec in E2 as [Hk2 Hpath]; [|done|done].
  assert (kept ∅ ∅ w w2) as Hk by by etransitivity.
  assert (∀ p res, prlimit w2 p res = prlimit w p res) as Hf by (intros; by rewrite Hl2, Hl1).
  destruct r as [path|e]; intros [= <- <- <-].
  - destruct (Hpath path eq_refl) as [Hnew Hb]. assert (path ∉ groups w) by (destruct Hk1 as [? _]; set_solver).
    split; cbn; [lia|done|done|rewrite Hp2, Hp1; set_solver|set_solver|set_solver|done|done].
  - split; cbn; [lia|lia|done|rewrite Hp2, Hp1; set_solver|set_solver|set_solver|done|done].
Qed.

Lemma start_command_effect c req cmd path slots (w : G) t' slots' w' :
  thread_ok w (Prepared c req cmd path) → start_command c req cmd path (slots, w) = (t', (slots', w')) →
  step_effect (Prepared c req cmd path) t' slots slots' w w'.
Proof.
  intros (Ha & Hb & Hcmd). unfold start_command. destruct (g_Start (cmd path) w) as [r w1] eqn:E.
  pose proof (Start_frame _ _ _ _ E) as (Hf & Hk & Hm). apply Start_law in E.
  destruct r as [pid|e]; intros [= <- <- <-].
  - destruct E as [Hnew Hp]. rewrite Hcmd in Hm.
    split; cbn; [lia|done|split_and!; [done|eapply bounded_kept; [done|set_solver|done]|done]
      |rewrite Hp; set_solver|set_solver|set_solver|by apply kept_any|auto].
  - destruct (cleanupCgroup_same path w1) as (Hp2 & Hl2 & _). pose proof (cleanupCgroup_kept path w1) as Hk2.
    split; cbn; [lia|lia|done|rewrite Hp2, E; set_solver|set_solver|set_solver| |].
    + etransitivity; [by apply kept_any|done].
    + intros. rewrite Hl2. by apply Hf.
Qed.

Lemma guard_effect c req pid path what (f : ST G unit) t next slots (w : G) t' slots' w' :
  process t = Some (c, req, pid, path) → paths t = {[path]} → holds_slot t = true →
  process next = Some (c, req, pid, path) → paths next = {[path]} → holds_slot next = true →
  pid ∈ procs w →
  (∀ r v, f w = (r, v) → procs v = procs w ∧ (∀ p res, p ≠ pid → prlimit v p res = prlimit w p res) ∧ kept ∅ ∅ w v ∧
     (is_ok r = true → thread_ok v next)) →
  guard_command c req pid path what f next (slots, w) = (t', (slots', w')) → step_effect t t' slots slots' w w'.
Proof.
  intros Ht Hpt Hst Hn Hpn Hsn Hpid Hf. unfold guard_command. destruct (f w) as [r v].
  destruct (Hf r v eq_refl) as (Hp & Hfr & Hk & Hok).
  assert (pids t = {[pid]}) as Hqt by (unfold pids; by rewrite Ht).
  assert (pids next = {[pid]}) as Hqn by (unfold pids; by rewrite Hn).
  destruct r as [u|e]; intros [= <- <- <-].
  - split; rewrite ?Hst, ?Hsn, ?Hqt, ?Hqn, ?Hpt, ?Hpn; cbn; [lia|done|by apply Hok| |set_solver|set_solver|by apply kept_any|].
    + rewrite Hp. apply set_eq. intros p. destruct (decide (p = pid)) as [->|]; set_solver.
    + intros p res _ Hne%not_elem_of_singleton. by apply Hfr.
  - split; rewrite ?Hst, ?Hqt, ?Hpt; cbn; [lia|lia|done|rewrite abandon_procs, Hp; set_solver|set_solver|set_solver| |].
    + etransitivity; [by apply kept_any|apply abandon_kept].
    + intros p res _ Hne%not_elem_of_singleton. rewrite abandon_frame by done. by apply Hfr.
Qed.

Lemma end_effect c req pid path slots (w : G) t' slots' w' :
  end_command c req pid path (slots, w) = (t', (slots', w')) →
  step_effect (Running c req pid path) t' slots slots' w w'.
Proof.
  unfold end_command. destruct (g_Wait pid _ w) as [run w1] eqn:E1. apply Wait_law in E1 as (Hp1 & Hl1 & Hk1).
  pose proof (cleanupCgroup_same path w1) as (Hp2 & Hl2 & _). pose proof (cleanupCgroup_kept path w1) as Hk2.
  destruct (cleanupCgroup path w1) as [r w2]. cbn [snd] in *. intros [= <- <- <-].
  split; cbn; [lia|lia|done|rewrite Hp2, Hp1; set_solver|set_solver|set_solver| |].
  - etransitivity; [apply (kept_mono ∅ _ {[pid]}); [set_solver|done|exact Hk1]|].
    apply (kept_mono {[path]} _ ∅); [done|set_solver|done].
  - intros p res _ Hne%not_elem_of_singleton. rewrite Hl2. by apply Hl1.
Qed.

(** What a process keeps through the checks of its own goroutine. *)
Lemma asked_kept c req pid path (w v : G) :
  pid ∈ procs w → kept ∅ ∅ w v → asked c req ∧ bounded w path ∧ group_of w pid = path →
  asked c req ∧ bounded v path ∧ group_of v pid = path.
Proof.
  intros Hpid Hk (Ha & Hb & Hg). split_and!; [done|eapply bounded_kept; [done|set_solver|done]|].
  destruct Hk as (_ & _ & _ & Hm). rewrite Hm; [done|done|set_solver].
Qed.

Lemma thread_step_effect t slots (w : G) t' slots' w' :
  thread_ok w t → pids t ⊆ procs w → thread_step order1 order2 t (slots, w) = (t', (slots', w')) →
  step_effect t t' slots slots' w w'.
Proof.
  destruct t as [c|c req|c req|c req cmd path|c req pid path|c req pid path|c req pid path|c req pid path|c req r|c];
    cbn [thread_ok thread_step]; intros Hok Hpids.
  - intros [= <- <- <-]. destruct (begin_serve_ok c w) as (Hb & Hpr & Hh & Hpa).
    apply effect_idle; rewrite ?Hh; cbn; try done; [lia|]. unfold pids. by rewrite Hpr.
  - unfold acquire. cbn [fst snd]. destruct (Z.ltb_spec slots MaxConcurrentCommands); intros [= <- <- <-];
      apply effect_idle; cbn; try done; lia.
  - by apply prepare_effect.
  - by apply start_command_effect.
  - assert (pid ∈ procs w) as Hpid by (cbn in Hpids; set_solver). apply guard_effect; try done.
    intros r v E. pose proof (verifyCgroupForProcess_kept _ _ _ _ _ E) as Hk.
    apply verifyCgroupForProcess_quiet in E as (Hp & Hl & _). split_and!; [done|by intros; rewrite Hl|done|].
    intros _. by eapply asked_kept.
  - assert (pid ∈ procs w) as Hpid by (cbn in Hpids; set_solver). apply guard_effect; try done.
    intros r v E. pose proof (applyRlimits_procs _ _ _ _ E) as Hp. apply applyRlimits_frame in E as [Hfr Hk].
    split_and!; [done|done|done|]. intros _. by eapply asked_kept.
  - assert (pid ∈ procs w) as Hpid by (cbn in Hpids; set_solver). apply guard_effect; try done.
    intros r v E. pose proof (verifyRlimits_kept _ _ _ _ E) as Hk. apply verifyRlimits_spec in E as [(Hp & Hl & _) Hv].
    split_and!; [done|by intros; rewrite Hl|done|]. intros Hr. split; [by eapply asked_kept|].
    intros res x Hin. rewrite Hl. by apply Hv.
  - apply end_effect.
  - intros [= <- <- <-]. apply effect_idle; cbn; try done; lia.
  - intros [= <- <- <-]. apply effect_idle; cbn; try done; lia.
Qed.

Record server_inv (sv : Server (G := G)) : Prop := {
  si_slots : sv_slots sv = count holds_slot (sv_threads sv);
  si_bound : sv_slots sv ≤ MaxConcurrentCommands;
  si_count : Z.of_nat (size (procs (sv_guest sv))) = count has_process (sv_threads sv);
  si_procs : ∀ p, p ∈ procs (sv_guest sv) ↔ ∃ k t, sv_threads sv !! k = Some t ∧ p ∈ pids t;
  si_unique : ∀ k k' t t' p, sv_threads sv !! k = Some t → sv_threads sv !! k' = Some t' →
    p ∈ pids t → p ∈ pids t' → k = k';
  si_groups : ∀ k k' t t' p, sv_threads sv !! k = Some t → sv_threads sv !! k' = Some t' →
    p ∈ paths t → p ∈ paths t' → k = k';
  si_threads : ∀ k t, sv_threads sv !! k = Some t → thread_ok (sv_guest sv) t;
}.

Lemma size_pids t : Z.of_nat (size (pids t)) = weight (has_process t).
Proof. unfold pids, has_process. destruct (process t) as [[[[? ?] ?] ?]|]; cbn; rewrite ?size_empty, ?size_singleton; done. Qed.
Lemma paths_are_groups (w : G) t p : thread_ok w t → p ∈ paths t → p ∈ groups w.
Proof.
  destruct t; cbn; intros Hok Hp; try by apply elem_of_empty in Hp.
  all: apply elem_of_singleton in Hp as ->; unfold bounded in Hok; naive_solver.
Qed.

Lemma accept_inv sv k c :
  sv_threads sv !! k = None → server_inv sv →
  server_inv (mkServer (sv_slots sv) (sv_guest sv) (<[k := Accepted c]> (sv_threads sv))).
Proof.
  intros Hk [Hs Hb Hc Hp Hu Hg Ht]. split; cbn.
  - rewrite count_fresh by done. cbn. lia.
  - done.
  - rewrite count_fresh by done. cbn. lia.
  - intros p. rewrite Hp. split; intros (k' & t & Hkt & Hin).
    + exists k', t. rewrite lookup_insert_ne by congruence. done.
    + apply lookup_insert_Some in Hkt as [[_ <-]|[_ ?]]; [set_solver|eauto].
  - intros k1 k2 t1 t2 p [[_ <-]|[_ ?]]%lookup_insert_Some [[_ <-]|[_ ?]]%lookup_insert_Some; cbn; [set_solver..|eauto].
  - intros k1 k2 t1 t2 p [[_ <-]|[_ ?]]%lookup_insert_Some [[_ <-]|[_ ?]]%lookup_insert_Some; cbn; [set_solver..|eauto].
  - intros k' t [[_ <-]|[_ ?]]%lookup_insert_Some; [done|eauto].
Qed.

Lemma thread_ok_frame P Q (w w' : G) t :
  kept P Q w w' → paths t ## P → pids t ## Q → pids t ⊆ procs w →
  (∀ p res, p ∈ pids t → prlimit w' p res = prlimit w p res) → thread_ok w t → thread_ok w' t.
Proof.
  intros Hk HP HQ Hin Hf. pose proof Hk as (_ & _ & _ & Hm).
  assert (∀ c req pid path, pids t = {[pid]} → paths t = {[path]} →
    asked c req ∧ bounded w path ∧ group_of w pid = path → asked c req ∧ bounded w' path ∧ group_of w' pid = path) as Hlive.
  { intros c req pid path E1 E2 (Ha & Hb & Hg). split_and!; [done|eapply bounded_kept; [done|set_solver|done]|].
    rewrite Hm; [done|set_solver|set_solver]. }
  destruct t as [c|c req|c req|c req cmd path|c req pid path|c req pid path|c req pid path|c req pid path|c req r|c];
    cbn [thread_ok]; try done; try by apply Hlive.
  - intros (Ha & Hb & Hc). split_and!; [done|eapply bounded_kept; [done|cbn in HP; set_solver|done]|done].
  - intros [Hl Hc]. split; [by apply Hlive|]. intros res v Hrv. rewrite Hf; [by apply Hc|cbn; set_solver].
Qed.

Lemma move_inv sv k t t' slots (w : G) :
  sv_threads sv !! k = Some t → step_effect t t' (sv_slots sv) slots (sv_guest sv) w → server_inv sv →
  server_inv (mkServer slots w (<[k := t']> (sv_threads sv))).
Proof.
  intros Hk [Hslots Hbound Hok Hprocs Hnew Hpaths Hkept Hframe] [Hs Hb Hc Hp Hu Hg Ht].
  assert (∀ p, p ∈ pids t → p ∈ procs (sv_guest sv)) as Hmine by (intros p Hin; apply Hp; eauto).
  assert (∀ k' t2 p, k' ≠ k → sv_threads sv !! k' = Some t2 → p ∈ pids t2 → p ∈ procs (sv_guest sv) ∖ pids t) as Hother.
  { intros k' t2 p Hne Hk' Hin. apply elem_of_difference. split; [apply Hp; eauto|].
    intros Hin2. by destruct Hne; eapply Hu. }
  assert (∀ k' t2 p, k' ≠ k → sv_threads sv !! k' = Some t2 → p ∈ paths t2 → p ∈ groups (sv_guest sv) ∖ paths t) as Hgroup.
  { intros k' t2 p Hne Hk' Hin. apply elem_of_difference. split; [eapply paths_are_groups; eauto|].
    intros Hin2. by destruct Hne; eapply Hg. }
  split; cbn.
  - rewrite (count_insert _ _ _ t) by done. lia.
  - auto.
  - rewrite (count_insert _ _ _ t) by done. rewrite Hprocs, size_union by set_solver.
    rewrite size_difference by (intros p; apply Hmine). pose proof (size_pids t). pose proof (size_pids t').
    pose proof (subseteq_size (pids t) (procs (sv_guest sv)) Hmine). lia.
  - intros p. rewrite Hprocs, elem_of_union, elem_of_difference, Hp. split.
    + intros [[(k' & t2 & Hk' & Hin) Hnot]|Hin]; [|exists k, t'; by rewrite lookup_insert_eq].
      exists k', t2. rewrite lookup_insert_ne; [done|]. intros <-. rewrite Hk in Hk'. by injection Hk' as <-.
    + intros (k' & t2 & [[_ <-]|[Hne Hk']]%lookup_insert_Some & Hin); [by right|left].
      assert (k' ≠ k) as Hne' by done. pose proof (Hother _ _ _ Hne' Hk' Hin). set_solver.
  - intros k1 k2 t1 t2 p [[<- <-]|[Hn1 Hl1]]%lookup_insert_Some [[<- <-]|[Hn2 Hl2]]%lookup_insert_Some Hin1 Hin2; [done|..].
    + pose proof (Hother k2 t2 p ltac:(done) Hl2 Hin2). set_solver.
    + pose proof (Hother k1 t1 p ltac:(done) Hl1 Hin1). set_solver.
    + by eapply Hu.
  - intros k1 k2 t1 t2 p [[<- <-]|[Hn1 Hl1]]%lookup_insert_Some [[<- <-]|[Hn2 Hl2]]%lookup_insert_Some Hin1 Hin2; [done|..].
    + pose proof (Hgroup k2 t2 p ltac:(done) Hl2 Hin2). set_solver.
    + pose proof (Hgroup k1 t1 p ltac:(done) Hl1 Hin1). set_solver.
    + by eapply Hg.
  - intros k' t2 [[<- <-]|[Hne Hk']]%lookup_insert_Some; [done|]. assert (k' ≠ k) as Hne' by done.
    apply (thread_ok_frame (paths t) (pids t) (sv_guest sv)); [done| | | | |by eapply Ht].
    + intros p Hin. pose proof (Hgroup k' t2 p Hne' Hk' Hin). set_solver.
    + intros p Hin. pose proof (Hother k' t2 p Hne' Hk' Hin). set_solver.
    + intros p Hin. pose proof (Hother k' t2 p Hne' Hk' Hin). set_solver.
    + intros p res Hin. pose proof (Hother k' t2 p Hne' Hk' Hin). apply Hframe; set_solver.
Qed.

Lemma server_steps_inv sv sv' : rtc (server_step order1 order2) sv sv' → server_inv sv → server_inv sv'.
Proof.
  induction 1 as [|sv1 sv2 sv3 Hst _ IH]; [done|]. intros Hinv. apply IH.
  destruct Hst as [k c sv Hk|k t t' slots w sv Hk E]; [by apply accept_inv|].
  eapply move_inv; [exact Hk| |exact Hinv]. eapply thread_step_effect; [by eapply si_threads| |exact E].
  intros p Hp. apply (si_procs _ Hinv). eauto.
Qed.

Lemma boot_inv (w : G) : procs w = ∅ → server_inv (mkServer 0 w ∅).
Proof.
  intros Hp. split; cbn; rewrite ?Hp; try done. intros p. split; [set_solver|]. by intros (k & t & ? & _).
Qed.
End Invariant.

(** C8: However connections arrive and their goroutines interleave, the agent
    has at most [MaxConcurrentCommands] commands started at a time.  The
    slots in use are the goroutines between their acquisition and the end of
    their command, so no path loses one.  Every process of the agent belongs
    to exactly one such goroutine, whose request came from the host and is
    within the protocol's limits, and from its start it is in a control
    group of its own with the agent's memory, process and CPU limits,
    whatever the other goroutines do; its resource limits are the agent's
    from the moment its goroutine waits for it, and a process for which they
    could not be set and verified is killed. *)
Theorem agent_bounds_commands {G} `{GuestProcesses G} order1 order2 (w : G) sv :
  order1 ≡ₚ cgroup_settings → order2 ≡ₚ cgroup_settings →
  procs w = ∅ → rtc (server_step order1 order2) (mkServer 0 w ∅) sv →
  sv_slots sv = count holds_slot (sv_threads sv) ∧
  Z.of_nat (size (procs (sv_guest sv))) ≤ sv_slots sv ≤ MaxConcurrentCommands ∧
  (∀ pid, pid ∈ procs (sv_guest sv) →
     ∃ k t c req path, sv_threads sv !! k = Some t ∧ process t = Some (c, req, pid, path) ∧ asked c req ∧
       group_of (sv_guest sv) pid = path ∧ bounded (sv_guest sv) path) ∧
  (∀ k c req pid path, sv_threads sv !! k = Some (Running c req pid path) → confined (sv_guest sv) pid) ∧
  (∀ k k' t t' c c' req req' pid pid' path path', sv_threads sv !! k = Some t → sv_threads sv !! k' = Some t' →
     process t = Some (c, req, pid, path) → process t' = Some (c', req', pid', path') →
     pid = pid' ∨ path = path' → k = k') ∧
  (∀ k c req pid path t' slots' w', sv_threads sv !! k = Some (Limited c req pid path) →
     thread_step order1 order2 (Limited c req pid path) (sv_slots sv, sv_guest sv) = (t', (slots', w')) →
     t' = Running c req pid path ∧ confined w' pid ∨ pid ∉ procs w').
Proof.
  intros Ho1 Ho2 Hw Hst. pose proof (server_steps_inv order1 order2 Ho1 Ho2 _ _ Hst ltac:(by eapply boot_inv)) as Hinv.
  pose proof Hinv as [Hs Hb Hc Hp Hu Hg Ht]. split_and!; [done| |done| | | |].
  - rewrite Hc, Hs. apply count_le. by intros [].
  - intros pid (k & t & Hk & Hin)%Hp. pose proof (Ht _ _ Hk) as Hok. unfold pids in Hin.
    destruct (process t) as [[[[c req] pid'] path]|] eqn:Et; [|by apply elem_of_empty in Hin].
    apply elem_of_singleton in Hin as ->. exists k, t, c, req, path.
    split_and!; try done; destruct t; cbn in Et; simplify_eq; cbn in Hok; naive_solver.
  - intros k c req pid path Hk. by apply Ht in Hk as [_ ?].
  - intros k k' t t' c c' req req' pid pid' path path' Hk Hk' E E' [ -> | -> ].
    + apply (Hu k k' t t' pid' Hk Hk'); unfold pids; rewrite ?E, ?E'; set_solver.
    + apply (Hg k k' t t' path' Hk Hk'); destruct t, t'; cbn in *; simplify_eq; set_solver.
  - intros k c req pid path t' slots' w' Hk E.
    destruct (thread_step_effect order1 order2 Ho1 Ho2 _ _ _ _ _ _ (Ht _ _ Hk)
      ltac:(intros p Hin; apply Hp; eauto) E) as [_ _ Hok Hprocs _ _ _ _].
    cbn [thread_step] in E. unfold guard_command in E. destruct (verifyRlimits pid _) as [[u|e] v].
    + injection E as <- <- <-. left. split; [done|]. apply Hok.
    + injection E as <- <- <-. right. rewrite Hprocs. cbn. set_solver.
Qed.

(** ** The simulated guest *)

Lemma proc_file_no_setting pid path name :
  name ∈ setting_names → control_file path name ≠ "/proc/" +:+ Itoa pid +:+ "/cgroup".
Proof.
  intros Hn E. apply (f_equal (λ x, rev (bytes x))) in E. unfold control_file in E. rewrite !bytes_app, !rev_app_distr in E.
  unfold setting_names in Hn. cbn in Hn.
  apply elem_of_cons in Hn as [ -> |[ -> |[ -> |[]%elem_of_nil]%elem_of_cons]%elem_of_cons]; by cbn in E.
Qed.
#[export, refine] Instance sim_guest_processes : GuestProcesses SimGuest := {
  groups := sg_groups;
  group_of w pid := default "" (sg_members w !! pid);
  limit_of w path name := default "" (sg_files w !! control_file path name);
}.
Proof.
  all: cbn -[setting_names]; unfold sg_op; intros.
  all: repeat (case_bool_decide || case_match); simplify_eq/=; split_and!; intros; try done; try set_solver.
  all: rewrite ?lookup_insert_eq; try done; try (rewrite lookup_insert_ne; [done|congruence || set_solver]).
  - rewrite lookup_insert_ne; [done|]. by apply not_eq_sym, proc_file_no_setting.
  - simplify_eq. match goal with E : _ !! _ = Some _ |- _ => by rewrite E end.
Defined.

(** Five connections; the fifth goroutine finds no slot. *)
Definition sim_step (k : nat) (sv : Server (G := SimGuest)) : Server (G := SimGuest) :=
  match sv_threads sv !! k with
  | None => mkServer (sv_slots sv) (sv_guest sv) (<[k := Accepted echo_conn]> (sv_threads sv))
  | Some t =>
      let '(t', (slots, w)) := thread_step cgroup_settings cgroup_settings t (sv_slots sv, sv_guest sv) in
      mkServer slots w (<[k := t']> (sv_threads sv))
  end.
Lemma sim_step_sound k sv : server_step cgroup_settings cgroup_settings sv (sim_step k sv).
Proof.
  unfold sim_step. destruct (sv_threads sv !! k) as [t|] eqn:Hk; [|by apply sv_accept].
  destruct (thread_step _ _ t _) as [t' [slots w]] eqn:E. by eapply sv_move.
Qed.
Lemma sim_steps_sound ks sv : rtc (server_step cgroup_settings cgroup_settings) sv (foldl (λ sv k, sim_step k sv) sv ks).
Proof. revert sv. induction ks as [|k ks IH]; intros sv; [done|]. cbn. eapply rtc_l; [apply sim_step_sound|apply IH]. Qed.

Definition busy : Server (G := SimGuest) :=
  foldl (λ sv k, sim_step k sv) (mkServer 0 sg_empty ∅) (mjoin (repeat (seq 0 5) 8)).
(** Between its start and the end of the checks a command runs without its
    resource limits; here the first one, after five rounds. *)
Definition unlimited : Server (G := SimGuest) :=
  foldl (λ sv k, sim_step k sv) (mkServer 0 sg_empty ∅) (mjoin (repeat (seq 0 5) 5)).
Example command_starts_without_rlimits :
  procs (sv_guest unlimited) = {[1; 2; 3; 4]} ∧ prlimit (sv_guest unlimited) 1 RLIMIT_NOFILE ≠ (guestNoFileMax, guestNoFileMax).
Proof. split; [vm_compute; reflexivity|by vm_compute]. Qed.
Example busy_agent :
  sv_slots busy = 4 ∧ size (procs (sv_guest busy)) = 4%nat ∧
  match sv_threads busy !! 4%nat with
  | Some (Closed c) => c_out c = [MsgResult (failed_result "s" (Errorf "guest command concurrency limit reached" []))]
  | _ => False
  end.
Proof. vm_compute. split_and!; reflexivity. Qed.

Lemma agent_bounds_commands_witness :
  Z.of_nat (size (procs (sv_guest busy))) ≤ sv_slots busy ≤ MaxConcurrentCommands.
Proof.
  destruct (agent_bounds_commands cgroup_settings cgroup_settings sg_empty busy) as (_ & Hb & _);
    [reflexivity|reflexivity|vm_compute; reflexivity|apply sim_steps_sound|exact Hb].
Defined.
