(* ===== verification/Snapshot.v ===== *)
(** * platform/snapshot: building and storing root file systems

    The declarative configuration, the object stores, the registry of
    manifests and artifacts, and the builder.  The build host (files,
    external commands) and the text that [fmt] prints for [%#v] are
    interfaces; a deferred call runs after its function on every path. *)

From Stdlib Require Import Ascii.
From S2P Require Import Prelude Effects GoStrings GoCrypto Vsock.
Open Scope Z_scope.

(** ** config.go and validator.go *)

Definition DefaultSchemaVersion : string := "v1alpha1".
Record RuntimeConfig := mkRuntimeConfig { rt_OS : string; rt_Distro : string; rt_Architecture : string }.
Record LanguageConfig := mkLanguageConfig { lang_Name : string; lang_Version : string }.
Record Dependencies := mkDependencies { dep_System : list string; dep_Pip : list string; dep_NPM : list string }.
Record Resources := mkResources { res_VCPU : Z; res_MemoryMB : Z; res_DiskMB : Z }.
Record NetworkPolicy := mkNetworkPolicy { np_AllowedDomains : list string; np_BlockPrivateIPs : bool }.
(** [Env] keeps the order in which [range] visits the map. *)
Record SnapConfig := mkSnapConfig {
  sc_Version : string; sc_Name : string; sc_Description : string; sc_Runtime : RuntimeConfig;
  sc_Language : LanguageConfig; sc_Dependencies : Dependencies; sc_Resources : Resources;
  sc_Env : list (string * string); sc_Network : NetworkPolicy;
}.

Definition or_else (d s : string) : string := if bool_decide (s = "") then d else s.
Definition applyDefaults (c : SnapConfig) : SnapConfig :=
  mkSnapConfig (or_else DefaultSchemaVersion (sc_Version c)) (sc_Name c) (sc_Description c)
    (mkRuntimeConfig (or_else "linux" (rt_OS (sc_Runtime c))) (or_else "ubuntu-22.04" (rt_Distro (sc_Runtime c)))
       (or_else "x86_64" (rt_Architecture (sc_Runtime c))))
    (mkLanguageConfig (or_else "python" (lang_Name (sc_Language c))) (or_else "3.11" (lang_Version (sc_Language c))))
    (sc_Dependencies c) (sc_Resources c) (sc_Env c) (sc_Network c).

(** [Validate] also leaves the defaults in the configuration. *)
Definition snap_Validate (c : SnapConfig) : result SnapConfig :=
  let c := applyDefaults c in
  if bool_decide (sc_Name c = "") then Err (Errorf "snapshot name is required" [])
  else if negb (bool_decide (sc_Version c = DefaultSchemaVersion)) then
    Err (Errorf "unsupported snapshot schema version %q" [])
  else if negb (bool_decide (rt_OS (sc_Runtime c) = "linux")) then Err (Errorf "unsupported runtime OS %q" [])
  else if negb (bool_decide (rt_Architecture (sc_Runtime c) = "x86_64")) then
    Err (Errorf "unsupported architecture %q" [])
  else if res_VCPU (sc_Resources c) <=? 0 then Err (Errorf "resources.vcpu must be greater than 0" [])
  else if res_MemoryMB (sc_Resources c) <? 128 then Err (Errorf "resources.memory_mb must be at least 128" [])
  else if res_DiskMB (sc_Resources c) <? 1024 then Err (Errorf "resources.disk_mb must be at least 1024" [])
  else if existsb (λ d, bool_decide (d = "")) (np_AllowedDomains (sc_Network c)) then
    Err (Errorf "network.allowed_domains cannot contain empty domains" [])
  else Ok c.

Record Manifest := mkManifest {
  mf_Version : string; mf_Name : string; mf_ConfigDigest : string; mf_KernelPath : string;
  mf_RootfsPath : string; mf_GuestAgent : string; mf_CreatedAt : Z;
}.
Definition ManifestVersion : string := "v1alpha1".

(** ** path/filepath *)

Definition clean_step (rooted : bool) (stack : list string) (part : string) : list string :=
  if bool_decide (part = "") || bool_decide (part = ".") then stack
  else if bool_decide (part = "..") then
    match stack with
    | top :: rest => if bool_decide (top = "..") then part :: stack else rest
    | [] => if rooted then [] else [part]
    end
  else part :: stack.
Definition Clean (path : string) : string :=
  if bool_decide (path = "") then "."
  else
    let rooted := HasPrefix path "/" in
    let s := Join_str (reverse (foldl (clean_step rooted) [] (Split path "/"%char))) "/" in
    if rooted then "/" +:+ s else if bool_decide (s = "") then "." else s.
(** [filepath.Join] of non-empty elements *)
Definition path_Join (parts : list string) : string :=
  match filter (λ p, p ≠ "") parts with
  | [] => ""
  | l => Clean (Join_str l "/")
  end.
Definition path_Dir (path : string) : string :=
  match removelast (Split path "/"%char) with
  | [] => "."
  | l => Clean (Join_str l "/" +:+ "/")
  end.

(** ** The build host *)

(** What a file or an object of a store holds: a manifest, encoded as JSON,
    or other bytes. *)
Inductive Object := JSON (m : Manifest) | Bytes (data : string).
(** An [io.Reader]: bytes in memory, or an open file, which is read when the
    copy happens. *)
Inductive Reader := FromBytes (o : Object) | FromFile (path : string).
(** The context of a command: the caller's, or [context.Background()]. *)
Inductive RunContext := Caller | Background.
Record ClientOptions := mkClientOptions { co_Region : string; co_BaseEndpoint : option string; co_UsePathStyle : bool }.

Class BuildHost (W : Type) := {
  bh_MkdirAll : string → ST W unit;
  bh_Open : string → ST W unit;
  bh_ReadFile : string → ST W Object;
  (** [os.OpenFile] with O_CREATE, O_TRUNC and O_WRONLY *)
  bh_Create : string → ST W unit;
  bh_Copy : string → Reader → ST W unit;
  bh_WriteFile : string → Object → ST W unit;
  bh_Chmod : string → ST W unit;
  bh_Stat : string → ST W unit;
  bh_LookPath : string → ST W unit;
  bh_MkdirTemp : string → string → ST W string;
  bh_RemoveAll : string → ST W unit;
  bh_Run : RunContext → list string → ST W unit;
  bh_Now : W → Z;
  s3_LoadDefaultConfig : string → string → string → ST W unit;
  s3_PutObject : ClientOptions → string → string → Reader → ST W unit;
  s3_GetObject : ClientOptions → string → string → ST W Object;
  (** [gopkg.in/yaml] and [encoding/json] on bytes that the registry did not
      encode, and [fmt]'s [%#v] *)
  yaml_UnmarshalStrict : Object → result SnapConfig;
  json_Unmarshal : string → result Manifest;
  fmt_GoSyntax : SnapConfig → string;
}.

(** The stores as the interface that the registry uses *)
Class Store (W : Type) := {
  PutObject : string → Reader → ST W unit;
  GetObject : string → ST W Reader;
}.

(** [time.Time.MarshalJSON] takes the years 0 to 9999. *)
Definition json_year_ok (t : Z) : bool := (-62167219200 * Second <=? t) && (t <? 253402300800 * Second).
Definition json_manifest (m : Manifest) : Manifest :=
  mkManifest (json_string (mf_Version m)) (json_string (mf_Name m)) (json_string (mf_ConfigDigest m))
    (json_string (mf_KernelPath m)) (json_string (mf_RootfsPath m)) (json_string (mf_GuestAgent m)) (mf_CreatedAt m).
Definition json_Marshal (m : Manifest) : result Object :=
  if json_year_ok (mf_CreatedAt m) then Ok (JSON (json_manifest m))
  else Err (Errorf "Time.MarshalJSON: year outside of range [0,9999]" []).

Section Host.
Context {W : Type} `{BuildHost W}.
Local Open Scope go_scope.

(** [config.Load] *)
Definition Load (path : string) : ST W SnapConfig :=
  data <- st_wrap "read snapshot config: %w" (bh_ReadFile path);;
  cfg <- st_wrap "parse snapshot config: %w" (λ w, (yaml_UnmarshalStrict data, w));;
  (λ w, (snap_Validate cfg, w)).

(** ** registry.go *)

Record LocalStore := mkLocalStore { ls_Root : string }.
Definition NewLocalStore (root : string) : ST W LocalStore :=
  if bool_decide (root = "") then st_fail (Errorf "local store root path is required" [])
  else st_wrap "create local store directory: %w" (bh_MkdirAll root);; st_ret (mkLocalStore root).

Definition local_PutObject (l : LocalStore) (key : string) (body : Reader) : ST W unit :=
  let path := path_Join [ls_Root l; key] in
  st_wrap "create local directory: %w" (bh_MkdirAll (path_Dir path));;
  st_wrap "open local destination file: %w" (bh_Create path);;
  st_wrap "write local file: %w" (bh_Copy path body).
Definition local_GetObject (l : LocalStore) (key : string) : ST W Reader :=
  let path := path_Join [ls_Root l; key] in
  st_wrap "open local file: %w" (bh_Open path);; st_ret (FromFile path).

Record S3Config := mkS3Config {
  s3_Endpoint : string; s3_Region : string; s3_Bucket : string;
  s3_AccessKeyID : string; s3_SecretAccessKey : string; s3_UsePathStyle : bool;
}.
Record S3Store := mkS3Store { ss_client : ClientOptions; ss_bucket : string }.
Definition NewS3Store (cfg : S3Config) : ST W S3Store :=
  if bool_decide (s3_Bucket cfg = "") then st_fail (Errorf "s3 bucket name is required" [])
  else
    st_wrap "load aws config: %w"
      (s3_LoadDefaultConfig (s3_Region cfg) (s3_AccessKeyID cfg) (s3_SecretAccessKey cfg));;
    st_ret (mkS3Store
      (mkClientOptions (s3_Region cfg)
         (if bool_decide (s3_Endpoint cfg = "") then None else Some (s3_Endpoint cfg)) (s3_UsePathStyle cfg))
      (s3_Bucket cfg)).
Definition S3Store_PutObject (s : S3Store) (key : string) (body : Reader) : ST W unit :=
  st_wrap "s3 put object %s: %w" (s3_PutObject (ss_client s) (ss_bucket s) key body).
Definition S3Store_GetObject (s : S3Store) (key : string) : ST W Reader :=
  o <- st_wrap "s3 get object %s: %w" (s3_GetObject (ss_client s) (ss_bucket s) key);; st_ret (FromBytes o).

(** A [Registry] is its store. *)
Inductive AnyStore := Local (l : LocalStore) | S3 (s : S3Store).
Definition any_store (s : AnyStore) : Store W :=
  match s with
  | Local l => {| PutObject := local_PutObject l; GetObject := local_GetObject l |}
  | S3 s => {| PutObject := S3Store_PutObject s; GetObject := S3Store_GetObject s |}
  end.
Definition NewRegistry (store : option AnyStore) : result AnyStore :=
  match store with
  | None => Err (Errorf "storage driver is required" [])
  | Some s => Ok s
  end.
End Host.

Section Registry.
Context {W : Type} `{BuildHost W} `{Store W}.
Local Open Scope go_scope.

Definition artifact_key (name artifact : string) : string := name +:+ "/" +:+ artifact.

Definition registry_Put (manifest : Manifest) : ST W unit :=
  if bool_decide (mf_Name manifest = "") then st_fail (Errorf "snapshot manifest name is required" [])
  else
    data <- st_wrap "encode snapshot manifest: %w" (λ w, (json_Marshal manifest, w));;
    PutObject (artifact_key (mf_Name manifest) "manifest.json") (FromBytes data).

(** All that a reader yields *)
Definition read_all (r : Reader) : ST W Object :=
  match r with FromBytes o => st_ret o | FromFile path => bh_ReadFile path end.
Definition json_Decode (o : Object) : result Manifest :=
  match o with JSON m => Ok m | Bytes data => json_Unmarshal data end.

Definition registry_Get (name : string) : ST W Manifest :=
  reader <- st_wrap "get manifest: %w" (GetObject (artifact_key name "manifest.json"));;
  st_wrap "decode snapshot manifest: %w" (o <- read_all reader;; (λ w, (json_Decode o, w))).

Definition PushArtifact (snapshotName artifactName localPath : string) : ST W unit :=
  st_wrap "open artifact file: %w" (bh_Open localPath);;
  PutObject (artifact_key snapshotName artifactName) (FromFile localPath).

Definition PullArtifact (snapshotName artifactName targetPath : string) : ST W unit :=
  reader <- st_wrap "get artifact from store: %w" (GetObject (artifact_key snapshotName artifactName));;
  st_wrap "create destination directory: %w" (bh_MkdirAll (path_Dir targetPath));;
  st_wrap "open local artifact destination: %w" (bh_Create targetPath);;
  st_wrap "stream artifact to local disk: %w" (bh_Copy targetPath reader).
End Registry.

(** ** builder.go *)

Definition distroSource `{UnicodeCase} (distro : string) : result (string * string) :=
  let d := ToLower distro in
  if bool_decide (d = "ubuntu-22.04") then Ok ("jammy", "http://archive.ubuntu.com/ubuntu")
  else if bool_decide (d = "ubuntu-20.04") then Ok ("focal", "http://archive.ubuntu.com/ubuntu")
  else if bool_decide (d = "ubuntu-24.04") then Ok ("noble", "http://archive.ubuntu.com/ubuntu")
  else if bool_decide (d = "debian-11") then Ok ("bullseye", "http://deb.debian.org/debian")
  else if bool_decide (d = "debian-12") then Ok ("bookworm", "http://deb.debian.org/debian")
  else Err (Errorf "unsupported distribution %q" []).

Definition env_letter (r : Z) : bool := (r =? 95) || in_range 65 90 r || in_range 97 122 r.
Definition validEnvName (name : string) : bool :=
  match fst <$> runes name with
  | [] => false
  | r :: rest => env_letter r && forallb (λ r, env_letter r || in_range 48 57 r) rest
  end.

Definition shellQuote (value : string) : string :=
  "'" +:+ ReplaceAll value "'"%char "'\''" +:+ "'".

Definition sanitize_env (value : string) : string :=
  ReplaceAll (ReplaceAll value "010"%char "\n") "013"%char "".
Fixpoint env_lines (env : list (string * string)) : result (list string) :=
  match env with
  | [] => Ok []
  | (key, value) :: env =>
      if negb (validEnvName key) then Err (Errorf "invalid environment variable name %q" [])
      else match env_lines env with
           | Ok lines => Ok ((key +:+ "=" +:+ shellQuote (sanitize_env value)) :: lines)
           | Err e => Err e
           end
  end.

Definition env_file (lines : list string) : string := Join_str lines (of_bytes [10]) +:+ of_bytes [10].

Record Builder := mkBuilder { b_Kernel : string; b_GuestAgent : string; b_WorkDir : string }.
Definition NewBuilder {R} (registry : option R) (kernel guestAgent : string) : result (R * Builder) :=
  match registry with
  | None => Err (Errorf "snapshot registry is required" [])
  | Some r =>
      if bool_decide (kernel = "") then Err (Errorf "kernel path is required" [])
      else if bool_decide (guestAgent = "") then Err (Errorf "guest agent path is required" [])
      else Ok (r, mkBuilder kernel guestAgent "")
  end.

Section Builder.
Context {W : Type} `{BuildHost W} `{Store W} `{UnicodeCase}.
Local Open Scope go_scope.

Definition runCommand (ctx : RunContext) (args : list string) : ST W unit :=
  st_wrap "%s %s: %w" (bh_Run ctx args).
Definition runChroot (ctx : RunContext) (rootDir : string) (args : list string) : ST W unit :=
  runCommand ctx ("chroot" :: rootDir :: args).
Definition nonempty {A} (l : list A) : bool := match l with [] => false | _ => true end.

Definition apt_install : list string := ["apt-get"; "install"; "-y"; "--no-install-recommends"].
Definition language_packages (name : string) : option (list string) :=
  let n := ToLower name in
  if bool_decide (n = "python") then Some ["python3"; "python3-pip"]
  else if bool_decide (n = "node") then Some ["nodejs"; "npm"]
  else if bool_decide (n = "go") then Some ["golang"]
  else None.
Definition installLanguage (rootDir : string) (language : LanguageConfig) : ST W unit :=
  if bool_decide (lang_Name language = "") then st_ret tt
  else match language_packages (lang_Name language) with
       | None => st_fail (Errorf "unsupported language runtime %q" [])
       | Some pkgs => st_wrap "install %s runtime: %w" (runChroot Caller rootDir (apt_install ++ pkgs))
       end.

Definition withChrootMounts (rootDir : string) (fn : ST W unit) : ST W unit :=
  let dev := path_Join [rootDir; "dev"] in
  let proc := path_Join [rootDir; "proc"] in
  st_wrap "mount /dev: %w" (runCommand Caller ["mount"; "--rbind"; "/dev"; dev]);;
  st_defer (runCommand Background ["umount"; "-R"; "-l"; dev])
    (st_wrap "mount /proc: %w" (runCommand Caller ["mount"; "-t"; "proc"; "proc"; proc]);;
     st_defer (runCommand Background ["umount"; "-l"; proc]) fn).

Definition buildRootfs (cfg : SnapConfig) (rootDir : string) : ST W unit :=
  source <- (λ w, (distroSource (rt_Distro (sc_Runtime cfg)), w));;
  st_wrap "bootstrap %s: %w"
    (runCommand Caller ["debootstrap"; "--variant=minbase"; fst source; rootDir; snd source]);;
  data <- st_try (bh_ReadFile "/etc/resolv.conf");;
  st_try (match data with
          | Ok data => bh_WriteFile (path_Join [rootDir; "etc"; "resolv.conf"]) data
          | Err _ => st_ret tt
          end);;
  withChrootMounts rootDir
    (st_wrap "apt update: %w" (runChroot Caller rootDir ["apt-get"; "update"]);;
     when (nonempty (dep_System (sc_Dependencies cfg)))
       (st_wrap "install system dependencies: %w"
          (runChroot Caller rootDir (apt_install ++ dep_System (sc_Dependencies cfg))));;
     installLanguage rootDir (sc_Language cfg);;
     when (nonempty (dep_Pip (sc_Dependencies cfg)))
       (st_wrap "install pip dependencies: %w"
          (runChroot Caller rootDir (["python3"; "-m"; "pip"; "install"] ++ dep_Pip (sc_Dependencies cfg))));;
     when (nonempty (dep_NPM (sc_Dependencies cfg)))
       (st_wrap "install npm dependencies: %w"
          (runChroot Caller rootDir (["npm"; "install"; "-g"] ++ dep_NPM (sc_Dependencies cfg))))).

Definition installGuestAgent (rootDir guestAgent : string) : ST W unit :=
  let dst := path_Join [rootDir; "usr"; "local"; "bin"; "shiyao-agent"] in
  bh_MkdirAll (path_Dir dst);;
  bh_Open guestAgent;;
  bh_Create dst;;
  bh_Copy dst (FromFile guestAgent);;
  bh_Chmod dst.

Definition writeEnvironment (rootDir : string) (env : list (string * string)) : ST W unit :=
  if negb (nonempty env) then st_ret tt
  else
    let path := path_Join [rootDir; "etc"; "shiyao-env"] in
    bh_MkdirAll (path_Dir path);;
    lines <- (λ w, (env_lines env, w));;
    bh_WriteFile path (Bytes (env_file lines)).

Definition dquote (s : string) : string := of_bytes [34] +:+ s +:+ of_bytes [34].
Definition copy_script : string :=
  "tar --exclude=./dev -C " +:+ dquote "$1" +:+ " -cpf - . | tar -C " +:+ dquote "$2" +:+ " -xpf -".
Definition createFilesystemImage (rootDir output : string) (diskMB : Z) : ST W unit :=
  st_wrap "mkfs.ext4 is required: %w" (bh_LookPath "mkfs.ext4");;
  st_wrap "create image directory: %w" (bh_MkdirAll (path_Dir output));;
  st_wrap "allocate filesystem image: %w"
    (runCommand Background ["dd"; "if=/dev/zero"; "of=" +:+ output; "bs=1M"; "count=" +:+ Itoa diskMB; "status=progress"]);;
  st_wrap "format filesystem image: %w" (runCommand Background ["mkfs.ext4"; "-F"; output]);;
  mountDir <- st_wrap "create image mount directory: %w" (bh_MkdirTemp (path_Dir output) ".shiyao-mount-");;
  st_defer (bh_RemoveAll mountDir)
    (st_wrap "mount filesystem image: %w" (runCommand Background ["mount"; "-o"; "loop"; output; mountDir]);;
     st_defer (runCommand Background ["umount"; "-l"; mountDir])
       (st_wrap "populate filesystem image: %w"
          (bh_Run Background ["sh"; "-c"; copy_script; "sh"; rootDir; mountDir]))).

Definition configDigest (cfg : SnapConfig) : string := sha256_hex (fmt_GoSyntax cfg).

Definition build_manifest (b : Builder) (cfg : SnapConfig) (now : Z) : Manifest :=
  mkManifest ManifestVersion (sc_Name cfg) (configDigest cfg) "vmlinux" "rootfs.ext4" (Clean (b_GuestAgent b)) now.

(** [Build] in its workspace: the image, then the uploads and the manifest *)
Definition build_image (b : Builder) (cfg : SnapConfig) (rootfs buildDir : string) : ST W unit :=
  let rootDir := path_Join [buildDir; "rootfs"] in
  st_wrap "create rootfs directory: %w" (bh_MkdirAll rootDir);;
  buildRootfs cfg rootDir;;
  st_wrap "install guest agent: %w" (installGuestAgent rootDir (b_GuestAgent b));;
  st_wrap "write environment: %w" (writeEnvironment rootDir (sc_Env cfg));;
  createFilesystemImage rootDir rootfs (res_DiskMB (sc_Resources cfg)).
Definition build_register (b : Builder) (cfg : SnapConfig) (rootfs : string) : ST W Manifest :=
  st_wrap "upload kernel artifact: %w" (PushArtifact (sc_Name cfg) "vmlinux" (b_Kernel b));;
  st_wrap "upload rootfs artifact: %w" (PushArtifact (sc_Name cfg) "rootfs.ext4" rootfs);;
  now <- (λ w, (Ok (bh_Now w), w));;
  let manifest := build_manifest b cfg now in
  st_wrap "register snapshot: %w" (registry_Put manifest);;
  st_ret manifest.

Definition Build (b : Builder) (cfg : SnapConfig) (rootfs : string) : ST W Manifest :=
  cfg <- (λ w, (snap_Validate cfg, w));;
  if bool_decide (rootfs = "") then st_fail (Errorf "rootfs path is required" [])
  else
    st_wrap "stat kernel: %w" (bh_Stat (b_Kernel b));;
    st_wrap "stat guest agent: %w" (bh_Stat (b_GuestAgent b));;
    st_wrap "debootstrap is required: %w" (bh_LookPath "debootstrap");;
    let workDir := if bool_decide (b_WorkDir b = "") then path_Dir rootfs else b_WorkDir b in
    st_wrap "create build directory: %w" (bh_MkdirAll workDir);;
    buildDir <- st_wrap "create build workspace: %w" (bh_MkdirTemp workDir ".shiyao-build-");;
    st_defer (bh_RemoveAll buildDir) (build_image b cfg rootfs buildDir;; build_register b cfg rootfs).
End Builder.

(** ** The documented behaviour of the host *)

(** The mount table, newest first: [mount] pushes a mount point, [umount]
    takes its newest entry away, and other commands leave the table alone. *)
Fixpoint remove_first (d : string) (l : list string) : list string :=
  match l with
  | [] => []
  | x :: l => if bool_decide (x = d) then l else x :: remove_first d l
  end.
Definition mount_effect (args : list string) (l : list string) : list string :=
  match args with
  | ["mount"; "--rbind"; _; d] | ["mount"; "-t"; _; _; d] | ["mount"; "-o"; _; _; d] => d :: l
  | ["umount"; "-R"; "-l"; d] | ["umount"; "-l"; d] => remove_first d l
  | _ => l
  end.
Definition umount_target (args : list string) : option string :=
  match args with
  | ["umount"; "-R"; "-l"; d] | ["umount"; "-l"; d] => Some d
  | _ => None
  end.
Definition below (dir path : string) : bool := bool_decide (path = dir) || HasPrefix path (dir +:+ "/").

Section View.
Context {W : Type}.
Variables (mounts : W → list string) (damaged : W → bool).
Variables (objects : W → string → string → option Object) (contents : W → string → option Object).
(** The state of the host that outlives a build *)
Definition host_view (w : W) : list string * bool := (mounts w, damaged w).
Definition reader_contents (w : W) (r : Reader) : option Object :=
  match r with FromBytes o => Some o | FromFile p => contents w p end.
(** An operation that touches neither mounts nor objects *)
Definition local_op {A} (c : ST W A) : Prop :=
  preserves host_view c ∧ ∀ b k, preserves (λ w, objects w b k) c.
(** An operation that writes at most the file [p] *)
Definition writes_file (p : string) (w w' : W) : Prop := ∀ q, Clean q ≠ Clean p → contents w' q = contents w q.
Definition writes_object (b k : string) (w w' : W) : Prop :=
  ∀ b' k', (b', k') ≠ (b, k) → objects w' b' k' = objects w b' k'.
End View.

(** [damaged] records that a recursive removal went through a mount point.
    A directory of [os.MkdirTemp] is new: nothing is mounted at it or below.
    A failed write may leave anything in the file or object written to; a
    mount command that fails has not mounted anything. *)
Class BuildLaws (W : Type) `{BuildHost W} := {
  mounts : W → list string;
  damaged : W → bool;
  objects : W → string → string → option Object;
  contents : W → string → option Object;
  MkdirAll_law p : local_op mounts damaged objects (bh_MkdirAll p) ∧ ∀ q, preserves (λ w, contents w q) (bh_MkdirAll p);
  Open_law p : local_op mounts damaged objects (bh_Open p) ∧ ∀ q, preserves (λ w, contents w q) (bh_Open p);
  ReadFile_law p : local_op mounts damaged objects (bh_ReadFile p) ∧
    ∀ w o, fst (bh_ReadFile p w) = Ok o → contents w p = Some o;
  Create_law p : local_op mounts damaged objects (bh_Create p) ∧ ∀ w, writes_file contents p w (snd (bh_Create p w));
  Copy_law p r : local_op mounts damaged objects (bh_Copy p r) ∧
    ∀ w, fst (bh_Copy p r w) = Ok tt → contents (snd (bh_Copy p r w)) p = reader_contents contents w r;
  WriteFile_law p o : local_op mounts damaged objects (bh_WriteFile p o);
  Chmod_law p : local_op mounts damaged objects (bh_Chmod p);
  Stat_law p : local_op mounts damaged objects (bh_Stat p);
  LookPath_law p : local_op mounts damaged objects (bh_LookPath p);
  MkdirTemp_law d p : local_op mounts damaged objects (bh_MkdirTemp d p) ∧
    ∀ w t, fst (bh_MkdirTemp d p w) = Ok t → existsb (below t) (mounts w) = false;
  RemoveAll_law d w : let w' := snd (bh_RemoveAll d w) in
    mounts w' = mounts w ∧ (∀ b k, objects w' b k = objects w b k) ∧
    damaged w' = damaged w || existsb (below d) (mounts w);
  Run_law ctx args w r w' : bh_Run ctx args w = (r, w') →
    damaged w' = damaged w ∧ (∀ b k, objects w' b k = objects w b k) ∧
    mounts w' = match r with Ok _ => mount_effect args (mounts w) | Err _ => mounts w end;
  s3_Put_law c b k rd : preserves (host_view mounts damaged) (s3_PutObject c b k rd) ∧
    ∀ w, writes_object objects b k w (snd (s3_PutObject c b k rd w)) ∧
      (∀ q, contents (snd (s3_PutObject c b k rd w)) q = contents w q) ∧
      (fst (s3_PutObject c b k rd w) = Ok tt →
       objects (snd (s3_PutObject c b k rd w)) b k = reader_contents contents w rd ∧
       is_Some (reader_contents contents w rd));
  s3_Get_law c b k : local_op mounts damaged objects (s3_GetObject c b k) ∧
    (∀ q, preserves (λ w, contents w q) (s3_GetObject c b k)) ∧
    ∀ w o, fst (s3_GetObject c b k w) = Ok o → objects w b k = Some o;
}.
(** A lazy [umount] of a mount point, which no context cancels, succeeds. *)
Definition umount_works {W} `{BuildLaws W} : Prop :=
  ∀ args d w, umount_target args = Some d → d ∈ mounts w → fst (bh_Run Background args w) = Ok tt.

(** ** A simulated build host *)

Record SimBuild := mkSimBuild {
  sb_mounts : list string; sb_damaged : bool; sb_files : gmap string Object;
  sb_objects : gmap (string * string) Object; sb_dirs : nat; sb_broken : list (list string);
}.
Definition sb_set_files (f : gmap string Object) (w : SimBuild) : SimBuild :=
  mkSimBuild (sb_mounts w) (sb_damaged w) f (sb_objects w) (sb_dirs w) (sb_broken w).
Definition sb_set_objects (o : gmap (string * string) Object) (w : SimBuild) : SimBuild :=
  mkSimBuild (sb_mounts w) (sb_damaged w) (sb_files w) o (sb_dirs w) (sb_broken w).
Definition sb_read (r : Reader) (w : SimBuild) : option Object :=
  match r with FromBytes o => Some o | FromFile p => sb_files w !! Clean p end.
Definition sb_found {A} (o : option A) : result A :=
  match o with Some a => Ok a | None => Err (Errorf "ENOENT" []) end.
(** A command fails when it starts like an entry of [sb_broken]; with
    [lazy] a detached [umount] never does. *)
Definition sb_fails (lazy : bool) (args : list string) (w : SimBuild) : bool :=
  existsb (λ p, bool_decide (take (length p) args = p)) (sb_broken w) &&
  negb (lazy && bool_decide (is_Some (umount_target args))).

Definition sim_build (lazy : bool) : BuildHost SimBuild := {|
  bh_MkdirAll p := st_ret tt;
  bh_Open p := λ w, (sb_found ((λ _, tt) <$> sb_files w !! Clean p), w);
  bh_ReadFile p := λ w, (sb_found (sb_files w !! Clean p), w);
  bh_Create p := λ w, (Ok tt, sb_set_files (<[Clean p := Bytes ""]> (sb_files w)) w);
  bh_Copy p r := λ w,
    match sb_read r w with
    | Some o => (Ok tt, sb_set_files (<[Clean p := o]> (sb_files w)) w)
    | None => (Err (Errorf "ENOENT" []), w)
    end;
  bh_WriteFile p o := λ w, (Ok tt, sb_set_files (<[Clean p := o]> (sb_files w)) w);
  bh_Chmod p := st_ret tt;
  bh_Stat p := λ w, (sb_found ((λ _, tt) <$> sb_files w !! Clean p), w);
  bh_LookPath p := st_ret tt;
  bh_MkdirTemp d p := λ w,
    let t := d +:+ "/" +:+ p +:+ pretty (sb_dirs w) in
    if existsb (below t) (sb_mounts w) then (Err (Errorf "EEXIST" []), w)
    else (Ok t, mkSimBuild (sb_mounts w) (sb_damaged w) (sb_files w) (sb_objects w) (S (sb_dirs w)) (sb_broken w));
  bh_RemoveAll d := λ w,
    (Ok tt, mkSimBuild (sb_mounts w) (sb_damaged w || existsb (below d) (sb_mounts w))
              (filter (λ kv, below d kv.1 = false) (sb_files w)) (sb_objects w) (sb_dirs w) (sb_broken w));
  bh_Run ctx args := λ w,
    if sb_fails lazy args w then (Err (Errorf "exit status 1" []), w)
    else
      let files := match args with "mkfs.ext4" :: _ :: out :: _ => <[Clean out := Bytes "ext4"]> (sb_files w) | _ => sb_files w end in
      (Ok tt, mkSimBuild (mount_effect args (sb_mounts w)) (sb_damaged w) files (sb_objects w) (sb_dirs w) (sb_broken w));
  bh_Now w := 1700000000 * Second;
  s3_LoadDefaultConfig _ _ _ := st_ret tt;
  s3_PutObject c b k r := λ w,
    match sb_read r w with
    | Some o => (Ok tt, sb_set_objects (<[(b, k) := o]> (sb_objects w)) w)
    | None => (Err (Errorf "ENOENT" []), w)
    end;
  s3_GetObject c b k := λ w, (sb_found (sb_objects w !! (b, k)), w);
  yaml_UnmarshalStrict _ := Err (Errorf "yaml" []);
  json_Unmarshal _ := Err (Errorf "json" []);
  fmt_GoSyntax c := sc_Name c;
|}.

Lemma sb_objects_keep (lazy : bool) args w r w' :
  @bh_Run _ (sim_build lazy) Background args w = (r, w') → sb_objects w' = sb_objects w ∧ sb_damaged w' = sb_damaged w ∧
  sb_mounts w' = match r with Ok _ => mount_effect args (sb_mounts w) | Err _ => sb_mounts w end.
Proof. cbn. destruct sb_fails; intros; by simplify_eq/=. Qed.

Lemma sb_found_Ok {A} (o : option A) a : sb_found o = Ok a → o = Some a.
Proof. destruct o; naive_solver. Qed.

#[export] Instance sim_build_laws lazy : @BuildLaws SimBuild (sim_build lazy).
Proof.
  unshelve refine (@Build_BuildLaws _ (sim_build lazy) sb_mounts sb_damaged
    (λ w b k, sb_objects w !! (b, k)) (λ w p, sb_files w !! Clean p) _ _ _ _ _ _ _ _ _ _ _ _ _ _);
    unfold local_op, preserves, host_view, writes_file, writes_object, reader_contents.
  12: { intros ctx args w r w' Hr. apply sb_objects_keep in Hr as (E1 & ? & ?). by rewrite E1. }
  all: cbn; intros; repeat split_and!; intros; eauto using sb_found_Ok;
    repeat case_match; simplify_eq/=; try done; repeat split_and!; intros; simplify_eq; eauto.
  all: rewrite ?lookup_insert_eq; try by rewrite lookup_insert_ne by congruence.
  all: done.
Defined.

Section HostFrames.
Context {W : Type} `{HB : BuildHost W} `{HL : !BuildLaws W}.
Notation quiet := (preserves (host_view mounts damaged)).
Notation keeps b k := (preserves (λ w : W, objects w b k)).

Lemma quiet_MkdirAll p : quiet (bh_MkdirAll p). Proof. apply MkdirAll_law. Qed.
Lemma quiet_Open p : quiet (bh_Open p). Proof. apply Open_law. Qed.
Lemma quiet_ReadFile p : quiet (bh_ReadFile p). Proof. apply ReadFile_law. Qed.
Lemma quiet_Create p : quiet (bh_Create p). Proof. apply Create_law. Qed.
Lemma quiet_Copy p r : quiet (bh_Copy p r). Proof. apply Copy_law. Qed.
Lemma quiet_WriteFile p o : quiet (bh_WriteFile p o). Proof. apply WriteFile_law. Qed.
Lemma quiet_Chmod p : quiet (bh_Chmod p). Proof. apply Chmod_law. Qed.
Lemma quiet_Stat p : quiet (bh_Stat p). Proof. apply Stat_law. Qed.
Lemma quiet_LookPath p : quiet (bh_LookPath p). Proof. apply LookPath_law. Qed.
Lemma quiet_s3_Put c b k rd : quiet (s3_PutObject c b k rd). Proof. apply s3_Put_law. Qed.
Lemma quiet_s3_Get c b k : quiet (s3_GetObject c b k). Proof. apply s3_Get_law. Qed.

Lemma quiet_run ctx args : (∀ l, mount_effect args l = l) → quiet (bh_Run ctx args).
Proof.
  intros Ha w. destruct (bh_Run ctx args w) as [r w'] eqn:E. apply Run_law in E as (Ed & _ & Em).
  unfold host_view. simpl. rewrite Ed, Em. destruct r; by rewrite ?Ha.
Qed.
Lemma remove_first_head d l : remove_first d (d :: l) = l.
Proof. simpl. by rewrite bool_decide_true. Qed.

(** A mount and its deferred lazy [umount] around a computation that leaves
    the mount table alone *)
Lemma quiet_mounted {A} s ctx d mount umount (c : ST W A) :
  umount_works → (∀ l, mount_effect mount l = d :: l) →
  umount_target umount = Some d → (∀ l, mount_effect umount l = remove_first d l) → quiet c →
  quiet (st_bind (st_wrap s (runCommand ctx mount)) (λ _, st_defer (runCommand Background umount) c)).
Proof.
  intros HU Hm Ht Hu Hc w. unfold runCommand. run.
  destruct (bh_Run ctx mount w) as [[[]|e] w1] eqn:E1; apply Run_law in E1 as (Ed1 & _ & Em1); simpl.
  2: { unfold host_view. by rewrite Ed1, Em1. }
  unfold st_defer. specialize (Hc w1). destruct (c w1) as [r w2]. simpl in Hc |- *.
  injection Hc as Em2 Ed2. rewrite Hm in Em1.
  specialize (HU umount d w2 Ht ltac:(rewrite Em2, Em1; left)).
  destruct (bh_Run Background umount w2) as [r3 w3] eqn:E3. simpl in HU. subst r3.
  apply Run_law in E3 as (Ed3 & _ & Em3). unfold host_view. simpl.
  by rewrite Ed3, Em3, Hu, Em2, Em1, remove_first_head, Ed2, Ed1.
Qed.

(** A temporary directory and its deferred removal *)
Lemma quiet_temp {A} s d p (k : string → ST W A) :
  (∀ t, quiet (k t)) →
  quiet (st_bind (st_wrap s (bh_MkdirTemp d p)) (λ t, st_defer (bh_RemoveAll t) (k t))).
Proof.
  intros Hk w. destruct (MkdirTemp_law d p) as [[Hq _] Hf]. specialize (Hq w). specialize (Hf w). run.
  destruct (bh_MkdirTemp d p w) as [[t|e] w1]; simpl in *; [|done].
  unfold st_defer. specialize (Hk t w1). destruct (k t w1) as [r w2]. simpl in *.
  injection Hk as Em2 Ed2. injection Hq as Em1 Ed1.
  destruct (RemoveAll_law t w2) as (Em3 & _ & Ed3). unfold host_view.
  by rewrite Em3, Ed3, Em2, Em1, (Hf t eq_refl), Ed2, Ed1, orb_false_r.
Qed.

Lemma keeps_run b k ctx args : keeps b k (bh_Run ctx args).
Proof. intros w. destruct (bh_Run ctx args w) as [r w'] eqn:E. by apply Run_law in E as (_ & Eo & _). Qed.
Lemma keeps_RemoveAll b k d : keeps b k (bh_RemoveAll d).
Proof. intros w. apply RemoveAll_law. Qed.
Lemma keeps_MkdirAll b k p : keeps b k (bh_MkdirAll p). Proof. apply MkdirAll_law. Qed.
Lemma keeps_Open b k p : keeps b k (bh_Open p). Proof. apply Open_law. Qed.
Lemma keeps_ReadFile b k p : keeps b k (bh_ReadFile p). Proof. apply ReadFile_law. Qed.
Lemma keeps_Create b k p : keeps b k (bh_Create p). Proof. apply Create_law. Qed.
Lemma keeps_Copy b k p r : keeps b k (bh_Copy p r). Proof. apply Copy_law. Qed.
Lemma keeps_WriteFile b k p o : keeps b k (bh_WriteFile p o). Proof. apply WriteFile_law. Qed.
Lemma keeps_Chmod b k p : keeps b k (bh_Chmod p). Proof. apply Chmod_law. Qed.
Lemma keeps_Stat b k p : keeps b k (bh_Stat p). Proof. apply Stat_law. Qed.
Lemma keeps_LookPath b k p : keeps b k (bh_LookPath p). Proof. apply LookPath_law. Qed.
Lemma keeps_MkdirTemp b k d p : keeps b k (bh_MkdirTemp d p). Proof. apply MkdirTemp_law. Qed.
End HostFrames.
#[export] Hint Resolve quiet_MkdirAll quiet_Open quiet_ReadFile quiet_Create quiet_Copy quiet_WriteFile
  quiet_Chmod quiet_Stat quiet_LookPath quiet_s3_Put quiet_s3_Get quiet_run keeps_run keeps_RemoveAll
  keeps_MkdirAll keeps_Open keeps_ReadFile keeps_Create keeps_Copy keeps_WriteFile keeps_Chmod keeps_Stat
  keeps_LookPath keeps_MkdirTemp : frame.
(** ** What a build leaves behind *)

Section Builds.
Context {W : Type} `{HB : BuildHost W} `{HL : !BuildLaws W} `{HU : UnicodeCase}.
Notation quiet := (preserves (host_view mounts damaged)).

Lemma quiet_PutObject s key rd : quiet (@PutObject W (any_store s) key rd).
Proof. destruct s; cbn; unfold local_PutObject, S3Store_PutObject; frame. Qed.
Lemma quiet_PushArtifact s n a p : quiet (@PushArtifact W _ (any_store s) n a p).
Proof. unfold PushArtifact. frame. apply quiet_PutObject. Qed.
Lemma quiet_registry_Put s m : quiet (@registry_Put W (any_store s) m).
Proof. unfold registry_Put. frame. apply quiet_PutObject. Qed.
Lemma quiet_chroot ctx d args : quiet (runChroot ctx d args).
Proof. unfold runChroot, runCommand. frame. Qed.
Lemma quiet_installLanguage d l : quiet (installLanguage d l).
Proof. unfold installLanguage. frame; apply quiet_chroot. Qed.

Lemma quiet_withChrootMounts d fn : umount_works → quiet fn → quiet (withChrootMounts d fn).
Proof.
  intros Hu Hf. unfold withChrootMounts.
  eapply quiet_mounted; [done|done|done|done|]. eapply quiet_mounted; done.
Qed.
Lemma quiet_buildRootfs cfg d : umount_works → quiet (buildRootfs cfg d).
Proof.
  intros Hu. unfold buildRootfs, runCommand. frame.
  apply quiet_withChrootMounts; [done|]. frame; auto using quiet_chroot, quiet_installLanguage.
Qed.
Lemma quiet_createFilesystemImage d out mb : umount_works → quiet (createFilesystemImage d out mb).
Proof.
  intros Hu. unfold createFilesystemImage.
  do 4 (apply preserves_bind; [unfold runCommand; frame|intros _]).
  apply quiet_temp. intros t. eapply quiet_mounted; [done|done|done|done|]. frame.
Qed.
Lemma quiet_build_image b cfg out d : umount_works → quiet (build_image b cfg out d).
Proof.
  intros Hu. unfold build_image, installGuestAgent, writeEnvironment.
  frame; auto using quiet_buildRootfs, quiet_createFilesystemImage.
Qed.
Lemma quiet_build_register s b cfg out : quiet (@build_register W _ (any_store s) b cfg out).
Proof. unfold build_register. frame; auto using quiet_PushArtifact, quiet_registry_Put. Qed.

(** C17: A build, whichever of its steps fails and whichever store the registry
    uses, takes every mount it made away again before it removes its
    directories: the mount table of the host is as before, and no recursive
    removal reaches through the mount of /dev, of /proc or of the image. *)
Theorem build_spares_host s b cfg rootfs w r w' :
  umount_works → @Build W _ (any_store s) _ b cfg rootfs w = (r, w') →
  mounts w' = mounts w ∧ damaged w' = damaged w.
Proof.
  intros Hu E.
  assert (quiet (@Build W _ (any_store s) _ b cfg rootfs)) as Hq.
  { unfold Build. apply preserves_bind; [done|intros c]. apply preserves_if; [done|].
    do 4 (apply preserves_bind; [frame|intros _]). apply quiet_temp. intros t.
    apply preserves_bind; auto using quiet_build_image, quiet_build_register. }
  specialize (Hq w). rewrite E in Hq. by injection Hq.
Qed.
End Builds.

(** ** The registry over its stores *)

(** What a store promises to the registry: an object that was put is what a
    reader of its key yields.  [kept_apart p k] says that the file [p] is not
    the one that holds the object [k]. *)
Class StoreLaws (W : Type) `{BuildLaws W} (S : Store W) := {
  stored : W → string → option Object;
  kept_apart : string → string → Prop;
  put_law k rd w w' : PutObject k rd w = (Ok tt, w') →
    (∀ p, rd = FromFile p → kept_apart p k) → stored w' k = reader_contents contents w rd;
  get_law k w rd w' : GetObject k w = (Ok rd, w') →
    reader_contents contents w' rd = stored w k ∧
    ∀ p w2, kept_apart p k → writes_file contents p w' w2 → reader_contents contents w2 rd = stored w k;
}.

Section Stores.
Context {W : Type} `{HB : BuildHost W} `{HL : !BuildLaws W}.

Lemma MkdirAll_contents p q w : contents (snd (bh_MkdirAll p w)) q = contents w q.
Proof. apply MkdirAll_law. Qed.
Lemma Open_contents p q w : contents (snd (bh_Open p w)) q = contents w q.
Proof. apply Open_law. Qed.

#[export] Instance local_store_laws l : StoreLaws W (any_store (Local l)).
Proof.
  refine {| stored w k := contents w (path_Join [ls_Root l; k]);
            kept_apart p k := Clean p ≠ Clean (path_Join [ls_Root l; k]) |}; cbn.
  - intros k rd w w'. unfold local_PutObject. set (path := path_Join _). run. intros E Hp.
    pose proof (MkdirAll_contents (path_Dir path)) as Hm.
    destruct (bh_MkdirAll _ w) as [[[]|] w1] eqn:E1; [|done].
    destruct (Create_law path) as [_ Hc]. specialize (Hc w1).
    destruct (bh_Create path w1) as [[[]|] w2] eqn:E2; [|done].
    destruct (Copy_law path rd) as [_ Hy]. specialize (Hy w2).
    destruct (bh_Copy path rd w2) as [[[]|] w3] eqn:E3; [|done]. simplify_eq/=. rewrite Hy by done.
    destruct rd as [o|p]; [done|]. simpl. rewrite Hc by (by apply Hp). specialize (Hm p w). by rewrite E1 in Hm.
  - intros k w rd w'. unfold local_GetObject. set (path := path_Join _). run. intros E.
    pose proof (Open_contents path) as Ho.
    destruct (bh_Open path w) as [[[]|] w1] eqn:E1; [|done]. simplify_eq/=.
    specialize (Ho path w). rewrite E1 in Ho. split; [done|]. intros p w2 Hp Hw.
    rewrite Hw; [done|]. by apply not_eq_sym.
Defined.

#[export] Instance s3_store_laws s : StoreLaws W (any_store (S3 s)).
Proof.
  refine {| stored w k := objects w (ss_bucket s) k; kept_apart _ _ := True |}; cbn.
  - intros k rd w w'. unfold S3Store_PutObject. run.
    destruct (s3_Put_law (ss_client s) (ss_bucket s) k rd) as [_ Hp]. destruct (Hp w) as (_ & _ & Ho).
    destruct (s3_PutObject _ _ k rd w) as [[[]|] w1]; [|done]. intros. simplify_eq/=. by apply Ho.
  - intros k w rd w'. unfold S3Store_GetObject. run.
    destruct (s3_Get_law (ss_client s) (ss_bucket s) k) as (_ & _ & Ho). specialize (Ho w).
    destruct (s3_GetObject _ _ k w) as [[o|] w1]; [|done]. intros. simplify_eq/=. by rewrite (Ho o eq_refl).
Defined.

Section Laws.
Context (S : Store W) `{HS : !StoreLaws W S}.

Lemma json_Marshal_Ok m o : json_Marshal m = Ok o → o = JSON (json_manifest m).
Proof. unfold json_Marshal. by destruct (json_year_ok _); intros; simplify_eq. Qed.
Lemma put_manifest m w w' :
  registry_Put m w = (Ok tt, w') → stored w' (artifact_key (mf_Name m) "manifest.json") = Some (JSON (json_manifest m)).
Proof.
  unfold registry_Put. case_bool_decide; [done|]. run.
  destruct (json_Marshal m) as [o|] eqn:Em; [|done]. intros E.
  apply put_law in E; [|done]. by rewrite E, (json_Marshal_Ok _ _ Em).
Qed.
Lemma get_manifest name m w m' w' :
  stored w (artifact_key name "manifest.json") = Some (JSON m) → registry_Get name w = (Ok m', w') → m' = m.
Proof.
  intros Hs. unfold registry_Get, read_all. run.
  destruct (GetObject _ w) as [[rd|] w1] eqn:E1; [|done].
  apply get_law in E1 as [Hr _]. rewrite Hs in Hr. destruct rd as [o|p]; simpl in *.
  - unfold st_ret. by simplify_eq/=; intros; simplify_eq/=.
  - destruct (ReadFile_law p) as [_ Hf]. specialize (Hf w1).
    destruct (bh_ReadFile p w1) as [[o|] w2]; [|done]. simpl in *. specialize (Hf o eq_refl).
    rewrite Hr in Hf. by simplify_eq/=; intros; simplify_eq/=.
Qed.
Lemma push_pull name a src dst w w1 w2 :
  kept_apart src (artifact_key name a) → kept_apart dst (artifact_key name a) →
  PushArtifact name a src w = (Ok tt, w1) → PullArtifact name a dst w1 = (Ok tt, w2) →
  contents w2 dst = contents w src.
Proof.
  intros Hs Hd. unfold PushArtifact, PullArtifact. run.
  pose proof (Open_contents src src w) as Ho. destruct (bh_Open src w) as [[[]|] w0]; [|done].
  intros E. apply put_law in E; [|by intros p [= <-]]. simpl in *.
  destruct (GetObject _ w1) as [[rd|] w3] eqn:E3; [|done]. apply get_law in E3 as [_ Hr].
  pose proof (MkdirAll_contents (path_Dir dst)) as Hm. destruct (bh_MkdirAll _ w3) as [[[]|] w4] eqn:E4; [|done].
  destruct (Create_law dst) as [_ Hc]. specialize (Hc w4). destruct (bh_Create dst w4) as [[[]|] w5]; [|done].
  destruct (Copy_law dst rd) as [_ Hy]. specialize (Hy w5).
  destruct (bh_Copy dst rd w5) as [[[]|] w6]; [|done]. intros. simplify_eq/=. rewrite Hy by done.
  rewrite (Hr dst w5), E, Ho; [done|done|]. intros q Hq. rewrite Hc by done. specialize (Hm q w3). by rewrite E4 in Hm.
Qed.
End Laws.
End Stores.

Definition manifest_valid (m : Manifest) : bool :=
  forallb ValidString [mf_Version m; mf_Name m; mf_ConfigDigest m; mf_KernelPath m; mf_RootfsPath m; mf_GuestAgent m].
Lemma json_manifest_valid m : manifest_valid m = true → json_manifest m = m.
Proof.
  unfold manifest_valid. cbn. rewrite !andb_true_iff. intros (? & ? & ? & ? & ? & ? & _).
  unfold json_manifest. rewrite !json_string_valid by done. by destruct m.
Qed.

Section RegistryTheorems.
Context {W : Type} `{HB : BuildHost W} `{HL : !BuildLaws W} `{HU : UnicodeCase}.

(** C32: Both stores give back what the registry put into them: a manifest (with
    the bytes that are not UTF-8 replaced, as JSON does) under its name, and
    the contents of a pushed file to a pull of the artifact, when neither
    file is the one in which the local store keeps it. *)
Theorem registry_roundtrip (S : Store W) `{HS : !StoreLaws W S} m m' name a src dst w w1 w2 v v1 v2 :
  registry_Put m w = (Ok tt, w1) → registry_Get (mf_Name m) w1 = (Ok m', w2) →
  PushArtifact name a src v = (Ok tt, v1) → PullArtifact name a dst v1 = (Ok tt, v2) →
  kept_apart src (artifact_key name a) → kept_apart dst (artifact_key name a) →
  m' = json_manifest m ∧ (manifest_valid m = true → m' = m) ∧ contents v2 dst = contents v src.
Proof.
  intros Hp Hg Hpush Hpull Hs Hd. apply (put_manifest S) in Hp.
  pose proof (get_manifest S _ _ _ _ _ Hp Hg) as ->.
  split_and!; [done|apply json_manifest_valid|by eapply push_pull].
Qed.

(** *** Builds against an object store *)

Notation keeps b k := (preserves (λ w : W, objects w b k)).
Lemma keeps_put s key rd b k : (b, k) ≠ (ss_bucket s, key) → keeps b k (S3Store_PutObject s key rd).
Proof.
  intros Hne. unfold S3Store_PutObject. apply preserves_wrap. intros w.
  destruct (s3_Put_law (ss_client s) (ss_bucket s) key rd) as [_ Hp]. by apply Hp.
Qed.
Lemma keeps_PushArtifact s n a p b k :
  (b, k) ≠ (ss_bucket s, artifact_key n a) → keeps b k (@PushArtifact W _ (any_store (S3 s)) n a p).
Proof. intros. unfold PushArtifact. cbn. frame. by apply keeps_put. Qed.
Lemma keeps_registry_Put s m b k :
  (b, k) ≠ (ss_bucket s, artifact_key (mf_Name m) "manifest.json") →
  keeps b k (@registry_Put W (any_store (S3 s)) m).
Proof. intros. unfold registry_Put. cbn. frame. by apply keeps_put. Qed.

Lemma push_stores s n a p w w' :
  @PushArtifact W _ (any_store (S3 s)) n a p w = (Ok tt, w') → is_Some (objects w' (ss_bucket s) (artifact_key n a)).
Proof.
  unfold PushArtifact. cbn. unfold S3Store_PutObject. run.
  destruct (bh_Open p w) as [[[]|] w1]; [|done].
  destruct (s3_Put_law (ss_client s) (ss_bucket s) (artifact_key n a) (FromFile p)) as [_ Hp].
  destruct (Hp w1) as (_ & _ & Ho). destruct (s3_PutObject _ _ _ _ w1) as [[[]|] w2]; [|done].
  intros. simplify_eq/=. destruct (Ho eq_refl) as [-> ?]. done.
Qed.

Lemma keeps_build_image b cfg rootfs d bk k : keeps bk k (build_image b cfg rootfs d).
Proof.
  unfold build_image, installGuestAgent, writeEnvironment, createFilesystemImage, buildRootfs, withChrootMounts,
    installLanguage, runChroot, runCommand. frame.
Qed.

Lemma artifact_key_inj n a b : artifact_key n a = artifact_key n b → a = b.
Proof. unfold artifact_key. intros E%(inj (String.append n)). by apply (inj (String.append "/")) in E. Qed.

(** The three keys that a build of [n] writes *)
Definition build_keys (n : string) : list string := artifact_key n <$> ["vmlinux"; "rootfs.ext4"; "manifest.json"].

Lemma keeps_build_register s b cfg rootfs bk k :
  bk ≠ ss_bucket s ∨ k ∉ build_keys (sc_Name cfg) → keeps bk k (@build_register W _ (any_store (S3 s)) b cfg rootfs).
Proof.
  intros Hk. assert (∀ a, a ∈ ["vmlinux"; "rootfs.ext4"; "manifest.json"] →
    (bk, k) ≠ (ss_bucket s, artifact_key (sc_Name cfg) a)) as Hne.
  { intros a Ha [= -> ->]. destruct Hk as [Hk|Hk]; [done|]. apply Hk. by apply list_elem_of_fmap_2. }
  unfold build_register. frame; first [apply keeps_PushArtifact|apply keeps_registry_Put]; apply Hne; set_solver.
Qed.

(** The outcome of the last phase: a manifest only beside its artifacts *)
Lemma build_register_outcome s b cfg rootfs w r w' :
  @build_register W _ (any_store (S3 s)) b cfg rootfs w = (r, w') →
  match r with
  | Ok m => m = build_manifest b cfg (mf_CreatedAt m) ∧
      objects w' (ss_bucket s) (artifact_key (sc_Name cfg) "manifest.json") = Some (JSON (json_manifest m)) ∧
      is_Some (objects w' (ss_bucket s) (artifact_key (sc_Name cfg) "vmlinux")) ∧
      is_Some (objects w' (ss_bucket s) (artifact_key (sc_Name cfg) "rootfs.ext4"))
  | Err e => (∃ e', e = Errorf "register snapshot: %w" [e']) ∨
      objects w' (ss_bucket s) (artifact_key (sc_Name cfg) "manifest.json") =
      objects w (ss_bucket s) (artifact_key (sc_Name cfg) "manifest.json")
  end.
Proof.
  set (key := artifact_key (sc_Name cfg)).
  assert (∀ a a', a ≠ a' → (ss_bucket s, key a) ≠ (ss_bucket s, key a')) as Hne.
  { intros a a' Ha [= E%artifact_key_inj]. done. }
  unfold build_register. run.
  pose proof (keeps_PushArtifact s (sc_Name cfg) "vmlinux" (b_Kernel b) _ _ (Hne "manifest.json" "vmlinux" ltac:(done)) w) as K1.
  destruct (@PushArtifact _ _ _ _ "vmlinux" _ w) as [[[]|] w1] eqn:E1; simpl in *; [|by intros; simplify_eq; right].
  pose proof (keeps_PushArtifact s (sc_Name cfg) "rootfs.ext4" rootfs _ _ (Hne "manifest.json" "rootfs.ext4" ltac:(done)) w1) as K2.
  pose proof (keeps_PushArtifact s (sc_Name cfg) "rootfs.ext4" rootfs _ _ (Hne "vmlinux" "rootfs.ext4" ltac:(done)) w1) as K3.
  destruct (@PushArtifact _ _ _ _ "rootfs.ext4" _ w1) as [[[]|] w2] eqn:E2; simpl in *;
    [|by intros; simplify_eq; right; rewrite K2].
  apply push_stores in E1, E2. set (m := build_manifest b cfg (bh_Now w2)).
  assert (∀ a, a ≠ "manifest.json" → keeps (ss_bucket s) (key a) (@registry_Put W (any_store (S3 s)) m)) as K4.
  { intros a Ha. by apply keeps_registry_Put, Hne. }
  pose proof (K4 "vmlinux" ltac:(done) w2) as K5. pose proof (K4 "rootfs.ext4" ltac:(done) w2) as K6.
  destruct (@registry_Put _ _ m w2) as [[[]|] w3] eqn:E3; simpl in *; intros; simplify_eq; [|by left; eexists].
  apply (put_manifest (any_store (S3 s))) in E3. split_and!; [done|done|by rewrite K5, K3|by rewrite K6].
Qed.

Lemma snap_Validate_Ok cfg c : snap_Validate cfg = Ok c → c = applyDefaults cfg.
Proof. unfold snap_Validate. intros. repeat case_match; by simplify_eq. Qed.
Lemma keeps_build s b cfg rootfs bk k :
  bk ≠ ss_bucket s ∨ k ∉ build_keys (sc_Name cfg) → keeps bk k (@Build W _ (any_store (S3 s)) _ b cfg rootfs).
Proof.
  intros Hk. unfold Build. apply preserves_bind_ok; [done|].
  intros c ? ? [= E%snap_Validate_Ok _]. subst c.
  frame; [apply keeps_build_image|by apply keeps_build_register].
Qed.

(** C31: A build against an object store writes the manifest last: when it
    succeeds, the manifest that it returns is the one registered under the
    name of the configuration, beside both artifacts; when it fails before,
    the registered manifest is the one that was there.  Objects of other
    snapshots never change. *)
Theorem build_registers_last s b cfg rootfs w r w' :
  @Build W _ (any_store (S3 s)) _ b cfg rootfs w = (r, w') →
  (match r with
   | Ok m => m = build_manifest b (applyDefaults cfg) (mf_CreatedAt m) ∧
       objects w' (ss_bucket s) (artifact_key (sc_Name cfg) "manifest.json") = Some (JSON (json_manifest m)) ∧
       is_Some (objects w' (ss_bucket s) (artifact_key (sc_Name cfg) "vmlinux")) ∧
       is_Some (objects w' (ss_bucket s) (artifact_key (sc_Name cfg) "rootfs.ext4"))
   | Err e => (∃ e', e = Errorf "register snapshot: %w" [e']) ∨
       objects w' (ss_bucket s) (artifact_key (sc_Name cfg) "manifest.json") =
       objects w (ss_bucket s) (artifact_key (sc_Name cfg) "manifest.json")
   end) ∧
  ∀ bk k, bk ≠ ss_bucket s ∨ k ∉ build_keys (sc_Name cfg) → objects w' bk k = objects w bk k.
Proof.
  intros E. split.
  2: { intros bk k Hk. pose proof (keeps_build s b cfg rootfs bk k Hk w) as K. by rewrite E in K. }
  revert w r w' E. apply (outcome_bind (λ w, objects w (ss_bucket s) (artifact_key (sc_Name cfg) "manifest.json")) _
    (λ e, ∃ e', e = Errorf "register snapshot: %w" [e'])); [done|].
  intros c v v' [= Ec%snap_Validate_Ok _]. subst c. case_bool_decide; [apply outcome_fail|].
  do 4 (apply outcome_bind; [frame|intros _ _ _ _]). apply outcome_bind; [frame|intros d _ _ _].
  apply outcome_defer; [frame| |].
  - intros m w. destruct (RemoveAll_law d w) as (_ & K & _). by rewrite !K.
  - apply outcome_bind; [apply keeps_build_image|]. intros _ _ _ _ w r w' E. by apply build_register_outcome in E.
Qed.
End RegistryTheorems.

(** ** A build on the simulated host *)

Definition demo_config : SnapConfig :=
  mkSnapConfig "" "py" "" (mkRuntimeConfig "" "" "") (mkLanguageConfig "" "") (mkDependencies ["curl"] [] [])
    (mkResources 2 512 2048) [("MODE", "it's")] (mkNetworkPolicy [] true).
Definition demo_builder : Builder := mkBuilder "/boot/vmlinux" "/opt/agent" "".
Definition demo_host (broken : list (list string)) : SimBuild :=
  mkSimBuild ["/"; "/dev"] false
    {["/boot/vmlinux" := Bytes "kernel"; "/opt/agent" := Bytes "agent"]} ∅ 0 broken.
Definition demo_store : S3Store := mkS3Store (mkClientOptions "eu" None false) "snapshots".
Definition demo_case : UnicodeCase := {| unicode_ToLower := λ r, r |}.
Definition demo_build (lazy : bool) (st : AnyStore) (broken : list (list string)) : result Manifest * SimBuild :=
  @Build SimBuild (sim_build lazy) (@any_store _ (sim_build lazy) st) demo_case demo_builder demo_config "/img/py.ext4"
    (demo_host broken).

Lemma lazy_umount_works : @umount_works SimBuild (sim_build true) (sim_build_laws true).
Proof.
  intros args d w Ht _. cbn. unfold sb_fails. rewrite Ht, bool_decide_true by done. by rewrite andb_false_r.
Qed.

(** The package installation fails, the mounts are gone all the same. *)
Definition demo_broken : list (list string) := [["chroot"; "/img/.shiyao-build-0/rootfs"; "apt-get"; "install"]].
Lemma build_spares_host_witness :
  is_ok (demo_build true (Local (mkLocalStore "/reg")) demo_broken).1 = false ∧
  (@mounts _ _ (sim_build_laws true) (demo_build true (Local (mkLocalStore "/reg")) demo_broken).2 =
   @mounts _ _ (sim_build_laws true) (demo_host demo_broken) ∧
   @damaged _ _ (sim_build_laws true) (demo_build true (Local (mkLocalStore "/reg")) demo_broken).2 =
   @damaged _ _ (sim_build_laws true) (demo_host demo_broken)).
Proof.
  split; [vm_compute; reflexivity|].
  apply (@build_spares_host SimBuild (sim_build true) (sim_build_laws true) demo_case
    (Local (mkLocalStore "/reg")) demo_builder demo_config "/img/py.ext4" (demo_host demo_broken)
    (demo_build true (Local (mkLocalStore "/reg")) demo_broken).1
    (demo_build true (Local (mkLocalStore "/reg")) demo_broken).2 lazy_umount_works).
  apply surjective_pairing.
Defined.
Lemma build_registers_last_witness :
  is_ok (demo_build true (S3 demo_store) []).1 = true ∧
  ∀ bk k, bk ≠ ss_bucket demo_store ∨ k ∉ build_keys (sc_Name demo_config) →
    @objects _ _ (sim_build_laws true) (demo_build true (S3 demo_store) []).2 bk k =
    @objects _ _ (sim_build_laws true) (demo_host []) bk k.
Proof.
  split; [vm_compute; reflexivity|].
  apply (@build_registers_last SimBuild (sim_build true) (sim_build_laws true) demo_case demo_store demo_builder
    demo_config "/img/py.ext4" (demo_host []) (demo_build true (S3 demo_store) []).1
    (demo_build true (S3 demo_store) []).2).
  apply surjective_pairing.
Defined.

Definition demo_manifest : Manifest := mkManifest "v1alpha1" "py" "00" "vmlinux" "rootfs.ext4" "/opt/agent" 0.
Definition demo_registry : Store SimBuild := @any_store _ (sim_build true) (Local (mkLocalStore "/reg")).
Definition demo_put : result unit * SimBuild := @registry_Put _ demo_registry demo_manifest (demo_host []).
Definition demo_push : result unit * SimBuild :=
  @PushArtifact _ (sim_build true) demo_registry "py" "vmlinux" "/boot/vmlinux" (demo_host []).
Lemma registry_roundtrip_witness :
  sb_files demo_put.2 !! "/reg/py/manifest.json" = Some (JSON demo_manifest) ∧
  (json_manifest demo_manifest = demo_manifest ∧ (manifest_valid demo_manifest = true → demo_manifest = demo_manifest) ∧
   @contents _ _ (sim_build_laws true) (@PullArtifact _ (sim_build true) demo_registry "py" "vmlinux" "/run/vmlinux" demo_push.2).2
     "/run/vmlinux" = Some (Bytes "kernel")).
Proof.
  split; [vm_compute; reflexivity|].
  destruct (@registry_roundtrip SimBuild (sim_build true) (sim_build_laws true) demo_registry
    (@local_store_laws _ (sim_build true) (sim_build_laws true) (mkLocalStore "/reg"))
    demo_manifest demo_manifest "py" "vmlinux" "/boot/vmlinux" "/run/vmlinux" (demo_host []) demo_put.2
    (@registry_Get _ (sim_build true) demo_registry "py" demo_put.2).2 (demo_host []) demo_push.2
    (@PullArtifact _ (sim_build true) demo_registry "py" "vmlinux" "/run/vmlinux" demo_push.2).2) as (E1 & E2 & E3);
    try (vm_compute; reflexivity); try (vm_compute; discriminate).
  split; [by rewrite <- E1|]. split; [done|]. rewrite E3. vm_compute. reflexivity.
Defined.

Definition damaged_after : bool := sb_damaged (demo_build false (S3 demo_store) [["umount"]]).2.
Definition with_name (name : string) (c : SnapConfig) : SnapConfig :=
  mkSnapConfig (sc_Version c) name (sc_Description c) (sc_Runtime c) (sc_Language c) (sc_Dependencies c)
    (sc_Resources c) (sc_Env c) (sc_Network c).

(** The result of the deferred [umount] is dropped: when it fails, the
    removal of the workspace goes through the bind mount of /dev. *)
Example failed_umount_reaches_dev : damaged_after = true.
Proof. vm_compute. reflexivity. Qed.

(** Any non-empty name passes the validation, also one that leaves the root
    of the local store. *)
Example name_escapes_store :
  is_ok (snap_Validate (with_name "../../etc" demo_config)) = true ∧
  path_Join ["/var/reg"; artifact_key "../../etc" "manifest.json"] = "/etc/manifest.json".
Proof. vm_compute. done. Qed.
