(* ===== verification/PresetEnv.v ===== *)
(** * The preset environment, from the snapshot builder to a guest command

    The builder writes /etc/shiyao-env into the image ([writeEnvironment] of
    platform/snapshot); the guest agent reads the file before each command
    ([loadPresetEnv] of cmd/guest-agent).  This file composes the two. *)

From Stdlib Require Import Ascii.
From S2P Require Import Prelude Effects GoStrings GoCrypto Vsock GuestAgent Snapshot.
Open Scope Z_scope.

(** ** Trimming, splitting and replacing bytes *)

Definition solid (b : Z) : bool := (b <? 128) && negb (IsSpace b).

Lemma trim_left_solid fuel b l : solid b = true → trim_left fuel (b :: l) = b :: l.
Proof.
  unfold solid. rewrite andb_true_iff. intros [Hb Hs%negb_true_iff]. destruct fuel; [done|]. cbn.
  by rewrite Hb, Hs.
Qed.
Lemma trim_right_solid fuel l b : solid b = true → trim_right fuel (l ++ [b]) = l ++ [b].
Proof.
  unfold solid. rewrite andb_true_iff. intros [Hb Hs%negb_true_iff]. destruct fuel; [done|].
  destruct (l ++ [b]) as [|x r] eqn:E; [done|]. cbn [trim_right]. rewrite <- E. unfold DecodeLastRune.
  by rewrite reverse_app, reverse_singleton; cbn [app]; rewrite Hb, Hs.
Qed.
Lemma TrimSpace_solid s b l c : bytes s = b :: l ++ [c] → solid b = true → solid c = true → TrimSpace s = s.
Proof.
  intros E Hb Hc. unfold TrimSpace. rewrite E, trim_left_solid by done.
  rewrite app_comm_cons, trim_right_solid, <- app_comm_cons, <- E by done. apply of_bytes_bytes.
Qed.

Lemma split_bytes_lines sep (ls : list (list Z)) :
  Forall (λ l, sep ∉ l) ls →
  split_bytes sep [] (concat ((λ l, l ++ [sep]) <$> ls)) = ls ++ [[]].
Proof.
  induction 1 as [|l ls Hl _ IH]; [done|]. cbn. rewrite <- app_assoc. cbn.
  by rewrite split_bytes_app, IH.
Qed.

Lemma ReplaceAll_bytes s c new :
  bytes (ReplaceAll s c new) = flat_map (λ b, if b =? byte_of c then bytes new else [b]) (bytes s).
Proof.
  unfold ReplaceAll. apply bytes_of_bytes. apply Forall_forall. intros x (b & Hx & Hb)%list_elem_of_In%in_flat_map.
  destruct (b =? byte_of c).
  - pose proof (bytes_range new) as H. rewrite Forall_forall in H. by apply H, list_elem_of_In.
  - destruct Hb as [<-|[]]. pose proof (bytes_range s) as H. rewrite Forall_forall in H. by apply H, list_elem_of_In.
Qed.
Lemma ReplaceAll_clears s c new : byte_of c ∉ bytes new → byte_of c ∉ bytes (ReplaceAll s c new).
Proof.
  rewrite ReplaceAll_bytes. intros Hn (b & Hb & Hx)%list_elem_of_In%in_flat_map.
  destruct (Z.eqb_spec b (byte_of c)); [by apply Hn, list_elem_of_In|]. destruct Hx as [|[]]. congruence.
Qed.
Lemma ReplaceAll_keeps_out x s c new :
  x ∉ bytes s → x ∉ bytes new → x ∉ bytes (ReplaceAll s c new).
Proof.
  rewrite ReplaceAll_bytes. intros Hs Hn (b & Hb & Hx)%list_elem_of_In%in_flat_map.
  destruct (b =? byte_of c); [by apply Hn, list_elem_of_In|]. destruct Hx as [<-|[]]. by apply Hs, list_elem_of_In.
Qed.

(** ** The names *)

Definition name_byte (b : Z) : bool := env_letter b || in_range 48 57 b.
Lemma DecodeRune_high b l : 128 ≤ b → 128 ≤ (DecodeRune (b :: l)).1.
Proof.
  intros Hb. unfold DecodeRune, RuneError, second_ok, is_cont, in_range.
  repeat (case_match; simpl; try lia; rewrite ?andb_true_iff, ?Z.leb_le in *; try lia).
Qed.
Lemma runes_fuel_ascii fuel l :
  (length l ≤ fuel)%nat → Forall (λ r, r.1 < 128) (runes_fuel fuel l) → fst <$> runes_fuel fuel l = l.
Proof.
  revert l. induction fuel as [|fuel IH]; intros [|b l] Hl Hr; cbn in *; try done; try lia.
  destruct (Z.ltb_spec b 128) as [Hb|Hb].
  - apply Forall_cons in Hr as [_ Hr]. cbn. f_equal. apply IH; [lia|done].
  - pose proof (DecodeRune_high b l Hb) as H. unfold DecodeRune in H.
    rewrite (proj2 (Z.ltb_ge b 128) Hb) in H. destruct (if in_range 194 223 b then _ else _) as [r w].
    apply Forall_cons in Hr as [Hr _]. cbn in *. lia.
Qed.
Lemma name_byte_ascii b : name_byte b = true → b < 128.
Proof. unfold name_byte, env_letter, in_range. lia. Qed.
Lemma name_byte_solid b : name_byte b = true → solid b = true ∧ b ≠ 10 ∧ b ≠ 35 ∧ b ≠ 61.
Proof. unfold solid, IsSpace, name_byte, env_letter, in_range. lia. Qed.
Lemma validEnvName_bytes name :
  validEnvName name = true → bytes name ≠ [] ∧ Forall (λ b, name_byte b = true) (bytes name).
Proof.
  unfold validEnvName. destruct (fst <$> runes name) as [|r rs] eqn:E; [done|]. rewrite andb_true_iff, forallb_forall.
  intros [Hr Hrs]. assert (Forall (λ b, name_byte b = true) (fst <$> runes name)) as H.
  { rewrite E. constructor; [by unfold name_byte; rewrite Hr|]. apply Forall_forall. intros x Hx%list_elem_of_In.
    by apply Hrs. }
  assert (fst <$> runes name = bytes name) as Eb.
  { apply runes_fuel_ascii; [by rewrite length_bytes|]. rewrite Forall_fmap in H.
    eapply Forall_impl; [exact H|]. intros x. apply name_byte_ascii. }
  rewrite Eb in E, H. split; [by rewrite E|done].
Qed.

(** ** The file *)

Definition env_entry (kv : string * string) : string := kv.1 +:+ "=" +:+ shellQuote (sanitize_env kv.2).

Lemma env_lines_Ok env lines :
  env_lines env = Ok lines →
  lines = env_entry <$> env ∧ Forall (λ kv, validEnvName kv.1 = true) env.
Proof.
  revert lines. induction env as [|[k v] env IH]; intros lines; cbn; [by intros [= <-]|].
  destruct (validEnvName k) eqn:Hk; [|done]. cbn. destruct (env_lines env) as [ls|]; [|done].
  intros [= <-]. destruct (IH ls eq_refl) as [-> ?]. split; [done|by constructor].
Qed.
Lemma env_file_bytes lines : lines ≠ [] →
  bytes (env_file lines) = concat ((λ l, l ++ [10]) <$> (bytes <$> lines)).
Proof.
  unfold env_file. intros Hne. rewrite bytes_app. change (bytes (of_bytes [10])) with [10].
  induction lines as [|l ls IH]; [done|]. destruct ls as [|l2 ls]; [cbn; by rewrite app_nil_r|].
  specialize (IH ltac:(done)). rewrite !fmap_cons. cbn [concat].
  change (Join_str (l :: l2 :: ls) _) with (l +:+ of_bytes [10] +:+ Join_str (l2 :: ls) (of_bytes [10])).
  rewrite !fmap_cons in IH. cbn [concat] in IH.
  rewrite !bytes_app, <- IH. change (bytes (of_bytes [10])) with [10]. by rewrite <- !app_assoc.
Qed.
Lemma env_file_lines lines :
  lines ≠ [] → Forall (λ l, 10 ∉ bytes l) lines → Split (env_file lines) (ascii_of 10) = lines ++ [""].
Proof.
  intros Hne Hl. unfold Split. rewrite env_file_bytes by done. change (byte_of (ascii_of 10)) with 10.
  rewrite split_bytes_lines by (by rewrite Forall_fmap). rewrite fmap_app, <- list_fmap_compose. cbn. f_equal.
  rewrite <- (list_fmap_id lines) at 2. apply list_fmap_ext. intros i x _. apply of_bytes_bytes.
Qed.

Lemma quoted_bytes v : ∃ q, bytes (shellQuote v) = 39 :: q ++ [39] ∧ (10 ∉ bytes v → 10 ∉ q).
Proof.
  exists (bytes (ReplaceAll v "'" "'\''")). unfold shellQuote. rewrite !bytes_app. split; [done|].
  intros. apply ReplaceAll_keeps_out; [done|]. by apply (bool_decide_unpack _); vm_compute.
Qed.
Lemma sanitize_no_newline v : 10 ∉ bytes (sanitize_env v).
Proof.
  unfold sanitize_env. apply ReplaceAll_keeps_out; [|apply not_elem_of_nil].
  apply (ReplaceAll_clears v "010"). by apply (bool_decide_unpack _); vm_compute.
Qed.

(** An entry is one line, which trimming leaves alone and which is no comment. *)
Lemma env_entry_line kv : validEnvName kv.1 = true →
  10 ∉ bytes (env_entry kv) ∧ TrimSpace (env_entry kv) = env_entry kv ∧
  env_entry kv ≠ "" ∧ HasPrefix (env_entry kv) "#" = false.
Proof.
  destruct kv as [k v]. cbn. intros [Hne Hk]%validEnvName_bytes.
  destruct (quoted_bytes (sanitize_env v)) as (q & Eq & Hq). specialize (Hq (sanitize_no_newline v)).
  destruct (bytes k) as [|b l] eqn:Ek; [done|]. apply Forall_cons in Hk as [Hb Hl].
  assert (bytes (env_entry (k, v)) = b :: (l ++ 61 :: 39 :: q) ++ [39]) as E.
  { unfold env_entry. cbn [fst snd]. rewrite !bytes_app, Ek, Eq. cbn. by rewrite <- !app_assoc. }
  destruct (name_byte_solid b Hb) as (Hs & H10 & H35 & _). split_and!.
  - rewrite E, not_elem_of_cons, !not_elem_of_app, !not_elem_of_cons. split_and!; try done; [|apply not_elem_of_nil].
    intros H. rewrite Forall_forall in Hl. by apply Hl, name_byte_solid in H as (_ & ? & _).
  - by eapply TrimSpace_solid.
  - intros H. by rewrite H in E.
  - unfold HasPrefix. rewrite E. cbn. apply andb_false_iff. left. by apply Z.eqb_neq.
Qed.

(** C33: What the guest agent adds to the environment of a command is one entry
    per configured variable, in the order of the file: a name is never
    changed, and no value, whatever bytes it has, adds an entry or hides
    one.  The value of an entry is the shell quotation of the configured
    one, with line feeds written as [\n] and carriage returns dropped. *)
Theorem preset_environment_arrives {G} `{GuestOS G} env lines (w w' : G) :
  env ≠ [] → env_lines env = Ok lines → g_ReadFile "/etc/shiyao-env" w = (Ok (env_file lines), w') →
  loadPresetEnv w = (g_Environ w ++ (env_entry <$> env), w').
Proof.
  intros Hne [-> Hv]%env_lines_Ok Hr. unfold loadPresetEnv. rewrite Hr. do 2 f_equal. unfold preset_lines.
  assert (Forall (λ l, 10 ∉ bytes l ∧ TrimSpace l = l ∧ l ≠ "" ∧ HasPrefix l "#" = false) (env_entry <$> env)) as Hl.
  { rewrite Forall_fmap. eapply Forall_impl; [exact Hv|]. intros. by apply env_entry_line. }
  rewrite env_file_lines; [|by destruct env|eapply Forall_impl; [exact Hl|]; by intros ? []].
  assert (TrimSpace <$> (env_entry <$> env) = env_entry <$> env) as Et.
  { rewrite <- (list_fmap_id (env_entry <$> env)) at 2. apply Forall_fmap_ext_1.
    eapply Forall_impl; [exact Hl|]. by intros ? (_ & ? & _). }
  rewrite fmap_app, Et, filter_app, filter_keep.
  - change (TrimSpace <$> [""]) with [""]. rewrite filter_cons_False by naive_solver. apply app_nil_r.
  - intros x Hx. rewrite Forall_forall in Hl. by apply Hl in Hx as (_ & _ & ? & ?).
Qed.

Definition hostile_env : list (string * string) :=
  [("MODE", "it's"); ("MOTD", "a" +:+ of_bytes [13; 10] +:+ "PATH=/tmp")].
Definition hostile_lines : list string := ["MODE='it'\''s'"; "MOTD='a\nPATH=/tmp'"].
Definition hostile_guest : SimGuest :=
  sg_set_files {["/etc/shiyao-env" := env_file hostile_lines]} sg_empty.
Lemma preset_environment_arrives_witness :
  env_entry <$> hostile_env = hostile_lines ∧
  loadPresetEnv hostile_guest = (g_Environ hostile_guest ++ (env_entry <$> hostile_env), hostile_guest).
Proof.
  split; [vm_compute; reflexivity|].
  apply (preset_environment_arrives hostile_env hostile_lines hostile_guest hostile_guest);
    [done|vm_compute; reflexivity|vm_compute; reflexivity].
Defined.

(** The quotes reach the command: the agent appends the line as it is, and
    does not read it as a shell would. *)
Example preset_value_keeps_quotes :
  "MODE='prod'" ∈ (loadPresetEnv (sg_set_files {["/etc/shiyao-env" := env_file [env_entry ("MODE", "prod")]]} sg_empty)).1.
Proof. apply (bool_decide_unpack _). by vm_compute. Qed.
