(* ===== verification/Proxy.v ===== *)
(** * core/proxy and core/websocket: the edges of a sandbox

    The SSRF filter of the reverse proxy, with the transport that resolves
    and dials, and the bridge that forwards an execution to a WebSocket. *)

From Stdlib Require Import Ascii.
From S2P Require Import Prelude GoStrings GoNet Network Host Vsock.
Open Scope Z_scope.

(** ** policy.go *)

(** Every [Addr] that [ParseAddr] yields is valid. *)
Definition isAllowedPublicIP (addr : Addr) : bool :=
  if negb (IsGlobalUnicast addr) || IsPrivate addr || IsLoopback addr || IsLinkLocalUnicast addr
     || IsMulticast addr || IsUnspecified addr then false
  else match addr with
       | Addr4 n => negb ((byte_n 0 addr =? 100) && (64 <=? byte_n 1 addr) && (byte_n 1 addr <=? 127))
       | Addr6 _ _ => true
       end.

Definition ValidateProxyTarget `{UnicodeCase} (host : string) (port : Z) : result unit :=
  if bool_decide (host = "") || (port <? 1) || (65535 <? port) then
    Err (Errorf "invalid proxy target" [])
  else if EqualFold_ascii host "localhost" || HasSuffix (ToLower host) ".localhost" then
    Err (Errorf "localhost target is blocked" [])
  else match ParseIP host with
       | Some ip =>
           if negb (isAllowedPublicIP (AddrOfIP ip)) then
             Err (Errorf "private or non-global target %s is blocked" [])
           else Ok tt
       | None => Ok tt
       end.

(** ** ssrf.go, transport.go *)

Definition has_byte (b : Z) (l : list Z) : bool := existsb (Z.eqb b) l.

(** [net.JoinHostPort] *)
Definition JoinHostPort (host port : string) : string :=
  if has_byte c_colon (bytes host) then "[" +:+ host +:+ "]:" +:+ port else host +:+ ":" +:+ port.
Definition TargetAddress (host : string) (port : Z) : string := JoinHostPort host (Itoa port).

(** The bytes before and after the last [c]. *)
Definition cut_last (c : Z) (l : list Z) : option (list Z * list Z) :=
  match cut c (reverse l) with
  | Some (a, b) => Some (reverse b, reverse a)
  | None => None
  end.

(** [net.SplitHostPort]: the port follows the last colon; a host in brackets
    ends right before it; any other bracket or colon is an error. *)
Definition SplitHostPort (hostport : string) : result (string * string) :=
  let bad := Err (Errorf "address %s: %s" []) in
  match cut_last c_colon (bytes hostport) with
  | None => bad
  | Some (before, port) =>
      match before with
      | 91 :: inner =>
          match cut 93 inner with
          | Some (host, []) =>
              if has_byte 91 host || has_byte 91 port || has_byte 93 port then bad
              else Ok (of_bytes host, of_bytes port)
          | _ => bad
          end
      | _ =>
          if has_byte c_colon before || has_byte 91 before || has_byte 93 before
             || has_byte 91 port || has_byte 93 port then bad
          else Ok (of_bytes before, of_bytes port)
      end
  end.

Section Transport.
(** The resolver and the dialer are the network's. *)
Context {D : Type}.
Context (LookupIP : string → ST D (list (list Z))).
Context (dial : Addr → string → ST D Z).

Fixpoint dial_first (ips : list (list Z)) (port : string) : ST D (option Z) := λ d,
  match ips with
  | [] => (Ok None, d)
  | ip :: ips =>
      if negb (isAllowedPublicIP (AddrOfIP ip)) then dial_first ips port d
      else match dial (AddrOfIP ip) port d with
           | (Ok conn, d) => (Ok (Some conn), d)
           | (Err _, d) => dial_first ips port d
           end
  end.

(** [DialContext] of [SafeTransport] *)
Definition SafeTransport_DialContext (address : string) : ST D Z := λ d,
  match SplitHostPort address with
  | Err e => (Err (Errorf "invalid upstream address: %w" [e]), d)
  | Ok (host, port) =>
      match LookupIP host d with
      | (Err e, d) => (Err (Errorf "resolve upstream %q: %w" [e]), d)
      | (Ok ips, d) =>
          match dial_first ips port d with
          | (Ok (Some conn), d) => (Ok conn, d)
          | (_, d) =>
              (Err (Errorf "upstream %q resolves only to blocked or unreachable addresses" []), d)
          end
      end
  end.

(** C26: Whatever the resolver answers, and however its answers change, every
    dial goes to an address that the policy allows: any property of the
    network that the resolver and dials to allowed addresses keep is kept. *)
Theorem transport_dials_only_public (Q : D → Prop) address d :
  (∀ host d, Q d → Q (LookupIP host d).2) →
  (∀ a port d, isAllowedPublicIP a = true → Q d → Q (dial a port d).2) →
  Q d → Q (SafeTransport_DialContext address d).2.
Proof.
  intros HL HD HQ. unfold SafeTransport_DialContext.
  destruct (SplitHostPort address) as [[host port]|e]; [|done].
  specialize (HL host d HQ). destruct (LookupIP host d) as [[ips|e] d1]; [|done]. cbn in HL.
  assert (Q (dial_first ips port d1).2) as Hf.
  { clear HQ. induction ips as [|ip ips IH] in d1, HL |- *; [done|]. cbn [dial_first].
    destruct (isAllowedPublicIP (AddrOfIP ip)) eqn:Ha; cbn [negb]; [|by apply IH].
    specialize (HD _ port d1 Ha HL). destruct (dial _ port d1) as [[conn|e] d2]; [done|by apply IH]. }
  destruct (dial_first ips port d1) as [[[conn|]|e] d2]; done.
Qed.
End Transport.

(** The IPv4 ranges the policy is meant to block. *)
Definition internal_v4 (b : list Z) : bool :=
  match b with
  | [a; b; c; d] =>
      (a =? 10) || (a =? 127) || ((a =? 172) && (16 <=? b) && (b <=? 31))
      || ((a =? 192) && (b =? 168)) || ((a =? 169) && (b =? 254))
      || ((a =? 100) && (64 <=? b) && (b <=? 127)) || in_range 224 239 a
      || all_zero [a; b; c; d] || bool_decide ([a; b; c; d] = [255; 255; 255; 255])
  | _ => false
  end.

Lemma byte_masks x : is_byte x →
  (Z.land x 240 =? 224) = in_range 224 239 x ∧ (Z.land x 240 =? 16) = ((16 <=? x) && (x <=? 31)).
Proof.
  intros Hx. assert (forallb (λ x, Bool.eqb (Z.land x 240 =? 224) (in_range 224 239 x) &&
    Bool.eqb (Z.land x 240 =? 16) ((16 <=? x) && (x <=? 31))) (seqZ 0 256) = true) as Hall by done.
  apply forallb_elem with (x := x) in Hall; [|apply elem_of_seqZ; unfold is_byte in Hx; lia].
  apply andb_true_iff in Hall as [H1 H2]. by apply Bool.eqb_prop in H1, H2.
Qed.

(** C34: On IPv4 destinations, written as such or as IPv4-mapped IPv6, the policy
    blocks exactly the internal ranges: private, loopback, link-local,
    shared (100.64/10), multicast, unspecified and broadcast. *)
Theorem proxy_blocks_internal_v4 ip a b c d :
  To4 ip = Some [a; b; c; d] → Forall is_byte [a; b; c; d] →
  isAllowedPublicIP (AddrOfIP ip) = negb (internal_v4 [a; b; c; d]).
Proof.
  intros Hip [Ha [Hb _]%Forall_cons]%Forall_cons. unfold AddrOfIP. rewrite Hip.
  unfold isAllowedPublicIP, IsGlobalUnicast, IsPrivate, IsLoopback, IsLinkLocalUnicast,
    IsMulticast, IsUnspecified, internal_v4, byte_n. cbn [Unmap nth].
  destruct (byte_masks a Ha) as [-> _], (byte_masks b Hb) as [_ ->].
  destruct (all_zero [a; b; c; d]), (bool_decide _), (a =? 10), (a =? 127), (in_range 224 239 a),
    ((a =? 169) && (b =? 254)), ((a =? 192) && (b =? 168)), ((a =? 172)), ((16 <=? b) && (b <=? 31)) eqn:Hr,
    (a =? 100), (64 <=? b), (b <=? 127); cbn; rewrite ?Hr; done.
Qed.

(** Reserved ranges outside that list stay reachable: 0.0.0.0/8 beyond the
    unspecified address, benchmarking, 240/4, and NAT64 forms of private
    addresses. *)
Theorem reserved_ranges_are_allowed :
  Forall (λ s, ∃ ip, ParseIP s = Some ip ∧ isAllowedPublicIP (AddrOfIP ip) = true)
    ["0.0.0.1"; "198.18.0.1"; "240.0.0.1"; "64:ff9b::10.0.0.1"].
Proof. repeat constructor; eexists; by split. Qed.

(** ** core/websocket *)

Definition TypeExec : string := "exec".
Definition TypeStdout : string := "stdout".
Definition TypeStderr : string := "stderr".
Definition TypeResult : string := "result".
Definition TypeError : string := "error".
Definition DefaultConnectionTimeout : Z := 5 * Minute.

Record ClientMessage := {
  cm_Type : string; cm_Command : string; cm_Args : list string;
  cm_Env : gmap string string; cm_TimeoutMS : Z;
}.
(** The result that a [ServerMessage] carries: exit code, outputs, error. *)
Record WsExecResult := mkWsExecResult {
  ws_ExitCode : Z; ws_Stdout : string; ws_Stderr : string; ws_Error : option error;
}.
Record ServerMessage := mkServerMessage {
  sm_Type : string; sm_Data : string; sm_Result : option WsExecResult; sm_Error : option error;
}.

(** A WebSocket: the first message read, the messages written with the
    number of writes after which the client is gone, and the deadline.  A
    client that is too slow for the deadline is one that is gone. *)
Record WsConn := mkWsConn {
  wc_in : result ClientMessage;
  wc_out : list ServerMessage;
  wc_gone : option nat;
  wc_deadline : Z;
}.
Definition WriteJSON (m : ServerMessage) : ST WsConn unit := λ c,
  match wc_gone c with
  | Some O => (Err (Errorf "websocket: close sent" []), c)
  | g => (Ok tt, mkWsConn (wc_in c) (wc_out c ++ [m]) (pred <$> g) (wc_deadline c))
  end.

(** [SetDeadlines], at time [now]. *)
Definition SetDeadlines (now : Z) (c : WsConn) : WsConn :=
  mkWsConn (wc_in c) (wc_out c) (wc_gone c) (now + DefaultConnectionTimeout).

Definition SetExecutionDeadline (now timeoutMS : Z) (c : WsConn) : WsConn :=
  let buffer := 10 * Second in
  let timeout := int64 (timeoutMS * Millisecond) in
  let timeout := if timeout <=? 0 then DefaultConnectionTimeout else timeout in
  mkWsConn (wc_in c) (wc_out c) (wc_gone c) (now + int64 (timeout + buffer)).

Definition bridge_receive (frame : ExecFrame) : ST WsConn unit := λ c,
  if String.eqb (fr_Stream frame) TypeStdout then
    WriteJSON (mkServerMessage TypeStdout (fr_Data frame) None None) c
  else if String.eqb (fr_Stream frame) TypeStderr then
    WriteJSON (mkServerMessage TypeStderr (fr_Data frame) None None) c
  else (Ok tt, c).

Definition bridge_request (sandboxID : string) (m : ClientMessage) : ExecRequest :=
  mkExecRequest ProtocolVersion sandboxID (cm_Command m) (cm_Args m) (cm_Env m) (cm_TimeoutMS m) true.

(** The interface [ExecStreamer]. *)
Definition ExecStreamer : Type :=
  string → ExecRequest → (ExecFrame → ST WsConn unit) → ST WsConn ExecResult.

Definition final_message (r : result ExecResult) : ServerMessage :=
  match r with
  | Err e => mkServerMessage TypeError "" None (Some e)
  | Ok r => mkServerMessage TypeResult ""
              (Some (mkWsExecResult (rs_ExitCode r) (rs_Stdout r) (rs_Stderr r) (rs_Error r))) None
  end.

Definition BridgeExecStream (now : Z) (sandboxID : string) (streamer : ExecStreamer) (c : WsConn) : WsConn :=
  match wc_in c with
  | Err _ => c
  | Ok m =>
      if negb (bool_decide (cm_Type m = TypeExec)) then
        (WriteJSON (mkServerMessage TypeError "" None
                      (Some (Errorf "first message must be of type 'exec'" []))) c).2
      else
        let c := SetExecutionDeadline now (cm_TimeoutMS m) c in
        let '(r, c) := streamer sandboxID (bridge_request sandboxID m) bridge_receive c in
        (WriteJSON (final_message r) c).2
  end.

(** [ExecStream] of a guest, as a streamer. *)
Definition guest_streamer (p : Peer) : ExecStreamer :=
  λ _ req receive, ExecStream p req (Some receive).

Definition output_message (f : ExecFrame) : ServerMessage :=
  mkServerMessage (fr_Stream f) (fr_Data f) None None.
Definition ws_push (ms : list ServerMessage) (c : WsConn) : WsConn :=
  mkWsConn (wc_in c) (wc_out c ++ ms) (wc_gone c) (wc_deadline c).

Lemma read_frames_bridge id replies c r fs :
  wc_gone c = None → read_frames collect id replies [] = (r, fs) →
  read_frames bridge_receive id replies c = (r, ws_push (output_message <$> fs) c).
Proof.
  intros Hg. assert (∀ c, ws_push [] c = c) as Hnil
    by (intros []; unfold ws_push; cbn; by rewrite app_nil_r).
  assert (∀ pre, read_frames collect id replies pre = (r, pre ++ fs) →
            read_frames bridge_receive id replies c = (r, ws_push (output_message <$> fs) c)) as Hgen.
  2: { intros E. by apply (Hgen []). }
  revert c fs Hg. induction replies as [|[m|e] replies IH]; intros c fs Hg pre; cbn [read_frames].
  1,3: intros [= <- E]; apply (f_equal length) in E; rewrite length_app in E;
       destruct fs; cbn in E; [by rewrite Hnil|lia].
  assert (∀ r0, (r0, pre) = (r, pre ++ fs) → (r0, c) = (r, ws_push (output_message <$> fs) c)) as Hstop.
  { intros r0 [= -> E]. apply (f_equal length) in E. rewrite length_app in E.
    destruct fs; cbn in E; [by rewrite Hnil|lia]. }
  destruct (negb (fr_Version _ =? _) || _); [apply Hstop|].
  destruct (fr_Result (decode_frame m)); [apply Hstop|].
  destruct (_ && _) eqn:Hst; [cbn [orb]; apply Hstop|]. cbn [orb].
  destruct (MaxStreamFrameBytes <? _); [apply Hstop|].
  set (f := decode_frame m) in *. unfold collect at 1. intros E.
  destruct (read_frames_bounded _ _ _ _ _ E) as (fs' & Hfs & _).
  rewrite <- app_assoc in Hfs. apply app_inv_head in Hfs. cbn in Hfs. subst fs.
  assert (bridge_receive f c = (Ok tt, ws_push [output_message f] c)) as ->.
  { unfold bridge_receive, WriteJSON, output_message, ws_push. rewrite Hg.
    apply andb_false_iff in Hst as [Hst|Hst];
      apply negb_false_iff, bool_decide_eq_true in Hst; rewrite Hst; done. }
  cbn iota beta. rewrite (IH (ws_push [output_message f] c) fs' Hg (pre ++ [f])).
  - unfold ws_push. cbn. by rewrite <- app_assoc.
  - by rewrite <- app_assoc.
Qed.

(** The bridge adds nothing and loses nothing: a connected client gets every
    output frame that the execution delivered, once and in order, then
    exactly one closing message with the result or the error. *)
Theorem bridge_forwards_in_order now sandboxID p m c r frames :
  wc_in c = Ok m → cm_Type m = TypeExec → wc_gone c = None → wc_out c = [] →
  ExecStream p (bridge_request sandboxID m) (Some collect) [] = (r, frames) →
  wc_out (BridgeExecStream now sandboxID (guest_streamer p) c)
  = (output_message <$> frames) ++ [final_message r].
Proof.
  intros Hin Hty Hg Hout E. unfold BridgeExecStream. rewrite Hin, bool_decide_eq_true_2 by done.
  cbn [negb]. unfold guest_streamer. revert E. unfold ExecStream, exec_stream_on_wire.
  destruct (send_request p _ []) as [[[]|e] wire].
  - destruct (read_frames collect _ _ _) as [r1 fs] eqn:E. intros [= <- <-]. rewrite (read_frames_bridge _ _ (SetExecutionDeadline now (cm_TimeoutMS m) c) _ _ Hg E).
    unfold WriteJSON, ws_push. cbn. by rewrite Hg, Hout.
  - intros [= <- <-]. unfold WriteJSON. cbn. by rewrite Hg, Hout.
Qed.

(** For a timeout that the protocol accepts, the connection outlives the
    execution by ten seconds. *)
Theorem deadline_covers_timeout now timeoutMS c :
  0 < timeoutMS ≤ MaxTimeoutMS →
  wc_deadline (SetExecutionDeadline now timeoutMS c) = now + timeoutMS * Millisecond + 10 * Second.
Proof.
  unfold MaxTimeoutMS. intros Ht. unfold SetExecutionDeadline, int64, Millisecond, Second. cbn [wc_deadline].
  rewrite (wrap_s_small 64 (timeoutMS * 1000000)) by lia.
  destruct (Z.leb_spec (timeoutMS * 1000000) 0); [lia|].
  rewrite wrap_s_small by lia. lia.
Qed.

(** The timeout is used before it is validated: the largest one whose
    product still fits overflows when the margin is added, and the deadline
    of the connection lies in the past. *)
Theorem deadline_can_overflow c :
  wc_deadline (SetExecutionDeadline 0 9223372036854 c) < 0.
Proof. done. Qed.

(** A name that resolves to an internal and to a public address. *)
Definition rebinding_lookup (_ : string) : ST (list Addr) (list (list Z)) :=
  λ log, (Ok [[10; 0; 0; 1]; [8; 8; 8; 8]], log).
Definition logged_dial (a : Addr) (_ : string) : ST (list Addr) Z := λ log, (Ok 1, log ++ [a]).
Lemma transport_dials_only_public_witness :
  (SafeTransport_DialContext rebinding_lookup logged_dial "example.com:443" []).1 = Ok 1 ∧
  Forall (λ a, isAllowedPublicIP a = true)
    (SafeTransport_DialContext rebinding_lookup logged_dial "example.com:443" []).2.
Proof.
  split; [vm_compute; reflexivity|].
  apply (transport_dials_only_public rebinding_lookup logged_dial (Forall (λ a, isAllowedPublicIP a = true)));
    [done| |constructor].
  intros a port log Ha Hl. apply Forall_app. by split; [|constructor].
Defined.
Lemma proxy_blocks_internal_v4_witness :
  isAllowedPublicIP (AddrOfIP (As16 (Addr4 [169; 254; 169; 254])))
  = negb (internal_v4 [169; 254; 169; 254]).
Proof.
  apply (proxy_blocks_internal_v4 (As16 (Addr4 [169; 254; 169; 254])) 169 254 169 254);
    [vm_compute; reflexivity|]. by repeat constructor.
Defined.
Definition ws_client : WsConn :=
  mkWsConn (Ok {| cm_Type := TypeExec; cm_Command := "echo"; cm_Args := ["hi"]; cm_Env := ∅; cm_TimeoutMS := 0 |})
    [] None 0.
Lemma bridge_forwards_in_order_witness :
  length (wc_out (BridgeExecStream 0 "s" (guest_streamer hello_peer) ws_client)) = 2%nat.
Proof.
  rewrite (bridge_forwards_in_order 0 "s" hello_peer
             {| cm_Type := TypeExec; cm_Command := "echo"; cm_Args := ["hi"]; cm_Env := ∅; cm_TimeoutMS := 0 |}
             ws_client (Ok (mkExecResult ProtocolVersion "s" 0 "" "" None))
             [mkExecFrame ProtocolVersion "s" "stdout" "hi" None]); try done.
Defined.
