(* ===== verification/Outbox.v ===== *)
(** * platform/outbox and adapters/nats: publishing events at least once

    The table [outbox_events] is a finite map from event ids to rows; each
    repository method is one SQL statement, so one atomic step.  [now] is the
    time of the statement, [db_down] an error of the database connection. *)

From stdpp Require Import sorting.
From S2P Require Import Prelude GoStrings Vsock.
Open Scope Z_scope.

(** A UUID as the 128-bit number of its bytes; [uuid.Nil] is zero. *)
Definition uuid_byte (u : Z) (i : nat) : Z := Z.land (Z.shiftr u (8 * (15 - Z.of_nat i))) 255.
Definition uuid_String (u : Z) : string :=
  let part i n := hex_encode (uuid_byte u <$> seq i n) in
  part 0%nat 4%nat +:+ "-" +:+ part 4%nat 2%nat +:+ "-" +:+ part 6%nat 2%nat +:+ "-"
    +:+ part 8%nat 2%nat +:+ "-" +:+ part 10%nat 6%nat.

Record Event := mkEvent {
  e_ID : Z;
  e_Subject : string;
  e_AggregateType : string;
  e_AggregateID : Z;
  e_Payload : option string;         (** [None] is the nil slice *)
  e_Headers : gmap string string;    (** nil and empty are not told apart *)
  e_AvailableAt : Z;
  e_Attempts : Z;
  e_PublishFailures : Z;
  e_CreatedAt : Z;
}.

(** A row; its key is the id. *)
Record Row := mkRow {
  subject : string;
  aggregate_type : string;
  aggregate_id : Z;
  payload : string;
  headers : gmap string string;
  available_at : Z;
  published_at : option Z;
  attempts : Z;
  publish_failures : Z;
  redrive_count : Z;
  last_error : option string;
  quarantined_at : option Z;
  quarantine_code : option string;
  quarantine_reason : option string;
  locked_at : option Z;
  locked_by : option string;
  created_at : Z;
  updated_at : Z;
}.

Record DB := mkDB { events : gmap Z Row; db_down : option error }.
Definition set_events (t : gmap Z Row) (d : DB) : DB := mkDB t (db_down d).

Definition ErrClaimLost : error := Sentinel "outbox event claim was lost".
Definition ErrNotQuarantined : error := Sentinel "outbox event is not quarantined".
Definition not_configured : error := Errorf "outbox repository is not configured" [].

(** ** Claiming *)

Definition claimable (now staleBefore : Z) (r : Row) : bool :=
  bool_decide (published_at r = None) && bool_decide (quarantined_at r = None)
  && (available_at r <=? now)
  && match locked_at r with None => true | Some t => t <? staleBefore end.

(** [ORDER BY available_at ASC, created_at ASC], ties by id. *)
Definition before (x y : Z * Row) : Prop :=
  available_at x.2 < available_at y.2 ∨
  available_at x.2 = available_at y.2 ∧
    (created_at x.2 < created_at y.2 ∨ created_at x.2 = created_at y.2 ∧ x.1 ≤ y.1).
#[export] Instance before_dec x y : Decision (before x y).
Proof. unfold before. apply _. Defined.
#[export] Instance before_total : Total before.
Proof. intros x y. unfold before. lia. Qed.
#[export] Instance before_trans : Transitive before.
Proof. intros x y z. unfold before. lia. Qed.

(** Rows locked by a transaction in progress are skipped. *)
Definition candidates (now staleBefore : Z) (limit : Z) (skipped : gset Z) (t : gmap Z Row)
  : list (Z * Row) :=
  take (Z.to_nat limit)
    (merge_sort before
       (filter (λ x, claimable now staleBefore x.2 = true ∧ x.1 ∉ skipped) (map_to_list t))).

Definition claim_row (now : Z) (owner : string) (r : Row) : Row :=
  {| subject := subject r; aggregate_type := aggregate_type r; aggregate_id := aggregate_id r;
     payload := payload r; headers := headers r; available_at := available_at r;
     published_at := published_at r; attempts := attempts r + 1;
     publish_failures := publish_failures r; redrive_count := redrive_count r;
     last_error := last_error r; quarantined_at := quarantined_at r;
     quarantine_code := quarantine_code r; quarantine_reason := quarantine_reason r;
     locked_at := Some now; locked_by := Some owner; created_at := created_at r; updated_at := now |}.

Definition event_of_row (id : Z) (r : Row) : Event :=
  mkEvent id (subject r) (aggregate_type r) (aggregate_id r) (Some (payload r)) (headers r)
    (available_at r) (attempts r) (publish_failures r) (created_at r).

Definition claim_rows (now : Z) (owner : string) (ids : list Z) (t : gmap Z Row) : gmap Z Row :=
  foldr (λ id t, alter (claim_row now owner) id t) t ids.

(** [ClaimBatch] on a repository that may be nil; the rows come back in the
    order of [RETURNING], which is that of the candidates here. *)
Definition ClaimBatch (now : Z) (skipped : gset Z) (owner : string) (limit staleBefore : Z)
  : ST (option DB) (list Event) := λ r,
  match r with
  | None => (Err not_configured, r)
  | Some d =>
      let owner := TrimSpace owner in
      if bool_decide (owner = "") then (Err (Errorf "outbox owner is required" []), r)
      else if limit <=? 0 then (Err (Errorf "outbox claim limit must be positive" []), r)
      else if IsZero staleBefore then (Err (Errorf "outbox stale lock time is required" []), r)
      else match db_down d with
           | Some e => (Err (Errorf "claim outbox events: %w" [e]), r)
           | None =>
               let c := candidates now staleBefore limit skipped (events d) in
               (Ok ((λ x, event_of_row x.1 (claim_row now owner x.2)) <$> c),
                Some (set_events (claim_rows now owner c.*1 (events d)) d))
           end
  end.

(** ** Statements on one row *)

(** [WHERE id = $1 AND cond]: the row is updated when it satisfies [cond];
    no row affected is the error [lost]. *)
Definition update_where (id : Z) (cond : Row → bool) (f : Row → Row) (format : string) (lost : error)
  : ST (option DB) unit := λ r,
  match r with
  | None => (Err not_configured, r)
  | Some d =>
      match db_down d with
      | Some e => (Err (Errorf format [e]), r)
      | None =>
          match events d !! id with
          | Some row => if cond row then (Ok tt, Some (set_events (<[id := f row]> (events d)) d))
                        else (Err lost, r)
          | None => (Err lost, r)
          end
      end
  end.

Definition claimed_by (owner : string) (r : Row) : bool :=
  bool_decide (published_at r = None) && bool_decide (quarantined_at r = None)
  && bool_decide (locked_by r = Some owner).

Definition mark_published_row (now : Z) (r : Row) : Row :=
  {| subject := subject r; aggregate_type := aggregate_type r; aggregate_id := aggregate_id r;
     payload := payload r; headers := headers r; available_at := available_at r;
     published_at := Some now; attempts := attempts r;
     publish_failures := publish_failures r; redrive_count := redrive_count r;
     last_error := None; quarantined_at := quarantined_at r;
     quarantine_code := quarantine_code r; quarantine_reason := quarantine_reason r;
     locked_at := None; locked_by := None; created_at := created_at r; updated_at := now |}.
Definition MarkPublished (now id : Z) (owner : string) : ST (option DB) unit :=
  update_where id (claimed_by owner) (mark_published_row now)
    "mark outbox event %s published: %w" ErrClaimLost.

Definition release_row (now availableAt : Z) (lastError : string) (r : Row) : Row :=
  {| subject := subject r; aggregate_type := aggregate_type r; aggregate_id := aggregate_id r;
     payload := payload r; headers := headers r; available_at := availableAt;
     published_at := published_at r; attempts := attempts r;
     publish_failures := publish_failures r + 1; redrive_count := redrive_count r;
     last_error := Some lastError; quarantined_at := quarantined_at r;
     quarantine_code := quarantine_code r; quarantine_reason := quarantine_reason r;
     locked_at := None; locked_by := None; created_at := created_at r; updated_at := now |}.
Definition Release (now id : Z) (owner : string) (availableAt : Z) (lastError : string)
  : ST (option DB) unit :=
  update_where id (claimed_by owner) (release_row now availableAt lastError)
    "release outbox event %s: %w" ErrClaimLost.

Definition quarantine_row (now : Z) (code reason : string) (r : Row) : Row :=
  {| subject := subject r; aggregate_type := aggregate_type r; aggregate_id := aggregate_id r;
     payload := payload r; headers := headers r; available_at := available_at r;
     published_at := published_at r; attempts := attempts r;
     publish_failures := publish_failures r + 1; redrive_count := redrive_count r;
     last_error := Some reason; quarantined_at := Some now;
     quarantine_code := Some code; quarantine_reason := Some reason;
     locked_at := None; locked_by := None; created_at := created_at r; updated_at := now |}.
Definition Quarantine (now id : Z) (owner code reason : string) : ST (option DB) unit := λ r,
  match r with
  | None => (Err not_configured, r)
  | Some _ =>
      let code := TrimSpace code in
      let reason := TrimSpace reason in
      if bool_decide (code = "") || bool_decide (reason = "") then
        (Err (Errorf "outbox quarantine code and reason are required" []), r)
      else update_where id (claimed_by owner) (quarantine_row now code reason)
             "quarantine outbox event %s: %w" ErrClaimLost r
  end.

Definition redrive_row (now availableAt : Z) (r : Row) : Row :=
  {| subject := subject r; aggregate_type := aggregate_type r; aggregate_id := aggregate_id r;
     payload := payload r; headers := headers r; available_at := availableAt;
     published_at := published_at r; attempts := attempts r;
     publish_failures := publish_failures r; redrive_count := redrive_count r + 1;
     last_error := last_error r; quarantined_at := None;
     quarantine_code := None; quarantine_reason := None;
     locked_at := locked_at r; locked_by := locked_by r; created_at := created_at r; updated_at := now |}.
Definition Redrive (now id availableAt : Z) : ST (option DB) unit :=
  update_where id (λ r, bool_decide (published_at r = None) && negb (bool_decide (quarantined_at r = None)))
    (redrive_row now availableAt) "redrive outbox event %s: %w" ErrNotQuarantined.

(** ** Enqueueing *)

(** A [JSONB] column keeps the value of the JSON text that is written and not
    the text: white space, the order of keys and duplicate keys are lost, and
    a text with [\u0000] is refused.  [jsonb] gives the text that is read
    back, [None] where the text is refused. *)
Class Jsonb := { jsonb : string → option string }.
(** A [TEXT] column takes UTF-8 without the zero byte. *)
Definition text_ok (s : string) : bool := ValidString s && negb (existsb (Z.eqb 0) (bytes s)).

(** The headers as they are read back: [json.Marshal] writes them in the order
    of their keys and replaces what is not UTF-8, the column refuses the zero
    byte and keeps the last of equal keys. *)
Definition key_le (x y : string * string) : Prop := String.leb x.1 y.1 = true.
#[export] Instance key_le_dec x y : Decision (key_le x y).
Proof. unfold key_le. apply _. Defined.
Definition stored_headers (headers : gmap string string) : option (gmap string string) :=
  let pairs := merge_sort key_le (map_to_list headers) in
  if existsb (λ '(key, value), existsb (Z.eqb 0) (bytes key ++ bytes value)) pairs then None
  else Some (foldl (λ h '(key, value), <[json_string key := json_string value]> h) ∅ pairs).

(** [length(trim(s)) > 0], and the [CHECK] constraints on the columns that
    only the insertion writes: no white space in the subject.  That the
    headers are an object is their type here. *)
Definition not_blank (s : string) : bool := existsb (λ b, negb (b =? 32)) (bytes s).
Definition row_check (r : Row) : bool :=
  not_blank (subject r) && forallb (λ '(c, _), negb (IsSpace c)) (runes (subject r))
  && not_blank (aggregate_type r).

Section Enqueue.
Context `{Jsonb}.
(** [json.Valid] and [uuid.New]. *)
Context (json_Valid : string → bool) (uuid_New : Z).

(** The row of an event, with its payload and headers as they are stored. *)
Definition new_row (now availableAt : Z) (ev : Event) (text : string) (hs : gmap string string) : Row :=
  {| subject := TrimSpace (e_Subject ev); aggregate_type := TrimSpace (e_AggregateType ev);
     aggregate_id := e_AggregateID ev; payload := text; headers := hs;
     available_at := availableAt; published_at := None; attempts := 0; publish_failures := 0;
     redrive_count := 0; last_error := None; quarantined_at := None; quarantine_code := None;
     quarantine_reason := None; locked_at := None; locked_by := None;
     created_at := now; updated_at := now |}.

Definition enqueue (now : Z) (ev : Event) : ST (option DB) Z := λ executor,
  match executor with
  | None => (Err (Errorf "outbox database executor is not configured" []), executor)
  | Some d =>
      let id := if e_ID ev =? 0 then uuid_New else e_ID ev in
      if bool_decide (TrimSpace (e_Subject ev) = "") then
        (Err (Errorf "outbox subject is required" []), executor)
      else if bool_decide (TrimSpace (e_AggregateType ev) = "") then
        (Err (Errorf "outbox aggregate type is required" []), executor)
      else if e_AggregateID ev =? 0 then (Err (Errorf "outbox aggregate ID is required" []), executor)
      else match e_Payload ev with
           | None => (Err (Errorf "outbox payload must be valid JSON" []), executor)
           | Some text =>
               if negb (json_Valid text) then
                 (Err (Errorf "outbox payload must be valid JSON" []), executor)
               else
                 let availableAt := if IsZero (e_AvailableAt ev) then now else e_AvailableAt ev in
                 match db_down d with
                 | Some e => (Err (Errorf "enqueue outbox event: %w" [e]), executor)
                 | None =>
                     match jsonb text, stored_headers (e_Headers ev) with
                     | Some stored, Some hs =>
                         let row := new_row now availableAt ev stored hs in
                         if negb (text_ok (subject row) && text_ok (aggregate_type row)) || negb (row_check row)
                            || bool_decide (is_Some (events d !! id)) then
                           (Err (Errorf "enqueue outbox event: %w" [Errorf "constraint" []]), executor)
                         else (Ok id, Some (set_events (<[id := row]> (events d)) d))
                     | _, _ => (Err (Errorf "enqueue outbox event: %w" [Errorf "invalid input syntax for type json" []]), executor)
                     end
                 end
           end
  end.

(** On the pool, and within a transaction of the caller, whose tables [tx]
    become visible when it commits. *)
Definition Enqueue (now : Z) (ev : Event) (pool : option DB) : result Z * option DB := enqueue now ev pool.
Definition EnqueueTx (now : Z) (ev : Event) (tx : option DB) : result Z * option DB :=
  match tx with
  | None => (Err (Errorf "outbox transaction is required" []), tx)
  | Some _ => enqueue now ev tx
  end.
End Enqueue.

(** ** Publishing *)

(** An error of a publisher: its text, and the answers of the optional
    methods, [None] when the error does not have the method. *)
Record PublishError := mkPublishError {
  pe_text : string;
  pe_FailureCode : option string;
  pe_Permanent : option bool;
  pe_Retryable : option bool;
}.

Inductive publishErrorClass := publishErrorUnknown | publishErrorRetryable | publishErrorPermanent.

Definition classifyPublishError (err : option PublishError) : publishErrorClass * string :=
  match err with
  | None => (publishErrorUnknown, "")
  | Some err =>
      let code := match pe_FailureCode err with
                  | Some c => if bool_decide (c = "") then "unknown" else c
                  | None => "unknown"
                  end in
      if default false (pe_Permanent err) then (publishErrorPermanent, code)
      else if default false (pe_Retryable err) then (publishErrorRetryable, code)
      else (publishErrorUnknown, code)
  end.

(** [time.Duration(1<<failures) * time.Second] *)
Definition retryDelay (failures : Z) : Z :=
  let failures := if failures <? 0 then 0 else failures in
  let failures := if 10 <? failures then 10 else failures in
  int64 (Z.shiftl 1 failures * Second).

(** *** adapters/nats/publisher.go *)

Definition maxMessageSize : Z := 64 * 1024.
Record NatsMsg := mkNatsMsg {
  msg_Subject : string; msg_Data : string; msg_Header : gmap string string; msg_ID : option string;
}.
Definition nats_error (text code : string) (retryable permanent : bool) : PublishError :=
  mkPublishError text (Some code) (Some permanent) (Some retryable).

(** [for key, value := range headers] visits the keys in an order that Go
    leaves open, and that may be another one at the next call. *)
Definition MapOrder (B : Type) : Type := B → gmap string string → list (string * string).
Definition visits_all {B} (order : MapOrder B) : Prop := ∀ b m, order b m ≡ₚ map_to_list m.

(** The header of the message, from the pairs in the order of the visit: of
    two keys that are equal when they are trimmed, the later one wins. *)
Definition nats_header (pairs : list (string * string)) : gmap string string :=
  foldl (λ h '(key, value), let key := TrimSpace key in
           if bool_decide (key = "") then h else <[key := value]> h) ∅ pairs.

Section Nats.
(** [jetStream.PublishMsg]; [None] is success, [Some text] an error. *)
Context {B : Type} (PublishMsg : NatsMsg → B → option string * B) (order : MapOrder B).

(** [client] is false when the client or its connection is nil. *)
Definition nats_Publish (client : bool) (subject data : string) (headers : gmap string string)
    (messageID : string) (b : B) : option PublishError * B :=
  if negb client then
    (Some (nats_error "JetStream client is unavailable" "client_unavailable" true false), b)
  else
    let subject := TrimSpace subject in
    if bool_decide (subject = "") then
      (Some (nats_error "JetStream subject is required" "invalid_subject" false true), b)
    else if maxMessageSize <? len data then
      (Some (nats_error "JetStream message payload is too large" "message_too_large" false true), b)
    else
      let messageID := TrimSpace messageID in
      let id := if bool_decide (messageID = "") then None else Some messageID in
      match PublishMsg (mkNatsMsg subject data (nats_header (order b headers)) id) b with
      | (Some text, b) =>
          (Some (nats_error ("publish JetStream message to " +:+ subject +:+ ": " +:+ text)
                   "jetstream_publish_failed" true false), b)
      | (None, b) => (None, b)
      end.
End Nats.

(** *** relay.go *)

Definition ErrRepositoryUnavailable : error := Sentinel "outbox repository is not configured".
Definition ErrPublisherUnavailable : error := Sentinel "outbox publisher is not configured".

Section Relay.
(** The interface [Publisher]. *)
Context {B : Type}.
Definition Publisher : Type :=
  string → string → gmap string string → string → B → option PublishError * B.

Record Relay := mkRelay {
  r_publisher : option Publisher; r_owner : string; r_batchSize : Z; r_lockAge : Z;
}.
Definition NewRelay (publisher : option Publisher) (owner : string) : Relay :=
  mkRelay publisher owner 100 Minute.

Definition event_headers (ev : Event) : gmap string string :=
  <["Shiyao-Aggregate-Id" := uuid_String (e_AggregateID ev)]>
    (<["Shiyao-Aggregate-Type" := e_AggregateType ev]>
      (<["Shiyao-Event-Id" := uuid_String (e_ID ev)]> (e_Headers ev))).

Definition processEvent (publish : Publisher) (owner : string) (now : Z) (ev : Event)
  : ST (option DB * B) unit := λ '(d, b),
  let '(publishErr, b) := publish (e_Subject ev) (default "" (e_Payload ev)) (event_headers ev)
                            (uuid_String (e_ID ev)) b in
  match publishErr with
  | None => let '(r, d) := MarkPublished now (e_ID ev) owner d in (r, (d, b))
  | Some err =>
      let '(class, code) := classifyPublishError (Some err) in
      match class with
      | publishErrorPermanent =>
          let '(r, d) := Quarantine now (e_ID ev) owner code (pe_text err) d in (r, (d, b))
      | _ =>
          let nextAttempt := now + retryDelay (e_PublishFailures ev) in
          let '(r, d) := Release now (e_ID ev) owner nextAttempt (pe_text err) d in (r, (d, b))
      end
  end.

Fixpoint process_events (publish : Publisher) (owner : string) (clock : nat → Z) (i : nat)
    (evs : list Event) : ST (option DB * B) unit := λ s,
  match evs with
  | [] => (Ok tt, s)
  | ev :: evs =>
      match processEvent publish owner (clock i) ev s with
      | (Err e, s) => (Err e, s)
      | (Ok _, s) => process_events publish owner clock (S i) evs s
      end
  end.

(** [clock 0] is the time of the claim, [clock (S i)] that of event [i]. *)
Definition RunOnce (r : Relay) (skipped : gset Z) (clock : nat → Z) : ST (option DB * B) unit :=
  λ '(d, b),
  match d, r_publisher r with
  | None, _ => (Err ErrRepositoryUnavailable, (d, b))
  | _, None => (Err ErrPublisherUnavailable, (d, b))
  | Some _, Some publish =>
      match ClaimBatch (clock 0%nat) skipped (r_owner r) (r_batchSize r) (clock 0%nat - r_lockAge r) d with
      | (Err e, d) => (Err e, (d, b))
      | (Ok evs, d) => process_events publish (r_owner r) clock 1 evs (d, b)
      end
  end.
End Relay.

(** ** What the table guarantees *)

(** The constraints of migrations/010, and that a row which is published or
    quarantined is not locked. *)
Record row_wf (r : Row) : Prop := {
  wf_check : row_check r = true;
  wf_terminal : published_at r = None ∨ quarantined_at r = None;
  wf_lock : is_Some (locked_at r) ↔ is_Some (locked_by r);
  wf_quarantine :
    (quarantined_at r = None ∧ quarantine_code r = None ∧ quarantine_reason r = None) ∨
    (is_Some (quarantined_at r) ∧ ∃ code reason, quarantine_code r = Some code ∧ not_blank code = true ∧
       quarantine_reason r = Some reason ∧ not_blank reason = true);
  wf_counts : 0 ≤ attempts r ∧ 0 ≤ publish_failures r ∧ 0 ≤ redrive_count r;
  wf_idle : published_at r ≠ None ∨ quarantined_at r ≠ None → locked_by r = None;
}.

(** One statement, by any client at any time. *)
Inductive outbox_step `{Jsonb} : DB → DB → Prop :=
  | os_enqueue jv uid now ev r d d' :
      enqueue jv uid now ev (Some d) = (r, Some d') → outbox_step d d'
  | os_claim now skipped owner limit stale r d d' :
      ClaimBatch now skipped owner limit stale (Some d) = (r, Some d') → outbox_step d d'
  | os_publish now id owner r d d' :
      MarkPublished now id owner (Some d) = (r, Some d') → outbox_step d d'
  | os_release now id owner at_ err r d d' :
      Release now id owner at_ err (Some d) = (r, Some d') → outbox_step d d'
  | os_quarantine now id owner code reason r d d' :
      Quarantine now id owner code reason (Some d) = (r, Some d') → outbox_step d d'
  | os_redrive now id at_ r d d' :
      Redrive now id at_ (Some d) = (r, Some d') → outbox_step d d'.

Lemma update_where_inv id cond f fmt lost r d d' :
  update_where id cond f fmt lost (Some d) = (r, Some d') →
  d' = d ∧ is_ok r = false ∨
  ∃ row, events d !! id = Some row ∧ cond row = true ∧ r = Ok tt
         ∧ d' = set_events (<[id := f row]> (events d)) d.
Proof.
  unfold update_where. destruct (db_down d); [intros [= <- <-]; by left|].
  destruct (events d !! id) as [row|]; [|intros [= <- <-]; by left].
  destruct (cond row) eqn:Hc; intros [= <- <-]; [|by left]. right. by exists row.
Qed.

Lemma claim_rows_lookup now owner ids t id :
  NoDup ids →
  claim_rows now owner ids t !! id =
    if decide (id ∈ ids) then claim_row now owner <$> t !! id else t !! id.
Proof.
  intros Hnd. induction ids as [|x ids IH]; [done|].
  apply NoDup_cons in Hnd as [Hx Hnd]. specialize (IH Hnd). cbn. fold (claim_rows now owner ids t).
  destruct (decide (x = id)) as [->|Hne].
  - rewrite lookup_alter_eq, IH, decide_False by done. by rewrite decide_True by left.
  - rewrite lookup_alter_ne, IH by done. destruct (decide (id ∈ ids)).
    + by rewrite decide_True by by right.
    + rewrite decide_False; [done|]. by intros [->|]%elem_of_cons.
Qed.

Section Candidates.
Context (now stale limit : Z) (skipped : gset Z) (t : gmap Z Row).
Let pool := filter (λ x, claimable now stale x.2 = true ∧ x.1 ∉ skipped) (map_to_list t).

Lemma candidates_in x :
  x ∈ candidates now stale limit skipped t →
  t !! x.1 = Some x.2 ∧ claimable now stale x.2 = true ∧ x.1 ∉ skipped.
Proof.
  unfold candidates. intros Hx. assert (x ∈ merge_sort before pool) as Hx'.
  { eapply subseteq_take. exact Hx. }
  rewrite (merge_sort_Permutation before pool) in Hx'.
  apply list_elem_of_filter in Hx' as [[? ?] Hin]. destruct x. by apply elem_of_map_to_list in Hin.
Qed.

Lemma candidates_nodup : NoDup (candidates now stale limit skipped t).*1.
Proof.
  unfold candidates. eapply sublist_NoDup; [|apply fmap_sublist, sublist_take].
  fold pool. rewrite (merge_sort_Permutation before pool). unfold pool.
  eapply sublist_NoDup; [apply (NoDup_fst_map_to_list t)|]. apply fmap_sublist, sublist_filter.
Qed.

(** A claimable row that was left out comes after every candidate, and
    only a full batch leaves rows out. *)
Lemma candidates_earliest x y :
  x ∈ candidates now stale limit skipped t →
  t !! y.1 = Some y.2 → claimable now stale y.2 = true → y.1 ∉ skipped →
  y ∉ candidates now stale limit skipped t →
  before x y ∧ Z.of_nat (length (candidates now stale limit skipped t)) = Z.of_nat (Z.to_nat limit).
Proof.
  intros Hx Hy Hc Hs Hny. unfold candidates in *. fold pool in Hx, Hny |- *.
  assert (y ∈ merge_sort before pool) as Hin.
  { rewrite (merge_sort_Permutation before pool). apply list_elem_of_filter. split; [done|].
    destruct y. by apply elem_of_map_to_list. }
  pose proof (StronglySorted_merge_sort before pool) as Hsorted.
  set (l := merge_sort before pool) in *. set (n := Z.to_nat limit) in *.
  rewrite <- (take_drop n l) in Hin, Hsorted. apply elem_of_app in Hin as [?|Hd]; [done|].
  split.
  - by eapply StronglySorted_app_1_elem_of.
  - rewrite length_take. assert (drop n l ≠ []) by (intros E; rewrite E in Hd; by apply elem_of_nil in Hd).
    assert (n < length l)%nat; [|lia]. destruct (decide (n < length l)%nat); [done|].
    exfalso. rewrite drop_ge in Hd by lia. by apply elem_of_nil in Hd.
Qed.
End Candidates.

Lemma claim_inv now skipped owner limit stale r d d' :
  ClaimBatch now skipped owner limit stale (Some d) = (r, Some d') →
  (d' = d ∧ is_ok r = false) ∨
  let c := candidates now stale limit skipped (events d) in
  TrimSpace owner ≠ "" ∧ 0 < limit ∧
  r = Ok ((λ x, event_of_row x.1 (claim_row now (TrimSpace owner) x.2)) <$> c) ∧
  d' = set_events (claim_rows now (TrimSpace owner) c.*1 (events d)) d.
Proof.
  unfold ClaimBatch. case_bool_decide; [intros [= <- <-]; by left|].
  destruct (Z.leb_spec limit 0); [intros [= <- <-]; by left|].
  destruct (IsZero stale); [intros [= <- <-]; by left|].
  destruct (db_down d); [intros [= <- <-]; by left|]. intros [= <- <-]. by right.
Qed.

(** How a statement can change a row that is in the table. *)
Inductive row_step : Row → Row → Prop :=
  | rs_same r : row_step r r
  | rs_claim now stale owner r : claimable now stale r = true → row_step r (claim_row now owner r)
  | rs_publish now owner r : claimed_by owner r = true → row_step r (mark_published_row now r)
  | rs_release now at_ err owner r : claimed_by owner r = true → row_step r (release_row now at_ err r)
  | rs_quarantine now code reason owner r :
      claimed_by owner r = true → not_blank code = true → not_blank reason = true → row_step r (quarantine_row now code reason r)
  | rs_redrive now at_ r :
      published_at r = None → quarantined_at r ≠ None → row_step r (redrive_row now at_ r).

Lemma claimed_by_true owner r :
  claimed_by owner r = true →
  published_at r = None ∧ quarantined_at r = None ∧ locked_by r = Some owner.
Proof.
  unfold claimed_by. intros [[H1 H2]%andb_true_iff H3]%andb_true_iff.
  by apply bool_decide_eq_true in H1, H2, H3.
Qed.
Lemma claimable_true now stale r :
  claimable now stale r = true →
  published_at r = None ∧ quarantined_at r = None ∧ available_at r ≤ now ∧
  (∀ t, locked_at r = Some t → t < stale).
Proof.
  unfold claimable. intros [[[H1 H2]%andb_true_iff H3]%andb_true_iff H4]%andb_true_iff.
  apply bool_decide_eq_true in H1, H2. apply Z.leb_le in H3. split_and!; try done.
  intros t E. rewrite E in H4. lia.
Qed.

(** A new row, of the event that was enqueued. *)
Lemma enqueue_inv `{Jsonb} jv uid now ev r d d' :
  enqueue jv uid now ev (Some d) = (r, Some d') →
  d' = d ∧ is_ok r = false ∨
  ∃ id at_ text stored hs, let row := new_row now at_ ev stored hs in
    r = Ok id ∧ id = (if e_ID ev =? 0 then uid else e_ID ev) ∧ e_Payload ev = Some text ∧ jsonb text = Some stored ∧
    stored_headers (e_Headers ev) = Some hs ∧ row_check row = true ∧ events d !! id = None ∧
    d' = set_events (<[id := row]> (events d)) d.
Proof.
  unfold enqueue. case_bool_decide; [intros [= <- <-]; by left|]. case_bool_decide; [intros [= <- <-]; by left|].
  destruct (e_AggregateID ev =? 0); [intros [= <- <-]; by left|].
  destruct (e_Payload ev) as [text|]; [|intros [= <- <-]; by left].
  destruct (negb (jv text)); [intros [= <- <-]; by left|]. destruct (db_down d); [intros [= <- <-]; by left|].
  destruct (jsonb text) as [stored|] eqn:Ej; [|intros [= <- <-]; by left].
  destruct (stored_headers _) as [hs|]; [|intros [= <- <-]; by left].
  destruct (_ || _) eqn:Hc; [intros [= <- <-]; by left|]. intros [= <- <-]. right.
  apply orb_false_iff in Hc as [[_ Hc]%orb_false_iff Hn%bool_decide_eq_false_1].
  eexists _, _, text, stored, hs. cbn zeta. split_and!; try done.
  - by apply negb_false_iff in Hc.
  - by apply eq_None_not_Some.
Qed.

Lemma outbox_step_rows `{Jsonb} d d' id row :
  outbox_step d d' → events d !! id = Some row →
  ∃ row', events d' !! id = Some row' ∧ row_step row row'.
Proof.
  assert (∀ cond f fmt lost key r d d', update_where key cond f fmt lost (Some d) = (r, Some d') →
    (∀ row, cond row = true → row_step row (f row)) → events d !! id = Some row →
    ∃ row', events d' !! id = Some row' ∧ row_step row row') as Hupd.
  { intros cond f fmt lost key r d1 d2 E Hf Hid.
    destruct (update_where_inv _ _ _ _ _ _ _ _ E) as [[-> _]|(row1 & Hk & Hc & _ & ->)].
    - exists row. by split; [|constructor].
    - cbn. destruct (decide (key = id)) as [->|Hne].
      + rewrite lookup_insert_eq. assert (row1 = row) as -> by congruence.
        exists (f row). split; [done|by apply Hf].
      + rewrite lookup_insert_ne by done. exists row. by split; [|constructor]. }
  intros [jv uid now ev r d1 d2 E|now sk owner limit stale r d1 d2 E|now k owner r d1 d2 E
         |now k owner at_ err r d1 d2 E|now k owner code reason r d1 d2 E|now k at_ r d1 d2 E] Hid.
  - exists row. split; [|constructor].
    destruct (enqueue_inv _ _ _ _ _ _ _ E) as [[-> _]|(k & at_ & text & st & hs & _ & _ & _ & _ & _ & _ & Hn & ->)]; [done|].
    cbn. rewrite lookup_insert_ne; [done|congruence].
  - destruct (claim_inv _ _ _ _ _ _ _ _ E) as [[-> _]|(_ & _ & _ & ->)].
    { exists row. by split; [|constructor]. }
    cbn. rewrite claim_rows_lookup by apply candidates_nodup. destruct (decide _) as [Hin|].
    + rewrite Hid. cbn. eexists. split; [done|]. apply list_elem_of_fmap in Hin as ([i x] & -> & Hin).
      destruct (candidates_in _ _ _ _ _ _ Hin) as (Hx & Hc & _). cbn in *.
      assert (x = row) as -> by congruence. by eapply rs_claim.
    + exists row. by split; [|constructor].
  - eapply Hupd; [exact E| |done]. intros. by eapply rs_publish.
  - eapply Hupd; [exact E| |done]. intros. by eapply rs_release.
  - revert E. unfold Quarantine. destruct (_ || _) eqn:Hb.
    { intros [= <- <-]. exists row. by split; [|constructor]. }
    apply orb_false_iff in Hb as [Hcode%bool_decide_eq_false_1 Hreason%bool_decide_eq_false_1].
    intros E. eapply Hupd; [exact E| |done]. intros. eapply rs_quarantine; [done|by apply TrimSpace_not_blank..].
  - eapply Hupd; [exact E| |done]. intros row1 Hc. apply andb_true_iff in Hc as [H1 H2].
    apply rs_redrive; [by apply bool_decide_eq_true in H1|].
    by apply negb_true_iff, bool_decide_eq_false in H2.
Qed.

Lemma row_step_wf r r' : row_step r r' → row_wf r → row_wf r'.
Proof.
  assert (∀ (a : option Z) (b : option string), a = None → b = None → is_Some a ↔ is_Some b) as Hnone.
  { by intros a b -> ->. }
  intros Hs [Hk Ht Hl Hq Hc Hi].
  destruct Hs as [r|now stale owner r Hcl|now owner r Hcl|now at_ err owner r Hcl
                 |now code reason owner r Hcl Hnc Hnr|now at_ r Hp Hqn]; [done|..].
  - apply claimable_true in Hcl as (Hp & Hqn & _ & _). split; cbn.
    + done.
    + done.
    + by split; eexists.
    + done.
    + lia.
    + rewrite Hp, Hqn. by intros [|].
  - apply claimed_by_true in Hcl as (Hp & Hqn & Hb). split; cbn; auto.
  - apply claimed_by_true in Hcl as (Hp & Hqn & Hb). split; cbn; auto. lia.
  - apply claimed_by_true in Hcl as (Hp & Hqn & Hb). split; cbn; auto; [|lia].
    right. split; [by eexists|]. by exists code, reason.
  - split; cbn; auto. lia.
Qed.
(** A row that is added satisfies the constraints from the start. *)
Lemma outbox_step_new `{Jsonb} d d' id row :
  outbox_step d d' → events d !! id = None → events d' !! id = Some row → row_wf row.
Proof.
  assert (∀ key cond f fmt lost r d d', update_where key cond f fmt lost (Some d) = (r, Some d') →
    events d !! id = None → events d' !! id = None) as Hupd.
  { intros key cond f fmt lost r d1 d2 E Hid.
    destruct (update_where_inv _ _ _ _ _ _ _ _ E) as [[-> _]|(row1 & Hk & _ & _ & ->)]; [done|].
    cbn. rewrite lookup_insert_ne; [done|congruence]. }
  intros [jv uid now ev r d1 d2 E|now sk owner limit stale r d1 d2 E|now k owner r d1 d2 E
         |now k owner at_ err r d1 d2 E|now k owner code reason r d1 d2 E|now k at_ r d1 d2 E] Hid Hid'.
  - destruct (enqueue_inv _ _ _ _ _ _ _ E) as [[-> _]|(k & at_ & text & st & hs & _ & _ & _ & _ & _ & Hc & _ & ->)]; [congruence|].
    cbn in Hid'. apply lookup_insert_Some in Hid' as [[_ <-]|[_ ?]]; [|congruence].
    split; cbn; done || by left.
  - destruct (claim_inv _ _ _ _ _ _ _ _ E) as [[-> _]|(_ & _ & _ & ->)]; [congruence|].
    cbn in Hid'. rewrite claim_rows_lookup, Hid in Hid' by apply candidates_nodup. by destruct (decide _).
  - by rewrite (Hupd _ _ _ _ _ _ _ _ E Hid) in Hid'.
  - by rewrite (Hupd _ _ _ _ _ _ _ _ E Hid) in Hid'.
  - revert E. unfold Quarantine. destruct (_ || _); [intros [= <- <-]; congruence|]. intros E.
    by rewrite (Hupd _ _ _ _ _ _ _ _ E Hid) in Hid'.
  - by rewrite (Hupd _ _ _ _ _ _ _ _ E Hid) in Hid'.
Qed.
Lemma outbox_step_wf `{Jsonb} d d' :
  outbox_step d d' → map_Forall (λ _, row_wf) (events d) → map_Forall (λ _, row_wf) (events d').
Proof.
  intros Hst Hwf id row Hid. destruct (events d !! id) as [row0|] eqn:Hid0; [|by eapply outbox_step_new].
  destruct (outbox_step_rows _ _ _ _ Hst Hid0) as (row1 & Hid1 & Hrs). rewrite Hid in Hid1. injection Hid1 as <-.
  eapply row_step_wf; [exact Hrs|]. by eapply Hwf.
Qed.

Lemma row_step_published r r' : row_step r r' → published_at r ≠ None → r' = r.
Proof.
  intros Hrs Hp. destruct Hrs as [r|now stale owner r Hcl|now owner r Hcl|now at_ err owner r Hcl
                  |now code reason owner r Hcl _ _|now at_ r Hpn _]; [done|..]; exfalso; apply Hp;
    first [apply claimable_true in Hcl; tauto|apply claimed_by_true in Hcl; tauto|done].
Qed.

(** C14: The constraints of the outbox table (subject and aggregate type, the
    counters, the lock pair, the terminal state, a quarantine with a code and
    a reason that are not blank) hold of every row after any sequence of
    statements, the rows that were added in between included; no row
    disappears; and a published event is final: no later claim, release,
    quarantine, redrive or second publication changes its row. *)
Theorem published_is_final `{Jsonb} d d' :
  rtc outbox_step d d' → map_Forall (λ _, row_wf) (events d) →
  map_Forall (λ _, row_wf) (events d') ∧
  ∀ id row, events d !! id = Some row →
    ∃ row', events d' !! id = Some row' ∧ (published_at row ≠ None → row' = row).
Proof.
  intros Hr Hwf. split; [induction Hr; eauto using outbox_step_wf|].
  clear Hwf. induction Hr as [d|d1 d2 d3 Hst _ IH]; intros id row Hid; [eauto|].
  destruct (outbox_step_rows _ _ _ _ Hst Hid) as (row2 & Hid2 & Hrs).
  destruct (IH _ _ Hid2) as (row3 & Hid3 & Hfin). exists row3. split; [done|]. intros Hp.
  pose proof (row_step_published _ _ Hrs Hp) as ->. by apply Hfin.
Qed.

(** C24: A claim takes at most [limit] events, each of them unpublished, due and
    either unlocked or locked before the stale time; it locks them for the
    trimmed owner; and what it leaves out comes later in the queue. *)
Theorem claim_is_exclusive_and_ordered now skipped owner limit stale d evs d' :
  ClaimBatch now skipped owner limit stale (Some d) = (Ok evs, Some d') →
  Z.of_nat (length evs) ≤ limit ∧ NoDup (e_ID <$> evs) ∧
  (∀ ev, ev ∈ evs → ∃ row, events d !! e_ID ev = Some row ∧
     published_at row = None ∧ quarantined_at row = None ∧ available_at row ≤ now ∧
     (∀ t, locked_at row = Some t → t < stale) ∧
     events d' !! e_ID ev = Some (claim_row now (TrimSpace owner) row) ∧
     e_Attempts ev = attempts row + 1) ∧
  (∀ id row, events d !! id = Some row → id ∉ e_ID <$> evs →
     events d' !! id = Some row ∧
     (claimable now stale row = true → id ∉ skipped →
      ∀ ev, ev ∈ evs → e_AvailableAt ev ≤ available_at row)).
Proof.
  intros E. destruct (claim_inv _ _ _ _ _ _ _ _ E) as [[_ ?]|(Ho & Hl & [= ->] & ->)]; [done|].
  set (c := candidates now stale limit skipped (events d)) in *.
  assert (e_ID <$> ((λ x, event_of_row x.1 (claim_row now (TrimSpace owner) x.2)) <$> c) = c.*1) as Hids.
  { rewrite <- list_fmap_compose. done. }
  rewrite Hids. pose proof (candidates_nodup now stale limit skipped (events d)) as Hnd. fold c in Hnd.
  split_and!.
  - rewrite length_fmap. unfold c, candidates. rewrite length_take. lia.
  - done.
  - intros ev ([id row] & -> & Hin)%list_elem_of_fmap. cbn [fst snd event_of_row e_ID].
    destruct (candidates_in _ _ _ _ _ _ Hin) as (Hid & Hc & _). cbn in Hid, Hc.
    apply claimable_true in Hc as (Hp & Hq & Ha & Ht). exists row. split_and!; try done.
    cbn [events set_events]. rewrite claim_rows_lookup by done.
    rewrite decide_True by (apply list_elem_of_fmap; by exists (id, row)). by rewrite Hid.
  - intros id row Hid Hnin. cbn [events set_events]. rewrite claim_rows_lookup, decide_False by done.
    split; [done|]. intros Hc Hs ev ([i x] & -> & Hin)%list_elem_of_fmap.
    destruct (candidates_earliest now stale limit skipped (events d) (i, x) (id, row)) as [Hb _];
      try done.
    + intros Hin2. apply Hnin, list_elem_of_fmap. by exists (id, row).
    + unfold before in Hb. cbn in *. lia.
Qed.

(** The owner is a fence: when another owner holds the claim, no outcome can
    be recorded and nothing changes. *)
Theorem lost_claim_changes_nothing now id owner other at_ err code reason d row :
  db_down d = None → events d !! id = Some row → locked_by row = Some other → other ≠ owner →
  MarkPublished now id owner (Some d) = (Err ErrClaimLost, Some d) ∧
  Release now id owner at_ err (Some d) = (Err ErrClaimLost, Some d) ∧
  (TrimSpace code ≠ "" → TrimSpace reason ≠ "" →
   Quarantine now id owner code reason (Some d) = (Err ErrClaimLost, Some d)).
Proof.
  intros Hd Hid Hl Hne. assert (claimed_by owner row = false) as Hc.
  { unfold claimed_by. rewrite Hl, (bool_decide_eq_false_2 (Some other = Some owner)) by congruence.
    apply andb_false_r. }
  unfold MarkPublished, Release, Quarantine, update_where. rewrite Hd, Hid, Hc.
  split_and!; [done|done|]. intros H1 H2. by rewrite !bool_decide_eq_false_2.
Qed.

(** The back-off doubles from one second and stays at 1024 seconds; it never
    overflows, however large the failure count. *)
Theorem retryDelay_backs_off failures :
  retryDelay failures = 2 ^ Z.max 0 (Z.min 10 failures) * Second ∧
  Second ≤ retryDelay failures ≤ 1024 * Second.
Proof.
  unfold retryDelay. set (f := Z.max 0 (Z.min 10 failures)).
  assert ((if 10 <? (if failures <? 0 then 0 else failures) then 10
           else if failures <? 0 then 0 else failures) = f) as ->.
  { unfold f. destruct (Z.ltb_spec failures 0); [by cbn; lia|]. destruct (Z.ltb_spec 10 failures); lia. }
  assert (0 ≤ f ≤ 10) as Hf by lia. rewrite Z.shiftl_1_l.
  assert (2 ^ 0 ≤ 2 ^ f ≤ 2 ^ 10) as [H1 H2] by (split; apply Z.pow_le_mono_r; lia).
  cbn in H1, H2. unfold int64, Second. rewrite wrap_s_small by lia. split; [done|]. lia.
Qed.

(** *** A round of the relay *)

(** The relay quarantines what the error calls permanent. *)
Definition permanent (err : PublishError) : Prop := (classifyPublishError (Some err)).1 = publishErrorPermanent.
#[export] Instance permanent_dec err : Decision (permanent err).
Proof. unfold permanent. destruct (classifyPublishError _) as [[] ?]; cbn; (by left) || by right. Defined.
(** [Quarantine] wants a code and a text. *)
Definition says_why (err : PublishError) : Prop :=
  TrimSpace (pe_text err) ≠ "" ∧ TrimSpace (classifyPublishError (Some err)).2 ≠ "".

Section Round.
Context {B : Type} (publish : Publisher (B := B)).
Hypothesis refusals_say_why : ∀ subject data headers id b err,
  (publish subject data headers id b).1 = Some err → permanent err → says_why err.

(** What the relay asks the publisher for a row. *)
Definition publish_row (id : Z) (row : Row) (b : B) : option PublishError :=
  (publish (subject row) (payload row) (event_headers (event_of_row id row)) (uuid_String id) b).1.

(** What becomes of a claimed row, at one of the [times]. *)
Inductive settled_row (times : Z → Prop) (id : Z) (row : Row) : Row → Prop :=
  | settled_published t b : times t → publish_row id row b = None →
      settled_row times id row (mark_published_row t row)
  | settled_quarantined t b err : times t → publish_row id row b = Some err → permanent err →
      settled_row times id row (quarantine_row t (TrimSpace (classifyPublishError (Some err)).2) (TrimSpace (pe_text err)) row)
  | settled_released t b err : times t → publish_row id row b = Some err → ¬ permanent err →
      settled_row times id row (release_row t (t + retryDelay (publish_failures row)) (pe_text err) row).

Lemma processEvent_settles (times : Z → Prop) owner now ev d b row :
  times now → db_down d = None → events d !! e_ID ev = Some row → claimed_by owner row = true →
  ev = event_of_row (e_ID ev) row →
  ∃ row' b', processEvent publish owner now ev (Some d, b)
             = (Ok tt, (Some (set_events (<[e_ID ev := row']> (events d)) d), b')) ∧ settled_row times (e_ID ev) row row'.
Proof.
  intros Ht Hd Hid Hc Hev. unfold processEvent.
  assert ((publish (e_Subject ev) (default "" (e_Payload ev)) (event_headers ev) (uuid_String (e_ID ev)) b).1
          = publish_row (e_ID ev) row b) as Hp by (rewrite Hev at 1 2 3; by destruct ev).
  assert (e_PublishFailures ev = publish_failures row) as Hf by by rewrite Hev.
  pose proof (refusals_say_why (e_Subject ev) (default "" (e_Payload ev)) (event_headers ev) (uuid_String (e_ID ev)) b) as Hwhy.
  destruct (publish _ _ _ _ b) as [[err|] b1]; cbn in Hp, Hwhy.
  - destruct (decide (permanent err)) as [Hper|Hper].
    + destruct (Hwhy err eq_refl Hper) as [Htext Hcode]. pose proof Hper as Hcl. unfold permanent in Hcl.
      destruct (classifyPublishError (Some err)) as [class code] eqn:Ec. cbn in Hcl, Hcode. subst class.
      unfold Quarantine, update_where. rewrite !bool_decide_eq_false_2, Hd, Hid, Hc by done.
      do 2 eexists. split; [done|]. change code with (publishErrorPermanent, code).2. rewrite <- Ec. by eapply settled_quarantined.
    + pose proof Hper as Hcl. unfold permanent in Hcl. rewrite Hf.
      destruct (classifyPublishError (Some err)) as [[] code]; try done;
        unfold Release, update_where; rewrite Hd, Hid, Hc; (do 2 eexists); (split; [done|]); by eapply settled_released.
  - unfold MarkPublished, update_where. rewrite Hd, Hid, Hc. do 2 eexists. split; [done|]. by eapply settled_published.
Qed.

Lemma process_events_settles owner clock i evs d b :
  let times t := ∃ j, t = clock j in
  db_down d = None → NoDup (e_ID <$> evs) →
  (∀ ev, ev ∈ evs → ∃ row, events d !! e_ID ev = Some row ∧ claimed_by owner row = true ∧
     ev = event_of_row (e_ID ev) row) →
  ∃ d' b', process_events publish owner clock i evs (Some d, b) = (Ok tt, (Some d', b')) ∧ db_down d' = None ∧
    (∀ ev, ev ∈ evs → ∃ row row', events d !! e_ID ev = Some row ∧
       events d' !! e_ID ev = Some row' ∧ settled_row times (e_ID ev) row row') ∧
    (∀ id, id ∉ e_ID <$> evs → events d' !! id = events d !! id).
Proof.
  intros times. revert i d b. induction evs as [|ev evs IH]; intros i d b Hd Hnd Hcl.
  { exists d, b. split_and!; [done|done|by intros ? ?%elem_of_nil|done]. }
  apply NoDup_cons in Hnd as [Hnew Hnd]. cbn [process_events].
  destruct (Hcl ev) as (row & Hid & Hc & Hev); [left|].
  destruct (processEvent_settles times owner (clock i) ev d b row ltac:(by exists i) Hd Hid Hc Hev) as (row' & b1 & -> & Hset).
  set (d1 := set_events (<[e_ID ev := row']> (events d)) d).
  assert (∀ id, id ≠ e_ID ev → events d1 !! id = events d !! id) as Hd1
    by (intros; cbn; by rewrite lookup_insert_ne).
  assert (∀ ev', ev' ∈ evs → e_ID ev' ≠ e_ID ev) as Hne.
  { intros ev' Hin Heq. apply Hnew. rewrite <- Heq. by apply list_elem_of_fmap_2. }
  destruct (IH (S i) d1 b1) as (d' & b' & E & Hdn & Hmark & Hrest); [done|done| |].
  { intros ev' Hin. rewrite Hd1 by by apply Hne. apply Hcl. by right. }
  exists d', b'. split; [done|]. split; [done|]. split.
  - intros ev' [->|Hin]%elem_of_cons.
    + exists row, row'. rewrite Hrest by done. split_and!; [done| |done]. cbn. by rewrite lookup_insert_eq.
    + destruct (Hmark ev' Hin) as (r & r' & H1 & H2). rewrite Hd1 in H1 by by apply Hne. eauto.
  - intros id [Hid1 Hid2]%not_elem_of_cons. rewrite Hrest by done. by apply Hd1.
Qed.

(** One round of a relay whose owner is trimmed, at times after one minute
    past the zero time. *)
Lemma relay_round owner skipped clock d b :
  TrimSpace owner = owner → owner ≠ "" → db_down d = None →
  IsZero (clock 0%nat - Minute) = false →
  ∃ d' b', RunOnce (NewRelay (Some publish) owner) skipped clock (Some d, b) = (Ok tt, (Some d', b')) ∧
    db_down d' = None ∧
    let batch := candidates (clock 0%nat) (clock 0%nat - Minute) 100 skipped (events d) in
    (∀ x, x ∈ batch → ∃ row', events d' !! x.1 = Some row' ∧
       settled_row (λ t, ∃ j, t = clock j) x.1 (claim_row (clock 0%nat) owner x.2) row') ∧
    (∀ id, id ∉ batch.*1 → events d' !! id = events d !! id).
Proof.
  intros Ho Hne Hd Hz. unfold RunOnce, NewRelay, ClaimBatch. cbn [r_publisher r_owner r_batchSize r_lockAge].
  rewrite Ho, bool_decide_eq_false_2, Hz, Hd by done. cbn [Z.leb Z.compare].
  set (c := candidates _ _ _ _ _). set (evs := _ <$> c).
  assert (e_ID <$> evs = c.*1) as Hids by (unfold evs; by rewrite <- list_fmap_compose).
  pose proof (candidates_nodup (clock 0%nat) (clock 0%nat - Minute) 100 skipped (events d)) as Hnd.
  fold c in Hnd. set (d1 := set_events _ d).
  assert (∀ x, x ∈ c → events d1 !! x.1 = Some (claim_row (clock 0%nat) owner x.2)
                       ∧ claimed_by owner (claim_row (clock 0%nat) owner x.2) = true) as Hcl.
  { intros x Hx. destruct (candidates_in _ _ _ _ _ _ Hx) as (Hid & Hc & _).
    apply claimable_true in Hc as (Hp & Hq & _). split.
    - cbn. rewrite claim_rows_lookup, decide_True by (done || by apply list_elem_of_fmap_2). by rewrite Hid.
    - unfold claimed_by. cbn. by rewrite Hp, Hq, !bool_decide_eq_true_2. }
  destruct (process_events_settles owner clock 1 evs d1 b) as (d' & b' & E & Hdn & Hm & Hr).
  - done.
  - by rewrite Hids.
  - intros ev (x & -> & Hx)%list_elem_of_fmap. destruct (Hcl x Hx). cbn. eauto 10.
  - exists d', b'. split; [exact E|]. split; [done|]. cbn zeta. rewrite Hids in Hr. split.
    + intros x Hx. destruct (Hm (event_of_row x.1 (claim_row (clock 0%nat) owner x.2))) as (row & row' & H1 & H2 & Hs).
      { unfold evs. apply list_elem_of_fmap. by exists x. }
      destruct (Hcl x Hx) as [H1' _]. cbn [e_ID event_of_row] in *. rewrite H1' in H1. injection H1 as <-. eauto.
    + intros id Hid. rewrite Hr by done. cbn. by rewrite claim_rows_lookup, decide_False.
Qed.
End Round.

(** One round of the relay against a bus that accepts everything ends
    without error, every event that was claimable is published and marked
    so, up to the batch size, and no other row changes. *)
Theorem relay_round_publishes {B} (publish : Publisher (B := B)) owner skipped clock d b :
  (∀ subject data headers id b, (publish subject data headers id b).1 = None) →
  TrimSpace owner = owner → owner ≠ "" → db_down d = None →
  IsZero (clock 0%nat - Minute) = false →
  ∃ d' b', RunOnce (NewRelay (Some publish) owner) skipped clock (Some d, b) = (Ok tt, (Some d', b')) ∧
    let batch := candidates (clock 0%nat) (clock 0%nat - Minute) 100 skipped (events d) in
    (∀ x, x ∈ batch → ∃ row, events d' !! x.1 = Some row ∧ published_at row ≠ None) ∧
    (∀ id, id ∉ batch.*1 → events d' !! id = events d !! id).
Proof.
  intros Hacc Ho Hne Hd Hz.
  destruct (relay_round publish) with owner skipped clock d b as (d' & b' & E & _ & Hs & Hr); try done.
  { intros subject data headers id b0 err. by rewrite Hacc. }
  exists d', b'. split; [exact E|]. split; [|exact Hr].
  intros x Hx. destruct (Hs x Hx) as (row' & Hid & Hset). exists row'. split; [done|].
  destruct Hset as [t b0 _ _|t b0 err _ He _|t b0 err _ He _]; [done|..]; unfold publish_row in He; by rewrite Hacc in He.
Qed.

(** [ClaimBatch] trims the owner, the other statements do not: a relay whose
    owner has surrounding white space claims and publishes events but can
    never record it. *)
Theorem untrimmed_owner_loses_every_claim now now2 skipped owner limit stale d evs d' ev :
  TrimSpace owner ≠ owner → db_down d = None →
  ClaimBatch now skipped owner limit stale (Some d) = (Ok evs, Some d') → ev ∈ evs →
  MarkPublished now2 (e_ID ev) owner (Some d') = (Err ErrClaimLost, Some d').
Proof.
  intros Hne Hd E Hin. destruct (claim_inv _ _ _ _ _ _ _ _ E) as [[_ ?]|(Ho & Hl & [= ->] & ->)]; [done|].
  apply list_elem_of_fmap in Hin as ([id row] & -> & Hin).
  destruct (candidates_in _ _ _ _ _ _ Hin) as (Hid & _ & _). cbn in Hid.
  unfold MarkPublished, update_where. cbn [db_down set_events events event_of_row e_ID fst snd]. rewrite Hd.
  rewrite claim_rows_lookup, decide_True, Hid
    by (apply candidates_nodup || apply list_elem_of_fmap; by exists (id, row)).
  cbn. unfold claimed_by. cbn. rewrite (bool_decide_eq_false_2 (Some (TrimSpace owner) = Some owner))
    by congruence. by rewrite andb_false_r.
Qed.

(** ** A table with one event, served by the worker [w] *)

Definition fresh_row : Row :=
  {| subject := "s"; aggregate_type := "sandbox"; aggregate_id := 7; payload := "{}"; headers := ∅;
     available_at := 0; published_at := None; attempts := 0; publish_failures := 0; redrive_count := 0;
     last_error := None; quarantined_at := None; quarantine_code := None; quarantine_reason := None;
     locked_at := None; locked_by := None; created_at := 0; updated_at := 0 |}.
Definition fresh_db : DB := mkDB {[1 := fresh_row]} None.
Definition claimed_db : DB := mkDB {[1 := claim_row 5 "w" fresh_row]} None.
Definition published_db : DB := mkDB {[1 := mark_published_row 6 (claim_row 5 "w" fresh_row)]} None.

Lemma fresh_row_wf : row_wf fresh_row.
Proof.
  split; cbn.
  - done.
  - by left.
  - by split; intros [].
  - by left.
  - done.
  - done.
Qed.

(** A column that drops the spaces of a text, which is right outside of
    quotes; a second event goes through it. *)
Definition squeeze (s : string) : string := of_bytes (filter (λ b, b ≠ 32) (bytes s)).
Definition squeezing : Jsonb := {| jsonb s := Some (squeeze s) |}.
Definition spaced_event : Event := mkEvent 2 " s.t " "sandbox" 7 (Some "{ }") {["k" := "v"]} 0 0 0 0.
Definition two_events : DB := set_events (<[2 := new_row 7 0 spaced_event "{}" {["k" := "v"]}]> (events published_db)) published_db.

Lemma published_is_final_witness :
  map_Forall (λ _, row_wf) (events two_events) ∧ payload <$> events two_events !! 2 = Some "{}".
Proof.
  split; [|done]. apply (@published_is_final squeezing fresh_db two_events).
  - eapply rtc_l; [eapply (os_claim 5 ∅ " w " 10 3); vm_compute; reflexivity|].
    eapply rtc_l; [eapply (os_publish 6 1 "w"); vm_compute; reflexivity|].
    eapply rtc_l; [eapply (os_enqueue (λ _, true) 9 7 spaced_event); vm_compute; reflexivity|]. apply rtc_refl.
  - apply map_Forall_singleton, fresh_row_wf.
Defined.
Lemma claim_is_exclusive_and_ordered_witness :
  events claimed_db !! 1 = Some (claim_row 5 "w" fresh_row).
Proof.
  destruct (claim_is_exclusive_and_ordered 5 ∅ " w " 10 3 fresh_db
              [event_of_row 1 (claim_row 5 "w" fresh_row)] claimed_db) as (_ & _ & Hev & _);
    [vm_compute; reflexivity|].
  destruct (Hev (event_of_row 1 (claim_row 5 "w" fresh_row))) as (row & Hr & _ & _ & _ & _ & Hc & _); [by left|].
  injection Hr as <-. exact Hc.
Defined.
Lemma relay_round_publishes_witness :
  ∃ d' b', RunOnce (NewRelay (Some (λ s _ _ _ b, (None, s :: b))) "w") ∅ (λ i, Z.of_nat i) (Some fresh_db, [])
           = (Ok tt, (Some d', b')).
Proof.
  destruct (relay_round_publishes (λ s _ _ _ b, (None, s :: b)) "w" ∅ (λ i, Z.of_nat i) fresh_db [])
    as (d' & b' & Hr & _); try done. by exists d', b'.
Defined.
Lemma lost_claim_changes_nothing_witness :
  MarkPublished 6 1 "x" (Some claimed_db) = (Err ErrClaimLost, Some claimed_db).
Proof.
  apply (lost_claim_changes_nothing 6 1 "x" "w" 0 "" "" "" claimed_db (claim_row 5 "w" fresh_row)); done.
Defined.
