(* ===== verification/OutboxRelay.v ===== *)
(** * platform/outbox: the relay drains the outbox

    Rounds of [RunOnce] one after the other, against any publisher: how many
    rounds it takes until every event that was due has been offered to the
    publisher, and what its row says then. *)

From stdpp Require Import sorting.
From S2P Require Import Prelude GoStrings AppErrors Outbox.
Open Scope Z_scope.

#[export] Instance row_eq_dec : EqDecision Row.
Proof. solve_decision. Defined.

Section Drain.
Context {B : Type}.

(** One round per clock, until one of them fails. *)
Fixpoint run_rounds (r : Relay (B := B)) (clocks : list (nat → Z)) : ST (option DB * B) unit := λ s,
  match clocks with
  | [] => (Ok tt, s)
  | clock :: clocks =>
      match RunOnce r ∅ clock s with
      | (Err e, s) => (Err e, s)
      | (Ok _, s) => run_rounds r clocks s
      end
  end.

(** The events that are neither published nor quarantined. *)
Definition row_open (row : Row) : Prop := published_at row = None ∧ quarantined_at row = None.
Definition pending (t : gmap Z Row) : gset Z := dom (filter (λ x, row_open x.2) t).

Lemma elem_of_pending t id : id ∈ pending t ↔ ∃ row, t !! id = Some row ∧ row_open row.
Proof. unfold pending. rewrite elem_of_dom. split; [intros [row [? ?]%map_lookup_filter_Some]|intros (row & ? & ?)];
  exists row; [done|]. by apply map_lookup_filter_Some. Qed.
Lemma claimable_open now stale row : claimable now stale row = true → row_open row.
Proof. intros (? & ? & _)%claimable_true. done. Qed.

(** What is claimable stays claimable as time passes. *)
Lemma claimable_mono t now row : t ≤ now → claimable t (t - Minute) row = true → claimable now (now - Minute) row = true.
Proof.
  intros Ht. unfold claimable. rewrite !andb_true_iff, !Z.leb_le. intros (((? & ?) & ?) & Hl).
  split_and!; [done|done|lia|]. destruct (locked_at row); [|done]. rewrite Z.ltb_lt in *. lia.
Qed.
(** A batch that is not full holds every claimable event. *)
Lemma short_batch now stale limit t id row :
  Z.of_nat (length (candidates now stale limit ∅ t)) < limit → t !! id = Some row → claimable now stale row = true →
  (id, row) ∈ candidates now stale limit ∅ t.
Proof.
  unfold candidates. intros Hlen Hid Hc. rewrite length_take in Hlen. rewrite take_ge by lia.
  rewrite merge_sort_Permutation. apply list_elem_of_filter. split; [set_solver|]. by apply elem_of_map_to_list.
Qed.

(** The open events that are due at [start] *)
Definition overdue (start : Z) (t : gmap Z Row) : gset Z :=
  dom (filter (λ x, row_open x.2 ∧ available_at x.2 ≤ start) t).
Lemma elem_of_overdue start t id :
  id ∈ overdue start t ↔ ∃ row, t !! id = Some row ∧ row_open row ∧ available_at row ≤ start.
Proof.
  unfold overdue. rewrite elem_of_dom. split; [intros [row [? ?]%map_lookup_filter_Some]|intros (row & ? & ?)]; exists row; [done|].
  by apply map_lookup_filter_Some.
Qed.
Lemma overdue_pending start t : (size (overdue start t) ≤ size (pending t))%nat.
Proof.
  apply subseteq_size. intros id (row & ? & ? & _)%elem_of_overdue. apply elem_of_pending. by exists row.
Qed.

Context (publish : Publisher (B := B)) (owner : string) (start : Z).
Hypothesis refusals_say_why : ∀ subject data headers id b err,
  (publish subject data headers id b).1 = Some err → permanent err → says_why err.
Hypothesis owner_trimmed : TrimSpace owner = owner.
Hypothesis owner_given : owner ≠ "".
Let relay := NewRelay (Some publish) owner.

(** The clocks of a round: past one minute, from [start] on.  What follows the
    claim matters only to a publisher that defers events. *)
Definition defers : Prop := ∃ subject data headers id b err, (publish subject data headers id b).1 = Some err ∧ ¬ permanent err.
Record in_time (clock : nat → Z) : Prop := {
  it_stale : IsZero (clock 0%nat - Minute) = false;
  it_start : start ≤ clock 0%nat;
  it_later : ∀ i, defers → start ≤ clock i;
}.

(** What the row of an event says once the publisher was asked: the answer
    was given for its own subject, payload, headers and id. *)
Inductive answered (id failures : Z) (row : Row) : Prop :=
  | answered_published b : published_at row ≠ None → publish_row publish id row b = None → answered id failures row
  | answered_quarantined b err : quarantined_at row ≠ None → publish_row publish id row b = Some err → permanent err →
      quarantine_reason row = Some (TrimSpace (pe_text err)) → answered id failures row
  | answered_released b err : row_open row → publish_row publish id row b = Some err → ¬ permanent err →
      last_error row = Some (pe_text err) → failures < publish_failures row → start + Second ≤ available_at row →
      answered id failures row.
(** The event was claimed since it was [row], and its claim is over. *)
Record handled (id : Z) (row row' : Row) : Prop := {
  hd_attempts : attempts row < attempts row';
  hd_unlocked : locked_by row' = None ∧ locked_at row' = None;
  hd_answered : answered id (publish_failures row) row';
}.

Lemma settled_handled clock t id row row' :
  in_time clock → row_open row → settled_row publish (λ t, ∃ j, t = clock j) id (claim_row t owner row) row' →
  handled id row row'.
Proof.
  intros Hc [Hp Hq] Hs. destruct Hs as [u b _ Hb|u b err _ Hb Hper|u b err [j ->] Hb Hper]; (split; cbn; [lia|done|]).
  - by eapply answered_published.
  - by eapply answered_quarantined.
  - eapply answered_released; [done|exact Hb|done|done|cbn; lia|]. cbn.
    assert (start ≤ clock j) as Hj.
    { apply Hc. unfold publish_row in Hb. by do 6 eexists. }
    pose proof (proj2 (retryDelay_backs_off (publish_failures row))). lia.
Qed.
Lemma handled_not_overdue id row row' : handled id row row' → ¬ (row_open row' ∧ available_at row' ≤ start).
Proof.
  intros [_ _ Ha] [[Hp Hq] Hle]. destruct Ha as [| |b err _ _ _ _ _ Hav]; [done|done|]. unfold Second in Hav. lia.
Qed.
(** An event that was released may be handled again. *)
Lemma handled_again id row row1 row2 : handled id row row1 → row_open row1 → handled id row1 row2 → handled id row row2.
Proof.
  intros [Ha1 _ Hs1] [Hp1 Hq1] [Ha2 Hl2 Hs2]. split; [lia|done|].
  destruct Hs1 as [| |b1 err1 _ _ _ _ Hf1 _]; [done|done|].
  destruct Hs2 as [b Hp Hb|b err Hq Hb Hper Hr|b err Ho Hb Hper Hl Hf Hav];
    [by eapply answered_published|by eapply answered_quarantined|].
  eapply answered_released; try done. lia.
Qed.

(** What a round does *)
Lemma round_handles clock d b :
  db_down d = None → in_time clock →
  ∃ d' b', RunOnce relay ∅ clock (Some d, b) = (Ok tt, (Some d', b')) ∧ db_down d' = None ∧
    let batch := candidates (clock 0%nat) (clock 0%nat - Minute) 100 ∅ (events d) in
    (∀ id row, (id, row) ∈ batch → row_open row ∧ ∃ row', events d' !! id = Some row' ∧ handled id row row') ∧
    (∀ id row, events d !! id = Some row → (id, row) ∉ batch → events d' !! id = Some row) ∧
    (∀ id, events d !! id = None → events d' !! id = None).
Proof.
  intros Hd Hc.
  destruct (relay_round publish refusals_say_why owner ∅ clock d b owner_trimmed owner_given Hd (it_stale _ Hc))
    as (d' & b' & E & Hd' & Hset & Hrest). exists d', b'. split; [exact E|]. split; [done|].
  set (batch := candidates _ _ _ _ _) in *. cbn zeta.
  assert (∀ x, x ∈ batch → events d !! x.1 = Some x.2 ∧ row_open x.2) as Hin.
  { intros x Hx. destruct (candidates_in _ _ _ _ _ _ Hx) as (Hid & Hcl & _). split; [done|by eapply claimable_open]. }
  split_and!.
  - intros id row Hx. destruct (Hin _ Hx) as [_ Ho]. split; [done|]. destruct (Hset _ Hx) as (row' & Hr & Hs).
    exists row'. split; [done|]. by eapply settled_handled.
  - intros id row Hid Hn. rewrite Hrest; [done|]. intros ([i r] & -> & Hx)%list_elem_of_fmap.
    destruct (Hin _ Hx) as [Hi _]. cbn in Hi, Hid. by rewrite Hid in Hi; injection Hi as ->.
  - intros id Hid. rewrite Hrest; [done|]. intros ([i r] & -> & Hx)%list_elem_of_fmap.
    destruct (Hin _ Hx) as [Hi _]. cbn in Hi, Hid. by rewrite Hid in Hi.
Qed.

(** Rounds never fail, and what is handled stays handled. *)
Lemma rounds_total clocks d b :
  db_down d = None → Forall in_time clocks →
  ∃ d' b', run_rounds relay clocks (Some d, b) = (Ok tt, (Some d', b')) ∧
    ∀ id row row1, events d !! id = Some row1 → handled id row row1 → ∃ row2, events d' !! id = Some row2 ∧ handled id row row2.
Proof.
  intros Hd Hz. revert d b Hd. induction Hz as [|c cs Hc _ IH]; intros d b Hd; [by eexists d, b; eauto|].
  destruct (round_handles c d b Hd Hc) as (d1 & b1 & E & Hd1 & Hbatch & Hkeep & _).
  destruct (IH d1 b1 Hd1) as (d' & b' & E' & Hk'). exists d', b'. cbn [run_rounds]. rewrite E. split; [done|].
  intros id row row1 Hid Hh. set (batch := candidates _ _ _ _ _) in *.
  destruct (decide ((id, row1) ∈ batch)) as [Hx|Hx]; [|by eapply Hk'; [apply Hkeep|]].
  destruct (Hbatch _ _ Hx) as (Ho & row2 & Hr2 & Hh2). eapply Hk'; [done|]. by eapply handled_again.
Qed.

(** A full batch that leaves out an event which is due takes as many off the
    list of those that are. *)
Lemma full_batch_shrinks clock d d' :
  let batch := candidates (clock 0%nat) (clock 0%nat - Minute) 100 ∅ (events d) in
  (∀ id row, (id, row) ∈ batch → row_open row ∧ ∃ row', events d' !! id = Some row' ∧ handled id row row') →
  (∀ id row, events d !! id = Some row → (id, row) ∉ batch → events d' !! id = Some row) →
  (∀ id, events d !! id = None → events d' !! id = None) →
  (∀ x, x ∈ batch → available_at x.2 ≤ start) →
  (size (overdue start (events d')) + length batch ≤ size (overdue start (events d)))%nat.
Proof.
  intros batch Hbatch Hkeep Hnone Hdue.
  assert (∀ x, x ∈ batch → events d !! x.1 = Some x.2) as Hin by (intros x Hx; by apply (candidates_in _ _ _ _ _ _ Hx)).
  assert (overdue start (events d') ⊆ overdue start (events d) ∖ list_to_set batch.*1) as Hsub.
  { intros id (row & Hid & Ho & Hle)%elem_of_overdue. rewrite elem_of_difference, elem_of_list_to_set.
    destruct (events d !! id) as [row0|] eqn:Hid0; [|by rewrite Hnone in Hid].
    assert ((id, row0) ∉ batch) as Hn.
    { intros Hx. destruct (Hbatch _ _ Hx) as (_ & row' & Hr' & Hh). rewrite Hid in Hr'. injection Hr' as <-.
      by apply (handled_not_overdue _ _ _ Hh). }
    rewrite (Hkeep _ _ Hid0 Hn) in Hid. injection Hid as ->. split; [apply elem_of_overdue; by exists row|].
    intros ([i r] & -> & Hx)%list_elem_of_fmap. pose proof (Hin _ Hx) as Hi. cbn in Hi, Hid0, Hn. congruence. }
  assert (list_to_set batch.*1 ⊆ overdue start (events d)) as Hsub2.
  { intros id ([i r] & -> & Hx)%elem_of_list_to_set%list_elem_of_fmap. apply elem_of_overdue. exists r.
    split; [by apply (Hin _ Hx)|]. split; [by apply (Hbatch _ _ Hx)|by apply (Hdue _ Hx)]. }
  assert (size (list_to_set (C := gset Z) batch.*1) = length batch) as Hsz.
  { rewrite size_list_to_set by apply candidates_nodup. apply length_fmap. }
  pose proof (subseteq_size _ _ Hsub) as H1. pose proof (subseteq_size _ _ Hsub2) as H2.
  rewrite size_difference, Hsz in H1 by done. lia.
Qed.

Lemma rounds_drain clocks d b :
  db_down d = None → Forall in_time clocks → (size (overdue start (events d)) < 100 * length clocks)%nat →
  ∃ d' b', run_rounds relay clocks (Some d, b) = (Ok tt, (Some d', b')) ∧
    ∀ id row, events d !! id = Some row → claimable start (start - Minute) row = true →
      ∃ row', events d' !! id = Some row' ∧ handled id row row'.
Proof.
  intros Hd Hz. revert d b Hd. induction Hz as [|c cs Hc Hcs IH]; intros d b Hd Hsz; cbn [length] in Hsz; [lia|].
  destruct (round_handles c d b Hd Hc) as (d1 & b1 & E & Hd1 & Hbatch & Hrest & Hnone).
  cbn [run_rounds]. rewrite E. set (batch := candidates _ _ _ _ _) in *.
  destruct (rounds_total cs d1 b1 Hd1 Hcs) as (d2 & b2 & E2 & Hk).
  exists d2, b2. split; [done|]. intros id row Hid Hdue.
  pose proof (claimable_mono _ _ _ (it_start _ Hc) Hdue) as Hnow.
  destruct (decide ((id, row) ∈ batch)) as [Hx|Hx].
  { destruct (Hbatch _ _ Hx) as (_ & row1 & Hr1 & Hh). by eapply Hk. }
  destruct (decide (length batch < 100)%nat) as [Hshort|Hfull].
  { destruct Hx. apply short_batch; [fold batch; lia|done|done]. }
  destruct (IH d1 b1 Hd1) as (d' & b' & E' & Hdue').
  - assert (∀ x, x ∈ batch → available_at x.2 ≤ start) as Hb.
    { intros x Hin. destruct (candidates_earliest (c 0%nat) (c 0%nat - Minute) 100 ∅ (events d) x (id, row)) as [Hbf _]; try done.
      apply claimable_true in Hdue as (_ & _ & Hav & _). unfold before in Hbf. cbn in Hbf. lia. }
    pose proof (full_batch_shrinks c d d1 Hbatch Hrest Hnone Hb) as Hsh. cbn zeta in Hsh. fold batch in Hsh. lia.
  - rewrite E2 in E'. injection E' as <- <-. eapply Hdue'; [by apply Hrest|done].
Qed.
End Drain.


(** A publisher that is down: the event is released, and due a second later. *)
Definition bus_down : Publisher (B := list string) := λ s _ _ _ b,
  (Some (nats_error "no responders" "jetstream_publish_failed" true false), s :: b).
