(* ===== verification/Sandbox.v ===== *)
(** * platform/sandbox, runtime/worker, runtime/daemon: sandboxes of a user

    The table [sandboxes] with its queries (database/sqlc/sandboxes.sql.go),
    the service behind the HTTP handlers, the dispatcher that publishes
    lifecycle events, and the worker that applies them to the VM manager. *)

From stdpp Require Import sorting.
From S2P Require Import Prelude GoStrings GoTime GoNet AppErrors Network Ipam Host Allocation VmmConfig Instance Manager Vsock Proxy Outbox.
Open Scope Z_scope.

(** ** The table *)

Record Sandbox := mkSandbox {
  sb_ID : Z;
  sb_UserID : Z;
  sb_VmID : string;
  sb_Template : string;
  sb_Status : string;
  sb_Vcpu : Z;
  sb_MemoryMb : Z;
  sb_TimeoutSeconds : Z;
  sb_AllowedHosts : list string;
  sb_CreatedAt : Z;
  sb_StartedAt : option Z;
  sb_StoppedAt : option Z;
  sb_UpdatedAt : Z;
}.

(** The users that exist, and, for the statements to come, which of them the
    connection loses; none when the list is exhausted. *)
Record SandboxDB := mkSandboxDB {
  sandboxes : gmap Z Sandbox;
  sb_users : gset Z;
  sb_faults : list (option error);
}.
Definition set_sandboxes (t : gmap Z Sandbox) (d : SandboxDB) : SandboxDB :=
  mkSandboxDB t (sb_users d) (sb_faults d).

(** One statement on the connection; one that is lost is not committed. *)
Definition statement {A} (f : SandboxDB → result A * SandboxDB) : ST SandboxDB A := λ d,
  match sb_faults d with
  | [] => f d
  | None :: fs => f (mkSandboxDB (sandboxes d) (sb_users d) fs)
  | Some e :: fs => (Err e, mkSandboxDB (sandboxes d) (sb_users d) fs)
  end.

Definition statuses : list string :=
  ["pending"; "provisioning"; "running"; "stopping"; "stopped"; "failed"; "cleanup_failed"].
(** [CHECK (status IN (...))] *)
Definition status_ok (s : string) : bool := existsb (String.eqb s) statuses.

Record CreateSandboxParams := mkCreateSandboxParams {
  p_UserID : Z; p_VmID : string; p_Template : string; p_Vcpu : Z; p_MemoryMb : Z;
  p_TimeoutSeconds : Z; p_AllowedHosts : list string; p_Status : option string;
}.

Definition vm_id_taken (vmID : string) (t : gmap Z Sandbox) : bool :=
  existsb (λ x, String.eqb (sb_VmID x.2) vmID) (map_to_list t).

(** [gen_random_uuid()] is [newID]; [status] is NOT NULL. *)
Definition CreateSandbox (newID now : Z) (arg : CreateSandboxParams) : ST SandboxDB Sandbox :=
  statement (λ d,
    let row := mkSandbox newID (p_UserID arg) (p_VmID arg) (p_Template arg) (default "" (p_Status arg))
                 (p_Vcpu arg) (p_MemoryMb arg) (p_TimeoutSeconds arg) (p_AllowedHosts arg)
                 now None None now in
    if negb (bool_decide (p_UserID arg ∈ sb_users d)) then (Err (constraint_violation "users_fkey"), d)
    else if vm_id_taken (p_VmID arg) (sandboxes d) then (Err (constraint_violation "vm_id_key"), d)
    else if negb (status_ok (sb_Status row)) then (Err (constraint_violation "status_check"), d)
    else if (255 <? RuneCountInString (p_VmID arg)) || (50 <? RuneCountInString (p_Template arg)) then
      (Err (constraint_violation "varchar"), d)
    else if bool_decide (is_Some (sandboxes d !! newID)) then (Err (constraint_violation "pkey"), d)
    else (Ok row, set_sandboxes (<[newID := row]> (sandboxes d)) d)).

Definition DeleteSandbox (id : Z) : ST SandboxDB unit :=
  statement (λ d, (Ok tt, set_sandboxes (base.delete id (sandboxes d)) d)).

Definition one_row {A} (o : option A) : result A :=
  match o with Some x => Ok x | None => Err ErrNoRows end.

Definition GetSandboxByID (id : Z) : ST SandboxDB Sandbox :=
  statement (λ d, (one_row (sandboxes d !! id), d)).

Definition GetSandboxByVMID (vmID : string) : ST SandboxDB Sandbox :=
  statement (λ d,
    (one_row (list_find (λ x, sb_VmID x.2 = vmID) (map_to_list (sandboxes d)) ≫= λ y, Some y.2.2), d)).

(** [ORDER BY created_at DESC] *)
Definition newest_first (x y : Sandbox) : Prop := sb_CreatedAt y ≤ sb_CreatedAt x.
#[export] Instance newest_first_dec x y : Decision (newest_first x y).
Proof. unfold newest_first. apply _. Defined.
Definition ListSandboxesByUser (userID : Z) : ST SandboxDB (list Sandbox) :=
  statement (λ d,
    (Ok (merge_sort newest_first
           (filter (λ s, sb_UserID s = userID) (map_to_list (sandboxes d)).*2)), d)).

(** [created_at < NOW() - max_age], oldest first. *)
Definition oldest_first (x y : Sandbox) : Prop := sb_CreatedAt x ≤ sb_CreatedAt y.
#[export] Instance oldest_first_dec x y : Decision (oldest_first x y).
Proof. unfold oldest_first. apply _. Defined.
Definition FindStuckSandboxes (now : Z) (status : string) (maxAgeSeconds : Z)
  : ST SandboxDB (list Sandbox) :=
  statement (λ d,
    (Ok (merge_sort oldest_first
           (filter (λ s, sb_Status s = status ∧ sb_CreatedAt s < now - maxAgeSeconds * Second)
              (map_to_list (sandboxes d)).*2)), d)).

Definition with_status (now : Z) (status : string) (s : Sandbox) : Sandbox :=
  {| sb_ID := sb_ID s; sb_UserID := sb_UserID s; sb_VmID := sb_VmID s; sb_Template := sb_Template s;
     sb_Status := status; sb_Vcpu := sb_Vcpu s; sb_MemoryMb := sb_MemoryMb s;
     sb_TimeoutSeconds := sb_TimeoutSeconds s; sb_AllowedHosts := sb_AllowedHosts s;
     sb_CreatedAt := sb_CreatedAt s;
     sb_StartedAt := if String.eqb status "running" then Some now else sb_StartedAt s;
     sb_StoppedAt := if existsb (String.eqb status) ["stopped"; "failed"; "cleanup_failed"]
                     then Some now else sb_StoppedAt s;
     sb_UpdatedAt := sb_UpdatedAt s |}.
Definition UpdateSandboxStatus (now id : Z) (status : string) : ST SandboxDB Sandbox :=
  statement (λ d,
    match sandboxes d !! id with
    | None => (Err ErrNoRows, d)
    | Some s =>
        if negb (status_ok status) then (Err (constraint_violation "status_check"), d)
        else (Ok (with_status now status s),
              set_sandboxes (<[id := with_status now status s]> (sandboxes d)) d)
    end).

(** ** repository.go *)

Definition sandboxRepo_Create (newID now : Z) (arg : CreateSandboxParams) : ST SandboxDB Sandbox :=
  CreateSandbox newID now arg.
Definition sandboxRepo_GetByID (id : Z) : ST SandboxDB Sandbox := GetSandboxByID id.
Definition sandboxRepo_ListByUserID (userID : Z) : ST SandboxDB (list Sandbox) := ListSandboxesByUser userID.
Definition sandboxRepo_UpdateStatus (now id : Z) (status : string) : ST SandboxDB Sandbox :=
  UpdateSandboxStatus now id status.
Definition sandboxRepo_Delete (id : Z) : ST SandboxDB unit := DeleteSandbox id.

(** ** validation.go *)

Record CreateRequest := mkCreateRequest {
  rq_Template : string; rq_VCPU : Z; rq_MemoryMB : Z; rq_TimeoutSeconds : Z; rq_AllowedHosts : list string;
}.
Definition defaultTemplate : string := "python-3.11".
Definition or_default (d x : Z) : Z := if x =? 0 then d else x.

Definition normalizeCreateRequest `{UnicodeCase} (req : CreateRequest) : CreateRequest :=
  let template := TrimSpace (rq_Template req) in
  {| rq_Template := if bool_decide (template = "") then defaultTemplate else template;
     rq_VCPU := or_default 1 (rq_VCPU req);
     rq_MemoryMB := or_default 512 (rq_MemoryMB req);
     rq_TimeoutSeconds := or_default 300 (rq_TimeoutSeconds req);
     rq_AllowedHosts := filter (λ h, h ≠ "") ((λ h, ToLower (TrimSpace h)) <$> rq_AllowedHosts req) |}.

Definition outside (lo hi x : Z) : bool := (x <? lo) || (hi <? x).
Definition validateCreateRequest (req : CreateRequest) : result unit :=
  if outside 1 8 (rq_VCPU req) then Err (NewBadRequest "vcpu must be between %d and %d")
  else if outside 128 8192 (rq_MemoryMB req) then Err (NewBadRequest "memory_mb must be between %d and %d")
  else if outside 30 3600 (rq_TimeoutSeconds req) then
    Err (NewBadRequest "timeout_seconds must be between %d and %d")
  else Ok tt.

(** ** runtime/daemon/service.go: the dispatcher *)

Record LifecycleEvent := mkLifecycleEvent { ev_SandboxID : Z; ev_UserID : Z; ev_VMID : string }.
Definition SubjectSandboxCreate : string := "shiyao.job.sandbox.create".
Definition SubjectSandboxDestroy : string := "shiyao.job.sandbox.destroy".

Section Service.
Context `{UnicodeCase} {B : Type}.
(** The bus: [Publish] with the event that the payload encodes and the
    message id. *)
Context (bus_Publish : option (string → LifecycleEvent → string → ST B unit)).

Definition publish (subject : string) (ev : LifecycleEvent) : ST B unit := λ b,
  match bus_Publish with
  | None => (Err (Errorf "sandbox lifecycle publisher is not configured" []), b)
  | Some p => p subject ev (uuid_String (ev_SandboxID ev) +:+ ":" +:+ subject) b
  end.
Definition DispatchCreate : LifecycleEvent → ST B unit := publish SubjectSandboxCreate.
Definition DispatchDestroy : LifecycleEvent → ST B unit := publish SubjectSandboxDestroy.

(** ** service.go *)

Definition authentication_required : error := NewUnauthorized "authentication required".
(** The service may have no dispatcher. *)
Context (dispatcher : bool).
Definition no_dispatcher : error := NewServiceUnavailable "sandbox execution is unavailable" None.

Definition svc_List (userID : Z) : ST SandboxDB (list Sandbox) := λ d,
  if userID =? 0 then (Err authentication_required, d) else sandboxRepo_ListByUserID userID d.

Definition svc_Get (userID sandboxID : Z) : ST SandboxDB Sandbox := λ d,
  if userID =? 0 then (Err authentication_required, d)
  else if sandboxID =? 0 then (Err (NewBadRequest "invalid sandbox ID"), d)
  else match sandboxRepo_GetByID sandboxID d with
       | (Err _, d) => (Err (NewNotFound "sandbox not found"), d)
       | (Ok s, d) => if negb (sb_UserID s =? userID) then (Err (NewNotFound "sandbox not found"), d)
                      else (Ok s, d)
       end.

Definition newVMID (u : Z) : string := "sbx-" +:+ uuid_String u.

(** [newID] and [vmUUID] are the fresh UUIDs of the row and of the VM. *)
Definition svc_Create (newID vmUUID now userID : Z) (req : CreateRequest)
  : ST (SandboxDB * B) Sandbox := λ '(d, b),
  if userID =? 0 then (Err authentication_required, (d, b))
  else if negb dispatcher then (Err no_dispatcher, (d, b))
  else
    let req := normalizeCreateRequest req in
    match validateCreateRequest req with
    | Err e => (Err e, (d, b))
    | Ok _ =>
        let arg := mkCreateSandboxParams userID (newVMID vmUUID) (rq_Template req) (rq_VCPU req)
                     (rq_MemoryMB req) (rq_TimeoutSeconds req) (rq_AllowedHosts req) (Some "pending") in
        match sandboxRepo_Create newID now arg d with
        | (Err e, d) => (Err e, (d, b))
        | (Ok s, d) =>
            match DispatchCreate (mkLifecycleEvent (sb_ID s) userID (sb_VmID s)) b with
            | (Ok _, b) => (Ok s, (d, b))
            | (Err e, b) =>
                match sandboxRepo_UpdateStatus now (sb_ID s) "failed" d with
                | (Err se, d) =>
                    (Err (NewInternal "sandbox provisioning failed and status update failed"
                            (Some (Errorf "provision: %w; status update: %v" [e; se]))), (d, b))
                | (Ok _, d) => (Err (NewInternal "sandbox provisioning failed" (Some e)), (d, b))
                end
            end
        end
    end.

Definition svc_Delete (now userID sandboxID : Z) : ST (SandboxDB * B) unit := λ '(d, b),
  if userID =? 0 then (Err authentication_required, (d, b))
  else if negb dispatcher then (Err no_dispatcher, (d, b))
  else match svc_Get userID sandboxID d with
       | (Err e, d) => (Err e, (d, b))
       | (Ok s, d) =>
           match sandboxRepo_UpdateStatus now (sb_ID s) "stopping" d with
           | (Err e, d) => (Err (NewInternal "sandbox stop status update failed" (Some e)), (d, b))
           | (Ok _, d) =>
               match DispatchDestroy (mkLifecycleEvent (sb_ID s) userID (sb_VmID s)) b with
               | (Ok _, b) => (Ok tt, (d, b))
               | (Err e, b) =>
                   match sandboxRepo_UpdateStatus now (sb_ID s) "cleanup_failed" d with
                   | (Err se, d) =>
                       (Err (NewInternal "sandbox cleanup failed and status update failed"
                               (Some (Errorf "destroy: %w; status update: %v" [e; se]))), (d, b))
                   | (Ok _, d) => (Err (NewInternal "sandbox cleanup failed" (Some e)), (d, b))
                   end
               end
           end
       end.

(** [socketPathForSandbox] *)
Definition socketPathForSandbox (tempDir sandboxID : string) : string :=
  tempDir +:+ "/firecracker-" +:+ sandboxID +:+ ".sock".
(** [peers] is what listens at a socket path. *)
Definition svc_ExecStream {S} (tempDir : string) (peers : string → Peer) (sandboxID : string)
    (req : ExecRequest) (receive : option (ExecFrame → ST S unit)) : ST S ExecResult :=
  ExecStream (peers (socketPathForSandbox tempDir sandboxID)) req receive.
End Service.

(** ** model.go and handler.go: who is asking, and what is answered *)

(** The body of a response: the row, with its times as text. *)
Record SandboxResponse := mkSandboxResponse {
  ro_ID : Z; ro_UserID : Z; ro_VMID : string; ro_Template : string; ro_Status : string;
  ro_VCPU : Z; ro_MemoryMB : Z; ro_TimeoutSeconds : Z; ro_AllowedHosts : list string;
  ro_CreatedAt : string; ro_StartedAt : string; ro_StoppedAt : string; ro_UpdatedAt : string;
}.
Definition newResponse `{Location} (s : Sandbox) : SandboxResponse :=
  mkSandboxResponse (sb_ID s) (sb_UserID s) (sb_VmID s) (sb_Template s) (sb_Status s)
    (sb_Vcpu s) (sb_MemoryMb s) (sb_TimeoutSeconds s) (sb_AllowedHosts s)
    (FormatTime (Some (sb_CreatedAt s))) (FormatTime (sb_StartedAt s)) (FormatTime (sb_StoppedAt s))
    (FormatTime (Some (sb_UpdatedAt s))).

Definition handler_Get `{UnicodeCase} `{Location} (user : option Z) (id : option Z) (d : SandboxDB)
  : Response SandboxResponse * SandboxDB :=
  match user with
  | None => (httputil_Error authentication_required, d)
  | Some userID =>
      match id with
      | None => (httputil_Error (NewBadRequest "invalid sandbox ID"), d)
      | Some sandboxID =>
          match svc_Get userID sandboxID d with
          | (Err e, d) => (httputil_Error e, d)
          | (Ok s, d) => (httputil_OK (newResponse s), d)
          end
      end
  end.

Definition handler_List `{UnicodeCase} `{Location} (user : option Z) (d : SandboxDB)
  : Response (list SandboxResponse) * SandboxDB :=
  match user with
  | None => (httputil_Error authentication_required, d)
  | Some userID =>
      match svc_List userID d with
      | (Err e, d) => (httputil_Error e, d)
      | (Ok l, d) => (httputil_OK (newResponse <$> l), d)
      end
  end.

Definition handler_Create `{UnicodeCase} `{Location} {B} (bus : option (string → LifecycleEvent → string → ST B unit))
    (dispatcher : bool) (newID vmUUID now : Z) (user : option Z) (body : result CreateRequest)
    (s : SandboxDB * B) : Response SandboxResponse * (SandboxDB * B) :=
  match body with
  | Err _ => (httputil_Error (NewBadRequest "invalid request body"), s)
  | Ok req =>
      match user with
      | None => (httputil_Error authentication_required, s)
      | Some userID =>
          match svc_Create bus dispatcher newID vmUUID now userID req s with
          | (Err e, s) => (httputil_Error e, s)
          | (Ok row, s) => (httputil_Created (newResponse row), s)
          end
      end
  end.
Definition handler_Delete `{UnicodeCase} {B} (bus : option (string → LifecycleEvent → string → ST B unit))
    (dispatcher : bool) (now : Z) (user id : option Z) (s : SandboxDB * B) : Response string * (SandboxDB * B) :=
  match user, id with
  | None, _ => (httputil_Error authentication_required, s)
  | _, None => (httputil_Error (NewBadRequest "invalid sandbox ID"), s)
  | Some userID, Some sandboxID =>
      match svc_Delete bus dispatcher now userID sandboxID s with
      | (Err e, s) => (httputil_Error e, s)
      | (Ok _, s) => (httputil_OK "sandbox deleted", s)
      end
  end.

(** [ExecStreamWS] up to the bridge: the VM whose socket is dialled. *)
Definition exec_target `{UnicodeCase} (user : option Z) (id : option Z) (d : SandboxDB)
  : result string * SandboxDB :=
  match user, id with
  | None, _ => (Err authentication_required, d)
  | _, None => (Err (NewBadRequest "invalid sandbox ID"), d)
  | Some userID, Some sandboxID =>
      match svc_Get userID sandboxID d with
      | (Err e, d) => (Err e, d)
      | (Ok s, d) =>
          if negb (String.eqb (sb_Status s) "running") then (Err (NewConflict "sandbox is not running"), d)
          else (Ok (sb_VmID s), d)
      end
  end.

(** ** runtime/worker/consumer.go *)

Section Worker.
Context {W : Type} `{Host W}.

Definition handleSandboxCreate (now : Z) (ev : LifecycleEvent)
  : ST (SandboxDB * (Manager * W)) unit := λ '(d, s),
  match sandboxRepo_UpdateStatus now (ev_SandboxID ev) "provisioning" d with
  | (Err e, d) => (Err (Errorf "mark sandbox provisioning: %w" [e]), (d, s))
  | (Ok _, d) =>
      match ProvisionVM Background (ev_VMID ev) s with
      | (Err e, s) =>
          (Err (Errorf "provision sandbox vm: %w" [e]),
           ((sandboxRepo_UpdateStatus now (ev_SandboxID ev) "failed" d).2, s))
      | (Ok _, s) =>
          match sandboxRepo_UpdateStatus now (ev_SandboxID ev) "running" d with
          | (Err e, d) => (Err (Errorf "mark sandbox running: %w" [e]), (d, s))
          | (Ok _, d) => (Ok tt, (d, s))
          end
      end
  end.

Definition handleSandboxDestroy (now : Z) (ev : LifecycleEvent)
  : ST (SandboxDB * (Manager * W)) unit := λ '(d, s),
  match DestroyVM Background (ev_VMID ev) s with
  | (Err e, s) =>
      (Err (Errorf "destroy sandbox vm: %w" [e]),
       ((sandboxRepo_UpdateStatus now (ev_SandboxID ev) "cleanup_failed" d).2, s))
  | (Ok _, s) =>
      match sandboxRepo_UpdateStatus now (ev_SandboxID ev) "stopped" d with
      | (Err e, d) => (Err (Errorf "mark sandbox stopped: %w" [e]), (d, s))
      | (Ok _, d) =>
          match sandboxRepo_Delete (ev_SandboxID ev) d with
          | (Err e, d) => (Err (Errorf "delete sandbox row: %w" [e]), (d, s))
          | (Ok _, d) => (Ok tt, (d, s))
          end
      end
  end.

Inductive MsgOutcome := Ack | Nak | Term.
(** The callback of [consumeSandboxLifecycle]: a message that does not
    decode is terminated. *)
Definition consume (handler : LifecycleEvent → ST (SandboxDB * (Manager * W)) unit)
    (data : option LifecycleEvent) (s : SandboxDB * (Manager * W))
  : MsgOutcome * (SandboxDB * (Manager * W)) :=
  match data with
  | None => (Term, s)
  | Some ev => match handler ev s with
               | (Err _, s) => (Nak, s)
               | (Ok _, s) => (Ack, s)
               end
  end.
End Worker.

(** ** The outcome of the statements and of Create *)

(** What the answer of a statement is when the connection works. *)
Lemma statement_ok {A} (f : SandboxDB → result A * SandboxDB) d :
  sb_faults d = [] → statement f d = f d.
Proof. intros E. unfold statement. by rewrite E. Qed.

Definition with_faults (fs : list (option error)) (d : SandboxDB) : SandboxDB :=
  mkSandboxDB (sandboxes d) (sb_users d) fs.
(** The connection loses none of the statements to come. *)
Definition lossless (d : SandboxDB) : Prop := Forall (λ f, f = None) (sb_faults d).

(** A statement is lost or runs on the tables as they are. *)
Lemma statement_cases {A} (f : SandboxDB → result A * SandboxDB) d :
  ∃ fs, (lossless d → lossless (with_faults fs d)) ∧
    ((¬ lossless d ∧ ∃ e, statement f d = (Err e, with_faults fs d)) ∨ statement f d = f (with_faults fs d)).
Proof.
  unfold statement, lossless. destruct d as [t us [|[e|] fs]]; cbn.
  - exists []. split; [done|by right].
  - exists fs. split; [by intros [? ?]%Forall_cons|]. left. split; [by intros [? ?]%Forall_cons|by eexists].
  - exists fs. split; [by intros [? ?]%Forall_cons|by right].
Qed.

(** A status update: the row changes, or the update fails, without a lost
    statement because there is no row. *)
Lemma update_status_cases now id st d :
  status_ok st = true →
  let '(r, d') := sandboxRepo_UpdateStatus now id st d in
  (lossless d → lossless d') ∧
  ((∃ s, sandboxes d !! id = Some s ∧ r = Ok (with_status now st s) ∧
         sandboxes d' = <[id := with_status now st s]> (sandboxes d)) ∨
   is_ok r = false ∧ sandboxes d' = sandboxes d ∧ (lossless d → sandboxes d !! id = None)).
Proof.
  intros Hst. unfold sandboxRepo_UpdateStatus, UpdateSandboxStatus.
  match goal with |- context [statement ?f d] => destruct (statement_cases f d) as (fs & Hl & [[Hn [e ->]]| ->]) end.
  - split; [done|]. by right.
  - rewrite Hst. cbn [negb with_faults sandboxes]. destruct (sandboxes d !! id) as [s|] eqn:Hs.
    + split; [done|]. left. by exists s.
    + split; [done|]. by right.
Qed.

Lemma get_cases `{UnicodeCase} userID sandboxID d r d' :
  svc_Get userID sandboxID d = (r, d') →
  sandboxes d' = sandboxes d ∧
  match r with
  | Ok s => sandboxes d !! sandboxID = Some s ∧ sb_UserID s = userID ∧ userID ≠ 0
  | Err _ => True
  end.
Proof.
  unfold svc_Get, sandboxRepo_GetByID, GetSandboxByID. destruct (Z.eqb_spec userID 0); [by intros [= <- <-]|].
  destruct (sandboxID =? 0); [by intros [= <- <-]|].
  match goal with |- context [statement ?f d] => destruct (statement_cases f d) as (fs & _ & [[_ [e ->]]| ->]) end;
    [by intros [= <- <-]|]. cbn [with_faults sandboxes].
  destruct (sandboxes d !! sandboxID) as [s|]; cbn [one_row]; [|by intros [= <- <-]].
  destruct (Z.eqb_spec (sb_UserID s) userID); cbn [negb]; by intros [= <- <-].
Qed.
Lemma get_lossless `{UnicodeCase} userID sandboxID d : lossless d → lossless (svc_Get userID sandboxID d).2.
Proof.
  intros Hd. unfold svc_Get, sandboxRepo_GetByID, GetSandboxByID. destruct (userID =? 0); [done|]. destruct (sandboxID =? 0); [done|].
  match goal with |- context [statement ?f d] => destruct (statement_cases f d) as (fs & Hl & [[Hn _]| ->]) end; [done|].
  cbn [with_faults sandboxes]. destruct (sandboxes d !! sandboxID) as [s|]; cbn [one_row]; [|by apply Hl].
  destruct (negb _); by apply Hl.
Qed.

Section Tenancy.
Context `{UnicodeCase} {B : Type}.
Context (bus : option (string → LifecycleEvent → string → ST B unit)).

Lemma validated_limits req :
  validateCreateRequest req = Ok tt →
  1 ≤ rq_VCPU req ≤ 8 ∧ 128 ≤ rq_MemoryMB req ≤ 8192 ∧ 30 ≤ rq_TimeoutSeconds req ≤ 3600.
Proof.
  unfold validateCreateRequest, outside.
  destruct (_ || _) eqn:E1; [done|]. destruct (_ || _) eqn:E2 in |- *; [done|].
  destruct (_ || _) eqn:E3 in |- *; [done|]. lia.
Qed.

(** An insertion: refused, or the row is new. *)
Lemma create_sandbox_cases newID now arg d :
  let '(r, d') := sandboxRepo_Create newID now arg d in
  (lossless d → lossless d') ∧
  match r with
  | Err _ => sandboxes d' = sandboxes d
  | Ok s => sandboxes d !! newID = None ∧ vm_id_taken (p_VmID arg) (sandboxes d) = false ∧
      sandboxes d' = <[newID := s]> (sandboxes d) ∧
      s = mkSandbox newID (p_UserID arg) (p_VmID arg) (p_Template arg) (default "" (p_Status arg))
            (p_Vcpu arg) (p_MemoryMb arg) (p_TimeoutSeconds arg) (p_AllowedHosts arg) now None None now
  end.
Proof.
  unfold sandboxRepo_Create, CreateSandbox.
  match goal with |- context [statement ?f d] => destruct (statement_cases f d) as (fs & Hl & [[_ [e ->]]| ->]) end; [done|].
  cbn. destruct (negb _); [done|]. destruct (vm_id_taken _ _) eqn:Hv; [done|]. destruct (negb _); [done|].
  destruct (_ || _); [done|]. case_bool_decide as Hn; [done|]. rewrite <- eq_None_not_Some in Hn. by split_and!.
Qed.

(** The outcomes of [Create]: nothing happened, or a row was added. *)
Lemma svc_create_cases newID vmUUID now userID req d b r d' b' :
  svc_Create bus true newID vmUUID now userID req (d, b) = (r, (d', b')) →
  (lossless d → lossless d') ∧
  ((sandboxes d' = sandboxes d ∧ b' = b ∧ is_ok r = false) ∨
   vm_id_taken (newVMID vmUUID) (sandboxes d) = false ∧
   ∃ s, userID ≠ 0 ∧ sandboxes d !! newID = None ∧ sandboxes d' = <[newID := s]> (sandboxes d) ∧
     sb_ID s = newID ∧ sb_UserID s = userID ∧ sb_VmID s = newVMID vmUUID ∧
     1 ≤ sb_Vcpu s ≤ 8 ∧ 128 ≤ sb_MemoryMb s ≤ 8192 ∧ 30 ≤ sb_TimeoutSeconds s ≤ 3600 ∧
     match DispatchCreate bus (mkLifecycleEvent newID userID (newVMID vmUUID)) b with
     | (Ok _, b1) => r = Ok s ∧ b' = b1 ∧ sb_Status s = "pending"
     | (Err _, b1) => is_ok r = false ∧ b' = b1 ∧
                      (sb_Status s = "failed" ∨ sb_Status s = "pending" ∧ ¬ lossless d)
     end).
Proof.
  unfold svc_Create. destruct (Z.eqb_spec userID 0); [intros [= <- <- <-]; split; [done|by left]|].
  cbn [negb]. set (q := normalizeCreateRequest req).
  destruct (validateCreateRequest q) as [[]|e] eqn:Hv; [|intros [= <- <- <-]; split; [done|by left]].
  apply validated_limits in Hv. clearbody q. set (arg := mkCreateSandboxParams _ _ _ _ _ _ _ _).
  pose proof (create_sandbox_cases newID now arg d) as Hc.
  destruct (sandboxRepo_Create newID now arg d) as [[s|e] d1]; destruct Hc as [Hl Hc];
    [|intros [= <- <- <-]; split; [done|by left]].
  destruct Hc as (Hn & Hvm & Hrows & Hs). rewrite Hs. cbn [sb_ID sb_VmID].
  set (s0 := mkSandbox _ _ _ _ _ _ _ _ _ _ _ _ _) in *. subst s.
  destruct (DispatchCreate bus _ b) as [[[]|e] b1] eqn:Eb.
  - intros [= <- <- <-]. split; [done|]. right. split; [done|]. exists s0. cbn. split_and!; done || lia.
  - pose proof (update_status_cases now newID "failed" d1 eq_refl) as Hu.
    destruct (sandboxRepo_UpdateStatus now newID "failed" d1) as [ru d2]. destruct Hu as [Hl2 Hu].
    assert (∃ s, sandboxes d2 = <[newID := s]> (sandboxes d) ∧ (sb_Status s = "failed" ∨ sb_Status s = "pending" ∧ ¬ lossless d) ∧
      sb_ID s = newID ∧ sb_UserID s = userID ∧ sb_VmID s = newVMID vmUUID ∧
      sb_Vcpu s = rq_VCPU q ∧ sb_MemoryMb s = rq_MemoryMB q ∧ sb_TimeoutSeconds s = rq_TimeoutSeconds q) as (s & Hd2 &
          Hst & Hid & Hus & Hvs & Hvc & Hmem & Htime).
    { destruct Hu as [(s & Hs1 & -> & ->)|(_ & -> & Hno)].
      - rewrite Hrows, lookup_insert_eq in Hs1. injection Hs1 as <-. exists (with_status now "failed" s0).
        rewrite Hrows, insert_insert_eq. split_and!; try done. by left.
      - exists s0. split_and!; try done. right. split; [done|]. intros Hl'. rewrite Hrows, lookup_insert_eq in Hno. by
          specialize (Hno (Hl Hl')). }
    destruct ru; intros [= <- <- <-]; (split; [by auto|]); right; (split; [done|]); exists s; rewrite Hvc, Hmem,
        Htime; split_and!; done || lia.
Qed.

(** C25: A sandbox is only created with resources within the limits, for the
    authenticated user, in state pending, and its creation is announced on
    the bus under its own id; when the announcement fails the row is marked
    failed, and stays pending only if that statement is lost.  Nothing else
    happens to the table, whatever statements are lost. *)
Theorem create_is_bounded_and_announced newID vmUUID now userID req d b r d' b' :
  svc_Create bus true newID vmUUID now userID req (d, b) = (r, (d', b')) →
  (sandboxes d' = sandboxes d ∧ b' = b ∧ is_ok r = false) ∨
  ∃ s, userID ≠ 0 ∧ sandboxes d !! newID = None ∧ sandboxes d' = <[newID := s]> (sandboxes d) ∧
    sb_ID s = newID ∧ sb_UserID s = userID ∧ sb_VmID s = newVMID vmUUID ∧
    1 ≤ sb_Vcpu s ≤ 8 ∧ 128 ≤ sb_MemoryMb s ≤ 8192 ∧ 30 ≤ sb_TimeoutSeconds s ≤ 3600 ∧
    match DispatchCreate bus (mkLifecycleEvent newID userID (newVMID vmUUID)) b with
    | (Ok _, b1) => r = Ok s ∧ b' = b1 ∧ sb_Status s = "pending"
    | (Err _, b1) => is_ok r = false ∧ b' = b1 ∧
                     (sb_Status s = "failed" ∨ sb_Status s = "pending" ∧ ¬ lossless d)
    end.
Proof. intros E. destruct (svc_create_cases _ _ _ _ _ _ _ _ _ _ E) as [_ [?|[_ ?]]]; [by left|by right]. Qed.
End Tenancy.

(** ** The worker and the manager *)

Lemma update_status_ok now id status d s :
  sb_faults d = [] → sandboxes d !! id = Some s → status_ok status = true →
  sandboxRepo_UpdateStatus now id status d =
    (Ok (with_status now status s), set_sandboxes (<[id := with_status now status s]> (sandboxes d)) d).
Proof.
  intros Hf Hs Hst. unfold sandboxRepo_UpdateStatus, UpdateSandboxStatus. rewrite statement_ok by done. by rewrite Hs, Hst.
Qed.

Section WorkerFacts.
Context {W : Type} `{Host W}.

Lemma provision_existing ctx vmID m (w : W) inst :
  m_instances m !! vmID = Some inst → is_ok (ProvisionVM ctx vmID (m, w)).1 = false ∧
  (ProvisionVM ctx vmID (m, w)).2 = (m, w).
Proof.
  intros Hid. unfold ProvisionVM, provision_body.
  assert (∀ (e : error), is_ok (@Err nat e) = false ∧
    (set_provision (m_provision (set_provision (m_provision m + 1) m) - 1)
       (set_provision (m_provision m + 1) m), w) = (m, w)) as Hp.
  { intros e. split; [done|]. destruct m. unfold set_provision. cbn. repeat f_equal. lia. }
  destruct (_ <? _); [|done]. destruct (ctx_err ctx) as [e|]; [apply (Hp e)|].
  unfold CreateVM. destruct (validateVMID vmID) as [[]|e]; [|apply (Hp e)].
  unfold create_admit. destruct (at_capacity _); [apply (Hp err_resident)|].
  cbn [m_instances set_provision]. rewrite Hid. apply (Hp err_exists).
Qed.

(** A create event that is acknowledged leaves a running VM, registered
    under the id of the event, and a row that says so; a failure to
    provision a new VM leaves the row failed. *)
Theorem worker_create_outcome now ev d m (w : W) s r d' m' w' :
  sb_faults d = [] → sandboxes d !! ev_SandboxID ev = Some s →
  m_instances m !! ev_VMID ev = None → 0 ≤ m_provision m →
  handleSandboxCreate now ev (d, (m, w)) = (r, (d', (m', w'))) →
  ∃ s', sandboxes d' !! ev_SandboxID ev = Some s' ∧
  match r with
  | Ok _ => sb_Status s' = "running" ∧
      ∃ inst i, m_instances m' !! ev_VMID ev = Some inst ∧ m_heap m' !! inst = Some i
                ∧ i_ID i = ev_VMID ev ∧ i_state i = StateRunning ∧ lease_live i
  | Err _ => sb_Status s' = "failed" ∧ gone_or_visible (ev_VMID ev) m'
  end.
Proof.
  intros Hf Hs Hid H0. unfold handleSandboxCreate. rewrite (update_status_ok _ _ _ _ s) by done.
  set (s1 := with_status now "provisioning" s). set (d1 := set_sandboxes _ d).
  assert (sandboxes d1 !! ev_SandboxID ev = Some s1) as Hs1 by (cbn; by rewrite lookup_insert_eq).
  destruct (ProvisionVM Background (ev_VMID ev) (m, w)) as [[inst|e] [m1 w1]] eqn:E.
  - rewrite (update_status_ok _ _ _ d1 s1) by done. intros [= <- <- <- <-].
    exists (with_status now "running" s1). cbn [sandboxes set_sandboxes].
    rewrite lookup_insert_eq. split; [done|]. split; [done|].
    destruct (provision_cases _ _ _ _ _ _ _ Hid E) as (Hm & i & Hi & Hii & Hst & _ & Hl).
    exists inst, i. rewrite Hm, lookup_insert_eq. by split_and!.
  - rewrite (update_status_ok _ _ _ d1 s1) by done. intros [= <- <- <- <-].
    exists (with_status now "failed" s1). cbn [sandboxes set_sandboxes snd].
    rewrite lookup_insert_eq. split; [done|]. split; [done|].
    by apply (provision_cases _ _ _ _ _ _ _ Hid E).
Qed.
End WorkerFacts.

(** A create event that is delivered again after its VM was provisioned (the
    update to running failed, or the acknowledgement was lost) marks the
    sandbox failed and asks for yet another delivery, although the VM runs on. *)
Theorem redelivered_create_marks_failed {W} `{Host W} now ev d m (w : W) s inst :
  sb_faults d = [] → sandboxes d !! ev_SandboxID ev = Some s →
  m_instances m !! ev_VMID ev = Some inst →
  ∃ d', consume (handleSandboxCreate now) (Some ev) (d, (m, w)) = (Nak, (d', (m, w))) ∧
    ∃ s', sandboxes d' !! ev_SandboxID ev = Some s' ∧ sb_Status s' = "failed".
Proof.
  intros Hf Hs Hid. unfold consume, handleSandboxCreate. rewrite (update_status_ok _ _ _ _ s) by done.
  destruct (provision_existing Background _ _ w _ Hid) as [Hr Hst].
  destruct (ProvisionVM Background (ev_VMID ev) (m, w)) as [[i|e] st]; [done|]. cbn in Hst. subst st.
  eexists. split; [done|]. unfold sandboxRepo_UpdateStatus, UpdateSandboxStatus. rewrite statement_ok by done.
  cbn. rewrite lookup_insert_eq. cbn. rewrite lookup_insert_eq. by eexists.
Qed.

(** A destroy event that is delivered again after its VM was destroyed
    leaves the row in cleanup_failed for good: the VM is not found. *)
Theorem redelivered_destroy_marks_cleanup_failed {W} `{Host W} now ev d m (w : W) s :
  sb_faults d = [] → sandboxes d !! ev_SandboxID ev = Some s →
  m_instances m !! ev_VMID ev = None →
  ∃ d', consume (handleSandboxDestroy now) (Some ev) (d, (m, w)) = (Nak, (d', (m, w))) ∧
    ∃ s', sandboxes d' !! ev_SandboxID ev = Some s' ∧ sb_Status s' = "cleanup_failed".
Proof.
  intros Hf Hs Hid. unfold consume, handleSandboxDestroy, DestroyVM. rewrite Hid.
  rewrite (update_status_ok _ _ _ _ s) by done. eexists. split; [done|].
  cbn. rewrite lookup_insert_eq. by eexists.
Qed.

(** Commands for a sandbox are sent to the API socket of its Firecracker
    process: the path that [ExecStream] dials is the [SocketPath] that the
    manager gives to the machine. *)
Theorem exec_dials_the_api_socket vmID m (w : SimHost) inst m' w' netCfg ip net gw k a :
  CreateVM vmID (m, w) = (Ok inst, (m', w')) →
  ∃ i, m_heap m' !! inst = Some i ∧
    fc_SocketPath (fc_config i netCfg ip net gw k a) = socketPathForSandbox (m_tempDir m) vmID.
Proof.
  intros E. destruct (create_succeeds _ _ _ _ _ _ E) as (_&_&_&_&_&_& al & _ & _ & _ & ->).
  rewrite lookup_insert_eq. by eexists.
Qed.

(** ** A sandbox of user 1, on the simulated host *)

Definition ascii_case : UnicodeCase := {| unicode_ToLower := λ r, r |}.
Definition pending_row : Sandbox := mkSandbox 9 1 "vm-a" "python-3.11" "pending" 1 512 300 [] 0 None None 0.
Definition one_sandbox : SandboxDB := mkSandboxDB {[9 := pending_row]} {[1; 2]} [].
Definition list_bus : option (string → LifecycleEvent → string → ST (list LifecycleEvent) unit) :=
  Some (λ _ ev _ b, (Ok tt, b ++ [ev])).

Definition created : result Sandbox * (SandboxDB * list LifecycleEvent) :=
  @svc_Create ascii_case _ list_bus true 10 3 5 2 (mkCreateRequest "" 0 0 0 ["Example.COM"]) (one_sandbox, []).
Lemma create_is_bounded_and_announced_witness :
  is_ok created.1 = true ∧ created.2.2 = [mkLifecycleEvent 10 2 (newVMID 3)].
Proof.
  assert (is_ok created.1 = true) as Hok by (vm_compute; reflexivity). split; [done|].
  destruct (@create_is_bounded_and_announced ascii_case _ list_bus 10 3 5 2
              (mkCreateRequest "" 0 0 0 ["Example.COM"]) one_sandbox [] created.1 created.2.1 created.2.2)
    as [(_ & _ & Hf)|(s & _ & _ & _ & _ & _ & _ & _ & _ & _ & Hd)].
  - unfold created. by destruct (svc_Create _ _ _ _ _ _ _ _) as [? []].
  - by rewrite Hok in Hf.
  - cbn in Hd. destruct Hd as (_ & Hb & _). exact Hb.
Defined.

Definition create_event : LifecycleEvent := mkLifecycleEvent 9 1 "vm-a".
Definition provisioned : result unit * (SandboxDB * (Manager * SimHost)) :=
  handleSandboxCreate 5 create_event (one_sandbox, (demo_manager, demo_host)).
Lemma worker_create_outcome_witness :
  provisioned.1 = Ok tt ∧ ∃ s', sandboxes provisioned.2.1 !! 9 = Some s' ∧ sb_Status s' = "running".
Proof.
  assert (provisioned.1 = Ok tt) as Hok by (vm_compute; reflexivity). split; [done|].
  destruct (worker_create_outcome 5 create_event one_sandbox demo_manager demo_host pending_row
              provisioned.1 provisioned.2.1 provisioned.2.2.1 provisioned.2.2.2) as (s' & Hs & Hr).
  - reflexivity.
  - reflexivity.
  - reflexivity.
  - vm_compute. discriminate.
  - unfold provisioned. by destruct (handleSandboxCreate _ _ _) as [? [? []]].
  - rewrite Hok in Hr. exists s'. by split; [|apply Hr].
Defined.
