(* ===== verification/Tenancy.v ===== *)
(** * Users of the sandbox service do not interfere

    The calls that the handlers make for their users, as one interface, and
    what the calls of one user have to do with those of another: nothing. *)

From S2P Require Import Prelude GoStrings GoNet AppErrors Vsock Outbox Sandbox.
Open Scope Z_scope.

(** ** Calls and answers *)

(** [newID] and [vmUUID] are the UUIDs that serving the call draws. *)
Inductive SvcCall :=
  | CallList
  | CallGet (id : Z)
  | CallExec (id : Z)
  | CallDelete (now id : Z)
  | CallCreate (newID vmUUID now : Z) (req : CreateRequest).
Inductive SvcAnswer :=
  | Listed (r : result (list Sandbox))
  | Got (r : result Sandbox)
  | ExecTarget (r : result string)
  | Deleted (r : result unit)
  | Created (r : result Sandbox).

(** Two answers tell the user the same: a list is the same up to the order,
    which the query leaves open for sandboxes of the same moment. *)
Definition alike (x y : SvcAnswer) : Prop :=
  match x, y with
  | Listed (Ok l), Listed (Ok l') => l ≡ₚ l'
  | _, _ => x = y
  end.

Section Calls.
Context `{UnicodeCase} {B : Type}.
Context (bus : option (string → LifecycleEvent → string → ST B unit)).

(** A call of user [u] *)
Definition svc_call (u : Z) (c : SvcCall) (s : SandboxDB * B) : SvcAnswer * (SandboxDB * B) :=
  let '(d, b) := s in
  match c with
  | CallList => let '(r, d) := svc_List u d in (Listed r, (d, b))
  | CallGet id => let '(r, d) := svc_Get u id d in (Got r, (d, b))
  | CallExec id => let '(r, d) := exec_target (Some u) (Some id) d in (ExecTarget r, (d, b))
  | CallDelete now id => let '(r, s) := svc_Delete bus true now u id (d, b) in (Deleted r, s)
  | CallCreate newID vmUUID now req =>
      let '(r, s) := svc_Create bus true newID vmUUID now u req (d, b) in (Created r, s)
  end.

(** The answers to a sequence of calls, each with the user it is made for. *)
Fixpoint answers (cs : list (Z * SvcCall)) (s : SandboxDB * B) : list (Z * SvcAnswer) :=
  match cs with
  | [] => []
  | (u, c) :: cs => let '(a, s) := svc_call u c s in (u, a) :: answers cs s
  end.

(** ** What a user sees *)

Definition own_sandboxes (u : Z) (d : SandboxDB) : gmap Z Sandbox :=
  filter (λ x, sb_UserID x.2 = u) (sandboxes d).
Record same_view (u : Z) (d1 d2 : SandboxDB) : Prop := {
  view_rows : own_sandboxes u d1 = own_sandboxes u d2;
  view_users : sb_users d1 = sb_users d2;
}.
(** Rows are stored under their id, and the connection works. *)
Record sound (d : SandboxDB) : Prop := {
  sound_ids k s : sandboxes d !! k = Some s → sb_ID s = k;
  sound_faults : sb_faults d = [];
}.
(** The UUIDs that the calls draw are new, in the table and among them. *)
Definition draws (x : Z * SvcCall) : list (Z * string) :=
  match x.2 with CallCreate newID vmUUID _ _ => [(newID, newVMID vmUUID)] | _ => [] end.
Definition unused (d : SandboxDB) (p : Z * string) : Prop :=
  sandboxes d !! p.1 = None ∧ ∀ k s, sandboxes d !! k = Some s → sb_VmID s ≠ p.2.
Definition fresh_draws (cs : list (Z * SvcCall)) (d : SandboxDB) : Prop :=
  let ps := cs ≫= draws in Forall (unused d) ps ∧ NoDup ps.*1 ∧ NoDup ps.*2.

Lemma own_lookup u d k s : own_sandboxes u d !! k = Some s ↔ sandboxes d !! k = Some s ∧ sb_UserID s = u.
Proof. unfold own_sandboxes. by rewrite map_lookup_filter_Some. Qed.
Lemma view_lookup u d1 d2 k s :
  same_view u d1 d2 → sandboxes d1 !! k = Some s → sb_UserID s = u → sandboxes d2 !! k = Some s.
Proof. intros [Hv _] Hk Hu. apply (own_lookup u d2). rewrite <- Hv. by apply own_lookup. Qed.
#[export] Instance same_view_equiv u : Equivalence (same_view u).
Proof.
  split; [by split|intros d1 d2 [E E']; by split|intros d1 d2 d3 [E1 E1'] [E2 E2']; split; congruence].
Qed.
Lemma own_insert u k s d d' :
  sandboxes d' = <[k := s]> (sandboxes d) → sb_UserID s = u → own_sandboxes u d' = <[k := s]> (own_sandboxes u d).
Proof. intros E Hu. unfold own_sandboxes. rewrite E. by rewrite map_filter_insert_True. Qed.
(** A row of another user is added or replaced. *)
Lemma other_insert u k s d d' :
  sandboxes d' = <[k := s]> (sandboxes d) → sb_UserID s ≠ u →
  (∀ s0, sandboxes d !! k = Some s0 → sb_UserID s0 ≠ u) → own_sandboxes u d' = own_sandboxes u d.
Proof.
  intros E Hu H0. unfold own_sandboxes. rewrite E, map_filter_insert_False by done.
  destruct (sandboxes d !! k) as [s0|] eqn:Hk; [|by rewrite delete_id].
  apply map_eq. intros i. apply option_eq. intros s'. rewrite !map_lookup_filter_Some, lookup_delete_Some. cbn.
  split; [tauto|]. intros [Hi Hs]. split_and!; [intros <-|done|done]. rewrite Hk in Hi. injection Hi as <-. by apply (H0 s0).
Qed.

(** ** The calls, evaluated on what the user sees *)

Definition not_found : error := NewNotFound "sandbox not found".
Definition own_row (u id : Z) (d : SandboxDB) : result Sandbox :=
  if u =? 0 then Err authentication_required
  else if id =? 0 then Err (NewBadRequest "invalid sandbox ID")
  else match own_sandboxes u d !! id with Some s => Ok s | None => Err not_found end.
Lemma get_own u id d : sound d → svc_Get u id d = (own_row u id d, d).
Proof.
  intros [_ Hf]. unfold svc_Get, own_row, sandboxRepo_GetByID, GetSandboxByID. destruct (u =? 0); [done|]. destruct (id =? 0); [done|].
  rewrite statement_ok by done. destruct (own_sandboxes u d !! id) as [s|] eqn:E.
  - apply own_lookup in E as [-> <-]. cbn. by rewrite Z.eqb_refl.
  - destruct (sandboxes d !! id) as [s|] eqn:Hs; [|done]. cbn.
    destruct (Z.eqb_spec (sb_UserID s) u) as [Hu|]; [|done]. pose proof (proj2 (own_lookup u d id s) (conj Hs Hu)). congruence.
Qed.
Lemma own_row_view u id d1 d2 : same_view u d1 d2 → own_row u id d1 = own_row u id d2.
Proof. intros [Hv _]. unfold own_row. by rewrite Hv. Qed.
Lemma own_row_Ok u id d s : own_row u id d = Ok s → sandboxes d !! id = Some s ∧ sb_UserID s = u.
Proof.
  unfold own_row. destruct (u =? 0); [done|]. destruct (id =? 0); [done|].
  destruct (own_sandboxes u d !! id) eqn:E; [|done]. intros [= <-]. by apply own_lookup.
Qed.

Lemma filter_fmap {A C} (f : A → C) (P : C → Prop) `{∀ x, Decision (P x)} (l : list A) :
  filter P (f <$> l) = f <$> filter (λ x, P (f x)) l.
Proof.
  induction l as [|x l IH]; [done|]. cbn [fmap list_fmap]. destruct (decide (P (f x))).
  - by rewrite !filter_cons_True, IH.
  - by rewrite !filter_cons_False, IH.
Qed.
Lemma own_listed u d :
  filter (λ s, sb_UserID s = u) (map_to_list (sandboxes d)).*2 ≡ₚ (map_to_list (own_sandboxes u d)).*2.
Proof.
  rewrite filter_fmap. apply fmap_Permutation. unfold own_sandboxes. rewrite map_filter_alt, map_to_list_to_map; [done|].
  apply NoDup_fmap_fst; [|apply NoDup_filter, NoDup_map_to_list].
  intros k s1 s2 [_ H1]%list_elem_of_filter [_ H2]%list_elem_of_filter.
  apply elem_of_map_to_list in H1, H2. congruence.
Qed.
Lemma list_own u d :
  sound d → u ≠ 0 → ∃ l, svc_List u d = (Ok l, d) ∧ l ≡ₚ (map_to_list (own_sandboxes u d)).*2.
Proof.
  intros [_ Hf] Hu. unfold svc_List. rewrite (proj2 (Z.eqb_neq _ _) Hu). unfold sandboxRepo_ListByUserID, ListSandboxesByUser.
  rewrite statement_ok by done. eexists. split; [done|].
  rewrite (sorting.merge_sort_Permutation newest_first). apply own_listed.
Qed.

(** The row that an insertion adds, when its id and VM id are new. *)
Definition inserted (us : gset Z) (newID now : Z) (arg : CreateSandboxParams) : result Sandbox :=
  (sandboxRepo_Create newID now arg (mkSandboxDB ∅ us [])).1.
Lemma create_own newID now arg d :
  sound d → unused d (newID, p_VmID arg) →
  sandboxRepo_Create newID now arg d =
    match inserted (sb_users d) newID now arg with
    | Ok row => (Ok row, set_sandboxes (<[newID := row]> (sandboxes d)) d)
    | Err e => (Err e, d)
    end.
Proof.
  intros [_ Hf] [Hn Hv]. unfold inserted, sandboxRepo_Create, CreateSandbox. rewrite !statement_ok by done. cbn [sandboxes sb_users].
  assert (vm_id_taken (p_VmID arg) (sandboxes d) = false) as ->.
  { apply not_true_iff_false. intros ([k s] & Hk%elem_of_map_to_list & E%String.eqb_eq)%existsb_elem. by eapply Hv. }
  cbn [fst] in Hn. rewrite Hn, lookup_empty. destruct (negb (bool_decide _)); [done|].
  change (vm_id_taken (p_VmID arg) ∅) with false. destruct (negb (status_ok _)); [done|]. destruct (_ || _); [done|].
  by rewrite bool_decide_eq_false_2 by by intros [].
Qed.
Lemma inserted_Ok us newID now arg s :
  inserted us newID now arg = Ok s → sb_ID s = newID ∧ sb_UserID s = p_UserID arg ∧ sb_VmID s = p_VmID arg.
Proof.
  unfold inserted. pose proof (create_sandbox_cases newID now arg (mkSandboxDB ∅ us [])) as Hc.
  destruct (sandboxRepo_Create _ _ _ _) as [[s'|] d']; [|done]. cbn. intros [= ->]. by destruct Hc as (_ & _ & _ & _ & ->).
Qed.

(** *** One call *)

(** What a call of user [v] does to the table: nothing, or it replaces a row
    of [v], or it adds a row of [v] under the ids that it draws. *)
Definition changes (v : Z) (c : SvcCall) (d d' : SandboxDB) : Prop :=
  sb_faults d' = [] ∧ sb_users d' = sb_users d ∧
  (sandboxes d' = sandboxes d ∨
   ∃ k s', sandboxes d' = <[k := s']> (sandboxes d) ∧ sb_ID s' = k ∧ sb_UserID s' = v ∧
     ((∃ s, sandboxes d !! k = Some s ∧ sb_UserID s = v ∧ sb_VmID s' = sb_VmID s) ∨
      (sandboxes d !! k = None ∧ (k, sb_VmID s') ∈ draws (v, c)))).

Lemma changes_refl v c d : sound d → changes v c d d.
Proof. intros [_ Hf]. split_and!; [done|done|by left]. Qed.

Lemma delete_own now u id d b :
  sound d →
  svc_Delete bus true now u id (d, b) =
    match own_row u id d with
    | Err e => (Err e, (d, b))
    | Ok s =>
        let put st s := set_sandboxes (<[id := with_status now st s]> (sandboxes d)) d in
        match DispatchDestroy bus (mkLifecycleEvent id u (sb_VmID s)) b with
        | (Ok _, b) => (Ok tt, (put "stopping" s, b))
        | (Err e, b) => (Err (NewInternal "sandbox cleanup failed" (Some e)), (put "cleanup_failed" (with_status now "stopping" s), b))
        end
    end.
Proof.
  intros Hd. pose proof Hd as [Hid Hf]. unfold svc_Delete. rewrite (get_own u id d Hd). unfold own_row.
  destruct (u =? 0); [done|]. cbn [negb]. destruct (id =? 0); [done|].
  destruct (own_sandboxes u d !! id) as [s|] eqn:E; [|done]. apply own_lookup in E as [Hs Hu].
  rewrite (Hid _ _ Hs). rewrite (update_status_ok now id "stopping" d s) by done.
  destruct (DispatchDestroy _ _ _) as [[[]|e] b']; [done|].
  rewrite (update_status_ok now id "cleanup_failed" _ (with_status now "stopping" s)); [|done|cbn; by rewrite lookup_insert_eq|done].
  unfold set_sandboxes. cbn. by rewrite insert_insert_eq.
Qed.

Lemma create_call newID vmUUID now u req d b :
  sound d → unused d (newID, newVMID vmUUID) →
  svc_Create bus true newID vmUUID now u req (d, b) =
    if u =? 0 then (Err authentication_required, (d, b))
    else
      let q := normalizeCreateRequest req in
      match validateCreateRequest q with
      | Err e => (Err e, (d, b))
      | Ok _ =>
          match inserted (sb_users d) newID now
                  (mkCreateSandboxParams u (newVMID vmUUID) (rq_Template q) (rq_VCPU q) (rq_MemoryMB q)
                     (rq_TimeoutSeconds q) (rq_AllowedHosts q) (Some "pending")) with
          | Err e => (Err e, (d, b))
          | Ok s =>
              let put s := set_sandboxes (<[newID := s]> (sandboxes d)) d in
              match DispatchCreate bus (mkLifecycleEvent newID u (newVMID vmUUID)) b with
              | (Ok _, b) => (Ok s, (put s, b))
              | (Err e, b) => (Err (NewInternal "sandbox provisioning failed" (Some e)), (put (with_status now "failed" s), b))
              end
          end
      end.
Proof.
  intros Hd Hun. pose proof Hd as [Hid Hf]. unfold svc_Create. destruct (u =? 0); [done|]. cbn [negb]. cbn zeta.
  destruct (validateCreateRequest _) as [[]|e]; [|done]. rewrite create_own by done.
  destruct (inserted _ _ _ _) as [s|e] eqn:Ei; [|done]. apply inserted_Ok in Ei as (HI & _ & HV). rewrite HI, HV. cbn [p_VmID].
  destruct (DispatchCreate _ _ _) as [[[]|e] b']; [done|].
  rewrite (update_status_ok now newID "failed" _ s); [|done|cbn; by rewrite lookup_insert_eq|done].
  unfold set_sandboxes. cbn. by rewrite insert_insert_eq.
Qed.

Lemma call_changes v c d b : sound d → Forall (unused d) (draws (v, c)) → changes v c d (svc_call v c (d, b)).2.1.
Proof.
  intros Hd Hun. pose proof (changes_refl v c d Hd) as Hr. pose proof Hd as [Hid Hf].
  destruct c as [|id|id|now id|newID vmUUID now req]; cbn [svc_call].
  - destruct (decide (v = 0)) as [->|Hv]; [done|]. by destruct (list_own v d Hd Hv) as (l & -> & _).
  - by rewrite get_own.
  - unfold exec_target. rewrite get_own by done. destruct (own_row v id d); [|done]. by destruct (negb _).
  - rewrite delete_own by done. destruct (own_row v id d) as [s|e] eqn:E; [|done]. apply own_row_Ok in E as [Hs Hv].
    cbn zeta. destruct (DispatchDestroy _ _ _) as [[[]|e] b']; cbn;
      (split_and!; [done|done|right]); eexists _, _; (split_and!; [done|exact (Hid _ _ Hs)|done|]); left; by exists s.
  - cbn [draws snd] in Hun. apply Forall_cons in Hun as [Hun _]. rewrite create_call by done. destruct (v =? 0); [done|]. cbn zeta.
    destruct (validateCreateRequest _) as [[]|e]; [|done].
    destruct (inserted _ _ _ _) as [s|e] eqn:Ei; [|done]. apply inserted_Ok in Ei as (HI & HU & HV). destruct Hun as [Hn _].
    destruct (DispatchCreate _ _ _) as [[[]|e] b']; cbn;
      (split_and!; [done|done|right]); eexists _, _; (split_and!; [done|done|done|]); right; (split; [done|]);
      cbn; rewrite HV; left.
Qed.

Section Changes.
Context (v : Z) (c : SvcCall) (d d' : SandboxDB) (Hc : changes v c d d').

Lemma changes_sound : sound d → sound d'.
Proof.
  destruct Hc as (Hf & _ & Hr). intros [Hid _]. split; [|done]. intros k s.
  destruct Hr as [->|(k' & s' & -> & Hk' & _)]; [apply Hid|]. rewrite lookup_insert_Some.
  intros [[<- <-]|[_ ?]]; [done|by apply Hid].
Qed.
Lemma changes_other u : u ≠ v → same_view u d d'.
Proof.
  intros Hne. destruct Hc as (_ & Hu & Hr). split; [|done]. destruct Hr as [E|(k & s' & E & _ & Hv & Hold)].
  - unfold own_sandboxes. by rewrite E.
  - symmetry. eapply other_insert; [done|congruence|]. intros s0 Hs0. destruct Hold as [(s & Hs & Hsv & _)|[Hn _]]; congruence.
Qed.
(** Draws that the call does not make stay unused. *)
Lemma changes_unused p :
  unused d p → (∀ q, q ∈ draws (v, c) → q.1 ≠ p.1 ∧ q.2 ≠ p.2) → unused d' p.
Proof.
  intros [Hn Hv] Hq. destruct Hc as (_ & _ & Hr). unfold unused. destruct Hr as [->|(k & s' & -> & _ & _ & Hold)]; [done|].
  assert (k ≠ p.1 ∧ sb_VmID s' ≠ p.2) as [Hk Hs'].
  { destruct Hold as [(s & Hs & _ & E)|[_ Hd]]; [|by apply Hq in Hd].
    split; [intros ->; congruence|]. rewrite E. by eapply Hv. }
  split; [by rewrite lookup_insert_ne|]. intros k0 s0 [[<- <-]|[_ ?]]%lookup_insert_Some; [done|by eapply Hv].
Qed.
End Changes.

Lemma fresh_step v c cs d d' : changes v c d d' → fresh_draws ((v, c) :: cs) d → fresh_draws cs d'.
Proof.
  intros Hc (Hu & Hn1 & Hn2). cbn [mbind list_bind] in Hu, Hn1, Hn2. rewrite fmap_app in Hn1. rewrite fmap_app in Hn2.
  apply NoDup_app in Hn1 as (_ & H1 & ?), Hn2 as (_ & H2 & ?). apply Forall_app in Hu as [_ Hu].
  split_and!; [|done|done]. rewrite Forall_forall in Hu |- *. intros p Hp. eapply changes_unused; [done|by apply Hu|].
  intros q Hq. split; intros E.
  - apply (H1 q.1); [by apply list_elem_of_fmap_2|]. rewrite E. by apply list_elem_of_fmap_2.
  - apply (H2 q.2); [by apply list_elem_of_fmap_2|]. rewrite E. by apply list_elem_of_fmap_2.
Qed.
(** The calls of one user draw from what all calls draw. *)
Definition calls_of (u : Z) (cs : list (Z * SvcCall)) : list (Z * SvcCall) := filter (λ x, x.1 = u) cs.
Lemma draws_sublist u cs : (calls_of u cs ≫= draws) `sublist_of` (cs ≫= draws).
Proof.
  induction cs as [|[v c] cs IH]; [done|]. unfold calls_of in *. cbn [mbind list_bind] in *.
  destruct (decide (v = u)).
  - rewrite filter_cons_True by done. cbn. by apply sublist_app.
  - rewrite filter_cons_False by done. by apply sublist_inserts_l.
Qed.
Lemma fresh_calls_of u cs d : fresh_draws cs d → fresh_draws (calls_of u cs) d.
Proof.
  intros (Hu & H1 & H2). pose proof (draws_sublist u cs) as Hs. split_and!.
  - rewrite Forall_forall in Hu |- *. intros p Hp. apply Hu. by eapply elem_of_sublist.
  - eapply sublist_NoDup; [done|]. by apply fmap_sublist.
  - eapply sublist_NoDup; [done|]. by apply fmap_sublist.
Qed.

End Calls.

(** *** The same call on two tables that look the same to its user

    What the bus answers to a user may depend on what others published: a
    stream that is full takes no more.  So the calls of the user alone are run
    on a bus that answers by a script: what the bus answered to this user. *)

Section Script.
Context `{UnicodeCase} {B : Type}.
Context (bus : option (string → LifecycleEvent → string → ST B unit)).

(** The bus, with its answers kept *)
Definition logged : option (string → LifecycleEvent → string → ST (B * list (result unit)) unit) :=
  (λ p subject ev id '(b, log), let '(r, b) := p subject ev id b in (r, (b, log ++ [r]))) <$> bus.
(** A bus that gives the answers of a list *)
Definition scripted : option (string → LifecycleEvent → string → ST (list (result unit)) unit) :=
  (λ _ _ _ _ script, match script with r :: script => (r, script) | [] => (Ok tt, []) end) <$> bus.
(** What the bus answers to one call, and to the calls of [u] among others. *)
Definition bus_answers (u : Z) (c : SvcCall) (s : SandboxDB * B) : list (result unit) :=
  (svc_call logged u c (s.1, (s.2, []))).2.2.2.
Fixpoint script_of (u : Z) (cs : list (Z * SvcCall)) (s : SandboxDB * B) : list (result unit) :=
  match cs with
  | [] => []
  | (v, c) :: cs => (if decide (v = u) then bus_answers v c s else []) ++ script_of u cs (svc_call bus v c s).2
  end.

Lemma publish_script subject ev b :
  ∃ log, publish logged subject ev (b, []) = ((publish bus subject ev b).1, ((publish bus subject ev b).2, log)) ∧
    ∀ rest, publish scripted subject ev (log ++ rest) = ((publish bus subject ev b).1, rest).
Proof.
  unfold logged, scripted, publish. destruct bus as [p|]; cbn; [|by exists []].
  destruct (p _ _ _ b) as [r b']. by exists [r].
Qed.

Lemma same_put u id s d1 d2 :
  sb_UserID s = u → same_view u d1 d2 →
  same_view u (set_sandboxes (<[id := s]> (sandboxes d1)) d1) (set_sandboxes (<[id := s]> (sandboxes d2)) d2).
Proof.
  intros Hs [Hv Hu]. split; [|done]. by rewrite (own_insert u id s d1), (own_insert u id s d2 (set_sandboxes _ d2)), Hv.
Qed.
Lemma alike_refl a : alike a a.
Proof. destruct a as [[]| | | |]; cbn; reflexivity. Qed.

Lemma call_consistent u c d1 d2 b1 rest :
  sound d1 → sound d2 → same_view u d1 d2 →
  Forall (unused d1) (draws (u, c)) → Forall (unused d2) (draws (u, c)) →
  let x := svc_call bus u c (d1, b1) in
  let y := svc_call scripted u c (d2, bus_answers u c (d1, b1) ++ rest) in
  alike x.1 y.1 ∧ same_view u x.2.1 y.2.1 ∧ y.2.2 = rest.
Proof.
  intros Hd1 Hd2 Hv Hn1 Hn2. unfold bus_answers. cbn [fst snd].
  destruct c as [|id|id|now id|newID vmUUID now req]; cbn [svc_call].
  - destruct (decide (u = 0)) as [->|Hu]; [by split; [apply alike_refl|]|].
    destruct (list_own u d1 Hd1 Hu) as (l1 & -> & H1), (list_own u d2 Hd2 Hu) as (l2 & -> & H2).
    split; [|done]. cbn. by rewrite H1, H2, (view_rows _ _ _ Hv).
  - rewrite !get_own, (own_row_view u id d1 d2) by done. by split; [apply alike_refl|].
  - unfold exec_target. rewrite !get_own, (own_row_view u id d1 d2) by done.
    destruct (own_row u id d2); [destruct (negb _)|]; by split.
  - rewrite !delete_own, (own_row_view u id d1 d2) by done. destruct (own_row u id d2) as [s|e] eqn:E; [|by split].
    apply own_row_Ok in E as [_ Hs]. cbn zeta. unfold DispatchDestroy.
    destruct (publish_script SubjectSandboxDestroy (mkLifecycleEvent id u (sb_VmID s)) b1) as (log & Hl & Hp). rewrite Hl.
    destruct (publish bus _ _ b1) as [r1 b1']. cbn [fst snd] in *.
    destruct r1 as [[]|e]; cbn [fst snd]; rewrite Hp; cbn [fst snd]; (split_and!; [done|by apply same_put|done]).
  - cbn [draws snd] in Hn1, Hn2. apply Forall_cons in Hn1 as [Hn1 _], Hn2 as [Hn2 _].
    rewrite !create_call by done. destruct (u =? 0); [by split|]. cbn zeta.
    destruct (validateCreateRequest _) as [[]|e]; [|by split]. rewrite (view_users _ _ _ Hv).
    destruct (inserted _ _ _ _) as [s|e] eqn:Ei; [|by split]. apply inserted_Ok in Ei as (_ & Hs & _). unfold DispatchCreate.
    destruct (publish_script SubjectSandboxCreate (mkLifecycleEvent newID u (newVMID vmUUID)) b1) as (log & Hl & Hp). rewrite Hl.
    destruct (publish bus _ _ b1) as [r1 b1']. cbn [fst snd] in *.
    destruct r1 as [[]|e]; cbn [fst snd]; rewrite Hp; cbn [fst snd]; (split_and!; [done|by apply same_put|done]).
Qed.

(** Two runs whose tables look the same to [u] *)
Lemma runs_alike u cs d1 d2 b1 :
  sound d1 → sound d2 → same_view u d1 d2 → fresh_draws cs d1 → fresh_draws (calls_of u cs) d2 →
  Forall2 (λ x y, x.1 = y.1 ∧ alike x.2 y.2)
    (filter (λ x, x.1 = u) (answers bus cs (d1, b1))) (answers scripted (calls_of u cs) (d2, script_of u cs (d1, b1))).
Proof.
  revert d1 d2 b1.
  induction cs as [|[v c] cs IH]; intros d1 d2 b1 Hd1 Hd2 Hv Hf1 Hf2; [constructor|].
  assert (Forall (unused d1) (draws (v, c))) as Hn1.
  { destruct Hf1 as (Hf1 & _). cbn [mbind list_bind] in Hf1. by apply Forall_app in Hf1 as [? _]. }
  pose proof (call_changes bus v c d1 b1 Hd1 Hn1) as Hc1. cbn [answers script_of].
  destruct (decide (v = u)) as [->|Hne].
  - unfold calls_of in *. rewrite filter_cons_True in Hf2 |- * by done. fold (calls_of u cs) in *.
    assert (Forall (unused d2) (draws (u, c))) as Hn2.
    { destruct Hf2 as (Hf2 & _). cbn [mbind list_bind] in Hf2. by apply Forall_app in Hf2 as [? _]. }
    cbn [answers]. set (rest := script_of u cs _).
    pose proof (call_changes scripted u c d2 (bus_answers u c (d1, b1) ++ rest) Hd2 Hn2) as Hc2.
    destruct (call_consistent u c d1 d2 b1 rest Hd1 Hd2 Hv Hn1 Hn2) as (Ha & Hv' & Hrest). unfold rest in *.
    destruct (svc_call bus u c (d1, b1)) as [a1 [d1' b1']], (svc_call scripted u c _) as [a2 [d2' b2']]. cbn [fst snd] in *.
    subst b2'. rewrite filter_cons_True by done. constructor; [done|].
    apply IH; eauto using changes_sound, fresh_step.
  - unfold calls_of in *. rewrite filter_cons_False in Hf2 |- * by done. fold (calls_of u cs) in *.
    destruct (svc_call bus v c (d1, b1)) as [a1 [d1' b1']]. cbn [fst snd app] in Hc1 |- *. rewrite filter_cons_False by done.
    apply IH; eauto using changes_sound, fresh_step. etrans; [|exact Hv]. symmetry. by eapply changes_other.
Qed.
End Script.

(** C20: The users of the sandbox service do not interfere.  In any sequence of
    listings, reads, executions, deletions and creations by any number of
    users, on a connection that works and with new ids, one user gets the
    answers that it would get if the others made no calls at all and the bus
    answered this user's publications as it did (it is shared, and may refuse
    a message because of those of others); a listing is the same up to the
    order of sandboxes.  A sandbox of another user is never told from one that
    does not exist. *)
Theorem tenants_do_not_interfere `{UnicodeCase} {B} (bus : option (string → LifecycleEvent → string → ST B unit))
    u cs d b :
  sound d → fresh_draws cs d →
  Forall2 (λ x y, x.1 = y.1 ∧ alike x.2 y.2)
    (filter (λ x, x.1 = u) (answers bus cs (d, b)))
    (answers (scripted bus) (calls_of u cs) (d, script_of bus u cs (d, b))).
Proof. intros. apply runs_alike; try done. by apply fresh_calls_of. Qed.

(** ** Two users, one of whom tries the sandbox of the other

    The stream has room for one message: user 1 finds it full after user 2
    published. *)

Definition small_bus : option (string → LifecycleEvent → string → ST (list LifecycleEvent) unit) :=
  Some (λ _ ev _ b, match b with [] => (Ok tt, [ev]) | _ => (Err (Errorf "maximum bytes exceeded" []), b) end).
Definition busy : list (Z * SvcCall) :=
  [(1, CallExec 9); (2, CallGet 9); (2, CallDelete 5 9); (2, CallCreate 10 3 6 (mkCreateRequest "" 0 0 0 []));
   (1, CallGet 10); (1, CallList); (1, CallDelete 7 9); (1, CallGet 9)].
Lemma only_row k s : sandboxes one_sandbox !! k = Some s → k = 9 ∧ s = pending_row.
Proof. cbn. by intros [<- <-]%lookup_singleton_Some. Qed.
Lemma tenants_do_not_interfere_witness :
  Forall2 (λ x y, x.1 = y.1 ∧ alike x.2 y.2)
    (filter (λ x, x.1 = 1) (@answers ascii_case _ small_bus busy (one_sandbox, [])))
    (@answers ascii_case _ (scripted small_bus) [(1, CallExec 9); (1, CallGet 10); (1, CallList); (1, CallDelete 7 9); (1, CallGet 9)]
       (one_sandbox, [Err (Errorf "maximum bytes exceeded" [])])).
Proof.
  apply (@tenants_do_not_interfere ascii_case _ small_bus 1 busy one_sandbox []).
  - split; [|reflexivity]. intros k s [-> ->]%only_row. reflexivity.
  - split_and!; [|apply NoDup_singleton|apply NoDup_singleton]. constructor; [|constructor]. split; [reflexivity|].
    intros k s [_ ->]%only_row. vm_compute. discriminate.
Defined.
Example busy_answers :
  (@answers ascii_case _ small_bus busy (one_sandbox, [])) !! 4%nat = Some (1, Got (Err not_found)) ∧
  sb_Status <$> match (@answers ascii_case _ small_bus busy (one_sandbox, [])) !! 7%nat with
                | Some (_, Got (Ok s)) => Some s | _ => None end = Some "cleanup_failed".
Proof. vm_compute. done. Qed.
