(* ===== verification/ExecPath.v ===== *)
(** * A command, from the WebSocket of a user to the guest and back

    platform/sandbox/handler.go [ExecStreamWS] with everything below it: the
    check of the sandbox, the bridge of core/websocket, the client of
    core/vsock and the guest agent of the VM.  [guests] says which guest
    agent answers at a socket path, with the number of commands it runs and
    its operating system.  That an agent answers there is an assumption: the
    path is also the one of Firecracker's API socket
    ([exec_dials_the_api_socket] in Sandbox). *)

From S2P Require Import Prelude GoStrings GoNet AppErrors VmmConfig Vsock GuestAgent Proxy Outbox Sandbox.
Open Scope Z_scope.

Section Path.
Context {G : Type} `{GuestOS G} `{UnicodeCase}.
Context (order1 order2 : list (string * string)) (tempDir : string).
Implicit Types (guests : gmap string (Z * G)) (c : WsConn) (d : SandboxDB).

(** The connection that the guest agent accepts for a request: the decoder
    sees no more than [MaxRequestBytes] of it. *)
Definition guest_conn (req : ExecRequest) : Conn :=
  mkConn (Some HostCID)
    (if MaxRequestBytes <? request_size req then Err (Sentinel "unexpected EOF") else EncodeMessage (MsgRequest req))
    [] None.
Definition no_such_socket : Peer :=
  {| peer_dial := Some (Errorf "connect: no such file or directory" []); peer_write := None; peer_replies := [] |}.
Definition guest_peer guests (req : ExecRequest) (path : string) : Peer :=
  match guests !! path with
  | None => no_such_socket
  | Some s => peer_of (serve order1 order2 (guest_conn (with_stream req)) s).1
  end.
(** The guests after a request that the client sends: one that it refuses
    to send reaches nobody. *)
Definition guests_after guests (req : ExecRequest) (path : string) : gmap string (Z * G) :=
  match rq_Validate (with_stream req), guests !! path with
  | Ok _, Some s => <[path := (serve order1 order2 (guest_conn (with_stream req)) s).2]> guests
  | _, _ => guests
  end.

(** What the handler answers (an error response, or the WebSocket it
    upgraded to), and the guests. *)
Definition ExecStreamWS (now : Z) (user id : option Z) guests c d
  : result WsConn * gmap string (Z * G) * SandboxDB :=
  match exec_target user id d with
  | (Err e, d) => (Err e, guests, d)
  | (Ok vmID, d) =>
      let c := SetDeadlines now c in
      let streamer : ExecStreamer := λ id req receive,
        svc_ExecStream tempDir (guest_peer guests req) id req (Some receive) in
      (Ok (BridgeExecStream now vmID streamer c),
       match wc_in c with
       | Ok m => if bool_decide (cm_Type m = TypeExec)
                 then guests_after guests (bridge_request vmID m) (socketPathForSandbox tempDir vmID) else guests
       | Err _ => guests
       end, d)
  end.

(** ** Requests survive the wire *)

(** Every string of the request is UTF-8. *)
Definition request_utf8 (r : ExecRequest) : Prop :=
  ValidString (rq_ID r) = true ∧ ValidString (rq_Command r) = true ∧
  Forall (λ a, ValidString a = true) (rq_Args r) ∧
  map_Forall (λ k v, ValidString k = true ∧ ValidString v = true) (rq_Env r).

Lemma json_request_utf8 r : request_utf8 r → json_request r = r.
Proof.
  intros (Hi & Hc & Ha & He). destruct r as [v i cmd args env t st]. unfold json_request.
  cbn [rq_Version rq_ID rq_Command rq_Args rq_Env rq_TimeoutMS rq_Stream] in *.
  rewrite (json_string_valid i), (json_string_valid cmd) by done. f_equal.
  - rewrite <- (list_fmap_id args) at 2. apply Forall_fmap_ext_1. eapply Forall_impl; [exact Ha|].
    intros a. apply json_string_valid.
  - rewrite <- (list_to_map_to_list env) at 2. f_equal.
    rewrite <- (list_fmap_id (map_to_list env)) at 2. apply Forall_fmap_ext_1, Forall_forall.
    intros [k x] Hin%elem_of_map_to_list. destruct (He k x Hin). by rewrite !json_string_valid.
Qed.

Lemma execute_id req s : rs_ID (execute order1 order2 req s).1 = rq_ID req.
Proof.
  unfold execute, run_request. destruct s as [n w]. destruct (rq_Validate req); [|done].
  destruct (n <? _); [|done]. destruct (loadPresetEnv w) as [preset w1].
  destruct (startWithResourceLimits _ _ _ _) as [[[pid path]|e] w2]; [|done].
  destruct (g_Wait _ _ _) as [run w3]. destruct (cleanupCgroup _ _) as [cl w4]. cbn. unfold finish.
  by destruct (run_wait run).
Qed.

(** A streamed request that arrives is executed, and its result streamed. *)
Lemma serve_stream req s :
  request_utf8 (with_stream req) → request_size (with_stream req) ≤ MaxRequestBytes →
  serve order1 order2 (guest_conn (with_stream req)) s =
  (streamResult (execute order1 order2 (with_stream req) s).1 (guest_conn (with_stream req)),
   (execute order1 order2 (with_stream req) s).2).
Proof.
  intros Hu Hsz. unfold serve, guest_conn, EncodeMessage. rewrite (proj2 (Z.ltb_ge _ _) Hsz).
  cbn [authorizedHost c_remote c_in]. rewrite json_request_utf8 by done. cbn [decode_request].
  change (negb (authorizedHost _)) with false. cbn iota.
  destruct (execute _ _ _ _) as [r s']. done.
Qed.

(** A longer one is refused, and the client reports an error. *)
Lemma serve_too_long req s :
  MaxRequestBytes < request_size (with_stream req) →
  serve order1 order2 (guest_conn (with_stream req)) s =
  (sendError (Errorf "decode request: %w" [Sentinel "unexpected EOF"]) (guest_conn (with_stream req)), s).
Proof. intros Hsz. unfold serve, guest_conn. by rewrite (proj2 (Z.ltb_lt _ _) Hsz). Qed.
Lemma exec_too_long req s :
  request_ok (with_stream req) → MaxRequestBytes < request_size (with_stream req) →
  ∃ e, ExecStream (peer_of (serve order1 order2 (guest_conn (with_stream req)) s).1) req (Some collect) [] = (Err e, []).
Proof.
  intros Hok Hsz. rewrite serve_too_long by done. unfold ExecStream, exec_stream_on_wire, send_request.
  rewrite (proj2 (Validate_iff _) Hok). cbn. rewrite bool_decide_eq_false_2; [by eexists|].
  intros E. pose proof (ok_id _ Hok) as Hid. cbn in Hid. rewrite <- E in Hid. unfold len in Hid. cbn in Hid. lia.
Qed.

(** The data of the messages of one type *)
Definition message_text (type : string) (ms : list ServerMessage) : list Z :=
  flat_map (λ m, if String.eqb (sm_Type m) type then bytes (sm_Data m) else []) ms.
Lemma message_text_frames type fs : message_text type (output_message <$> fs) = stream_text type fs.
Proof. induction fs as [|f fs IH]; [done|]. cbn. unfold message_text, stream_text in *. by rewrite IH. Qed.

(** Who does not own a running sandbox of that id reaches no guest, and gets
    the answer for a missing or stopped one. *)
Lemma exec_needs_own_sandbox now user id guests c d :
  sb_faults d = [] →
  (∀ u k s, user = Some u → id = Some k → sandboxes d !! k = Some s → sb_UserID s = u → sb_Status s ≠ "running") →
  is_ok (ExecStreamWS now user id guests c d).1.1 = false ∧
  (ExecStreamWS now user id guests c d).1.2 = guests ∧ (ExecStreamWS now user id guests c d).2 = d.
Proof.
  intros Hf Hno. unfold ExecStreamWS. assert (∃ e, exec_target user id d = (Err e, d)) as [e ->]; [|done].
  unfold exec_target. destruct user as [u|]; [|by eexists]. destruct id as [k|]; [|by eexists].
  unfold svc_Get, sandboxRepo_GetByID, GetSandboxByID. rewrite statement_ok by done.
  destruct (u =? 0); [by eexists|]. destruct (k =? 0); [by eexists|].
  destruct (sandboxes d !! k) as [s|] eqn:Hk; cbn [one_row]; [|by eexists].
  destruct (Z.eqb_spec (sb_UserID s) u) as [Hu|]; cbn [negb]; [|by eexists].
  destruct (String.eqb_spec (sb_Status s) "running") as [Hr|]; [|by eexists].
  by destruct (Hno u k s).
Qed.

Lemma exec_target_own u k s d :
  sb_faults d = [] → sandboxes d !! k = Some s → sb_UserID s = u → sb_Status s = "running" → u ≠ 0 → k ≠ 0 →
  exec_target (Some u) (Some k) d = (Ok (sb_VmID s), d).
Proof.
  intros Hf Hk Hu Hst Hu0 Hk0. unfold exec_target, svc_Get, sandboxRepo_GetByID, GetSandboxByID. rewrite statement_ok by done.
  rewrite (proj2 (Z.eqb_neq _ _) Hu0), (proj2 (Z.eqb_neq _ _) Hk0), Hk. cbn [one_row].
  rewrite Hu, Z.eqb_refl. cbn [negb]. by rewrite Hst.
Qed.

(** What the client gets from a guest that answers *)
Lemma exec_answer req s :
  request_ok (with_stream req) → request_utf8 (with_stream req) → request_size (with_stream req) ≤ MaxRequestBytes →
  let r := (execute order1 order2 (with_stream req) s).1 in
  is_ascii_string (rs_Stdout r) = true → is_ascii_string (rs_Stderr r) = true →
  ∃ frames, ExecStream (peer_of (serve order1 order2 (guest_conn (with_stream req)) s).1) req (Some collect) []
              = (Ok (without_output r), frames) ∧
    stream_text "stdout" frames = bytes (rs_Stdout r) ∧ stream_text "stderr" frames = bytes (rs_Stderr r).
Proof.
  intros Hok Hu Hsz r Ho He. rewrite serve_stream by done. cbn [fst].
  apply streamed_output_arrives; try done; [|apply Hu]. exact (execute_id (with_stream req) s).
Qed.
End Path.


(** ** [echo hi] in a sandbox of user 1, on the simulated guest *)

Definition running_row : Sandbox := mkSandbox 9 1 "vm-a" "python-3.11" "running" 1 512 300 [] 0 None None 0.
Definition running_db : SandboxDB := mkSandboxDB {[9 := running_row]} {[1; 2]} [].
Definition echo_message : ClientMessage :=
  {| cm_Type := TypeExec; cm_Command := "echo"; cm_Args := ["hi"]; cm_Env := ∅; cm_TimeoutMS := 0 |}.
Definition sim_guests : gmap string (Z * SimGuest) := {[socketPathForSandbox "/tmp" "vm-a" := (0, sg_empty)]}.
Definition echo_answer (user : Z) : result WsConn * gmap string (Z * SimGuest) * SandboxDB :=
  @ExecStreamWS _ _ ascii_case cgroup_settings cgroup_settings "/tmp" 0 (Some user) (Some 9) sim_guests ws_client running_db.

Lemma echo_request_ok : request_ok (bridge_request "vm-a" echo_message) ∧ request_utf8 (bridge_request "vm-a" echo_message).
Proof. split; [apply Validate_iff; vm_compute; reflexivity|]. split_and!; [done|done|by repeat constructor|done]. Qed.

