(* ===== verification/Lifecycle.v ===== *)
(** * The life of a sandbox across daemon, bus and worker

    The HTTP service of the daemon (platform/sandbox, runtime/daemon) writes
    the row and publishes an event; the bus delivers the event, at least once
    and in any order, to the worker (runtime/worker), which applies it to the
    VM manager and to the row.  This file composes the three over the bus as
    an interface, and shows what relates rows, events and VMs at all times. *)

From S2P Require Import Prelude GoStrings GoNet AppErrors Network Ipam Host Allocation VmmConfig Instance Manager Sandbox.
Open Scope Z_scope.

(** ** What a manager call leaves alone *)

(** Entries other than [vmID], and their instances *)
Definition mgr_frame (vmID : string) (m m' : Manager) : Prop :=
  (∀ id, id ≠ vmID → m_instances m' !! id = m_instances m !! id) ∧
  (∀ id inst i, id ≠ vmID → m_instances m !! id = Some inst → m_heap m !! inst = Some i →
     m_heap m' !! inst = Some i).
Definition keys_ok (m : Manager) : Prop :=
  ∀ id inst, m_instances m !! id = Some inst → ∃ i, m_heap m !! inst = Some i ∧ i_ID i = id.
(** No other entry points to [inst]. *)
Definition apart (vmID : string) (inst : nat) (m : Manager) : Prop :=
  ∀ id inst', id ≠ vmID → m_instances m !! id = Some inst' → inst' ≠ inst.

#[export] Instance mgr_frame_preorder vmID : PreOrder (mgr_frame vmID).
Proof.
  split; [by split|]. intros m1 m2 m3 [Hi Hh] [Hi' Hh']. split.
  - intros id Hid. by rewrite Hi', Hi.
  - intros id inst i Hid He Hp. eapply Hh'; [done|by rewrite Hi|]. by eapply Hh.
Qed.

Section Frames.
Context {W : Type} `{Host W}.

Lemma keys_apart vmID inst m :
  keys_ok m → m_instances m !! vmID = Some inst → apart vmID inst m.
Proof.
  intros Hk Hv id inst' Hne Hid ->. destruct (Hk _ _ Hv) as (i & Hi & <-).
  destruct (Hk _ _ Hid) as (i' & Hi' & <-). by simplify_eq.
Qed.

Lemma frame_on_instance {A} vmID inst (f : ST (VM W) A) m w r m' w' :
  apart vmID inst m → on_instance inst f (m, w) = (r, (m', w')) → mgr_frame vmID m m' ∧ apart vmID inst m'.
Proof.
  intros Ha. unfold on_instance. destruct (m_heap m !! inst) as [i|] eqn:Hi; [|by intros [= <- <- <-]].
  destruct (f _) as [r1 [[p i1] w1]]. intros [= <- <- <-]. split; [|done]. split; [done|].
  intros id inst' i' Hne Hid Hp. cbn. rewrite lookup_insert_ne; [done|]. by apply not_eq_sym, (Ha id).
Qed.
Lemma frame_remove vmID inst m : mgr_frame vmID m (remove_entry vmID inst m).
Proof.
  unfold remove_entry. case_bool_decide; [|done]. split; [|done]. intros id Hid. cbn. by rewrite lookup_delete_ne.
Qed.
Lemma frame_create vmID m w r m' w' :
  keys_ok m → CreateVM vmID (m, w) = (r, (m', w')) →
  mgr_frame vmID m m' ∧ match r with Ok inst => apart vmID inst m' | Err _ => True end.
Proof.
  intros Hk E. destruct r as [inst|e].
  - destruct (create_succeeds _ _ _ _ _ _ E) as (_ & Hn & Hm & Hf & _ & _ & a & _ & _ & _ & Hh).
    split; [split|].
    + intros id Hid. by rewrite Hm, lookup_insert_ne.
    + intros id inst' i Hid He Hp. rewrite Hh, lookup_insert_ne; [done|congruence].
    + intros id inst' Hid. rewrite Hm, lookup_insert_ne by done. intros He ->.
      destruct (Hk _ _ He) as (i & Hi & _). congruence.
  - destruct (create_fails _ _ _ _ _ _ E) as [Hm Hh]. split; [|done]. by split; intros *; rewrite ?Hm, ?Hh.
Qed.
Lemma frame_provision_failed ctx vmID inst what clean e m w r m' w' :
  apart vmID inst m → provision_failed (W := W) ctx vmID inst what clean e (m, w) = (r, (m', w')) → mgr_frame vmID m m'.
Proof.
  intros Ha. unfold provision_failed, removeFailedVM.
  destruct (on_instance inst (Stop ctx) (m, w)) as [[u|ce] [m1 w1]] eqn:E;
    apply (frame_on_instance vmID) in E as [E _]; try done; intros [= <- <- <-]; [|done].
  etransitivity; [done|]. apply frame_remove.
Qed.
Lemma frame_provision ctx vmID m w r m' w' :
  keys_ok m → ProvisionVM (W := W) ctx vmID (m, w) = (r, (m', w')) → mgr_frame vmID m m'.
Proof.
  intros Hk. unfold ProvisionVM. destruct (_ <? _); [|by intros [= <- <- <-]].
  destruct (provision_body ctx vmID _) as [r1 [m1 w1]] eqn:E. intros [= <- <- <-].
  assert (mgr_frame vmID (set_provision (m_provision m + 1) m) m1) as HF; [|exact HF].
  revert E. unfold provision_body. destruct (ctx_err ctx); [by intros [= <- <- <-]|].
  destruct (CreateVM vmID _) as [[inst|e] [m2 w2]] eqn:Ec; apply frame_create in Ec as [Fc Ha]; try done;
    [|by intros [= <- <- <-]].
  destruct (on_instance inst (Configure ctx) (m2, w2)) as [[u|e] [m3 w3]] eqn:E3;
    apply (frame_on_instance vmID) in E3 as [F3 Ha3]; try done;
    [|intros E; apply frame_provision_failed in E; [|done]; by rewrite Fc, F3].
  destruct (on_instance inst (Start ctx) (m3, w3)) as [[u4|e] [m4 w4]] eqn:E4;
    apply (frame_on_instance vmID) in E4 as [F4 Ha4]; try done.
  - intros [= <- <- <-]. by rewrite Fc, F3, F4.
  - intros E; apply frame_provision_failed in E; [|done]. by rewrite Fc, F3, F4.
Qed.
Lemma frame_destroy ctx vmID m w r m' w' :
  keys_ok m → DestroyVM (W := W) ctx vmID (m, w) = (r, (m', w')) →
  mgr_frame vmID m m' ∧ (is_ok r = true → m_instances m' !! vmID = None).
Proof.
  intros Hk. unfold DestroyVM. destruct (m_instances m !! vmID) as [inst|] eqn:Hv; [|by intros [= <- <- <-]].
  pose proof (keys_apart _ _ _ Hk Hv) as Ha. destruct (Hk _ _ Hv) as (i & Hi & _).
  destruct (on_instance inst (Stop ctx) (m, w)) as [[u|e] [m1 w1]] eqn:E;
    destruct (on_instance_inv _ _ _ _ _ _ _ _ Hi E) as [Em _];
    apply (frame_on_instance vmID) in E as [E _]; try done; intros [= <- <- <-]; [|done].
  split; [rewrite E; apply frame_remove|]. intros _. apply remove_entry_own. by rewrite Em.
Qed.
End Frames.

(** ** The bus *)

(** What daemon and worker use of JetStream: publishing, and the messages
    that it may still deliver. *)
Class JobBus (B : Type) := {
  bus_Publish : string → LifecycleEvent → string → ST B unit;
  pending : B → list (string * LifecycleEvent);
  (** It delivers no message that was not published. *)
  publish_law subject ev id b r b' : bus_Publish subject ev id b = (r, b') →
    ∀ x, x ∈ pending b' → x ∈ pending b ∨ x = (subject, ev);
}.

(** ** The worker's callbacks, call by call *)

(** A callback in progress: before [ProvisionVM]; before the status that
    records its result; before the status that records the result of
    [DestroyVM]; before the deletion of the row. *)
Inductive Job :=
  | Provisioning (ev : LifecycleEvent)
  | Provisioned (ev : LifecycleEvent) (r : result nat)
  | Destroyed (ev : LifecycleEvent) (r : result unit)
  | Stopped (ev : LifecycleEvent).
Definition job_event (j : Job) : LifecycleEvent :=
  match j with Provisioning ev | Provisioned ev _ | Destroyed ev _ | Stopped ev => ev end.

Section Jobs.
Context {W : Type} `{Host W}.

(** The first call of each handler, and the next call of a job: what is left
    to do, if anything. *)
Definition create_begin (now : Z) (ev : LifecycleEvent) (s : SandboxDB * (Manager * W))
  : option Job * (SandboxDB * (Manager * W)) :=
  let '(r, d) := sandboxRepo_UpdateStatus now (ev_SandboxID ev) "provisioning" s.1 in
  (match r with Ok _ => Some (Provisioning ev) | Err _ => None end, (d, s.2)).
Definition destroy_begin (ev : LifecycleEvent) (s : SandboxDB * (Manager * W))
  : option Job * (SandboxDB * (Manager * W)) :=
  let '(r, v) := DestroyVM Background (ev_VMID ev) s.2 in (Some (Destroyed ev r), (s.1, v)).
Definition job_step (now : Z) (j : Job) (s : SandboxDB * (Manager * W)) : option Job * (SandboxDB * (Manager * W)) :=
  let '(d, v) := s in
  let mark st ev := sandboxRepo_UpdateStatus now (ev_SandboxID ev) st d in
  match j with
  | Provisioning ev => let '(r, v) := ProvisionVM Background (ev_VMID ev) v in (Some (Provisioned ev r), (d, v))
  | Provisioned ev (Ok _) => (None, ((mark "running" ev).2, v))
  | Provisioned ev (Err _) => (None, ((mark "failed" ev).2, v))
  | Destroyed ev (Ok _) =>
      match mark "stopped" ev with (Ok _, d) => (Some (Stopped ev), (d, v)) | (Err _, d) => (None, (d, v)) end
  | Destroyed ev (Err _) => (None, ((mark "cleanup_failed" ev).2, v))
  | Stopped ev => (None, ((sandboxRepo_Delete (ev_SandboxID ev) d).2, v))
  end.
Definition job_run (now : Z) (x : option Job * (SandboxDB * (Manager * W))) : option Job * (SandboxDB * (Manager * W)) :=
  match x with (Some j, s) => job_step now j s | (None, s) => (None, s) end.

(** Call by call, without interruption, a job is its handler. *)
Lemma create_job_is_handler now ev s :
  job_run now (job_run now (create_begin now ev s)) = (None, (handleSandboxCreate now ev s).2).
Proof.
  destruct s as [d v]. unfold create_begin, handleSandboxCreate. cbn [fst snd].
  destruct (sandboxRepo_UpdateStatus now _ "provisioning" d) as [[s1|e] d1]; cbn [job_run job_step]; [|done].
  destruct (ProvisionVM Background (ev_VMID ev) v) as [[inst|e] v1]; cbn [job_run job_step]; [|done].
  by destruct (sandboxRepo_UpdateStatus now _ "running" d1) as [[s2|e] d2].
Qed.
Lemma destroy_job_is_handler now ev s :
  job_run now (job_run now (destroy_begin ev s)) = (None, (handleSandboxDestroy now ev s).2).
Proof.
  destruct s as [d v]. unfold destroy_begin, handleSandboxDestroy. cbn [fst snd].
  destruct (DestroyVM Background (ev_VMID ev) v) as [[u|e] v1]; cbn [job_run job_step]; [|done].
  destruct (sandboxRepo_UpdateStatus now _ "stopped" d) as [[s1|e] d1]; cbn [job_run job_step]; [|done].
  by destruct (sandboxRepo_Delete _ d1) as [[u2|e] d2].
Qed.
End Jobs.

(** ** The system *)

Section System.
Context {W B : Type} `{Host W} `{JobBus B} `{UnicodeCase}.

(** The callbacks in progress are keyed by their sandbox: at most one each. *)
Record Sys := mkSys { y_db : SandboxDB; y_bus : B; y_mgr : Manager; y_host : W; y_jobs : gmap Z Job }.
Definition rows (y : Sys) : gmap Z Sandbox := sandboxes (y_db y).

(** The events that may still have an effect. *)
Definition job_events (js : gmap Z Job) : list LifecycleEvent := job_event <$> (map_to_list js).*2.
Definition open_events (b : B) (js : gmap Z Job) : list LifecycleEvent := (pending b).*2 ++ job_events js.

(** A random UUID occurs nowhere else. *)
Definition fresh_ids (newID vmUUID : Z) (y : Sys) : Prop :=
  Forall (λ ev, ev_SandboxID ev ≠ newID ∧ ev_VMID ev ≠ newVMID vmUUID) (open_events (y_bus y) (y_jobs y)) ∧
  m_instances (y_mgr y) !! newVMID vmUUID = None.

Definition with_job (id : Z) (j : option Job) (js : gmap Z Job) : gmap Z Job := partial_alter (λ _, j) id js.

(** A request of the daemon, a delivered message, the next call of one of the
    callbacks.  A message is delivered any number of times until the bus
    forgets it, and not while a callback of its sandbox is in progress. *)
Inductive sys_step : Sys → Sys → Prop :=
  | st_create newID vmUUID now user req d b m w js r d' b' :
      fresh_ids newID vmUUID (mkSys d b m w js) →
      svc_Create (Some bus_Publish) true newID vmUUID now user req (d, b) = (r, (d', b')) →
      sys_step (mkSys d b m w js) (mkSys d' b' m w js)
  | st_delete now user id d b m w js r d' b' :
      svc_Delete (Some bus_Publish) true now user id (d, b) = (r, (d', b')) →
      sys_step (mkSys d b m w js) (mkSys d' b' m w js)
  | st_deliver_create now ev d b m w js j d' m' w' :
      (SubjectSandboxCreate, ev) ∈ pending b → js !! ev_SandboxID ev = None →
      create_begin now ev (d, (m, w)) = (j, (d', (m', w'))) →
      sys_step (mkSys d b m w js) (mkSys d' b m' w' (with_job (ev_SandboxID ev) j js))
  | st_deliver_destroy ev d b m w js j d' m' w' :
      (SubjectSandboxDestroy, ev) ∈ pending b → js !! ev_SandboxID ev = None →
      destroy_begin ev (d, (m, w)) = (j, (d', (m', w'))) →
      sys_step (mkSys d b m w js) (mkSys d' b m' w' (with_job (ev_SandboxID ev) j js))
  | st_job now id j d b m w js j' d' m' w' :
      js !! id = Some j → job_step now j (d, (m, w)) = (j', (d', (m', w'))) →
      sys_step (mkSys d b m w js) (mkSys d' b m' w' (with_job id j' js))
  | st_forget d b b' m w js :
      pending b' ⊆ pending b → sys_step (mkSys d b m w js) (mkSys d b' m w js).

(** What happens besides: statements to come are lost, and the worker dies
    and starts again, with a new manager and without the callbacks, whatever
    is left on the host. *)
Inductive rough_step : Sys → Sys → Prop :=
  | rs_step y y' : sys_step y y' → rough_step y y'
  | rs_lose fs d b m w js : rough_step (mkSys d b m w js) (mkSys (with_faults fs d) b m w js)
  | rs_restart tmp base net snap limits d b m w w' js :
      rough_step (mkSys d b m w js) (mkSys d b (NewManagerWithLimits tmp base net snap limits) w' ∅).

(** The VM runs and holds its lease. *)
Definition vm_running (vmID : string) (m : Manager) : Prop :=
  ∃ inst i, m_instances m !! vmID = Some inst ∧ m_heap m !! inst = Some i ∧
            i_ID i = vmID ∧ i_state i = StateRunning ∧ lease_live i.
Lemma vm_running_frame vm vm' m m' : vm ≠ vm' → mgr_frame vm' m m' → vm_running vm m → vm_running vm m'.
Proof.
  intros Hne [Hi Hh] (inst & i & He & Hp & Hx). exists inst, i. split; [by rewrite Hi|]. split; [by eapply Hh|done].
Qed.

(** The callback is tearing the VM down. *)
Definition tearing_down (js : gmap Z Job) (k : Z) : bool :=
  match js !! k with Some (Destroyed _ _) | Some (Stopped _) => true | _ => false end.

(** Neither is a statement lost nor does the worker restart. *)
Context (calm : Prop).

(** Rows [t], events [p], manager [m] and callbacks [js] fit together. *)
Record fits (js : gmap Z Job) (t : gmap Z Sandbox) (p : list LifecycleEvent) (m : Manager) : Prop := {
  f_ids k s : t !! k = Some s → sb_ID s = k;
  f_unique k k' s s' : t !! k = Some s → t !! k' = Some s' → sb_VmID s = sb_VmID s' → k = k';
  f_events ev k s : ev ∈ p → t !! k = Some s →
    (k = ev_SandboxID ev ↔ sb_VmID s = ev_VMID ev) ∧ (k = ev_SandboxID ev → sb_UserID s = ev_UserID ev);
  f_vms vm : is_Some (m_instances m !! vm) → ∃ k s, t !! k = Some s ∧ sb_VmID s = vm;
  f_running k s : calm → t !! k = Some s → sb_Status s = "running" → tearing_down js k = false → vm_running (sb_VmID s) m;
}.

Lemma fits_pending js t p p' m : p' ⊆ p → fits js t p m → fits js t p' m.
Proof. intros Hp []. split; eauto. Qed.

Lemma fits_status js t p m k s now st :
  t !! k = Some s → (st = "running" → vm_running (sb_VmID s) m) → fits js t p m →
  fits js (<[k := with_status now st s]> t) p m.
Proof.
  intros Hk Hst [Hid Hun Hev Hvm Hru].
  assert (∀ k' s', <[k := with_status now st s]> t !! k' = Some s' →
    ∃ s0, t !! k' = Some s0 ∧ sb_ID s' = sb_ID s0 ∧ sb_VmID s' = sb_VmID s0 ∧ sb_UserID s' = sb_UserID s0 ∧
          (calm → sb_Status s' = "running" → tearing_down js k' = false → vm_running (sb_VmID s0) m)) as Hl.
  { intros k' s' [[<- <-]|[? ?]]%lookup_insert_Some; [exists s|exists s']; split_and!; eauto. }
  split.
  - intros k' s' (s0 & ? & -> & _)%Hl. eauto.
  - intros k1 k2 s1 s2 (s1' & ? & _ & -> & _)%Hl (s2' & ? & _ & -> & _)%Hl. eauto.
  - intros ev k' s' Hp (s0 & ? & _ & -> & -> & _)%Hl. eauto.
  - intros vm (k' & s' & Hs' & <-)%Hvm. destruct (decide (k' = k)) as [->|Hne].
    + exists k, (with_status now st s). rewrite lookup_insert_eq. simplify_eq. done.
    + exists k', s'. by rewrite lookup_insert_ne.
  - intros k' s' Hc (s0 & ? & _ & -> & _ & Hr)%Hl. eauto.
Qed.

Lemma fits_delete js t p m k s :
  t !! k = Some s → m_instances m !! sb_VmID s = None → fits js t p m → fits js (base.delete k t) p m.
Proof.
  intros Hk Hn [Hid Hun Hev Hvm Hru]. split.
  - intros k' s' [_ ?]%lookup_delete_Some. eauto.
  - intros k1 k2 s1 s2 [_ ?]%lookup_delete_Some [_ ?]%lookup_delete_Some. eauto.
  - intros ev k' s' Hp [_ ?]%lookup_delete_Some. eauto.
  - intros vm Hs. destruct (Hvm vm Hs) as (k' & s' & Hs' & <-). exists k', s'. split; [|done].
    apply lookup_delete_Some. split; [|done]. intros ->. simplify_eq. rewrite Hn in Hs. by destruct Hs.
  - intros k' s' Hc [_ ?]%lookup_delete_Some. eauto.
Qed.

(** The manager works on the VM of row [k], which is not announced as
    running, or is being torn down. *)
Lemma fits_manager js t p m m' k s :
  t !! k = Some s → sb_Status s ≠ "running" ∨ tearing_down js k = true → mgr_frame (sb_VmID s) m m' →
  fits js t p m → fits js t p m'.
Proof.
  intros Hk Hst HF [Hid Hun Hev Hvm Hru]. split; try done.
  - intros vm Hs. destruct (decide (vm = sb_VmID s)) as [->|Hne]; [by exists k, s|].
    rewrite (proj1 HF) in Hs by done. eauto.
  - intros k' s' Hc Hs' Hr Ht. destruct (decide (sb_VmID s' = sb_VmID s)) as [E|Hne].
    { assert (k' = k) as -> by eauto. simplify_eq. by destruct Hst as [?|Hd]; [|rewrite Hd in Ht]. }
    eapply vm_running_frame; eauto.
Qed.

Lemma fits_create js t p m s ev :
  t !! sb_ID s = None → (∀ k s', t !! k = Some s' → sb_VmID s' ≠ sb_VmID s) → sb_Status s ≠ "running" →
  (∀ ev', ev' ∈ p → ev_SandboxID ev' ≠ sb_ID s ∧ ev_VMID ev' ≠ sb_VmID s) →
  ev = mkLifecycleEvent (sb_ID s) (sb_UserID s) (sb_VmID s) →
  fits js t p m → ∀ p', (∀ x, x ∈ p' → x ∈ p ∨ x = ev) → fits js (<[sb_ID s := s]> t) p' m.
Proof.
  intros Hn Hvmid Hst Hfr -> [Hid Hun Hev Hvm Hru] p' Hp'. split.
  - intros k s' [[<- <-]|[? ?]]%lookup_insert_Some; eauto.
  - intros k1 k2 s1 s2 [[<- <-]|[? ?]]%lookup_insert_Some [[<- <-]|[? ?]]%lookup_insert_Some E; eauto.
    + by destruct (Hvmid k2 s2).
    + by destruct (Hvmid k1 s1).
  - intros ev k s' [Hx| ->]%Hp' [[<- <-]|[Hne Hs']]%lookup_insert_Some; cbn.
    + destruct (Hfr _ Hx) as [H1' H2']. split; [split|]; intros E; by rewrite E in *.
    + eauto.
    + done.
    + pose proof (Hvmid _ _ Hs'). split; [split|]; intros E; done.
  - intros vm (k & s' & Hs' & <-)%Hvm. exists k, s'. split; [|done].
    rewrite lookup_insert_ne; [done|]. intros <-. congruence.
  - intros k s' Hc [[<- <-]|[? ?]]%lookup_insert_Some; [done|eauto].
Qed.

Lemma tearing_down_ne js k k' j : k' ≠ k → tearing_down (with_job k j js) k' = tearing_down js k'.
Proof. intros Hne. unfold tearing_down, with_job. by rewrite lookup_partial_alter_ne. Qed.
Lemma with_job_eq js k j : with_job k j js !! k = j.
Proof. apply lookup_partial_alter_eq. Qed.
Lemma with_job_ne js k k' j : k' ≠ k → with_job k j js !! k' = js !! k'.
Proof. intros. by apply lookup_partial_alter_ne. Qed.

(** A callback begins, moves on or ends. *)
Lemma fits_jobs js t p m k j :
  (∀ s, calm → t !! k = Some s → sb_Status s = "running" → tearing_down (with_job k j js) k = false →
     vm_running (sb_VmID s) m) →
  fits js t p m → fits (with_job k j js) t p m.
Proof.
  intros Hk [Hid Hun Hev Hvm Hru]. split; try done. intros k' s Hc Hs Hr Ht.
  destruct (decide (k' = k)) as [->|Hne]; [eauto|]. rewrite tearing_down_ne in Ht by done. eauto.
Qed.

(** *** What a callback relies on *)

Definition not_running (t : gmap Z Sandbox) (k : Z) : Prop := ∃ s, t !! k = Some s ∧ sb_Status s ≠ "running".
Definition job_ok (t : gmap Z Sandbox) (m : Manager) (k : Z) (j : Job) : Prop :=
  ev_SandboxID (job_event j) = k ∧
  match j with
  | Provisioning _ => not_running t k
  | Provisioned ev r => not_running t k ∧ (is_ok r = true → vm_running (ev_VMID ev) m)
  | Destroyed ev r => is_ok r = true → m_instances m !! ev_VMID ev = None
  | Stopped ev => m_instances m !! ev_VMID ev = None
  end.
Definition jobs_ok (js : gmap Z Job) (t : gmap Z Sandbox) (m : Manager) : Prop :=
  ∀ k j, js !! k = Some j → job_ok t m k j.

Lemma job_ok_rows t t' m k j :
  (not_running t k → not_running t' k) → job_ok t m k j → job_ok t' m k j.
Proof. intros Ht [Hid Hj]. split; [done|]. destruct j; naive_solver. Qed.
Lemma not_running_status t k k' s now st :
  t !! k' = Some s → st ≠ "running" → not_running t k → not_running (<[k' := with_status now st s]> t) k.
Proof.
  intros Hk' Hst (s0 & Hs0 & Hr). destruct (decide (k = k')) as [->|Hne].
  - eexists. by rewrite lookup_insert_eq.
  - exists s0. by rewrite lookup_insert_ne.
Qed.

(** The manager works on the VM of another row. *)
Lemma job_ok_manager js t p m m' k k' s j :
  fits js t p m → job_event j ∈ p → t !! k' = Some s → k ≠ k' → mgr_frame (sb_VmID s) m m' →
  job_ok t m k j → job_ok t m' k j.
Proof.
  intros Hfit Hev Hs Hne HF [Hid Hj]. assert (ev_VMID (job_event j) ≠ sb_VmID s) as Hvm.
  { intros E. apply Hne. rewrite <- Hid. symmetry. by apply (f_events _ _ _ _ Hfit _ _ _ Hev Hs). }
  split; [done|]. destruct j as [ev|ev r|ev r|ev]; cbn in Hvm; [done|..].
  - destruct Hj as [Hn Hr]. split; [done|]. intros Hok. eapply vm_running_frame; eauto.
  - intros Hok. rewrite (proj1 HF) by done. auto.
  - by rewrite (proj1 HF).
Qed.

(** *** Preservation, step by step *)

Record sys_inv (y : Sys) : Prop := {
  y_connected : calm → lossless (y_db y);
  y_manager : manager_inv (y_mgr y) [];
  y_fits : fits (y_jobs y) (rows y) (open_events (y_bus y) (y_jobs y)) (y_mgr y);
  y_callbacks : jobs_ok (y_jobs y) (rows y) (y_mgr y);
}.

Lemma mi_keys_ok m : manager_inv m [] → keys_ok m.
Proof. intros Hm id inst. apply (mi_keys _ _ Hm). Qed.
Lemma mgr_run_inv m m' : mgr_run m m' → manager_inv m [] → manager_inv m' [].
Proof. intros [Hr _] Hm. by apply (manager_inv_reachable (m, []) (m', []) (Hr [])). Qed.

Lemma vm_id_free vm t k s : vm_id_taken vm t = false → t !! k = Some s → sb_VmID s ≠ vm.
Proof.
  intros Hf Hs <-. unfold vm_id_taken in Hf. apply not_true_iff_false in Hf. apply Hf, existsb_elem.
  exists (k, s). split; [by apply elem_of_map_to_list|]. by apply String.eqb_eq.
Qed.


Lemma pending_open subject ev b js : (subject, ev) ∈ pending b → ev ∈ open_events b js.
Proof. intros Hp. apply elem_of_app. left. apply list_elem_of_fmap. by exists (subject, ev). Qed.
Lemma job_events_spec js ev : ev ∈ job_events js ↔ ∃ k j, js !! k = Some j ∧ ev = job_event j.
Proof.
  unfold job_events. rewrite <- list_fmap_compose, list_elem_of_fmap. split.
  - intros ([k j] & -> & Hk%elem_of_map_to_list). by exists k, j.
  - intros (k & j & Hk%elem_of_map_to_list & ->). by exists (k, j).
Qed.
Lemma job_open k j b js : js !! k = Some j → job_event j ∈ open_events b js.
Proof. intros Hk. apply elem_of_app. right. apply job_events_spec. eauto. Qed.
(** The events of the callbacks after a step are open before it. *)
Lemma open_events_step b js k j :
  (∀ j', j = Some j' → job_event j' ∈ open_events b js) → open_events b (with_job k j js) ⊆ open_events b js.
Proof.
  intros Hj ev [Hp|(k' & j' & Hk' & ->)%job_events_spec]%elem_of_app; [by apply elem_of_app; left|].
  destruct (decide (k' = k)) as [->|Hne]; [rewrite with_job_eq in Hk'; eauto|].
  rewrite with_job_ne in Hk' by done. by eapply job_open.
Qed.
Lemma jobs_ok_step js t m t' m' k j :
  jobs_ok js t m → (∀ k' j', k' ≠ k → js !! k' = Some j' → job_ok t m k' j' → job_ok t' m' k' j') →
  (∀ j', j = Some j' → job_ok t' m' k j') → jobs_ok (with_job k j js) t' m'.
Proof.
  intros Hok Hother Hk k' j' Hk'. destruct (decide (k' = k)) as [->|Hne]; [rewrite with_job_eq in Hk'; eauto|].
  rewrite with_job_ne in Hk' by done. eauto.
Qed.

(** A callback sets the status of its row, and moves on or ends. *)
Lemma status_step d d' b m w js ev s now st j :
  sys_inv (mkSys d b m w js) → ev ∈ open_events b js → sandboxes d !! ev_SandboxID ev = Some s →
  (lossless d → lossless d') → sandboxes d' = <[ev_SandboxID ev := with_status now st s]> (sandboxes d) →
  (st = "running" → vm_running (sb_VmID s) m) →
  (∀ j', j = Some j' → job_event j' = ev ∧ job_ok (<[ev_SandboxID ev := with_status now st s]> (sandboxes d)) m (ev_SandboxID ev) j') →
  sys_inv (mkSys d' b m w (with_job (ev_SandboxID ev) j js)).
Proof.
  intros [Hf Hm Hfit Hjs] Hev Hs Hl Hd' Hst Hj. cbn in *. unfold rows in *. cbn in *.
  split; [by auto|done|..]; unfold rows; cbn; rewrite Hd'.
  - eapply fits_pending; [apply open_events_step; intros j' E; by destruct (Hj _ E) as [-> _]|].
    apply fits_jobs; [|by apply fits_status]. intros s' _. rewrite lookup_insert_eq. intros [= <-] Hr _. auto.
  - eapply jobs_ok_step; [exact Hjs| |intros j' E; by destruct (Hj _ E)].
    intros k' j' Hne Hk'. apply job_ok_rows. intros (s0 & Hs0 & Hr). exists s0. by rewrite lookup_insert_ne.
Qed.
(** A callback ends whose row is gone, or whose statement is lost. *)
Lemma no_row_step d d' b m w js k :
  sys_inv (mkSys d b m w js) → (lossless d → lossless d') → sandboxes d' = sandboxes d →
  (lossless d → sandboxes d !! k = None) → sys_inv (mkSys d' b m w (with_job k None js)).
Proof.
  intros [Hf Hm Hfit Hjs] Hl Hd' Hs. cbn in *. unfold rows in *. cbn in *.
  split; [by auto|done|..]; unfold rows; cbn; rewrite Hd'.
  - eapply fits_pending; [by apply open_events_step|]. apply fits_jobs; [|done]. intros s Hc Hs'.
    by rewrite (Hs (Hf Hc)) in Hs'.
  - by eapply jobs_ok_step.
Qed.
(** Both, by the outcome of the update. *)
Lemma mark_step now st ev d b m w js (j : option Job) :
  sys_inv (mkSys d b m w js) → ev ∈ open_events b js → status_ok st = true →
  (st = "running" → ∀ s, sandboxes d !! ev_SandboxID ev = Some s → vm_running (sb_VmID s) m) →
  (∀ s j', sandboxes d !! ev_SandboxID ev = Some s → j = Some j' → job_event j' = ev ∧
     job_ok (<[ev_SandboxID ev := with_status now st s]> (sandboxes d)) m (ev_SandboxID ev) j') →
  let '(r, d') := sandboxRepo_UpdateStatus now (ev_SandboxID ev) st d in
  sys_inv (mkSys d' b m w (with_job (ev_SandboxID ev) (match r with Ok _ => j | Err _ => None end) js)).
Proof.
  intros Hinv Hev Hst Hrun Hj. pose proof (update_status_cases now (ev_SandboxID ev) st d Hst) as Hu.
  destruct (sandboxRepo_UpdateStatus _ _ _ _) as [r d']. destruct Hu as [Hl [(s & Hs & -> & Hd')|(Hr & Hd' & Hno)]].
  - eapply status_step; eauto.
  - destruct r; [done|]. by eapply no_row_step.
Qed.

(** *** The callbacks *)

Lemma deliver_create_step now ev d b m w js j d' m' w' :
  (SubjectSandboxCreate, ev) ∈ pending b → js !! ev_SandboxID ev = None →
  create_begin now ev (d, (m, w)) = (j, (d', (m', w'))) →
  sys_inv (mkSys d b m w js) → sys_inv (mkSys d' b m' w' (with_job (ev_SandboxID ev) j js)).
Proof.
  intros Hp Hfree E Hinv. revert E. unfold create_begin. cbn [fst snd].
  pose proof (mark_step now "provisioning" ev d b m w js (Some (Provisioning ev)) Hinv
    (pending_open _ _ _ js Hp) eq_refl ltac:(done)) as Hst.
  destruct (sandboxRepo_UpdateStatus _ _ _ _) as [r d1]. intros [= <- <- <- <-]. apply Hst.
  intros s j' _ [= <-]. split; [done|]. split; [done|]. eexists. by rewrite lookup_insert_eq.
Qed.

(** Without a row there is no VM to destroy. *)
Lemma no_row_no_vm js t p m ev : fits js t p m → ev ∈ p → t !! ev_SandboxID ev = None → m_instances m !! ev_VMID ev = None.
Proof.
  intros Hfit Hev Hs. destruct (m_instances m !! ev_VMID ev) eqn:Hi; [|done].
  destruct (f_vms _ _ _ _ Hfit (ev_VMID ev)) as (k & s & Hk & Hv); [by eexists|].
  apply (f_events _ _ _ _ Hfit _ _ _ Hev Hk) in Hv. congruence.
Qed.

Lemma deliver_destroy_step ev d b m w js j d' m' w' :
  (SubjectSandboxDestroy, ev) ∈ pending b → js !! ev_SandboxID ev = None →
  destroy_begin ev (d, (m, w)) = (j, (d', (m', w'))) →
  sys_inv (mkSys d b m w js) → sys_inv (mkSys d' b m' w' (with_job (ev_SandboxID ev) j js)).
Proof.
  intros Hp Hfree E [Hf Hm Hfit Hjs]. apply (pending_open _ _ _ js) in Hp. unfold rows in *. cbn in Hf, Hm, Hfit, Hjs.
  revert E. unfold destroy_begin. cbn [fst snd].
  destruct (DestroyVM Background (ev_VMID ev) (m, w)) as [rd [m1 w1]] eqn:Ed. intros [= <- <- <- <-].
  destruct (frame_destroy _ _ _ _ _ _ _ (mi_keys_ok _ Hm) Ed) as [HF Hgone].
  assert (manager_inv m1 []) as Hm1 by (eapply mgr_run_inv; [eapply destroy_runs; exact Ed|done]).
  set (js' := with_job _ _ js). assert (fits js' (sandboxes d) (open_events b js) m) as Hfit'.
  { apply fits_jobs; [|done]. intros s _ _ _. unfold tearing_down. by rewrite with_job_eq. }
  assert (fits js' (sandboxes d) (open_events b js) m1 ∧ ∀ k j, k ≠ ev_SandboxID ev → js !! k = Some j →
            job_ok (sandboxes d) m k j → job_ok (sandboxes d) m1 k j) as [Hfit1 Hothers].
  { destruct (sandboxes d !! ev_SandboxID ev) as [s|] eqn:Hs.
    - assert (sb_VmID s = ev_VMID ev) as Hvm by by apply (f_events _ _ _ _ Hfit _ _ _ Hp Hs).
      rewrite <- Hvm in HF. split.
      + eapply fits_manager; [exact Hs| |exact HF|done]. right. unfold tearing_down, js'. by rewrite with_job_eq.
      + intros k j Hne Hk. eapply job_ok_manager; [exact Hfit|by eapply job_open|exact Hs|done|done].
    - pose proof (no_row_no_vm _ _ _ _ _ Hfit Hp Hs) as Hno. revert Ed. unfold DestroyVM. rewrite Hno.
      intros [= <- <- <-]. done. }
  split; [done|done|..]; unfold rows; cbn.
  - eapply fits_pending; [|exact Hfit1]. apply open_events_step. by intros j' [= <-].
  - eapply jobs_ok_step; [exact Hjs|exact Hothers|]. intros j' [= <-]. by split.
Qed.

Lemma provision_step ev d b m w js r m' w' :
  js !! ev_SandboxID ev = Some (Provisioning ev) →
  ProvisionVM Background (ev_VMID ev) (m, w) = (r, (m', w')) →
  sys_inv (mkSys d b m w js) → sys_inv (mkSys d b m' w' (with_job (ev_SandboxID ev) (Some (Provisioned ev r)) js)).
Proof.
  intros Hk E [Hf Hm Hfit Hjs]. pose proof (job_open _ _ b _ Hk) as Hev. cbn [job_event] in Hev.
  unfold rows in *. cbn in Hf, Hm, Hfit, Hjs.
  destruct (Hjs _ _ Hk) as [_ Hn]. pose proof Hn as (s & Hs & Hst).
  assert (sb_VmID s = ev_VMID ev) as Hvm by by apply (f_events _ _ _ _ Hfit _ _ _ Hev Hs).
  pose proof (frame_provision _ _ _ _ _ _ _ (mi_keys_ok _ Hm) E) as HF. rewrite <- Hvm in HF.
  assert (manager_inv m' []) as Hm1 by (eapply mgr_run_inv; [eapply provision_runs; [apply Hm|exact E]|done]).
  split; [done|done|..]; unfold rows; cbn.
  - eapply fits_pending; [apply open_events_step; by intros j' [= <-]|].
    apply fits_jobs; [intros s' _ Hs'; congruence|]. eapply fits_manager; eauto.
  - eapply jobs_ok_step; [exact Hjs| |].
    + intros k j Hne Hkj. eapply job_ok_manager; [exact Hfit|by eapply job_open|exact Hs|done|done].
    + intros j' [= <-]. split; [done|]. split; [done|]. intros Hok. destruct r as [inst|e]; [|done].
      assert (m_instances m !! ev_VMID ev = None) as Hno.
      { destruct (m_instances m !! ev_VMID ev) as [inst'|] eqn:Hi; [|done].
        destruct (provision_existing Background _ _ w _ Hi) as [Hr _]. by rewrite E in Hr. }
      destruct (provision_cases _ _ _ _ _ _ _ Hno E) as (Hmi & i & Hi & Hii & Hrun & _ & Hl).
      exists inst, i. by rewrite Hmi, lookup_insert_eq.
Qed.

Lemma delete_row_step ev d b m w js :
  js !! ev_SandboxID ev = Some (Stopped ev) → sys_inv (mkSys d b m w js) →
  sys_inv (mkSys (sandboxRepo_Delete (ev_SandboxID ev) d).2 b m w (with_job (ev_SandboxID ev) None js)).
Proof.
  intros Hk [Hf Hm Hfit Hjs]. pose proof (job_open _ _ b _ Hk) as Hev. cbn [job_event] in Hev.
  unfold rows in *. cbn in Hf, Hm, Hfit, Hjs. destruct (Hjs _ _ Hk) as [_ Hgone]. unfold sandboxRepo_Delete, DeleteSandbox.
  match goal with |- context [statement ?f d] => destruct (statement_cases f d) as (fs & Hl & [[Hn [e ->]]| ->]) end;
    (split; [by auto|done|..]; unfold rows; cbn).
  - eapply fits_pending; [by apply open_events_step|]. apply fits_jobs; [|done]. intros s Hc. by destruct Hn; apply Hf.
  - by eapply jobs_ok_step.
  - eapply fits_pending; [by apply open_events_step|].
    apply fits_jobs; [intros s' _ Hs'; by rewrite lookup_delete_eq in Hs'|].
    destruct (sandboxes d !! ev_SandboxID ev) as [s|] eqn:Hs; [|by rewrite delete_id].
    eapply fits_delete; [exact Hs| |done]. by rewrite (proj1 (proj1 (f_events _ _ _ _ Hfit _ _ _ Hev Hs)) eq_refl).
  - eapply jobs_ok_step; [exact Hjs| |done]. intros k' j' Hne Hk'. apply job_ok_rows.
    intros (s0 & Hs0 & Hr). exists s0. by rewrite lookup_delete_ne.
Qed.

Lemma job_step_inv now id j d b m w js j' d' m' w' :
  js !! id = Some j → job_step now j (d, (m, w)) = (j', (d', (m', w'))) →
  sys_inv (mkSys d b m w js) → sys_inv (mkSys d' b m' w' (with_job id j' js)).
Proof.
  intros Hk E Hinv. pose proof (job_open _ _ b _ Hk) as Hev.
  destruct (y_callbacks _ Hinv _ _ Hk) as [<- Hj]. cbn [y_mgr y_db] in *. unfold rows in Hj. cbn in Hj.
  assert (∀ st, status_ok st = true →
    (st = "running" → ∀ s, sandboxes d !! ev_SandboxID (job_event j) = Some s → vm_running (sb_VmID s) m) →
    sys_inv (mkSys (sandboxRepo_UpdateStatus now (ev_SandboxID (job_event j)) st d).2 b m w
               (with_job (ev_SandboxID (job_event j)) None js))) as Hmark.
  { intros st Hok Hvm. pose proof (mark_step now st _ d b m w js None Hinv Hev Hok Hvm) as Hst.
    destruct (sandboxRepo_UpdateStatus _ _ _ _) as [[] d1]; by apply Hst. }
  destruct j as [ev|ev [inst|e]|ev [u|e]|ev]; cbn [job_event job_step] in *.
  - destruct (ProvisionVM Background (ev_VMID ev) (m, w)) as [r [m1 w1]] eqn:Ep. injection E as <- <- <- <-.
    by eapply provision_step.
  - injection E as <- <- <- <-. destruct Hj as [_ Hr]. apply Hmark; [done|]. intros _ s Hs.
    rewrite (proj1 (proj1 (f_events _ _ _ _ (y_fits _ Hinv) _ _ _ Hev Hs)) eq_refl). by apply Hr.
  - injection E as <- <- <- <-. by apply Hmark.
  - pose proof (mark_step now "stopped" ev d b m w js (Some (Stopped ev)) Hinv Hev eq_refl ltac:(done)) as Hst.
    destruct (sandboxRepo_UpdateStatus _ _ _ _) as [[s1|e] d1]; injection E as <- <- <- <-; apply Hst;
      intros s j' _ [= <-]; (split; [done|]); (split; [done|]); by apply Hj.
  - injection E as <- <- <- <-. by apply Hmark.
  - injection E as <- <- <- <-. by apply delete_row_step.
Qed.

(** *** The requests of the daemon *)

Lemma open_events_publish subject ev id b r b' js :
  bus_Publish subject ev id b = (r, b') → ∀ x, x ∈ open_events b' js → x ∈ open_events b js ∨ x = ev.
Proof.
  intros Ep x [([subj ev'] & -> & Hx)%list_elem_of_fmap|Hx]%elem_of_app.
  - destruct (publish_law _ _ _ _ _ _ Ep _ Hx) as [Hx'|[= -> ->]]; [left; by eapply pending_open|by right].
  - left. apply elem_of_app. by right.
Qed.

Lemma create_step newID vmUUID now user req d b m w js r d' b' :
  fresh_ids newID vmUUID (mkSys d b m w js) →
  svc_Create (Some bus_Publish) true newID vmUUID now user req (d, b) = (r, (d', b')) →
  sys_inv (mkSys d b m w js) → sys_inv (mkSys d' b' m w js).
Proof.
  intros [Hfr _] E [Hf Hm Hfit Hjs]. unfold rows in *. cbn in Hfr, Hf, Hm, Hfit, Hjs. rewrite Forall_forall in Hfr.
  destruct (svc_create_cases _ _ _ _ _ _ _ _ _ _ _ E) as [Hl [(Hd' & -> & _)|(Hvm & s & _ & Hn & Hrows & Hid & Hu & Hvs & _ & _ & _ & Hd)]].
  { split; [by auto|done|..]; unfold rows; cbn; by rewrite Hd'. }
  unfold DispatchCreate, publish in Hd. destruct (bus_Publish _ _ _ b) as [rb b1] eqn:Ep.
  assert (b' = b1 ∧ sb_Status s ≠ "running") as (-> & Hst).
  { destruct rb; [destruct Hd as (_ & ? & Est)|destruct Hd as (_ & ? & [Est|[Est _]])]; by rewrite Est. }
  split; [by auto|done|..]; unfold rows; cbn; rewrite Hrows, <- Hid.
  - eapply fits_create; try done.
    + by rewrite Hid.
    + intros k s' Hs'. rewrite Hvs. by eapply vm_id_free.
    + intros ev' Hx. rewrite Hid, Hvs. apply (Hfr _ Hx).
    + rewrite Hid, Hu, Hvs. by eapply open_events_publish.
  - intros k j Hk. eapply job_ok_rows; [|by apply Hjs]. intros (s0 & Hs0 & Hr). exists s0.
    rewrite lookup_insert_ne; [done|]. intros <-. rewrite Hid in Hs0. congruence.
Qed.

(** The owner's request sets a status other than running. *)
Lemma owner_status_step now id st d b m w js :
  status_ok st = true → st ≠ "running" → sys_inv (mkSys d b m w js) →
  let '(r, d') := sandboxRepo_UpdateStatus now id st d in sys_inv (mkSys d' b m w js).
Proof.
  intros Hok Hne [Hf Hm Hfit Hjs]. unfold rows in *. cbn in Hf, Hm, Hfit, Hjs.
  pose proof (update_status_cases now id st d Hok) as Hu. destruct (sandboxRepo_UpdateStatus _ _ _ _) as [r d'].
  destruct Hu as [Hl [(s & Hs & _ & Hd')|(_ & Hd' & _)]];
    (split; [by auto|done|..]; unfold rows; cbn; rewrite Hd'; try done).
  - by apply fits_status.
  - intros k j Hk. eapply job_ok_rows; [|by apply Hjs]. by apply not_running_status.
Qed.
(** An event for a row that exists. *)
Lemma owner_publish_step subject id mid d b m w js s r b' :
  sandboxes d !! id = Some s →
  bus_Publish subject (mkLifecycleEvent id (sb_UserID s) (sb_VmID s)) mid b = (r, b') →
  sys_inv (mkSys d b m w js) → sys_inv (mkSys d b' m w js).
Proof.
  intros Hs Ep [Hf Hm Hfit Hjs]. unfold rows in *. cbn in Hf, Hm, Hfit, Hjs. split; [done|done| |done]. cbn.
  split; [apply Hfit|apply Hfit| |apply Hfit|apply Hfit].
  intros ev k s' [Hx| ->]%(open_events_publish _ _ _ _ _ _ _ Ep) Hs'; [by eapply (f_events _ _ _ _ Hfit)|]. cbn.
  split; [split|].
  - intros ->. unfold rows in *. cbn in *. by simplify_eq.
  - intros Ev. by eapply (f_unique _ _ _ _ Hfit).
  - intros ->. unfold rows in *. cbn in *. by simplify_eq.
Qed.

Lemma delete_step now user id d b m w js r d' b' :
  svc_Delete (Some bus_Publish) true now user id (d, b) = (r, (d', b')) →
  sys_inv (mkSys d b m w js) → sys_inv (mkSys d' b' m w js).
Proof.
  intros E Hinv. revert E. unfold svc_Delete. destruct (user =? 0); [by intros [= <- <- <-]|]. cbn [negb].
  pose proof (get_lossless user id d) as Hgl. destruct (svc_Get user id d) as [rg d0] eqn:Eg.
  destruct (get_cases _ _ _ _ _ Eg) as [Hd0 Hs].
  assert (sys_inv (mkSys d0 b m w js)) as Hinv0.
  { destruct Hinv as [Hf Hm Hfit Hjs]. unfold rows in *. cbn in *. split; [by auto|done|..]; unfold rows; cbn; by rewrite Hd0. }
  destruct rg as [s|e]; [|by intros [= <- <- <-]]. destruct Hs as (Hs & Hu & _). rewrite <- Hd0 in Hs.
  pose proof (f_ids _ _ _ _ (y_fits _ Hinv0) _ _ Hs) as Hid. rewrite Hid.
  pose proof (owner_status_step now id "stopping" d0 b m w js eq_refl ltac:(done) Hinv0) as Hst.
  pose proof (update_status_cases now id "stopping" d0 eq_refl) as Hcase.
  destruct (sandboxRepo_UpdateStatus now id "stopping" d0) as [[s1|e] d1]; [|by intros [= <- <- <-]].
  destruct Hcase as [_ [(s' & Hs' & _ & Hd1)|[? _]]]; [|done]. assert (s' = s) as -> by congruence.
  unfold DispatchDestroy, publish. destruct (bus_Publish _ _ _ b) as [rb b1] eqn:Ep.
  assert (sys_inv (mkSys d1 b1 m w js)) as Hinv1.
  { subst user. eapply (owner_publish_step _ id _ _ _ _ _ _ (with_status now "stopping" s)); [|exact Ep|exact Hst].
    rewrite Hd1. by rewrite lookup_insert_eq. }
  destruct rb as [u|e]; [by intros [= <- <- <-]|].
  pose proof (owner_status_step now id "cleanup_failed" d1 b1 m w js eq_refl ltac:(done) Hinv1) as Hst2.
  destruct (sandboxRepo_UpdateStatus _ _ _ d1) as [[] d2]; by intros [= <- <- <-].
Qed.

Lemma sys_inv_step y y' : sys_step y y' → sys_inv y → sys_inv y'.
Proof.
  intros []; eauto using create_step, delete_step, deliver_create_step, deliver_destroy_step, job_step_inv.
  intros [Hf Hm Hfit Hjs]. split; [done|done| |done]. eapply fits_pending; [|exact Hfit].
  intros ev [Hx|Hx]%elem_of_app; apply elem_of_app; [left|by right].
  apply list_elem_of_fmap in Hx as (x & -> & Hx). apply list_elem_of_fmap. eauto.
Qed.
Lemma sys_inv_steps y y' : rtc sys_step y y' → sys_inv y → sys_inv y'.
Proof. induction 1; eauto using sys_inv_step. Qed.
Lemma sys_inv_init users b0 tmp base net snap limits (w0 : W) :
  pending b0 = [] →
  sys_inv (mkSys (mkSandboxDB ∅ users []) b0 (NewManagerWithLimits tmp base net snap limits) w0 ∅).
Proof.
  intros Hb. split; [constructor|apply manager_inv_init| |].
  - unfold open_events. cbn. rewrite Hb. split; intros *; cbn; rewrite ?lookup_empty; try done; by intros [].
  - by intros k j Hk.
Qed.
End System.

(** A manager that knows no VM, and no callbacks. *)
Lemma sys_inv_restart {W B} `{Host W} `{JobBus B} tmp base net snap limits d (b : B) m (w w' : W) js :
  sys_inv False (mkSys d b m w js) → sys_inv False (mkSys d b (NewManagerWithLimits tmp base net snap limits) w' ∅).
Proof.
  intros [_ _ Hfit _]. split; [done|apply manager_inv_init| |by intros k j Hk]. split; cbn; try done; try apply Hfit.
  - intros ev k s Hev. apply (f_events _ _ _ _ _ Hfit). unfold open_events in *. cbn in *.
    rewrite app_nil_r in Hev. apply elem_of_app. by left.
  - intros vm [? Hv]. by rewrite lookup_empty in Hv.
Qed.
Lemma rough_inv {W B} `{Host W} `{JobBus B} `{UnicodeCase} (y y' : Sys (W := W) (B := B)) :
  rtc rough_step y y' → sys_inv False y → sys_inv False y'.
Proof.
  induction 1 as [|y1 y2 y3 Hs _ IH]; [done|]. intros Hy. apply IH. clear IH.
  destruct Hs as [y1 y2 Hs|fs d b m w js|tmp base net snap limits d b m w w' js].
  - by eapply sys_inv_step.
  - destruct Hy as [_ ? ? ?]. by split.
  - by eapply sys_inv_restart.
Qed.

(** C5: Whatever requests users send, however often and in whatever order the
    bus delivers their events, and however the calls of the worker's
    callbacks interleave with each other and with the requests, as long as
    two callbacks of one sandbox do not overlap: every VM of the manager is
    the VM of exactly one sandbox row, and an event that may still have an
    effect names the VM and the user of its row, even when statements are
    lost and the worker dies and starts again at any moment.  And unless one
    of these two happens, a row says running only while its VM runs and
    holds its lease, or while a callback is tearing it down. *)
Theorem sandbox_lifecycle_consistent {W B} `{Host W} `{JobBus B} `{UnicodeCase}
    users b0 tmp base net snap limits (w0 : W) :
  pending b0 = [] →
  let y0 := mkSys (mkSandboxDB ∅ users []) b0 (NewManagerWithLimits tmp base net snap limits) w0 ∅ in
  (∀ y, rtc rough_step y0 y →
    (∀ vm, is_Some (m_instances (y_mgr y) !! vm) →
       ∃ k s, rows y !! k = Some s ∧ sb_VmID s = vm ∧ ∀ k' s', rows y !! k' = Some s' → sb_VmID s' = vm → k' = k) ∧
    (∀ ev s, ev ∈ open_events (y_bus y) (y_jobs y) → rows y !! ev_SandboxID ev = Some s →
       sb_VmID s = ev_VMID ev ∧ sb_UserID s = ev_UserID ev)) ∧
  (∀ y, rtc sys_step y0 y → ∀ k s, rows y !! k = Some s → sb_Status s = "running" →
     tearing_down (y_jobs y) k = false → vm_running (sb_VmID s) (y_mgr y)).
Proof.
  intros Hb y0. split.
  - intros y Hr. assert (sys_inv False y) as [_ _ Hfit _] by by eapply rough_inv, sys_inv_init.
    split.
    + intros vm (k & s & Hs & <-)%(f_vms _ _ _ _ _ Hfit). exists k, s. split_and!; [done|done|].
      intros k' s' Hs' E. by eapply (f_unique _ _ _ _ _ Hfit).
    + intros ev s Hp Hs. destruct (f_events _ _ _ _ _ Hfit _ _ _ Hp Hs) as [Hv Hu]. split; [by apply Hv|by apply Hu].
  - intros y Hr k s. assert (sys_inv True y) as [_ _ Hfit _] by by eapply sys_inv_steps, sys_inv_init.
    by apply (f_running _ _ _ _ _ Hfit).
Qed.

(** ** A run on the simulated host *)

#[export] Instance list_jobs : JobBus (list (string * LifecycleEvent)).
Proof.
  refine {| bus_Publish subject ev id b := (Ok tt, b ++ [(subject, ev)]); pending b := b |}.
  intros subject ev id b r b' E x. injection E as <- <-. rewrite elem_of_app, list_elem_of_singleton. tauto.
Defined.

Definition run_users : SandboxDB := mkSandboxDB ∅ {[2]} [].
Definition run_created : result Sandbox * (SandboxDB * list (string * LifecycleEvent)) :=
  @svc_Create ascii_case _ (Some bus_Publish) true 10 3 5 2 (mkCreateRequest "" 0 0 0 []) (run_users, []).
Definition run_event : LifecycleEvent := mkLifecycleEvent 10 2 (newVMID 3).
Definition run_begun := create_begin 6 run_event (run_created.2.1, (demo_manager, demo_host)).
Definition run_provisioned := job_run 6 run_begun.
Definition run_delivered := job_run 7 run_provisioned.
Definition run_at (js : gmap Z Job) (x : option Job * (SandboxDB * (Manager * SimHost)))
  : Sys (W := SimHost) (B := list (string * LifecycleEvent)) :=
  mkSys x.2.1 run_created.2.2 x.2.2.1 x.2.2.2 (with_job 10 x.1 js).
Definition run_at1 := run_at ∅ run_begun.
Definition run_at2 := run_at (y_jobs run_at1) run_provisioned.
Definition run_end := run_at (y_jobs run_at2) run_delivered.

(** A sandbox is created and its event delivered: its VM runs. *)
Lemma sandbox_lifecycle_consistent_witness :
  run_delivered.1 = None ∧ ∀ k s, rows run_end !! k = Some s → sb_Status s = "running" →
    tearing_down (y_jobs run_end) k = false → vm_running (sb_VmID s) (y_mgr run_end).
Proof.
  split; [vm_compute; reflexivity|].
  apply (proj2 (@sandbox_lifecycle_consistent SimHost _ sim_host list_jobs ascii_case {[2]} [] "/tmp" demo_cfg (DefaultConfig "") demo_snap
    {| MaxVMs := 2; MaxConcurrentProvision := 1 |} demo_host eq_refl) run_end).
  eapply rtc_l; [apply (st_create 10 3 5 2 (mkCreateRequest "" 0 0 0 []) _ _ _ _ _ run_created.1 run_created.2.1 run_created.2.2)|].
  { split; [by apply Forall_nil|vm_compute; reflexivity]. }
  { vm_compute. reflexivity. }
  eapply (rtc_l _ _ run_at1).
  { apply (st_deliver_create 6 run_event _ _ _ _ _ run_begun.1); [|done|vm_compute; reflexivity].
    assert (run_created.2.2 = [(SubjectSandboxCreate, run_event)]) as -> by (vm_compute; reflexivity). left. }
  eapply (rtc_l _ _ run_at2).
  { apply (st_job 6 10 (Provisioning run_event) _ _ _ _ _ run_provisioned.1); vm_compute; reflexivity. }
  eapply (rtc_l _ _ run_end); [|apply rtc_refl].
  apply (st_job 7 10 (Provisioned run_event (Ok 0%nat)) _ _ _ _ _ run_delivered.1); vm_compute; reflexivity.
Defined.

(** Two callbacks that overlap break this: a create event that is delivered
    again marks the row, the destroy event of the same sandbox is handled to
    its end, and the create continues: the VM runs without a row. *)
Definition race_marked : result Sandbox * SandboxDB := sandboxRepo_UpdateStatus 7 10 "provisioning" (y_db run_end).
Definition race_destroyed : result unit * (SandboxDB * (Manager * SimHost)) :=
  handleSandboxDestroy 8 run_event (race_marked.2, (y_mgr run_end, y_host run_end)).
Definition race_provisioned : result nat * (Manager * SimHost) :=
  ProvisionVM Background (ev_VMID run_event) race_destroyed.2.2.
Example overlapping_handlers_orphan_vm :
  is_ok race_marked.1 = true ∧ is_ok race_destroyed.1 = true ∧ is_ok race_provisioned.1 = true ∧
  sandboxes race_destroyed.2.1 !! 10 = None ∧ is_Some (m_instances race_provisioned.2.1 !! newVMID 3).
Proof. vm_compute. eauto 10. Qed.

(** A worker that starts again knows none of its VMs: the row still says
    running, machine and TAP device are still there, and the destroy event that the
    owner's deletion causes cannot find the VM. *)
Definition after_restart : Sys (W := SimHost) (B := list (string * LifecycleEvent)) :=
  mkSys (y_db run_end) (y_bus run_end) demo_manager (y_host run_end) ∅.
Definition restart_destroyed : result unit * (SandboxDB * (Manager * SimHost)) :=
  handleSandboxDestroy 9 run_event (y_db after_restart, (y_mgr after_restart, y_host after_restart)).
Example restart_strands_vm :
  (sb_Status <$> rows after_restart !! 10) = Some "running" ∧ m_instances (y_mgr after_restart) !! newVMID 3 = None ∧
  is_ok restart_destroyed.1 = false ∧
  (sb_Status <$> sandboxes restart_destroyed.2.1 !! 10) = Some "cleanup_failed" ∧
  size (sim_taps restart_destroyed.2.2.2) = 1%nat ∧ size (sim_running restart_destroyed.2.2.2) = 1%nat.
Proof. vm_compute. by split_and!. Qed.
