(* ===== verification/Routes.v ===== *)
(** * runtime/daemon/routes.go, the routes.go of every module, and
      runtime/middleware/cors.go and secure.go

    The router of the daemon as data: the middleware in front of every route,
    with the configuration that the third-party handlers are given, and the
    table of routes with the ones that authenticate. *)

From S2P Require Import Prelude GoStrings.

(** ** The table of routes *)

Inductive Method := GET | POST | PATCH | DELETE.
Inductive RouteName :=
  | RHealthz | RAuthStart | RPasswordLogin | ROTPSend | ROTPVerify | RPasswordEnroll
  | RTokenCreate | RTokenList | RTokenRevoke | RTeamTokenCreate | RTeamTokenList | RTeamTokenRevoke
  | RSessionList | RSessionRevoke | RSessionRevokeAll | RGetMe | RUpdateMe | RDeleteMe
  | RSandboxList | RSandboxGet | RSandboxExec | RSandboxCreate | RSandboxDelete.
#[export] Instance route_name_eq_dec : EqDecision RouteName.
Proof. solve_decision. Defined.
Record Route := mkRoute { r_method : Method; r_path : string; r_auth : bool; r_name : RouteName }.

Definition auth_RegisterRoutes (prefix : string) : list Route :=
  let p := prefix +:+ "/auth" in
  [mkRoute POST (p +:+ "/start") false RAuthStart;
   mkRoute POST (p +:+ "/password/login") false RPasswordLogin;
   mkRoute POST (p +:+ "/otp/send") false ROTPSend;
   mkRoute POST (p +:+ "/otp/verify") false ROTPVerify;
   mkRoute POST (p +:+ "/password/enroll") true RPasswordEnroll].
Definition pat_RegisterRoutes (prefix : string) : list Route :=
  let p := prefix +:+ "/tokens" in
  [mkRoute POST p true RTokenCreate; mkRoute GET p true RTokenList; mkRoute DELETE (p +:+ "/:id") true RTokenRevoke].
Definition teamtoken_RegisterRoutes (prefix : string) : list Route :=
  let p := prefix +:+ "/teams/:team_id/tokens" in
  [mkRoute POST p true RTeamTokenCreate; mkRoute GET p true RTeamTokenList;
   mkRoute DELETE (p +:+ "/:id") true RTeamTokenRevoke].
Definition session_RegisterRoutes (prefix : string) : list Route :=
  let p := prefix +:+ "/sessions" in
  [mkRoute GET p true RSessionList; mkRoute DELETE (p +:+ "/:id") true RSessionRevoke;
   mkRoute DELETE p true RSessionRevokeAll].
Definition users_RegisterRoutes (prefix : string) : list Route :=
  let p := prefix +:+ "/users" in
  [mkRoute GET (p +:+ "/me") true RGetMe; mkRoute PATCH (p +:+ "/me") true RUpdateMe;
   mkRoute DELETE (p +:+ "/me") true RDeleteMe].
Definition sandbox_RegisterRoutes (prefix : string) : list Route :=
  let p := prefix +:+ "/sandboxes" in
  [mkRoute GET p true RSandboxList; mkRoute GET (p +:+ "/:id") true RSandboxGet;
   mkRoute GET (p +:+ "/:id/exec/stream") true RSandboxExec; mkRoute POST p true RSandboxCreate;
   mkRoute DELETE (p +:+ "/:id") true RSandboxDelete].
Definition RegisterRoutes : list Route :=
  mkRoute GET "/healthz" false RHealthz ::
  auth_RegisterRoutes "/v1" ++ pat_RegisterRoutes "/v1" ++ teamtoken_RegisterRoutes "/v1" ++
  session_RegisterRoutes "/v1" ++ users_RegisterRoutes "/v1" ++ sandbox_RegisterRoutes "/v1".

(** ** The middleware of every route *)

(** The fields of [cors.Config] and [secure.Config] that are set. *)
Record CorsConfig := mkCorsConfig {
  AllowAllOrigins : bool; AllowOrigins : list string; AllowCredentials : bool;
  AllowHeaders : list string; AllowMethods : list string; ExposeHeaders : list string;
}.
Definition CORS (allowOrigins : list string) (development : bool) : CorsConfig :=
  {| AllowAllOrigins := development && bool_decide (allowOrigins = []);
     AllowOrigins := allowOrigins;
     AllowCredentials := false;
     AllowHeaders := ["Content-Type"; "Content-Length"; "Accept-Encoding"; "X-CSRF-Token"; "X-Request-ID";
                      "Authorization"; "accept"; "origin"; "Cache-Control"; "X-Requested-With"];
     AllowMethods := ["POST"; "OPTIONS"; "GET"; "PUT"; "PATCH"; "DELETE"];
     ExposeHeaders := ["X-Request-ID"] |}.
(** The fields that differ from [secure.DefaultConfig]. *)
Record SecureConfig := mkSecureConfig {
  SSLRedirect : bool; STSSeconds : Z; ContentSecurityPolicy : string; ReferrerPolicy : string; IENoOpen : bool;
}.
Definition Secure : SecureConfig := mkSecureConfig false 0 "" "no-referrer" true.

Inductive Middleware := Logger | Recovery | UseSecure (c : SecureConfig) | UseCORS (c : CorsConfig).
(** [gin.Engine] *)
Record Engine := mkEngine { en_use : list Middleware; en_routes : list Route }.
