(* ===== verification/Wiring.v ===== *)
(** * runtime/daemon: the modules and how they are put together

    [NewModules] builds a repository, a service and a handler per package over
    one connection pool, and [RegisterRoutes] binds the handlers and one
    authentication middleware to the routes.  The objects never change after
    they are built, so they are values here; what a value is made of says
    which pool and which client a request ends up using. *)

From S2P Require Import Prelude GoStrings Routes.
Open Scope Z_scope.

Inductive Package := PkgAuth | PkgPAT | PkgTeamToken | PkgSession | PkgUsers | PkgSandbox.

(** [sqlc.New(db)]; the pool by its handle. *)
Record Queries := mkQueries { q_db : Z }.
(** Each package has a repository type of its own. *)
Record Repository (p : Package) := NewRepository { repo_q : Queries }.
Arguments NewRepository {p}.
Arguments repo_q {p}.
Record Service (p : Package) := NewService { svc_repo : Repository p }.
Arguments NewService {p}.
Arguments svc_repo {p}.

(** [newSandboxDispatcher(natsClient)]; the client by the handle of its connection. *)
Record Dispatcher := newSandboxDispatcher { ds_publisher : option Z }.
Record SandboxService := NewSandboxService { ss_repo : Repository PkgSandbox; ss_dispatcher : Dispatcher }.

Inductive Handler :=
  | AuthHandler (service : Service PkgAuth) (sessionService : Service PkgSession)
  | PATHandler (service : Service PkgPAT)
  | TeamTokenHandler (service : Service PkgTeamToken)
  | SessionHandler (service : Service PkgSession)
  | UserHandler (service : Service PkgUsers)
  | SandboxHandler (service : SandboxService).

Record ModuleOf (repository service : Type) := mkModule {
  mod_Repository : repository; mod_Service : service; mod_Handler : Handler;
}.
Arguments mkModule {repository service}.
Arguments mod_Repository {repository service}.
Arguments mod_Service {repository service}.
Arguments mod_Handler {repository service}.
Record Modules := mkModules {
  mods_Auth : ModuleOf (Repository PkgAuth) (Service PkgAuth);
  mods_PAT : ModuleOf (Repository PkgPAT) (Service PkgPAT);
  mods_TeamToken : ModuleOf (Repository PkgTeamToken) (Service PkgTeamToken);
  mods_Session : ModuleOf (Repository PkgSession) (Service PkgSession);
  mods_Users : ModuleOf (Repository PkgUsers) (Service PkgUsers);
  mods_Sandbox : ModuleOf (Repository PkgSandbox) SandboxService;
}.

Definition NewModules (db : Z) (natsClient : option Z) : Modules :=
  let queries := mkQueries db in
  let userRepository := NewRepository queries in
  let userService := NewService userRepository in
  let sessionRepository := NewRepository queries in
  let sessionService := NewService sessionRepository in
  let authRepository := NewRepository queries in
  let authService := NewService authRepository in
  let patRepository := NewRepository queries in
  let patService := NewService patRepository in
  let teamTokenRepository := NewRepository queries in
  let teamTokenService := NewService teamTokenRepository in
  let sandboxDispatcher := newSandboxDispatcher natsClient in
  let sandboxRepository := NewRepository queries in
  let sandboxService := NewSandboxService sandboxRepository sandboxDispatcher in
  mkModules
    (mkModule authRepository authService (AuthHandler authService sessionService))
    (mkModule patRepository patService (PATHandler patService))
    (mkModule teamTokenRepository teamTokenService (TeamTokenHandler teamTokenService))
    (mkModule sessionRepository sessionService (SessionHandler sessionService))
    (mkModule userRepository userService (UserHandler userService))
    (mkModule sandboxRepository sandboxService (SandboxHandler sandboxService)).

(** [middleware.NewAuth] *)
Record AuthMiddleware := NewAuth {
  mw_sessions : Service PkgSession; mw_pat : Service PkgPAT; mw_users : Service PkgUsers;
}.

(** A registered route: its middleware, if any, and its handler; [/healthz]
    is a function of its own. *)
Record Binding := mkBinding { bd_route : Route; bd_auth : option AuthMiddleware; bd_handler : option Handler }.
Definition bind (mw : AuthMiddleware) (h : Handler) (routes : list Route) : list Binding :=
  (λ r, mkBinding r (if r_auth r then Some mw else None) (Some h)) <$> routes.
Definition bind_routes (m : Modules) : list Binding :=
  let authMiddleware := NewAuth (mod_Service (mods_Session m)) (mod_Service (mods_PAT m)) (mod_Service (mods_Users m)) in
  mkBinding (mkRoute GET "/healthz" false RHealthz) None None ::
  bind authMiddleware (mod_Handler (mods_Auth m)) (auth_RegisterRoutes "/v1") ++
  bind authMiddleware (mod_Handler (mods_PAT m)) (pat_RegisterRoutes "/v1") ++
  bind authMiddleware (mod_Handler (mods_TeamToken m)) (teamtoken_RegisterRoutes "/v1") ++
  bind authMiddleware (mod_Handler (mods_Session m)) (session_RegisterRoutes "/v1") ++
  bind authMiddleware (mod_Handler (mods_Users m)) (users_RegisterRoutes "/v1") ++
  bind authMiddleware (mod_Handler (mods_Sandbox m)) (sandbox_RegisterRoutes "/v1").

(** ** Where a request ends up *)

(** The pools that a handler and the middleware read and write. *)
Definition service_db {p} (s : Service p) : Z := q_db (repo_q (svc_repo s)).
Definition handler_dbs (h : Handler) : list Z :=
  match h with
  | AuthHandler s sess => [service_db s; service_db sess]
  | PATHandler s => [service_db s]
  | TeamTokenHandler s => [service_db s]
  | SessionHandler s => [service_db s]
  | UserHandler s => [service_db s]
  | SandboxHandler s => [q_db (repo_q (ss_repo s))]
  end.
Definition middleware_dbs (a : AuthMiddleware) : list Z :=
  [service_db (mw_sessions a); service_db (mw_pat a); service_db (mw_users a)].
Definition handler_bus (h : Handler) : option Z :=
  match h with SandboxHandler s => ds_publisher (ss_dispatcher s) | _ => None end.
Definition binding_dbs (b : Binding) : list Z :=
  from_option handler_dbs [] (bd_handler b) ++ from_option middleware_dbs [] (bd_auth b).

(** The bound routes are the table of routes; whatever the route, the handler
    and the middleware use the pool of the daemon and no other, and the
    sandbox handler publishes through the client of the daemon.  So one state
    of the tables, as in the file Router, is what all requests share: the
    session that a login creates is the one that the middleware looks up. *)
Lemma wiring_shares_database db nats :
  let bindings := bind_routes (NewModules db nats) in
  bd_route <$> bindings = RegisterRoutes ∧
  Forall (λ b, Forall (.= db) (binding_dbs b)) bindings ∧
  Forall (λ b, is_Some (bd_auth b) ↔ r_auth (bd_route b) = true) bindings ∧
  (∀ b s, b ∈ bindings → bd_handler b = Some (SandboxHandler s) → handler_bus (SandboxHandler s) = nats).
Proof.
  cbn zeta. split_and!; [reflexivity| | |].
  - unfold bind_routes, bind. cbn. repeat constructor.
  - unfold bind_routes, bind. cbn. repeat (constructor; [cbn; unfold is_Some; naive_solver|]). constructor.
  - intros b s Hb. unfold bind_routes, bind in Hb. cbn in Hb. rewrite !elem_of_cons in Hb.
    destruct_or! Hb; subst; try (intros [= <-]; reflexivity); try done. by apply elem_of_nil in Hb.
Qed.
