(* ===== verification/IdentityDB.v ===== *)
(** * database/sqlc: the identity tables

    Users, sessions, personal and team access tokens, authentication
    transactions and challenges, with one definition per query.  [now] is the
    time of the statement and [newID] the id that the database generates;
    the constraints are those of the migrations. *)

From stdpp Require Import sorting.
From S2P Require Import Prelude GoStrings GoNet AppErrors.
Open Scope Z_scope.

Record User := mkUser {
  u_ID : Z; u_Email : string; u_EmailVerified : bool; u_Name : option string;
  u_PasswordHash : option string; u_DisabledAt : option Z; u_CreatedAt : Z; u_UpdatedAt : Z;
}.
Record Session := mkSession {
  s_ID : Z; s_UserID : Z; s_TokenHash : string; s_IpAddress : option Addr; s_UserAgent : option string;
  s_ExpiresAt : Z; s_LastSeenAt : option Z; s_RevokedAt : option Z; s_CreatedAt : Z;
}.
(** Personal and team tokens share their columns; the owner is a user or a
    team. *)
Record Token := mkToken {
  t_ID : Z; t_Owner : Z; t_Name : string; t_TokenHash : string; t_TokenPrefix : string;
  t_Scopes : list string; t_ExpiresAt : option Z; t_LastUsedAt : option Z;
  t_CreatedBy : Z; t_CreatedAt : Z;
}.
Record AuthTransaction := mkAuthTransaction {
  x_ID : Z; x_Identifier : string; x_UserID : option Z; x_State : string;
  x_SelectedMethod : option string; x_ExpiresAt : Z; x_CreatedAt : Z; x_UpdatedAt : Z;
}.
Record AuthChallenge := mkAuthChallenge {
  c_ID : Z; c_AuthTransactionID : option Z; c_Identifier : string; c_SecretHash : string;
  c_Purpose : string; c_State : string; c_Attempts : Z; c_MaxAttempts : Z; c_ExpiresAt : Z;
  c_ConsumedAt : option Z; c_CreatedAt : Z;
}.

Record IdDB := mkIdDB {
  users : gmap Z User;
  sessions : gmap Z Session;
  pats : gmap Z Token;
  team_tokens : gmap Z Token;
  team_members : gmap (Z * Z) string;       (** (team, user) to role *)
  transactions : gmap Z AuthTransaction;
  challenges : gmap Z AuthChallenge;
  id_faults : list (option error);          (** statements that the connection loses *)
}.
Definition set_users (x : gmap Z User) (d : IdDB) : IdDB :=
  mkIdDB x (sessions d) (pats d) (team_tokens d) (team_members d) (transactions d) (challenges d) (id_faults d).
Definition set_sessions (x : gmap Z Session) (d : IdDB) : IdDB :=
  mkIdDB (users d) x (pats d) (team_tokens d) (team_members d) (transactions d) (challenges d) (id_faults d).
Definition set_pats (x : gmap Z Token) (d : IdDB) : IdDB :=
  mkIdDB (users d) (sessions d) x (team_tokens d) (team_members d) (transactions d) (challenges d) (id_faults d).
Definition set_team_tokens (x : gmap Z Token) (d : IdDB) : IdDB :=
  mkIdDB (users d) (sessions d) (pats d) x (team_members d) (transactions d) (challenges d) (id_faults d).
Definition set_transactions (x : gmap Z AuthTransaction) (d : IdDB) : IdDB :=
  mkIdDB (users d) (sessions d) (pats d) (team_tokens d) (team_members d) x (challenges d) (id_faults d).
Definition set_challenges (x : gmap Z AuthChallenge) (d : IdDB) : IdDB :=
  mkIdDB (users d) (sessions d) (pats d) (team_tokens d) (team_members d) (transactions d) x (id_faults d).

Definition query {A} (f : IdDB → result A * IdDB) : ST IdDB A := λ d,
  let live fs := mkIdDB (users d) (sessions d) (pats d) (team_tokens d) (team_members d)
                   (transactions d) (challenges d) fs in
  match id_faults d with
  | [] => f d
  | None :: fs => f (live fs)
  | Some e :: fs => (Err e, live fs)
  end.
Lemma query_ok {A} (f : IdDB → result A * IdDB) d : id_faults d = [] → query f d = f d.
Proof. intros E. unfold query. by rewrite E. Qed.

(** The row that satisfies [P], if any: [WHERE P LIMIT 1]. *)
Definition find_row {V} (P : V → bool) (t : gmap Z V) : option V :=
  snd <$> (list_find (λ x, P x.2 = true) (map_to_list t) ≫= λ y, Some y.2).
Definition one {A} (o : option A) : result A :=
  match o with Some x => Ok x | None => Err ErrNoRows end.
(** [UPDATE ... WHERE id = $1 AND P RETURNING ...] on one table. *)
Definition update_returning {V} (t : gmap Z V) (put : gmap Z V → IdDB → IdDB) (id : Z)
    (P : V → bool) (f : V → V) (d : IdDB) : result V * IdDB :=
  match t !! id with
  | Some v => if P v then (Ok (f v), put (<[id := f v]> t) d) else (Err ErrNoRows, d)
  | None => (Err ErrNoRows, d)
  end.

Lemma find_row_Some {V} (P : V → bool) t v :
  find_row P t = Some v → ∃ k, t !! k = Some v ∧ P v = true.
Proof.
  unfold find_row. destruct (list_find _ _) as [[i [k x]]|] eqn:E; [|done]. cbn. intros [= <-].
  apply list_find_Some in E as (Hi & HP & _). exists k. split; [|done].
  apply elem_of_map_to_list. by eapply list_elem_of_lookup_2.
Qed.
Lemma find_row_None {V} (P : V → bool) t :
  find_row P t = None → ∀ k v, t !! k = Some v → P v = false.
Proof.
  unfold find_row. destruct (list_find _ _) as [[i [k x]]|] eqn:E; [done|]. intros _ k v Hk.
  apply list_find_None in E. rewrite Forall_forall in E. destruct (P v) eqn:HP; [|done].
  exfalso. eapply (E (k, v)); [by apply elem_of_map_to_list|done].
Qed.
(** A key constraint makes the row unique. *)
Lemma find_row_unique {V} (P : V → bool) t k v :
  t !! k = Some v → P v = true →
  (∀ k' v', t !! k' = Some v' → P v' = true → k' = k) → find_row P t = Some v.
Proof.
  intros Hk HP Hu. destruct (find_row P t) as [x|] eqn:E.
  - apply find_row_Some in E as (k' & Hk' & HP'). rewrite (Hu _ _ Hk' HP') in Hk'. congruence.
  - by rewrite (find_row_None _ _ E _ _ Hk) in HP.
Qed.

Definition is_none {A} (o : option A) : bool := match o with None => true | Some _ => false end.

(** ** users.sql.go *)

Section Users.
Context `{UnicodeCase}.

(** Equality of [CITEXT] values. *)
Definition citext_eq (a b : string) : bool := String.eqb (ToLower a) (ToLower b).
Definition email_taken (email : string) (t : gmap Z User) : bool :=
  existsb (λ x, citext_eq (u_Email x.2) email) (map_to_list t).

Definition CreateUser (newID now : Z) (name : option string) (email : string) (hash : option string)
  : ST IdDB User :=
  query (λ d,
    let u := mkUser newID email false name hash None now now in
    if email_taken email (users d) then (Err (constraint_violation "users_email_key"), d)
    else if bool_decide (is_Some (users d !! newID)) then (Err (constraint_violation "users_pkey"), d)
    else (Ok u, set_users (<[newID := u]> (users d)) d)).

Definition GetUserByEmail (email : string) : ST IdDB User :=
  query (λ d, (one (find_row (λ u, citext_eq (u_Email u) email && is_none (u_DisabledAt u)) (users d)), d)).
Definition GetUserByEmailIncludingDisabled (email : string) : ST IdDB User :=
  query (λ d, (one (find_row (λ u, citext_eq (u_Email u) email) (users d)), d)).

(** [COALESCE($1, name)]; a new email must not be taken by another user. *)
Definition UpdateUserProfile (now id : Z) (name email : option string) : ST IdDB User :=
  query (λ d,
    if match email with
       | Some e => email_taken e (base.delete id (users d))
       | None => false
       end
    then (Err (constraint_violation "users_email_key"), d)
    else update_returning (users d) set_users id (λ u, is_none (u_DisabledAt u))
           (λ u, mkUser (u_ID u) (default (u_Email u) email) (u_EmailVerified u)
                   (match name with Some n => Some n | None => u_Name u end)
                   (u_PasswordHash u) (u_DisabledAt u) (u_CreatedAt u) now) d).
End Users.

Definition GetUserByID (id : Z) : ST IdDB User :=
  query (λ d, (one (users d !! id ≫= λ u, if is_none (u_DisabledAt u) then Some u else None), d)).

Definition DisableUser (now id : Z) : ST IdDB unit :=
  query (λ d,
    (Ok tt, (update_returning (users d) set_users id (λ u, is_none (u_DisabledAt u))
       (λ u, mkUser (u_ID u) (u_Email u) (u_EmailVerified u) (u_Name u) (u_PasswordHash u)
               (Some now) (u_CreatedAt u) now) d).2)).

Definition MarkUserEmailVerified (now id : Z) : ST IdDB User :=
  query (λ d, update_returning (users d) set_users id (λ u, is_none (u_DisabledAt u))
    (λ u, mkUser (u_ID u) (u_Email u) true (u_Name u) (u_PasswordHash u) (u_DisabledAt u)
            (u_CreatedAt u) now) d).

Definition SetUserPassword (now id : Z) (hash : option string) : ST IdDB User :=
  query (λ d, update_returning (users d) set_users id (λ u, is_none (u_DisabledAt u))
    (λ u, mkUser (u_ID u) (u_Email u) (u_EmailVerified u) (u_Name u) hash (u_DisabledAt u)
            (u_CreatedAt u) now) d).

(** ** sessions.sql.go *)

Definition user_active (d : IdDB) (id : Z) : bool :=
  match users d !! id with Some u => is_none (u_DisabledAt u) | None => false end.

Definition CreateSession (newID now userID : Z) (tokenHash : string) (ip : option Addr)
    (agent : option string) (expiresAt : Z) : ST IdDB Session :=
  query (λ d,
    if negb (user_active d userID) then (Err ErrNoRows, d)
    else
      let s := mkSession newID userID tokenHash ip agent expiresAt (Some now) None now in
      if existsb (λ x, String.eqb (s_TokenHash x.2) tokenHash) (map_to_list (sessions d)) then
        (Err (constraint_violation "sessions_token_hash_key"), d)
      else if expiresAt <=? now then (Err (constraint_violation "chk_sessions_expiry"), d)
      else if bool_decide (is_Some (sessions d !! newID)) then (Err (constraint_violation "sessions_pkey"), d)
      else (Ok s, set_sessions (<[newID := s]> (sessions d)) d)).

Definition session_live (now : Z) (d : IdDB) (s : Session) : bool :=
  (now <? s_ExpiresAt s) && is_none (s_RevokedAt s) && user_active d (s_UserID s).

Definition GetSessionByID (now id : Z) : ST IdDB Session :=
  query (λ d, (one (sessions d !! id ≫= λ s, if session_live now d s then Some s else None), d)).
Definition GetSessionByTokenHash (now : Z) (tokenHash : string) : ST IdDB Session :=
  query (λ d, (one (find_row (λ s, String.eqb (s_TokenHash s) tokenHash && session_live now d s) (sessions d)), d)).

(** [ORDER BY last_seen_at DESC NULLS LAST] *)
Definition seen_later (x y : Session) : Prop :=
  match s_LastSeenAt x, s_LastSeenAt y with
  | _, None => True
  | None, Some _ => False
  | Some a, Some b => b ≤ a
  end.
#[export] Instance seen_later_dec x y : Decision (seen_later x y).
Proof. unfold seen_later. destruct (s_LastSeenAt x), (s_LastSeenAt y); apply _. Defined.
Definition ListSessionsByUserID (now userID : Z) : ST IdDB (list Session) :=
  query (λ d, (Ok (merge_sort seen_later
    (filter (λ s, s_UserID s = userID ∧ session_live now d s = true) (map_to_list (sessions d)).*2)), d)).

Definition revoke (now : Z) (s : Session) : Session :=
  mkSession (s_ID s) (s_UserID s) (s_TokenHash s) (s_IpAddress s) (s_UserAgent s) (s_ExpiresAt s)
    (s_LastSeenAt s) (Some now) (s_CreatedAt s).
(** The CHECK [revoked_at >= created_at] holds as long as the clock of the
    database does not run back past the creation of the row. *)
Definition RevokeSession (now id userID : Z) : ST IdDB unit :=
  query (λ d, (Ok tt, (update_returning (sessions d) set_sessions id
    (λ s, (s_UserID s =? userID) && is_none (s_RevokedAt s)) (revoke now) d).2)).
Definition RevokeUserSessions (now userID : Z) : ST IdDB unit :=
  query (λ d, (Ok tt, set_sessions
    ((λ s, if (s_UserID s =? userID) && is_none (s_RevokedAt s) then revoke now s else s) <$> sessions d) d)).
Definition TouchSession (now id userID : Z) : ST IdDB unit :=
  query (λ d, (Ok tt, (update_returning (sessions d) set_sessions id
    (λ s, (s_UserID s =? userID) && (now <? s_ExpiresAt s) && is_none (s_RevokedAt s)
          && match s_LastSeenAt s with None => true | Some t => t <? now - 5 * Minute end)
    (λ s, mkSession (s_ID s) (s_UserID s) (s_TokenHash s) (s_IpAddress s) (s_UserAgent s) (s_ExpiresAt s)
            (Some now) (s_RevokedAt s) (s_CreatedAt s)) d).2)).

(** ** personal_access_tokens.sql.go *)

Definition hash_taken (hash : string) (t : gmap Z Token) : bool :=
  existsb (λ x, String.eqb (t_TokenHash x.2) hash) (map_to_list t).
Definition token_unexpired (now : Z) (t : Token) : bool :=
  match t_ExpiresAt t with None => true | Some e => now <? e end.

Definition CreateToken (newID now userID : Z) (name hash prefix : string) (scopes : list string)
    (expiresAt : option Z) : ST IdDB Token :=
  query (λ d,
    let t := mkToken newID userID name hash prefix scopes expiresAt None userID now in
    if bool_decide (users d !! userID = None) then (Err (constraint_violation "user_id_fkey"), d)
    else if hash_taken hash (pats d) then (Err (constraint_violation "token_hash_key"), d)
    else if bool_decide (is_Some (pats d !! newID)) then (Err (constraint_violation "pkey"), d)
    else (Ok t, set_pats (<[newID := t]> (pats d)) d)).

Definition GetTokenByHash (now : Z) (hash : string) : ST IdDB Token :=
  query (λ d, (one (find_row (λ t, String.eqb (t_TokenHash t) hash && token_unexpired now t) (pats d)), d)).

Definition newer (x y : Token) : Prop := t_CreatedAt y ≤ t_CreatedAt x.
#[export] Instance newer_dec x y : Decision (newer x y).
Proof. unfold newer. apply _. Defined.
Definition ListTokensByUser (userID : Z) : ST IdDB (list Token) :=
  query (λ d, (Ok (merge_sort newer (filter (λ t, t_Owner t = userID) (map_to_list (pats d)).*2)), d)).

Definition delete_if (P : Token → bool) (id : Z) (t : gmap Z Token) : gmap Z Token :=
  match t !! id with Some x => if P x then base.delete id t else t | None => t end.
Definition RevokeToken (id userID : Z) : ST IdDB unit :=
  query (λ d, (Ok tt, set_pats (delete_if (λ t, t_Owner t =? userID) id (pats d)) d)).

Definition touch_token (now : Z) (t : Token) : Token :=
  mkToken (t_ID t) (t_Owner t) (t_Name t) (t_TokenHash t) (t_TokenPrefix t) (t_Scopes t) (t_ExpiresAt t)
    (Some now) (t_CreatedBy t) (t_CreatedAt t).
Definition TouchToken (now id : Z) : ST IdDB unit :=
  query (λ d, (Ok tt, (update_returning (pats d) set_pats id
    (λ t, match t_LastUsedAt t with None => true | Some x => x <? now - Minute end)
    (touch_token now) d).2)).

(** ** team_access_tokens.sql.go *)

Definition may_manage (d : IdDB) (teamID userID : Z) : bool :=
  match team_members d !! (teamID, userID) with
  | Some role => String.eqb role "owner" || String.eqb role "admin"
  | None => false
  end.

Definition CreateTeamToken (newID now teamID : Z) (name hash prefix : string) (scopes : list string)
    (expiresAt : option Z) (createdBy : Z) : ST IdDB Token :=
  query (λ d,
    let t := mkToken newID teamID name hash prefix scopes expiresAt None createdBy now in
    if negb (may_manage d teamID createdBy) then (Err ErrNoRows, d)
    else if hash_taken hash (team_tokens d) then (Err (constraint_violation "token_hash_key"), d)
    else if bool_decide (is_Some (team_tokens d !! newID)) then (Err (constraint_violation "pkey"), d)
    else (Ok t, set_team_tokens (<[newID := t]> (team_tokens d)) d)).

Definition ListTeamTokens (teamID userID : Z) : ST IdDB (list Token) :=
  query (λ d, (Ok (merge_sort newer
    (filter (λ t, t_Owner t = teamID ∧ is_Some (team_members d !! (teamID, userID)))
       (map_to_list (team_tokens d)).*2)), d)).

(** The number of rows deleted. *)
Definition RevokeTeamToken (id teamID userID : Z) : ST IdDB Z :=
  query (λ d,
    match team_tokens d !! id with
    | Some t => if (t_Owner t =? teamID) && may_manage d teamID userID
                then (Ok 1, set_team_tokens (base.delete id (team_tokens d)) d) else (Ok 0, d)
    | None => (Ok 0, d)
    end).

(** ** auth_transactions.sql.go *)

Definition closed (state : string) : bool := String.eqb state "authenticated" || String.eqb state "expired".
Definition open_transaction (now : Z) (x : AuthTransaction) : bool :=
  (now <? x_ExpiresAt x) && negb (closed (x_State x)).
Definition with_state (now : Z) (state : string) (x : AuthTransaction) : AuthTransaction :=
  mkAuthTransaction (x_ID x) (x_Identifier x) (x_UserID x) state (x_SelectedMethod x)
    (x_ExpiresAt x) (x_CreatedAt x) now.
Definition transaction_states : list string :=
  ["started"; "otp_sent"; "otp_verified"; "password_required"; "authenticated"; "expired"].

Definition CreateAuthTransaction (newID now : Z) (identifier : string) (userID : option Z) (expiresAt : Z)
  : ST IdDB AuthTransaction :=
  query (λ d,
    let x := mkAuthTransaction newID identifier userID "started" None expiresAt now now in
    if match userID with Some u => bool_decide (users d !! u = None) | None => false end then
      (Err (constraint_violation "user_id_fkey"), d)
    else if expiresAt <=? now then (Err (constraint_violation "chk_auth_transactions_expiry"), d)
    else if bool_decide (is_Some (transactions d !! newID)) then (Err (constraint_violation "pkey"), d)
    else (Ok x, set_transactions (<[newID := x]> (transactions d)) d)).

Definition GetAuthTransactionByID (now id : Z) : ST IdDB AuthTransaction :=
  query (λ d, (one (transactions d !! id ≫= λ x, if open_transaction now x then Some x else None), d)).
Definition GetAuthTransactionByIDAnyState (id : Z) : ST IdDB AuthTransaction :=
  query (λ d, (one (transactions d !! id), d)).
Definition ExpireAuthTransaction (now id : Z) : ST IdDB unit :=
  query (λ d, (Ok tt, (update_returning (transactions d) set_transactions id
    (λ x, negb (closed (x_State x))) (with_state now "expired") d).2)).
Definition MarkAuthTransactionAuthenticated (now id : Z) : ST IdDB AuthTransaction :=
  query (λ d, update_returning (transactions d) set_transactions id
    (λ x, (now <? x_ExpiresAt x) && negb (String.eqb (x_State x) "expired"))
    (with_state now "authenticated") d).
Definition SetAuthTransactionMethod (now id : Z) (method : option string) : ST IdDB AuthTransaction :=
  query (λ d,
    if match method with Some m => negb (existsb (String.eqb m) ["otp"; "password"]) | None => false end
    then (Err (constraint_violation "chk_auth_transactions_method"), d)
    else update_returning (transactions d) set_transactions id (open_transaction now)
      (λ x, mkAuthTransaction (x_ID x) (x_Identifier x) (x_UserID x) (x_State x) method
              (x_ExpiresAt x) (x_CreatedAt x) now) d).
Definition SetAuthTransactionState (now id : Z) (state : string) : ST IdDB AuthTransaction :=
  query (λ d,
    if negb (existsb (String.eqb state) transaction_states)
    then (Err (constraint_violation "chk_auth_transactions_state"), d)
    else update_returning (transactions d) set_transactions id (open_transaction now) (with_state now state) d).
Definition SetAuthTransactionUser (now id : Z) (userID : option Z) : ST IdDB AuthTransaction :=
  query (λ d,
    if match userID with Some u => bool_decide (users d !! u = None) | None => false end
    then (Err (constraint_violation "user_id_fkey"), d)
    else update_returning (transactions d) set_transactions id (λ x, now <? x_ExpiresAt x)
      (λ x, mkAuthTransaction (x_ID x) (x_Identifier x) userID (x_State x) (x_SelectedMethod x)
              (x_ExpiresAt x) (x_CreatedAt x) now) d).
Definition DeleteExpiredAuthTransactions (now : Z) : ST IdDB unit :=
  query (λ d, (Ok tt, set_transactions (filter (λ x, now < x_ExpiresAt x.2) (transactions d)) d)).

(** ** auth_challenges.sql.go *)

Definition challenge_purposes : list string :=
  ["email_otp"; "email_verification"; "password_reset"; "magic_link"].
Definition challenge_active (now : Z) (c : AuthChallenge) : bool :=
  is_none (c_ConsumedAt c) && (now <? c_ExpiresAt c) && (c_Attempts c <? c_MaxAttempts c).

(** The column [state] is NOT NULL and a JSON object; [None] is a nil slice. *)
Definition CreateAuthChallenge (newID now : Z) (tx : option Z) (identifier hash purpose : string)
    (state : option string) (maxAttempts expiresAt : Z) : ST IdDB AuthChallenge :=
  query (λ d,
    match state with
    | None => (Err (constraint_violation "state_not_null"), d)
    | Some st =>
        let c := mkAuthChallenge newID tx identifier hash purpose st 0 maxAttempts expiresAt None now in
        if negb (existsb (String.eqb purpose) challenge_purposes) then
          (Err (constraint_violation "chk_auth_challenges_purpose"), d)
        else if (maxAttempts <=? 0) || (expiresAt <=? now) then
          (Err (constraint_violation "chk_auth_challenges"), d)
        else if bool_decide (is_Some (challenges d !! newID)) then (Err (constraint_violation "pkey"), d)
        else (Ok c, set_challenges (<[newID := c]> (challenges d)) d)
    end).

(** [ORDER BY created_at DESC LIMIT 1] *)
Definition challenge_newer (x y : AuthChallenge) : Prop := c_CreatedAt y ≤ c_CreatedAt x.
#[export] Instance challenge_newer_dec x y : Decision (challenge_newer x y).
Proof. unfold challenge_newer. apply _. Defined.
Definition GetActiveAuthChallenge (now : Z) (tx : option Z) (purpose : string) : ST IdDB AuthChallenge :=
  query (λ d, (one (head (merge_sort challenge_newer
    (filter (λ c, c_AuthTransactionID c = tx ∧ tx ≠ None ∧ c_Purpose c = purpose ∧ challenge_active now c = true)
       (map_to_list (challenges d)).*2))), d)).
Definition GetAuthChallengeByID (id : Z) : ST IdDB AuthChallenge :=
  query (λ d, (one (challenges d !! id), d)).
Definition with_attempts (n : Z) (consumed : option Z) (c : AuthChallenge) : AuthChallenge :=
  mkAuthChallenge (c_ID c) (c_AuthTransactionID c) (c_Identifier c) (c_SecretHash c) (c_Purpose c)
    (c_State c) n (c_MaxAttempts c) (c_ExpiresAt c) consumed (c_CreatedAt c).
Definition ConsumeAuthChallenge (now id : Z) : ST IdDB AuthChallenge :=
  query (λ d, update_returning (challenges d) set_challenges id (challenge_active now)
    (λ c, with_attempts (c_Attempts c) (Some now) c) d).
Definition IncrementAuthChallengeAttempts (now id : Z) : ST IdDB AuthChallenge :=
  query (λ d, update_returning (challenges d) set_challenges id (challenge_active now)
    (λ c, with_attempts (c_Attempts c + 1) (c_ConsumedAt c) c) d).
Definition DeleteExpiredAuthChallenges (now : Z) : ST IdDB unit :=
  query (λ d, (Ok tt, set_challenges
    (filter (λ x, now < c_ExpiresAt x.2 ∧ c_ConsumedAt x.2 = None) (challenges d)) d)).
