(* ===== verification/Repositories.v ===== *)
(** * The repositories of the modules

    Each module reaches the queries of database/sqlc through a repository of
    its own, whose methods name the query that they run (identity/session,
    users, pat, teamtoken and auth; the one of platform/sandbox is in
    Sandbox). *)

From S2P Require Import Prelude GoStrings GoNet IdentityDB.
Open Scope Z_scope.

Section Repositories.
Context `{UnicodeCase}.

(** ** identity/session/repository.go *)

Definition sessionRepo_Create (newID now userID : Z) (tokenHash : string) (ip : option Addr) (agent : option string)
    (expiresAt : Z) : ST IdDB Session :=
  CreateSession newID now userID tokenHash ip agent expiresAt.
Definition sessionRepo_GetByTokenHash (now : Z) (tokenHash : string) : ST IdDB Session :=
  GetSessionByTokenHash now tokenHash.
Definition sessionRepo_ListByUserID (now userID : Z) : ST IdDB (list Session) :=
  ListSessionsByUserID now userID.
Definition sessionRepo_Revoke (now id userID : Z) : ST IdDB unit :=
  RevokeSession now id userID.
Definition sessionRepo_RevokeUserSessions (now userID : Z) : ST IdDB unit :=
  RevokeUserSessions now userID.

(** ** identity/users/repository.go *)

Definition usersRepo_GetByID (id : Z) : ST IdDB User :=
  GetUserByID id.
Definition usersRepo_UpdateProfile (now id : Z) (name email : option string) : ST IdDB User :=
  UpdateUserProfile now id name email.
Definition usersRepo_Disable (now id : Z) : ST IdDB unit :=
  DisableUser now id.

(** ** identity/pat/repository.go *)

Definition patRepo_Create (newID now userID : Z) (name hash prefix : string) (scopes : list string) (expiresAt :
    option Z) : ST IdDB Token :=
  CreateToken newID now userID name hash prefix scopes expiresAt.
Definition patRepo_GetByHash (now : Z) (tokenHash : string) : ST IdDB Token :=
  GetTokenByHash now tokenHash.
Definition patRepo_ListByUser (userID : Z) : ST IdDB (list Token) :=
  ListTokensByUser userID.
Definition patRepo_Revoke (id userID : Z) : ST IdDB unit :=
  RevokeToken id userID.
Definition patRepo_Touch (now id : Z) : ST IdDB unit :=
  TouchToken now id.

(** ** identity/teamtoken/repository.go *)

Definition tatRepo_Create (newID now teamID : Z) (name hash prefix : string) (scopes : list string) (expiresAt :
    option Z) (createdBy : Z) : ST IdDB Token :=
  CreateTeamToken newID now teamID name hash prefix scopes expiresAt createdBy.
Definition tatRepo_List (teamID userID : Z) : ST IdDB (list Token) :=
  ListTeamTokens teamID userID.
Definition tatRepo_Revoke (teamID userID tokenID : Z) : ST IdDB Z :=
  RevokeTeamToken tokenID teamID userID.

(** ** identity/auth/repository.go *)

Definition authRepo_GetUserByEmail (email : string) : ST IdDB User :=
  GetUserByEmail email.
Definition authRepo_GetUserByID (id : Z) : ST IdDB User :=
  GetUserByID id.
Definition authRepo_CreateUser (newID now : Z) (name : option string) (email : string) (hash : option string) : ST IdDB User :=
  CreateUser newID now name email hash.
Definition authRepo_SetUserPassword (now id : Z) (hash : option string) : ST IdDB User :=
  SetUserPassword now id hash.
Definition authRepo_MarkUserEmailVerified (now id : Z) : ST IdDB User :=
  MarkUserEmailVerified now id.
Definition authRepo_CreateAuthTransaction (newID now : Z) (identifier : string) (userID : option Z) (expiresAt : Z) :
    ST IdDB AuthTransaction :=
  CreateAuthTransaction newID now identifier userID expiresAt.
Definition authRepo_GetAuthTransactionByID (now id : Z) : ST IdDB AuthTransaction :=
  GetAuthTransactionByID now id.
Definition authRepo_SetAuthTransactionMethod (now id : Z) (method : option string) : ST IdDB AuthTransaction :=
  SetAuthTransactionMethod now id method.
Definition authRepo_SetAuthTransactionState (now id : Z) (state : string) : ST IdDB AuthTransaction :=
  SetAuthTransactionState now id state.
Definition authRepo_SetAuthTransactionUser (now id : Z) (userID : option Z) : ST IdDB AuthTransaction :=
  SetAuthTransactionUser now id userID.
Definition authRepo_MarkAuthTransactionAuthenticated (now id : Z) : ST IdDB AuthTransaction :=
  MarkAuthTransactionAuthenticated now id.
Definition authRepo_ExpireAuthTransaction (now id : Z) : ST IdDB unit :=
  ExpireAuthTransaction now id.
Definition authRepo_CreateAuthChallenge (newID now : Z) (tx : option Z) (identifier hash purpose : string) (state :
    option string) (maxAttempts expiresAt : Z) : ST IdDB AuthChallenge :=
  CreateAuthChallenge newID now tx identifier hash purpose state maxAttempts expiresAt.
Definition authRepo_GetActiveAuthChallenge (now : Z) (tx : option Z) (purpose : string) : ST IdDB AuthChallenge :=
  GetActiveAuthChallenge now tx purpose.
Definition authRepo_IncrementAuthChallengeAttempts (now id : Z) : ST IdDB AuthChallenge :=
  IncrementAuthChallengeAttempts now id.
Definition authRepo_ConsumeAuthChallenge (now id : Z) : ST IdDB AuthChallenge :=
  ConsumeAuthChallenge now id.
End Repositories.
