(* ===== verification/Walk.v ===== *)
(** * Relations between two states of the identity tables

    [TableRel] is what a relation between the tables before and after needs to
    be carried through a service, call by call, by the tactic [walk]; a
    component adds its statements to the hint database [walk]. *)

From S2P Require Import Prelude GoStrings GoNet AppErrors IdentityDB.

Definition set_faults (fs : list (option error)) (d : IdDB) : IdDB :=
  mkIdDB (users d) (sessions d) (pats d) (team_tokens d) (team_members d) (transactions d) (challenges d) fs.

(** A relation between the tables before and after: it composes, and does
    not depend on what the connection loses. *)
Class TableRel (R : IdDB → IdDB → Prop) : Prop := {
  table_rel_preorder :: PreOrder R;
  table_rel_faults d fs : R d (set_faults fs d);
}.

Create HintDb walk.

Section Rel.
Context (R : IdDB → IdDB → Prop) `{!TableRel R}.

Lemma query_rel {A} (f : IdDB → result A * IdDB) d : (∀ e, R e (f e).2) → R d (query f d).2.
Proof.
  intros Hf. unfold query. destruct (id_faults d) as [|[e|] fs]; [apply Hf|apply (table_rel_faults d)|].
  etrans; [apply (table_rel_faults d fs)|apply Hf].
Qed.
Lemma read_rel {A} (f : IdDB → result A) d : R d (query (λ d, (f d, d)) d).2.
Proof. apply query_rel. intros e. reflexivity. Qed.
(** An update either leaves the table or replaces one row that satisfies
    the condition. *)
Lemma update_rel {V} (t : IdDB → gmap Z V) (put : gmap Z V → IdDB → IdDB) id P (f : V → V) d :
  (∀ v, t d !! id = Some v → P v = true → R d (put (<[id := f v]> (t d)) d)) →
  R d (update_returning (t d) put id P f d).2.
Proof.
  intros Hv. unfold update_returning. destruct (t d !! id) as [v|]; [|reflexivity].
  destruct (P v) eqn:HP; [by apply Hv|reflexivity].
Qed.
End Rel.

(** The rows with [P] are the same in both tables: none was changed or
    removed, and no row became or was added as one. *)
Definition same_rows {V} (P : V → Prop) (t t' : gmap Z V) : Prop :=
  ∀ k v, P v → t' !! k = Some v ↔ t !! k = Some v.
Section SameRows.
Context {V : Type} (P : V → Prop).

#[export] Instance same_rows_preorder : PreOrder (same_rows P).
Proof. split; [done|]. intros t1 t2 t3 H1 H2 k v Hv. by rewrite (H2 k v Hv), (H1 k v Hv). Qed.
Lemma same_rows_insert t k v : (∀ w, t !! k = Some w → ¬ P w) → ¬ P v → same_rows P t (<[k := v]> t).
Proof.
  intros Hold Hnew k' w Hw. destruct (decide (k' = k)) as [->|Hne]; [|by rewrite lookup_insert_ne].
  rewrite lookup_insert_eq. split; [by intros [= <-]|]. intros Hk. by destruct (Hold w Hk).
Qed.
Lemma same_rows_delete t k : (∀ w, t !! k = Some w → ¬ P w) → same_rows P t (delete k t).
Proof.
  intros Hold k' w Hw. destruct (decide (k' = k)) as [->|Hne]; [|by rewrite lookup_delete_ne].
  rewrite lookup_delete_eq. split; [done|]. intros Hk. by destruct (Hold w Hk).
Qed.
Lemma same_rows_fmap t (f : V → V) :
  (∀ v, P v → f v = v) → (∀ v, ¬ P v → ¬ P (f v)) → (∀ v, P v ∨ ¬ P v) → same_rows P t (f <$> t).
Proof.
  intros Hid Hnot Hdec k v Hv. rewrite lookup_fmap_Some. split.
  - intros (w & <- & Hw). destruct (Hdec w) as [Hp|Hp]; [by rewrite Hid|by destruct (Hnot w Hp)].
  - intros Hk. exists v. by rewrite Hid.
Qed.
End SameRows.

(** Step through a service: each call it makes is related by a hint. *)
Ltac walk_step :=
  lazymatch goal with
  | |- ?R ?d ?t =>
      lazymatch t with
      | context [match ?x with _ => _ end] =>
          lazymatch type of x with
          | (_ * IdDB)%type =>
              let H := fresh in
              assert (H : R d x.2) by (solve [eauto 3 with walk]);
              destruct x as [? ?]; cbn [fst snd] in H |- *; etrans; [exact H|clear H]
          | _ => destruct x
          end
      end
  end; cbn [fst snd].
Ltac walk := cbn [fst snd]; repeat first [reflexivity | solve [eauto 3 with walk] | walk_step].

(** The statements that only read. *)
Ltac walk_read :=
  lazymatch goal with
  | |- ?R ?d (snd ?c) =>
      lazymatch c with
      | GetUserByEmail _ _ => idtac | GetUserByID _ _ => idtac | GetSessionByTokenHash _ _ _ => idtac
      | ListSessionsByUserID _ _ _ => idtac | GetTokenByHash _ _ _ => idtac | ListTokensByUser _ _ => idtac
      | ListTeamTokens _ _ _ => idtac | GetAuthTransactionByID _ _ _ => idtac
      | GetActiveAuthChallenge _ _ _ _ => idtac
      end; apply (read_rel R)
  end.
#[export] Hint Extern 2 => walk_read : walk.
