(* ===== verification/Identity.v ===== *)
(** * authn, authz, identity/session, identity/users, identity/pat,
      identity/teamtoken and runtime/middleware/auth.go

    Who is calling: sessions and access tokens are looked up by the SHA-256
    of the secret; the middleware turns them into a principal.  Random bytes
    are an argument, the outcome of [rand.Read]. *)

From stdpp Require Import sorting.
From S2P Require Import Prelude GoStrings GoCrypto GoNet AppErrors IdentityDB Repositories.
Open Scope Z_scope.

(** ** authn *)

Definition CredentialSession : string := "session".
Definition CredentialPAT : string := "pat".
Definition SubjectUser : string := "user".
Definition ErrInvalidCredential : error := Sentinel "invalid credential".

(** [Assurance] is always [AssuranceUnknown] and is left out. *)
Record Principal := mkPrincipal {
  pr_SubjectID : Z; pr_SubjectType : string; pr_CredentialID : Z; pr_CredentialType : string;
}.
Record CredentialInput := mkCredentialInput { in_Type : string; in_Value : string }.

Definition CredentialInput_Validate (c : CredentialInput) : result unit :=
  if bool_decide (in_Type c = "") || bool_decide (in_Value c = "") then Err ErrInvalidCredential
  else if String.eqb (in_Type c) CredentialSession || String.eqb (in_Type c) CredentialPAT then Ok tt
  else Err ErrInvalidCredential.

(** The principal that the context carries. *)
Definition UserIDFromContext (ctx : option Principal) : option Z :=
  match ctx with
  | Some p => if negb (String.eqb (pr_SubjectType p) SubjectUser) || (pr_SubjectID p =? 0) then None
              else Some (pr_SubjectID p)
  | None => None
  end.

(** ** authz *)

Definition permissions : list string :=
  ["sandbox:read"; "sandbox:write"; "user:read"; "user:write"; "token:read"; "token:write"].
Definition Permission_Valid (p : string) : bool := existsb (String.eqb p) permissions.
Definition DefaultPolicy_Allows (principal : Principal) (permission : string) : bool :=
  if negb (Permission_Valid permission) || negb (String.eqb (pr_SubjectType principal) SubjectUser)
  then false
  else negb (String.eqb (pr_CredentialType principal) CredentialPAT).

(** [New] falls back to the default policy; an authorizer that is nil, or has
    no policy, allows nothing. *)
Definition Policy : Type := Principal → string → bool.
Record Authorizer := mkAuthorizer { az_policy : option Policy }.
Definition authz_New (policy : option Policy) : Authorizer :=
  mkAuthorizer (Some (match policy with None => DefaultPolicy_Allows | Some p => p end)).
Definition Authorizer_Allows (a : option Authorizer) (principal : Principal) (permission : string) : bool :=
  match a with
  | Some (mkAuthorizer (Some policy)) => policy principal permission
  | _ => false
  end.

(** The comment of [DefaultPolicy] restricts personal access tokens to their
    scopes; the policy denies them everything, whatever the scopes are. *)
Theorem default_policy_denies_every_pat principal permission :
  pr_CredentialType principal = CredentialPAT → DefaultPolicy_Allows principal permission = false.
Proof. intros E. unfold DefaultPolicy_Allows. rewrite E. by destruct (_ || _). Qed.

(** ** identity/session *)

Definition sessionTTL : Z := 30 * 24 * Hour.
Definition ErrInvalidSession : error := Sentinel "invalid session".
Definition hashToken (token : string) : string := sha256_hex token.
#[local] Opaque hashToken.

Definition parseIP (value : option string) : option Addr :=
  match value with
  | None => None
  | Some v => if bool_decide (v = "") then None else ParseAddr v
  end.

Definition generate_token (prefix : string) (random : result (list Z)) : result string :=
  match random with
  | Err e => Err e
  | Ok b => Ok (prefix +:+ hex_encode b)
  end.

Definition session_Create (newID now : Z) (random : result (list Z)) (userID : Z)
    (ip agent : option string) : ST IdDB (string * Session) := λ d,
  if userID =? 0 then (Err (Errorf "user id is required" []), d)
  else match generate_token "" random with
       | Err e => (Err e, d)
       | Ok token =>
           match sessionRepo_Create newID now userID (hashToken token) (parseIP ip) agent (now + sessionTTL) d with
           | (Err e, d) => (Err e, d)
           | (Ok s, d) => (Ok (token, s), d)
           end
       end.

Definition session_Get (now : Z) (token : string) : ST IdDB Session := λ d,
  if bool_decide (token = "") then (Err ErrInvalidSession, d)
  else match sessionRepo_GetByTokenHash now (hashToken token) d with
       | (Err _, d) => (Err ErrInvalidSession, d)
       | (Ok s, d) => if s_ExpiresAt s <? now then (Err ErrInvalidSession, d) else (Ok s, d)
       end.

Definition session_List (now userID : Z) : ST IdDB (list Session) := λ d,
  if userID =? 0 then (Err (Errorf "user id is required" []), d) else sessionRepo_ListByUserID now userID d.
Definition session_Revoke (now sessionID userID : Z) : ST IdDB unit := λ d,
  if sessionID =? 0 then (Err (Errorf "session id is required" []), d)
  else if userID =? 0 then (Err (Errorf "user id is required" []), d)
  else sessionRepo_Revoke now sessionID userID d.
Definition session_RevokeAll (now userID : Z) : ST IdDB unit := λ d,
  if userID =? 0 then (Err (Errorf "user id is required" []), d) else sessionRepo_RevokeUserSessions now userID d.

(** The [UNIQUE] constraint on [token_hash]. *)
Definition sessions_unique (d : IdDB) : Prop :=
  ∀ k k' s s', sessions d !! k = Some s → sessions d !! k' = Some s' →
    s_TokenHash s = s_TokenHash s' → k = k'.

Lemma create_session_inv newID now userID hash ip agent expires d s d' :
  CreateSession newID now userID hash ip agent expires d = (Ok s, d') → id_faults d = [] →
  d' = set_sessions (<[newID := s]> (sessions d)) d ∧ sessions d !! newID = None ∧
  user_active d userID = true ∧ s = mkSession newID userID hash ip agent expires (Some now) None now ∧
  now < expires ∧ (∀ k x, sessions d !! k = Some x → s_TokenHash x ≠ hash).
Proof.
  intros E Hf. revert E. unfold CreateSession. rewrite query_ok by done.
  destruct (user_active d userID); [|done]. cbn [negb].
  destruct (existsb _ _) eqn:Hex; [done|]. destruct (Z.leb_spec expires now); [done|].
  case_bool_decide as Hn; [done|]. intros [= <- <-].
  rewrite <- eq_None_not_Some in Hn. split_and!; try done.
  intros k x Hk Hx. apply not_true_iff_false in Hex. apply Hex, existsb_elem. exists (k, x).
  split; [by apply elem_of_map_to_list|]. cbn. by apply String.eqb_eq.
Qed.

(** A session that was just created is found by its token, and only by it,
    until it expires after 30 days, as long as the user is active. *)
Theorem session_token_roundtrip newID now random userID ip agent d token s d' now2 :
  id_faults d = [] → sessions_unique d →
  session_Create newID now random userID ip agent d = (Ok (token, s), d') →
  sessions_unique d' ∧ s_UserID s = userID ∧ s_ExpiresAt s = now + sessionTTL ∧
  (token ≠ "" → now2 < now + sessionTTL → session_Get now2 token d' = (Ok s, d')) ∧
  (now + sessionTTL ≤ now2 → is_ok (session_Get now2 token d').1 = false).
Proof.
  intros Hf Hu. unfold session_Create, sessionRepo_Create. destruct (userID =? 0); [done|].
  destruct (generate_token "" random) as [tok|]; [|done].
  destruct (CreateSession _ _ _ _ _ _ _ d) as [[s1|e] d1] eqn:E; [|done]. intros [= -> -> ->].
  destruct (create_session_inv _ _ _ _ _ _ _ _ _ _ E Hf) as (-> & Hnew & Hact & -> & Hexp & Hfresh).
  set (s := mkSession _ _ _ _ _ _ _ _ _). set (d1 := set_sessions _ d).
  assert (sessions_unique d1) as Hu1.
  { intros k k' x x'. cbn. rewrite !lookup_insert_Some.
    intros [[<- <-]|[Hk Hx]] [[<- <-]|[Hk' Hx']] Heq; try done.
    - exfalso. by eapply Hfresh.
    - exfalso. by eapply Hfresh.
    - by eapply Hu. }
  split_and!; [done|done|done| |].
  - intros Htok Ht. unfold session_Get, sessionRepo_GetByTokenHash, GetSessionByTokenHash. rewrite bool_decide_eq_false_2 by done.
    rewrite query_ok by done.
    rewrite (find_row_unique _ _ newID s).
    + cbn. destruct (Z.ltb_spec (now + sessionTTL) now2); [lia|done].
    + cbn. by rewrite lookup_insert_eq.
    + cbn. rewrite String.eqb_refl. unfold session_live. cbn.
      change (user_active d1 userID) with (user_active d userID). rewrite Hact.
      by rewrite (proj2 (Z.ltb_lt _ _) Ht).
    + intros k x Hk Hx. apply andb_true_iff in Hx as [Hx%String.eqb_eq _].
      apply (Hu1 k newID x s); [done| |done]. cbn. by rewrite lookup_insert_eq.
  - intros Ht. unfold session_Get, sessionRepo_GetByTokenHash, GetSessionByTokenHash.
    destruct (bool_decide (token = "")); [done|]. rewrite query_ok by done.
    destruct (find_row _ (sessions d1)) as [x|] eqn:Hx; [|done]. cbn.
    apply find_row_Some in Hx as (k & Hk & Hp). apply andb_true_iff in Hp as [Hh%String.eqb_eq Hl].
    assert (k = newID) as ->.
    { apply (Hu1 k newID x s); [done| |done]. cbn. by rewrite lookup_insert_eq. }
    assert (x = s) as -> by (cbn in Hk; rewrite lookup_insert_eq in Hk; congruence).
    unfold session_live in Hl. cbn in Hl.
    apply andb_true_iff in Hl as [[Hl _]%andb_true_iff _]. apply Z.ltb_lt in Hl. lia.
Qed.

(** A token is refused when every session with its hash is dead. *)
Lemma session_get_dead now token d :
  id_faults d = [] →
  (∀ k s, sessions d !! k = Some s → s_TokenHash s = hashToken token → session_live now d s = false) →
  (session_Get now token d).1 = Err ErrInvalidSession.
Proof.
  intros Hf Hd. unfold session_Get, sessionRepo_GetByTokenHash, GetSessionByTokenHash. destruct (bool_decide _); [done|].
  rewrite query_ok by done. destruct (find_row _ _) as [x|] eqn:Hx; [|done].
  apply find_row_Some in Hx as (k & Hk & Hp). apply andb_true_iff in Hp as [Hh%String.eqb_eq Hl].
  by rewrite (Hd k x Hk Hh) in Hl.
Qed.

(** C37: Revoking the session, revoking all sessions of its user, or disabling
    the user ends the session: its token is refused from then on. *)
Theorem ended_session_is_refused now now2 token k s d :
  id_faults d = [] → sessions_unique d → sessions d !! k = Some s →
  s_TokenHash s = hashToken token → s_UserID s ≠ 0 → k ≠ 0 →
  (session_Get now2 token (session_Revoke now k (s_UserID s) d).2).1 = Err ErrInvalidSession ∧
  (session_Get now2 token (session_RevokeAll now (s_UserID s) d).2).1 = Err ErrInvalidSession ∧
  (session_Get now2 token (DisableUser now (s_UserID s) d).2).1 = Err ErrInvalidSession.
Proof.
  intros Hf Hu Hk Hh Hu0 Hk0.
  unfold session_Revoke, sessionRepo_Revoke, session_RevokeAll, sessionRepo_RevokeUserSessions, RevokeSession,
      RevokeUserSessions, DisableUser.
  rewrite (proj2 (Z.eqb_neq _ _) Hk0), (proj2 (Z.eqb_neq _ _) Hu0), !query_ok by done. cbn [snd].
  unfold update_returning. rewrite Hk, Z.eqb_refl. cbn [andb]. split_and!.
  - destruct (is_none (s_RevokedAt s)) eqn:Hrev; cbn [snd]; apply session_get_dead; try done;
      intros k' x Hx Hxh; unfold session_live.
    + cbn in Hx. apply lookup_insert_Some in Hx as [[<- <-]|[Hne Hx]]; [cbn; by rewrite andb_false_r|].
      exfalso. apply Hne. symmetry. apply (Hu k' k x s); [done..|congruence].
    + assert (k' = k) as -> by (apply (Hu k' k x s); [done..|congruence]).
      assert (x = s) as -> by congruence. rewrite Hrev. by rewrite andb_false_r.
  - apply session_get_dead; [done|]. intros k' x Hx Hxh. cbn in Hx. rewrite lookup_fmap in Hx.
    destruct (sessions d !! k') as [y|] eqn:Hy; [|done]. cbn in Hx. injection Hx as <-.
    assert (k' = k) as ->.
    { apply (Hu k' k y s); [done..|]. rewrite Hh, <- Hxh. by destruct (_ && _). }
    assert (y = s) as -> by congruence. rewrite Z.eqb_refl. unfold session_live. cbn.
    destruct (is_none (s_RevokedAt s)) eqn:Hrev; cbn; [by rewrite andb_false_r|].
    by rewrite Hrev, andb_false_r.
  - destruct (users d !! s_UserID s) as [u|] eqn:Hus.
    2: { cbn [snd]. apply session_get_dead; [done|]. intros k' x Hx Hxh.
         assert (k' = k) as -> by (apply (Hu k' k x s); [done..|congruence]).
         assert (x = s) as -> by congruence. unfold session_live, user_active.
         by rewrite Hus, andb_false_r. }
    destruct (is_none (u_DisabledAt u)) eqn:Hdis; cbn [snd]; apply session_get_dead; try done;
      intros k' x Hx Hxh; (assert (k' = k) as -> by (apply (Hu k' k x s); [done..|congruence]));
      (assert (x = s) as -> by (cbn in Hx; congruence)); unfold session_live, user_active; cbn.
    + rewrite lookup_insert_eq. cbn. by rewrite andb_false_r.
    + by rewrite Hus, Hdis, andb_false_r.
Qed.

(** ** identity/users *)

Definition normalizeOptional (value : option string) : option string :=
  match value with
  | None => None
  | Some v => let v := TrimSpace v in if bool_decide (v = "") then None else Some v
  end.
Definition ValidateUpdateMe (name : option string) : result unit :=
  match name with
  | None => Ok tt
  | Some n =>
      let n := TrimSpace n in
      if bool_decide (n = "") then Err (NewBadRequest "name cannot be empty")
      else if 100 <? RuneCountInString n then Err (NewBadRequest "name must be 100 characters or fewer")
      else Ok tt
  end.
Definition GetMe (userID : Z) : ST IdDB User := usersRepo_GetByID userID.
Definition UpdateMe `{UnicodeCase} (now userID : Z) (name : option string) : ST IdDB User := λ d,
  match ValidateUpdateMe name with
  | Err e => (Err e, d)
  | Ok _ =>
      match normalizeOptional name with
      | None => usersRepo_GetByID userID d
      | Some n => usersRepo_UpdateProfile now userID (Some n) None d
      end
  end.
Definition DeleteMe (now userID : Z) : ST IdDB unit := λ d,
  if userID =? 0 then (Err (NewUnauthorized "authentication required"), d) else usersRepo_Disable now userID d.

(** ** identity/pat and identity/teamtoken *)

Record TokenRequest := mkTokenRequest { tr_Name : string; tr_Scopes : list string; tr_ExpiresAt : option Z }.
Definition defaultScopes : list string := ["sandbox:read"; "sandbox:write"].

Definition ValidateCreateRequest (now : Z) (req : TokenRequest) : result unit :=
  let name := TrimSpace (tr_Name req) in
  if bool_decide (name = "") then Err (NewBadRequest "name is required")
  else if 100 <? RuneCountInString name then Err (NewBadRequest "name must be 100 characters or fewer")
  else if 32 <? Z.of_nat (length (tr_Scopes req)) then Err (NewBadRequest "too many scopes")
  else if existsb (λ s, bool_decide (TrimSpace s = "") || (100 <? RuneCountInString (TrimSpace s)))
            (tr_Scopes req) then Err (NewBadRequest "invalid scope")
  else match tr_ExpiresAt req with
       | Some t => if t <=? now then Err (NewBadRequest "expires_at must be in the future") else Ok tt
       | None => Ok tt
       end.

Definition tokenPrefixValue (token : string) : string :=
  if len token <=? 12 then token else take_str 12 token.
Definition normalizeScopes (scopes : list string) : list string :=
  match scopes with [] => defaultScopes | _ => TrimSpace <$> scopes end.
(** [pgconv.NullableTimestamptz] *)
Definition NullableTimestamptz (t : option Z) : option Z :=
  match t with Some x => if IsZero x then None else Some x | None => None end.

(** What a response shows of a token: the hash is not part of it. *)
Record TokenResponse := mkTokenResponse {
  tp_ID : Z; tp_Name : string; tp_Prefix : string; tp_Scopes : list string;
  tp_ExpiresAt : option Z; tp_LastUsedAt : option Z; tp_CreatedAt : Z;
  tp_CreatedBy : option Z;                  (** of team tokens only *)
}.
Definition responseFromRow (t : Token) : TokenResponse :=
  mkTokenResponse (t_ID t) (t_Name t) (t_TokenPrefix t) (t_Scopes t) (t_ExpiresAt t) (t_LastUsedAt t)
    (t_CreatedAt t) None.
Definition responseFromToken (t : Token) : TokenResponse :=
  mkTokenResponse (t_ID t) (t_Name t) (t_TokenPrefix t) (t_Scopes t) (t_ExpiresAt t) (t_LastUsedAt t)
    (t_CreatedAt t) (Some (t_CreatedBy t)).

Definition pat_prefix : string := "shiyao_pat_".
Definition tat_prefix : string := "shiyao_tat_".
Definition pat_generateToken (random : result (list Z)) : result string := generate_token pat_prefix random.
Definition tat_generateToken (random : result (list Z)) : result string := generate_token tat_prefix random.
(** The queries that list tokens leave the hash out; teamtoken has copies of
    the helpers of pat, line by line the same. *)
Definition pat_responseFromListRow (row : Token) : TokenResponse := responseFromRow row.
Definition tat_responseFromListRow (row : Token) : TokenResponse := responseFromToken row.
Definition tat_ValidateCreateRequest (now : Z) (req : TokenRequest) : result unit := ValidateCreateRequest now req.
Definition tat_tokenPrefixValue (token : string) : string := tokenPrefixValue token.
Definition tat_normalizeScopes (scopes : list string) : list string := normalizeScopes scopes.
Definition ErrTokenNotFound : error := Sentinel "personal access token not found".
Definition ErrInvalidTeam : error := Sentinel "invalid team".
Definition ErrTeamTokenNotFound : error := Sentinel "team access token not found".

Definition pat_Create (newID now : Z) (random : result (list Z)) (userID : Z) (req : TokenRequest)
  : ST IdDB (TokenResponse * string) := λ d,
  if userID =? 0 then (Err ErrTokenNotFound, d)
  else match ValidateCreateRequest now req with
       | Err e => (Err e, d)
       | Ok _ =>
           match pat_generateToken random with
           | Err e => (Err e, d)
           | Ok token =>
               match patRepo_Create newID now userID (TrimSpace (tr_Name req)) (hashToken token)
                       (tokenPrefixValue token) (normalizeScopes (tr_Scopes req))
                       (NullableTimestamptz (tr_ExpiresAt req)) d with
               | (Err e, d) => (Err e, d)
               | (Ok t, d) => (Ok (responseFromRow t, token), d)
               end
           end
       end.
Definition pat_List (userID : Z) : ST IdDB (list TokenResponse) := λ d,
  if userID =? 0 then (Err ErrTokenNotFound, d)
  else match patRepo_ListByUser userID d with
       | (Err e, d) => (Err e, d)
       | (Ok rows, d) => (Ok (pat_responseFromListRow <$> rows), d)
       end.
Definition pat_Revoke (userID tokenID : Z) : ST IdDB unit := λ d,
  if (userID =? 0) || (tokenID =? 0) then (Err ErrTokenNotFound, d) else patRepo_Revoke tokenID userID d.

Definition pat_Resolve (now : Z) (input : CredentialInput) : ST IdDB Principal := λ d,
  if negb (String.eqb (in_Type input) CredentialPAT) || bool_decide (TrimSpace (in_Value input) = "") then
    (Err ErrInvalidCredential, d)
  else match patRepo_GetByHash now (hashToken (in_Value input)) d with
       | (Err _, d) => (Err ErrInvalidCredential, d)
       | (Ok row, d) =>
           match patRepo_Touch now (t_ID row) d with
           | (Err e, d) => (Err e, d)
           | (Ok _, d) => (Ok (mkPrincipal (t_Owner row) SubjectUser (t_ID row) CredentialPAT), d)
           end
       end.

Definition tat_Create (newID now : Z) (random : result (list Z)) (teamID userID : Z) (req : TokenRequest)
  : ST IdDB (TokenResponse * string) := λ d,
  if (teamID =? 0) || (userID =? 0) then (Err ErrInvalidTeam, d)
  else match tat_ValidateCreateRequest now req with
       | Err e => (Err e, d)
       | Ok _ =>
           match tat_generateToken random with
           | Err e => (Err e, d)
           | Ok token =>
               match tatRepo_Create newID now teamID (TrimSpace (tr_Name req)) (hashToken token)
                       (tat_tokenPrefixValue token) (tat_normalizeScopes (tr_Scopes req))
                       (NullableTimestamptz (tr_ExpiresAt req)) userID d with
               | (Err e, d) => (Err e, d)
               | (Ok t, d) => (Ok (responseFromToken t, token), d)
               end
           end
       end.
Definition tat_List (teamID userID : Z) : ST IdDB (list TokenResponse) := λ d,
  if (teamID =? 0) || (userID =? 0) then (Err ErrInvalidTeam, d)
  else match tatRepo_List teamID userID d with
       | (Err e, d) => (Err e, d)
       | (Ok rows, d) => (Ok (tat_responseFromListRow <$> rows), d)
       end.
Definition tat_Revoke (teamID userID tokenID : Z) : ST IdDB unit := λ d,
  if (teamID =? 0) || (userID =? 0) || (tokenID =? 0) then (Err ErrTeamTokenNotFound, d)
  else match tatRepo_Revoke teamID userID tokenID d with
       | (Err e, d) => (Err e, d)
       | (Ok deleted, d) => if deleted =? 0 then (Err ErrTeamTokenNotFound, d) else (Ok tt, d)
       end.

(** ** runtime/middleware/auth.go *)

(** What the middleware reads of a request. *)
Record Request := mkRequest { req_Authorization : string; req_cookie : option string }.

Definition resolveBearer (pat : bool) (now : Z) (c : Request) : IdDB → option Principal * IdDB := λ d,
  if negb pat then (None, d)
  else
    let header := TrimSpace (req_Authorization c) in
    if bool_decide (header = "") then (None, d)
    else match Fields header with
         | [scheme; value] =>
             if negb (EqualFold_ascii scheme "Bearer") then (None, d)
             else match pat_Resolve now (mkCredentialInput CredentialPAT value) d with
                  | (Err _, d) => (None, d)
                  | (Ok p, d) => (Some p, d)
                  end
         | _ => (None, d)
         end.

Definition resolveSession (sess : bool) (now : Z) (c : Request) : IdDB → option Principal * IdDB := λ d,
  if negb sess then (None, d)
  else match req_cookie c with
       | None => (None, d)
       | Some v =>
           if bool_decide (TrimSpace v = "") then (None, d)
           else match session_Get now v d with
                | (Err _, d) => (None, d)
                | (Ok s, d) => (Some (mkPrincipal (s_UserID s) SubjectUser (s_ID s) CredentialSession), d)
                end
       end.

Definition userEnabled (p : Principal) (d : IdDB) : bool * IdDB :=
  if negb (String.eqb (pr_SubjectType p) SubjectUser) || (pr_SubjectID p =? 0) then (false, d)
  else let '(r, d) := GetMe (pr_SubjectID p) d in (is_ok r, d).

(** The handler: the principal that is put in the context, or [None] for a
    401 that ends the request. *)
Definition auth_Handler (pat sess : bool) (now : Z) (c : Request) (d : IdDB) : option Principal * IdDB :=
  let '(p, d) := resolveBearer pat now c d in
  let '(p, d) := match p with Some _ => (p, d) | None => resolveSession sess now c d end in
  match p with
  | None => (None, d)
  | Some p => let '(ok, d) := userEnabled p d in (if ok then Some p else None, d)
  end.

(** ** What a credential proves *)

Lemma resolve_inv now input d p d' :
  id_faults d = [] → pat_Resolve now input d = (Ok p, d') →
  users d' = users d ∧ id_faults d' = [] ∧
  ∃ k t, pats d !! k = Some t ∧ t_TokenHash t = hashToken (in_Value input) ∧ token_unexpired now t = true ∧
    p = mkPrincipal (t_Owner t) SubjectUser (t_ID t) CredentialPAT.
Proof.
  intros Hf. unfold pat_Resolve, patRepo_GetByHash, patRepo_Touch. destruct (_ || _); [done|]. unfold GetTokenByHash.
      rewrite query_ok by done.
  destruct (find_row _ (pats d)) as [t|] eqn:Hx; [|done]. cbn [one].
  apply find_row_Some in Hx as (k & Hk & Hp). apply andb_true_iff in Hp as [Hh%String.eqb_eq Hun].
  unfold TouchToken. rewrite query_ok by done. intros [= <- <-].
  assert (∀ P f, users (update_returning (pats d) set_pats (t_ID t) P f d).2 = users d ∧
                 id_faults (update_returning (pats d) set_pats (t_ID t) P f d).2 = id_faults d) as Hup.
  { intros P f. unfold update_returning. destruct (pats d !! t_ID t) as [v|]; [|done].
    by destruct (P v). }
  destruct (Hup (λ t, match t_LastUsedAt t with None => true | Some x => x <? now - Minute end)
              (touch_token now)) as [-> ->].
  split_and!; [done|done|]. by exists k, t.
Qed.

Lemma resolve_err now input d e d' :
  id_faults d = [] → pat_Resolve now input d = (Err e, d') → d' = d.
Proof.
  intros Hf. unfold pat_Resolve, patRepo_GetByHash, patRepo_Touch. destruct (_ || _); [by intros [= _ <-]|]. unfold GetTokenByHash.
  rewrite query_ok by done. destruct (find_row _ (pats d)) as [t|]; [|by intros [= _ <-]]. cbn [one].
  unfold TouchToken. by rewrite query_ok by done.
Qed.

Lemma session_get_inv now token d s d' :
  id_faults d = [] → session_Get now token d = (Ok s, d') →
  d' = d ∧ ∃ k, sessions d !! k = Some s ∧ s_TokenHash s = hashToken token ∧ session_live now d s = true.
Proof.
  intros Hf. unfold session_Get, sessionRepo_GetByTokenHash, GetSessionByTokenHash. destruct (bool_decide _); [done|].
  rewrite query_ok by done. destruct (find_row _ _) as [x|] eqn:Hx; [|done]. cbn [one].
  apply find_row_Some in Hx as (k & Hk & Hp). apply andb_true_iff in Hp as [Hh%String.eqb_eq Hl].
  destruct (_ <? _); [done|]. intros [= <- <-]. split; [done|]. by exists k.
Qed.

(** The request carries the secret of a token or session that is in the
    database, has not expired or been revoked, and belongs to a user who
    exists and is not disabled; that user is the subject of [p]. *)
Definition credential (now : Z) (c : Request) (d : IdDB) (p : Principal) : Prop :=
  (∃ u, users d !! pr_SubjectID p = Some u ∧ u_DisabledAt u = None) ∧
  UserIDFromContext (Some p) = Some (pr_SubjectID p) ∧
  ((∃ scheme value k t, Fields (TrimSpace (req_Authorization c)) = [scheme; value] ∧
      pats d !! k = Some t ∧ t_TokenHash t = hashToken value ∧ token_unexpired now t = true ∧
      p = mkPrincipal (t_Owner t) SubjectUser (t_ID t) CredentialPAT) ∨
   (∃ value k s, req_cookie c = Some value ∧
      sessions d !! k = Some s ∧ s_TokenHash s = hashToken value ∧ session_live now d s = true ∧
      p = mkPrincipal (s_UserID s) SubjectUser (s_ID s) CredentialSession)).

(** A request gets past the middleware only with a credential, and as its
    user. *)
Theorem middleware_authenticates pat sess now c d p d' :
  id_faults d = [] → auth_Handler pat sess now c d = (Some p, d') → credential now c d p.
Proof.
  intros Hf. unfold auth_Handler, credential.
  destruct (resolveBearer pat now c d) as [pb d1] eqn:Eb.
  assert (∀ q d2, users d2 = users d → id_faults d2 = [] →
    (let '(ok, d3) := userEnabled q d2 in (if ok then Some q else None, d3)) = (Some p, d') →
    q = p ∧ (∃ u, users d !! pr_SubjectID p = Some u ∧ u_DisabledAt u = None) ∧
    UserIDFromContext (Some p) = Some (pr_SubjectID p)) as Huser.
  { intros q d2 Hu2 Hf2. unfold userEnabled, UserIDFromContext, GetMe, usersRepo_GetByID, GetUserByID. rewrite query_ok by done.
    destruct (_ || _) eqn:Hb; [done|]. rewrite Hu2.
    destruct (users d !! pr_SubjectID q) as [u|] eqn:Hu; [|done]. cbn.
    destruct (u_DisabledAt u) eqn:Hd; [done|]. cbn. intros [= <- <-]. rewrite Hb.
    split_and!; [done| |done]. by exists u. }
  assert (match pb with
          | Some q => users d1 = users d ∧ id_faults d1 = [] ∧
              ∃ scheme value k t, Fields (TrimSpace (req_Authorization c)) = [scheme; value] ∧
                pats d !! k = Some t ∧ t_TokenHash t = hashToken value ∧ token_unexpired now t = true ∧
                q = mkPrincipal (t_Owner t) SubjectUser (t_ID t) CredentialPAT
          | None => d1 = d
          end) as Hpb.
  { revert Eb. unfold resolveBearer. destruct (negb pat); [by intros [= <- <-]|].
    destruct (bool_decide _); [by intros [= <- <-]|].
    destruct (Fields (TrimSpace (req_Authorization c))) as [|a [|b [|? ?]]]; try (by intros [= <- <-]).
    destruct (negb _); [by intros [= <- <-]|].
    destruct (pat_Resolve now _ d) as [[q|e] d2] eqn:Er; intros [= <- <-];
      [|by eapply resolve_err].
    apply resolve_inv in Er as (Hu2 & Hf2 & k & t & Hk & Hh & Hun & ->); [|done].
    split_and!; [done|done|]. exists a, b, k, t. by split_and!. }
  destruct pb as [q|].
  - destruct Hpb as (Hu1 & Hf1 & Hcred). intros E.
    destruct (Huser _ _ Hu1 Hf1 E) as (<- & ? & ?). split_and!; [done|done|by left].
  - subst d1. destruct (resolveSession sess now c d) as [ps d2] eqn:Es.
    destruct ps as [q|]; [|done]. intros E.
    revert Es. unfold resolveSession. destruct (negb sess); [done|].
    destruct (req_cookie c) as [v|]; [|done]. destruct (bool_decide _); [done|].
    destruct (session_Get now v d) as [[s0|e] d3] eqn:Eg; [|done]. intros [= <- <-].
    apply session_get_inv in Eg as (-> & k & Hk & Hh & Hl); [|done].
    destruct (Huser _ _ eq_refl Hf E) as (<- & ? & ?). split_and!; [done|done|].
    right. exists v, k, s0. by split_and!.
Qed.

(** A token is refused when every row with its hash has expired. *)
Lemma pat_resolve_dead now token d :
  id_faults d = [] →
  (∀ k x, pats d !! k = Some x → t_TokenHash x = hashToken token → token_unexpired now x = false) →
  (pat_Resolve now (mkCredentialInput CredentialPAT token) d).1 = Err ErrInvalidCredential.
Proof.
  intros Hf Hd. destruct (pat_Resolve now _ d) as [[p|e] d3] eqn:E; cbn.
  - apply resolve_inv in E as (_ & _ & k & x & Hx & Hh & Hun & _); [|done].
    by rewrite (Hd _ _ Hx Hh) in Hun.
  - revert E. unfold pat_Resolve, patRepo_GetByHash, patRepo_Touch. destruct (_ || _); [by intros [= <- _]|]. unfold GetTokenByHash.
    rewrite query_ok by done. destruct (find_row _ (pats d)) as [x|]; [|by intros [= <- _]].
    cbn [one]. unfold TouchToken. by rewrite query_ok by done.
Qed.

(** A new token is one row, the only one with its hash. *)
Lemma pat_create_inv newID now random userID req d resp token d' :
  id_faults d = [] → pat_Create newID now random userID req d = (Ok (resp, token), d') →
  ∃ t, d' = set_pats (<[newID := t]> (pats d)) d ∧ resp = responseFromRow t ∧ t_ID t = newID ∧
    t_Owner t = userID ∧ t_TokenHash t = hashToken token ∧ userID ≠ 0 ∧
    (∀ k x, pats d' !! k = Some x → t_TokenHash x = hashToken token → k = newID).
Proof.
  intros Hf. unfold pat_Create, pat_generateToken, patRepo_Create. destruct (Z.eqb_spec userID 0) as [|Hu0]; [done|].
  destruct (ValidateCreateRequest now req) as [[]|]; [|done].
  destruct (generate_token pat_prefix random) as [tok|]; [|done].
  unfold CreateToken. rewrite query_ok by done. case_bool_decide; [done|].
  destruct (hash_taken (hashToken tok) (pats d)) eqn:Hht; [done|]. case_bool_decide as Hn; [done|].
  intros [= <- <- <-]. eexists. split_and!; try done.
  intros k x. cbn. rewrite lookup_insert_Some. intros [[? _]|[Hne Hx]] Hh; [done|]. exfalso.
  apply not_true_iff_false in Hht. apply Hht, existsb_elem. exists (k, x).
  split; [by apply elem_of_map_to_list|]. by apply String.eqb_eq.
Qed.

(** C38: A personal access token works from its creation until it expires or its
    owner revokes it; another user cannot revoke it. *)
Theorem pat_lifecycle newID now random userID req d resp token d' now2 other :
  id_faults d = [] → newID ≠ 0 →
  pat_Create newID now random userID req d = (Ok (resp, token), d') →
  TrimSpace token ≠ "" →
  let input := mkCredentialInput CredentialPAT token in
  (match tp_ExpiresAt resp with Some t => now2 < t | None => True end →
   (pat_Resolve now2 input d').1 = Ok (mkPrincipal userID SubjectUser newID CredentialPAT)) ∧
  (match tp_ExpiresAt resp with Some t => t ≤ now2 | None => False end →
   (pat_Resolve now2 input d').1 = Err ErrInvalidCredential) ∧
  (pat_Resolve now2 input (pat_Revoke userID newID d').2).1 = Err ErrInvalidCredential ∧
  (other ≠ userID → (pat_Revoke other newID d').2 = d').
Proof.
  intros Hf H0 E Htok input.
  destruct (pat_create_inv _ _ _ _ _ _ _ _ _ Hf E) as (t & -> & -> & Hid & Hown & Hhash & Hu0 & Huniq).
  set (d1 := set_pats _ d) in *.
  assert (pats d1 !! newID = Some t) as Hk by (cbn; by rewrite lookup_insert_eq).
  change (tp_ExpiresAt (responseFromRow t)) with (t_ExpiresAt t). split_and!.
  - intros Hexp. unfold pat_Resolve, patRepo_GetByHash, patRepo_Touch. cbn [in_Type in_Value input]. rewrite bool_decide_eq_false_2 by done.
    cbn [negb orb]. change (String.eqb CredentialPAT CredentialPAT) with true. cbn [negb orb].
    unfold GetTokenByHash. rewrite query_ok by done.
    rewrite (find_row_unique _ _ newID t); [|done| |].
    + cbn [one]. unfold TouchToken. rewrite query_ok by done. by rewrite Hid, Hown.
    + apply andb_true_iff. split; [by apply String.eqb_eq|]. unfold token_unexpired.
      destruct (t_ExpiresAt t); [by apply Z.ltb_lt|done].
    + intros k x Hx [Hh%String.eqb_eq _]%andb_true_iff. by eapply Huniq.
  - intros Hexp. apply pat_resolve_dead; [done|]. intros k x Hx Hh. rewrite (Huniq _ _ Hx Hh), Hk in Hx.
    injection Hx as <-. unfold token_unexpired. destruct (t_ExpiresAt t); [by apply Z.ltb_ge|done].
  - unfold pat_Revoke, patRepo_Revoke. rewrite (proj2 (Z.eqb_neq _ _) Hu0), (proj2 (Z.eqb_neq _ _) H0). cbn [orb].
    unfold RevokeToken. rewrite query_ok by done. cbn [snd]. unfold delete_if. rewrite Hk, Hown, Z.eqb_refl.
    apply pat_resolve_dead; [done|]. intros k x Hx Hh. cbn [pats set_pats] in Hx.
    apply lookup_delete_Some in Hx as [Hne Hx]. by destruct (Hne (eq_sym (Huniq _ _ Hx Hh))).
  - intros Hne. unfold pat_Revoke, patRepo_Revoke. destruct (_ || _); [done|]. unfold RevokeToken.
    rewrite query_ok by done. cbn [snd]. unfold delete_if. rewrite Hk, Hown.
    by rewrite (proj2 (Z.eqb_neq userID other)) by done.
Qed.

(** Team tokens are managed by owners and admins of the team only. *)
Theorem team_tokens_need_a_manager newID now random teamID userID tokenID req d :
  id_faults d = [] → may_manage d teamID userID = false →
  is_ok (tat_Create newID now random teamID userID req d).1 = false ∧
  (tat_Create newID now random teamID userID req d).2 = d ∧
  is_ok (tat_Revoke teamID userID tokenID d).1 = false ∧
  (tat_Revoke teamID userID tokenID d).2 = d.
Proof.
  intros Hf Hm. assert (∀ name hash prefix scopes expires,
    CreateTeamToken newID now teamID name hash prefix scopes expires userID d = (Err ErrNoRows, d)) as Hc.
  { intros. unfold CreateTeamToken. rewrite query_ok by done. by rewrite Hm. }
  assert (RevokeTeamToken tokenID teamID userID d = (Ok 0, d)) as Hr.
  { unfold RevokeTeamToken. rewrite query_ok by done.
    destruct (team_tokens d !! tokenID); [by rewrite Hm, andb_false_r|done]. }
  unfold tat_Create, tat_generateToken, tat_ValidateCreateRequest, tat_tokenPrefixValue, tat_normalizeScopes,
      tatRepo_Create, tat_Revoke, tatRepo_Revoke. rewrite Hr.
  destruct (teamID =? 0), (userID =? 0), (tokenID =? 0); cbn [orb];
    destruct (ValidateCreateRequest now req), (generate_token tat_prefix random);
    rewrite ?Hc; done.
Qed.

(** ** A user with a session and a token *)

Definition ana : User := mkUser 1 "ana@example.com" true None None None 0 0.
Definition ana_db : IdDB := mkIdDB {[1 := ana]} ∅ ∅ ∅ {[(7, 1) := "member"]} ∅ ∅ [].
Definition ana_login : result (string * Session) * IdDB :=
  session_Create 5 0 (Ok [1; 2]) 1 None None ana_db.
Definition ana_session : Session := mkSession 5 1 (hashToken "0102") None None sessionTTL (Some 0) None 0.
Definition ana_session_db : IdDB := set_sessions {[5 := ana_session]} ana_db.
Definition ana_request : TokenRequest := mkTokenRequest "ci" [] (Some 100).
Definition ana_token : string := "shiyao_pat_0304".

Lemma ana_unique : sessions_unique ana_db ∧ sessions_unique ana_session_db.
Proof.
  split; [done|].
  intros k k' s s'. cbn. intros [<- _]%lookup_singleton_Some [<- _]%lookup_singleton_Some _. done.
Qed.

Lemma session_token_roundtrip_witness :
  session_Get 100 "0102" ana_session_db = (Ok ana_session, ana_session_db).
Proof.
  destruct (session_token_roundtrip 5 0 (Ok [1; 2]) 1 None None ana_db "0102" ana_session ana_session_db 100)
    as (_ & _ & _ & Hg & _); [done|apply ana_unique|reflexivity|]. by apply Hg.
Defined.
Lemma ended_session_is_refused_witness :
  (session_Get 100 "0102" (session_RevokeAll 50 1 ana_session_db).2).1 = Err ErrInvalidSession.
Proof.
  apply (ended_session_is_refused 50 100 "0102" 5 ana_session ana_session_db); try done. apply ana_unique.
Defined.
Lemma middleware_authenticates_witness :
  ∃ u, users ana_session_db !! 1 = Some u ∧ u_DisabledAt u = None.
Proof.
  apply (middleware_authenticates true true 100 (mkRequest "" (Some "0102")) ana_session_db
           (mkPrincipal 1 SubjectUser 5 CredentialSession) ana_session_db); [done|].
  vm_compute. reflexivity.
Defined.
Definition ana_created : result (TokenResponse * string) * IdDB := pat_Create 6 0 (Ok [3; 4]) 1 ana_request ana_db.
Lemma pat_lifecycle_witness :
  (pat_Resolve 50 (mkCredentialInput CredentialPAT ana_token) ana_created.2).1
  = Ok (mkPrincipal 1 SubjectUser 6 CredentialPAT).
Proof.
  destruct ana_created as [[[resp token]|e] d'] eqn:E; [|by vm_compute in E].
  assert (token = ana_token ∧ tp_ExpiresAt resp = Some 100) as [-> Hexp].
  { pose proof (f_equal fst E) as E1. vm_compute in E1. by injection E1 as <- <-. }
  destruct (pat_lifecycle 6 0 (Ok [3; 4]) 1 ana_request ana_db resp ana_token d' 50 2) as (Hr & _);
    [done|done|done|by vm_compute|].
  apply Hr. by rewrite Hexp.
Defined.
Lemma team_tokens_need_a_manager_witness :
  is_ok (tat_Create 6 0 (Ok [3; 4]) 7 1 ana_request ana_db).1 = false.
Proof. apply (team_tokens_need_a_manager 6 0 (Ok [3; 4]) 7 1 0 ana_request ana_db); done. Defined.
