(* ===== verification/Ids.v ===== *)
(** * Identifiers as text, and pkg/pgconv, pkg/ptr

    The text of a UUID determines it, so the names that the sandbox service
    and the dispatcher derive from UUIDs (VM ids, socket paths, message ids)
    tell sandboxes apart.  A [pgtype] value with its [Valid] flag is an
    [option]. *)

From S2P Require Import Prelude GoStrings GoNet AppErrors VmmConfig Outbox Sandbox IdentityDB Repositories Identity.
Open Scope Z_scope.

(** ** pkg/pgconv *)

(** [pgtype.UUID.Scan] *)
Definition UUIDFromString (Scan : string → result Z) (value : string) : result (option Z) :=
  match Scan value with
  | Err e => Err (Errorf "parse uuid: %w" [e])
  | Ok id => Ok (Some id)
  end.
(** [%x] of a slice of bytes *)
Definition UUIDToString (id : option Z) : string :=
  match id with
  | None => ""
  | Some u =>
      let slice i j := hex_encode (uuid_byte u <$> seq i (j - i)) in
      slice 0%nat 4%nat +:+ "-" +:+ slice 4%nat 6%nat +:+ "-" +:+ slice 6%nat 8%nat +:+ "-"
        +:+ slice 8%nat 10%nat +:+ "-" +:+ slice 10%nat 16%nat
  end.
Definition TextFromString (value : string) : option string := if bool_decide (value = "") then None else Some value.
Definition NullableText (value : option string) : option string :=
  match value with None => None | Some v => Some v end.
Definition TextToString (value : option string) : string := match value with None => "" | Some v => v end.

(** A value of type [any]: what sqlc emits for a domain, or something that
    [fmt.Sprint] prints. *)
Inductive AnyValue := AnyNil | AnyString (s : string) | AnyBytes (b : list Z) | AnyOther (printed : string).
Definition any_String (value : AnyValue) : string :=
  match value with
  | AnyNil => ""
  | AnyString s => s
  | AnyBytes b => of_bytes b
  | AnyOther s => s
  end.
Definition NullableString (value : AnyValue) : option string :=
  match value with AnyNil => None | _ => Some (any_String value) end.

Definition TimestamptzToTimePtr (value : option Z) : option Z := match value with None => None | Some t => Some t end.

(** ** pkg/ptr *)

Definition To {T} (value : T) : option T := Some value.
Definition Clone {T} (value : option T) : option T := match value with None => None | Some v => Some v end.
Definition Deref {T} (zero : T) (value : option T) : T := match value with None => zero | Some v => v end.
Definition ValueOr {T} (value : option T) (fallback : T) : T := match value with None => fallback | Some v => v end.
Definition Equal {T} `{EqDecision T} (left right : option T) : bool :=
  match left, right with
  | Some l, Some r => bool_decide (l = r)
  | _, _ => bool_decide (left = None) && bool_decide (right = None)
  end.

(** ** The text of a UUID *)

(** The inverse: the digits without the dashes. *)
Definition uuid_of_text (s : string) : option Z :=
  l ← hex_decode_bytes (filter (λ b, b ≠ 45) (bytes s)); Some (foldl (λ acc b, acc * 256 + b) 0 l).

Lemma uuid_byte_range u i : is_byte (uuid_byte u i).
Proof.
  unfold is_byte, uuid_byte. change 255 with (Z.ones 8). rewrite Z.land_ones by lia. apply Z.mod_pos_bound. lia.
Qed.
Lemma uuid_bytes_range u l : Forall is_byte (uuid_byte u <$> l).
Proof. apply Forall_fmap, Forall_forall. intros i _. apply uuid_byte_range. Qed.
(** Reading the bytes from the top gives the number back. *)
Lemma uuid_bytes_value u i n : (i + n = 16)%nat →
  foldl (λ acc b, acc * 256 + b) (Z.shiftr u (8 * Z.of_nat n)) (uuid_byte u <$> seq i n) = u.
Proof.
  revert i. induction n as [|n IH]; intros i Hi; cbn [seq fmap list_fmap foldl].
  - by rewrite Z.shiftr_0_r.
  - replace (Z.shiftr u (8 * Z.of_nat (S n)) * 256 + uuid_byte u i) with (Z.shiftr u (8 * Z.of_nat n));
      [apply IH; lia|].
    unfold uuid_byte. replace (8 * (15 - Z.of_nat i)) with (8 * Z.of_nat n) by lia.
    change 255 with (Z.ones 8). rewrite Z.land_ones by lia.
    replace (8 * Z.of_nat (S n)) with (8 * Z.of_nat n + 8) by lia. rewrite <- Z.shiftr_shiftr by lia.
    rewrite (Z.shiftr_div_pow2 (Z.shiftr _ _) 8) by lia. change (2 ^ 8) with 256.
    pose proof (Z.div_mod (Z.shiftr u (8 * Z.of_nat n)) 256). lia.
Qed.

Lemma hex_digit_alnum d : 0 ≤ d < 16 → 48 ≤ hex_digit d ≤ 57 ∨ 97 ≤ hex_digit d ≤ 102.
Proof. unfold hex_digit. destruct (Z.ltb_spec d 10); lia. Qed.
Lemma hex_bytes_alnum l : Forall is_byte l → Forall (λ b, 48 ≤ b ≤ 57 ∨ 97 ≤ b ≤ 102) (flat_map hex_byte l).
Proof.
  induction 1 as [|b l Hb _ IH]; [constructor|]. unfold is_byte in Hb. simpl.
  pose proof (Z.mod_pos_bound b 16).
  assert (0 ≤ b / 16 < 16) by (split; [apply Z.div_pos|apply Z.div_lt_upper_bound]; lia).
  repeat (constructor; [apply hex_digit_alnum; lia|]). exact IH.
Qed.
Lemma filter_hex l : Forall is_byte l → filter (λ b, b ≠ 45) (flat_map hex_byte l) = flat_map hex_byte l.
Proof.
  intros Hl%hex_bytes_alnum. induction Hl as [|b k Hb _ IH]; [done|]. rewrite filter_cons_True by lia. by rewrite IH.
Qed.
Lemma bytes_hex l : Forall is_byte l → bytes (hex_encode l) = flat_map hex_byte l.
Proof. intros Hl. unfold hex_encode. by rewrite bytes_of_bytes by by apply hex_bytes_range. Qed.

Lemma uuid_text_parts u :
  bytes (uuid_String u) = flat_map hex_byte (uuid_byte u <$> seq 0 4) ++ [45] ++
    flat_map hex_byte (uuid_byte u <$> seq 4 2) ++ [45] ++ flat_map hex_byte (uuid_byte u <$> seq 6 2) ++ [45] ++
    flat_map hex_byte (uuid_byte u <$> seq 8 2) ++ [45] ++ flat_map hex_byte (uuid_byte u <$> seq 10 6).
Proof. unfold uuid_String. rewrite !bytes_app, !bytes_hex by apply uuid_bytes_range. done. Qed.

Lemma uuid_of_text_String u : 0 ≤ u < 2 ^ 128 → uuid_of_text (uuid_String u) = Some u.
Proof.
  intros Hu. unfold uuid_of_text. rewrite uuid_text_parts, !filter_app, !filter_hex by apply uuid_bytes_range.
  change (filter (λ b, b ≠ 45) [45]) with (@nil Z). rewrite !app_nil_l, <- !flat_map_app, <- !fmap_app.
  change (seq 0 4 ++ seq 4 2 ++ seq 6 2 ++ seq 8 2 ++ seq 10 6) with (seq 0 16).
  pose proof (hex_decode_encode _ (uuid_bytes_range u (seq 0 16))) as Hd.
  unfold hex_decode in Hd. rewrite bytes_hex in Hd by apply uuid_bytes_range. rewrite Hd. cbn [mbind option_bind].
  f_equal. rewrite <- (uuid_bytes_value u 0 16) at 2 by done. f_equal.
  symmetry. rewrite Z.shiftr_div_pow2 by lia. apply Z.div_small. exact Hu.
Qed.
Lemma uuid_String_inj u v : 0 ≤ u < 2 ^ 128 → 0 ≤ v < 2 ^ 128 → uuid_String u = uuid_String v → u = v.
Proof.
  intros Hu Hv E. apply (f_equal uuid_of_text) in E. rewrite !uuid_of_text_String in E by done. congruence.
Qed.
Lemma uuid_String_length u : String.length (uuid_String u) = 36%nat.
Proof.
  unfold uuid_String. repeat (rewrite str_length_app || rewrite hex_encode_length || rewrite length_fmap || rewrite length_seq).
  reflexivity.
Qed.

Lemma uuid_String_plain u : Forall plain (bytes (uuid_String u)).
Proof.
  rewrite uuid_text_parts.
  assert (∀ l, Forall is_byte l → Forall plain (flat_map hex_byte l)) as Hhex.
  { intros l Hl%hex_bytes_alnum. eapply Forall_impl; [exact Hl|]. unfold plain. intros b. cbn. lia. }
  rewrite !Forall_app. split_and!; try (apply Hhex, uuid_bytes_range); by repeat constructor.
Qed.
Lemma uuid_String_trimmed u : TrimSpace (uuid_String u) = uuid_String u.
Proof. apply TrimSpace_plain, uuid_String_plain. Qed.

(** ** What the names are for *)

Lemma str_app_inj_l (s t t' : string) : s +:+ t = s +:+ t' → t = t'.
Proof. induction s as [|c s IH]; [done|]. intros [= E]. by apply IH. Qed.
Lemma str_app_inj_r (s s' t : string) : s +:+ t = s' +:+ t → s = s'.
Proof.
  intros E. apply bytes_inj. apply (f_equal bytes) in E. rewrite !bytes_app in E. by apply app_inv_tail in E.
Qed.
Lemma str_app_same_length (s s' t t' : string) :
  String.length s = String.length s' → s +:+ t = s' +:+ t' → s = s' ∧ t = t'.
Proof.
  intros Hl E. apply (f_equal bytes) in E. rewrite !bytes_app in E.
  apply app_inj_1 in E as [? ?]; [|by rewrite !length_bytes]. split; by apply bytes_inj.
Qed.

Lemma newVMID_inj u v : 0 ≤ u < 2 ^ 128 → 0 ≤ v < 2 ^ 128 → newVMID u = newVMID v → u = v.
Proof. intros Hu Hv E%str_app_inj_l. by apply uuid_String_inj. Qed.
Lemma newVMID_valid u : validateVMID (newVMID u) = Ok tt.
Proof.
  unfold validateVMID. rewrite bool_decide_eq_false_2 by done.
  assert (len (newVMID u) = 40) as ->.
  { unfold len, newVMID. by rewrite str_length_app, uuid_String_length. }
  cbn [Z.ltb Z.compare]. assert (ContainsAny (newVMID u) vmid_bad_chars = false) as ->; [|done].
  apply ContainsAny_false. unfold newVMID. rewrite bytes_app, uuid_text_parts.
  assert (∀ b, b ∈ bytes vmid_bad_chars → ¬ (48 ≤ b ≤ 57 ∨ 97 ≤ b ≤ 102) ∧ b ≠ 45 ∧ b ∉ bytes "sbx-") as Hbad.
  { assert (Forall (λ b, ¬ (48 ≤ b ≤ 57 ∨ 97 ≤ b ≤ 102) ∧ b ≠ 45 ∧ b ∉ bytes "sbx-") (bytes vmid_bad_chars)) as Hf.
    { change (bytes vmid_bad_chars) with [47; 92; 92; 58; 42; 63; 34; 60; 62; 124].
      change (bytes "sbx-") with [115; 98; 120; 45]. repeat constructor; try lia; set_solver. }
    intros b Hb. by eapply Forall_forall in Hf. }
  assert (∀ l, Forall is_byte l → Forall (λ b, b ∉ bytes vmid_bad_chars) (flat_map hex_byte l)) as Hhex.
  { intros l Hl%hex_bytes_alnum. eapply Forall_impl; [exact Hl|]. intros b Hb Hin. by destruct (Hbad b Hin). }
  rewrite !Forall_app. split_and!; try (apply Hhex, uuid_bytes_range);
    apply Forall_forall; intros b Hb Hin; destruct (Hbad b Hin) as (_ & Hd & Hs); [done|..];
    apply list_elem_of_singleton in Hb; congruence.
Qed.
(** A bus that keeps the message ids. *)
Definition id_log : option (string → LifecycleEvent → string → ST (list string) unit) :=
  Some (λ _ _ id b, (Ok tt, b ++ [id])).

(** C30: The names that are derived from UUIDs tell sandboxes apart: the VM ids
    of the service are accepted by the manager, different ones lead to
    different API sockets, and the message id by which JetStream drops
    duplicates is the same only for the same job of the same sandbox. *)
Theorem names_tell_sandboxes_apart tempDir subject subject' ev ev' u v :
  0 ≤ u < 2 ^ 128 → 0 ≤ v < 2 ^ 128 →
  0 ≤ ev_SandboxID ev < 2 ^ 128 → 0 ≤ ev_SandboxID ev' < 2 ^ 128 →
  validateVMID (newVMID u) = Ok tt ∧
  (socketPathForSandbox tempDir (newVMID u) = socketPathForSandbox tempDir (newVMID v) ↔ u = v) ∧
  ((publish id_log subject ev []).2 = (publish id_log subject' ev' []).2 ↔
   ev_SandboxID ev = ev_SandboxID ev' ∧ subject = subject').
Proof.
  intros Hu Hv He He'. split_and!; [apply newVMID_valid|split; [|by intros ->]|split; [|intros [E ->]; cbn; by rewrite E]].
  - unfold socketPathForSandbox. intros E. do 2 apply str_app_inj_l in E. by apply str_app_inj_r, newVMID_inj in E.
  - unfold publish, id_log. cbn [snd app]. intros E. apply (f_equal (λ l, nth 0 l EmptyString)) in E. cbn [nth] in E.
    apply str_app_same_length in E as [Ei Es]; [|by rewrite !uuid_String_length].
    apply (str_app_inj_l ":") in Es. split; [by apply uuid_String_inj|done].
Qed.

Lemma names_tell_sandboxes_apart_witness :
  validateVMID (newVMID 3) = Ok tt ∧ socketPathForSandbox "/tmp" (newVMID 3) ≠ socketPathForSandbox "/tmp" (newVMID 4).
Proof.
  destruct (names_tell_sandboxes_apart "/tmp" SubjectSandboxCreate SubjectSandboxDestroy
    (mkLifecycleEvent 10 2 (newVMID 3)) (mkLifecycleEvent 10 2 (newVMID 3)) 3 4) as (H1 & H2 & _); [done..|].
  split; [exact H1|]. rewrite H2. done.
Defined.

(** The text of an id in the database is the text of the id in the program,
    and it can be read back. *)
Lemma UUIDToString_roundtrip u : 0 ≤ u < 2 ^ 128 → uuid_of_text (UUIDToString (Some u)) = Some u.
Proof. apply uuid_of_text_String. Qed.
