(* ===== verification/Provision.v ===== *)
(** * A sandbox from its creation to its deletion, when everything works

    The other theorems about VMs and jobs say what holds whatever the outcome
    of a call is.  This file shows that the calls do succeed on a host that
    works, the class [HealthyHost]: a VM is provisioned and destroyed
    ([provision_works], [destroy_works]), and a sandbox goes through its whole
    life, leaving everything as it was. *)

From S2P Require Import Prelude GoStrings GoNet AppErrors Network Ipam Host Allocation VmmConfig Instance Manager Vsock Outbox Sandbox Ids.
Open Scope Z_scope.

(** ** A host that works *)

Section Works.
Context {W : Type} `{HostLaws W}.
Definition same_net (w w' : W) : Prop := taps w' = taps w ∧ nft_sets w' = nft_sets w.
End Works.

(** The documented outcome of the operations when nothing is broken, the
    arguments make sense and [fs] are regular files; [HostLaws] says what
    they do to devices and firewall. *)
Class HealthyHost (W : Type) `{HostLaws W} := {
  healthy : list string → W → Prop;
  ok_LinkAdd fs t w : healthy fs w → t ∉ taps w → ∃ w', LinkAdd t w = (Ok tt, w') ∧ healthy fs w';
  ok_LinkSetUp fs t w : healthy fs w → t ∈ taps w → ∃ w', LinkSetUp t w = (Ok tt, w') ∧ healthy fs w';
  ok_LinkDel fs t w : healthy fs w → t ∈ taps w → ∃ w', LinkDel t w = (Ok tt, w') ∧ healthy fs w';
  ok_LinkByName fs t w : healthy fs w → t ∈ taps w → ∃ w', LinkByName t w = (LinkFound, w') ∧ healthy fs w';
  ok_nftTableExists fs ctx w : healthy fs w →
    ∃ w', nftTableExists ctx w = (bool_decide (is_Some (nft_sets w)), w') ∧ healthy fs w';
  ok_nft_base fs ctx w : healthy fs w → ctx_err ctx = None →
    ∃ w', nftRun ctx BaseRuleset w = (Ok tt, w') ∧ healthy fs w';
  ok_nft_elements fs ctx cmds s s' w :
    healthy fs w → ctx_err ctx = None → nft_sets w = Some s → apply_cmds cmds s = Some s' →
    ∃ w', nftRun ctx (Elements cmds) w = (Ok tt, w') ∧ healthy fs w';
  ok_Lstat fs path w : healthy fs w → path ∈ fs →
    ∃ w', Lstat path w = (Ok RegularFile, w') ∧ healthy fs w' ∧ same_net w w';
  ok_Remove fs path w : healthy fs w → path ∉ fs →
    ∃ r w', Remove path w = (r, w') ∧ (r = Removed ∨ r = NotExist) ∧ healthy fs w' ∧ same_net w w';
  ok_rand_Read fs n w : healthy fs w →
    ∃ b w', rand_Read n w = (Ok b, w') ∧ healthy fs w' ∧ same_net w w';
  ok_NewMachine fs ctx cfg w : healthy fs w → ctx_err ctx = None →
    ∃ m w', NewMachine ctx cfg None w = (Ok m, w') ∧ healthy fs w' ∧ same_net w w';
  ok_Start fs ctx m w : healthy fs w → ctx_err ctx = None →
    ∃ w', machine_Start ctx m w = (Ok tt, w') ∧ healthy fs w' ∧ same_net w w';
  ok_StopVMM fs m w : healthy fs w →
    ∃ w', machine_StopVMM m w = (Ok tt, w') ∧ healthy fs w' ∧ same_net w w';
}.

(** ** The network of a VM *)

Section Network.
Context {W : Type} `{HealthyHost W} (fs : list string).
Context (cfg : Config).
Hypothesis cfg_valid : validateNftConfig cfg = Ok tt.
Hypothesis ports_distinct : NoDup (AllowedPorts cfg).

(** The host as it was, and with the resources of the VM. *)
Definition net_before (T0 : gset string) (s0 : NftSets) (w : W) : Prop :=
  healthy fs w ∧ taps w = T0 ∧ default [] (nft_sets w) = s0.
Definition net_after (T0 : gset string) (s0 : NftSets) (w : W) : Prop :=
  healthy fs w ∧ taps w = {[TapName cfg]} ∪ T0 ∧ nft_sets w = Some (reverse (vm_elements cfg) ++ s0).

Context (T0 : gset string) (s0 : NftSets).
Hypothesis tap_new : TapName cfg ∉ T0.
Hypothesis entries_new : tap_fresh (TapName cfg) s0.

Lemma add_elements : apply_cmds (pair act_add <$> vm_elements cfg) s0 = Some (reverse (vm_elements cfg) ++ s0).
Proof.
  apply apply_add_fresh; [by apply vm_elements_NoDup|]. intros e He. eapply fresh_not_mem; [done|].
  by apply vm_elements_tap.
Qed.

Lemma setup_tap_works w : net_before T0 s0 w →
  ∃ w', SetupTAP cfg w = (Ok tt, w') ∧ healthy fs w' ∧ taps w' = {[TapName cfg]} ∪ T0 ∧ default [] (nft_sets w') = s0.
Proof.
  intros (Hh & Ht & Hn). unfold SetupTAP.
  destruct (ok_LinkAdd fs (TapName cfg) w Hh) as (w1 & E1 & Hh1); [by rewrite Ht|]. rewrite E1.
  destruct (LinkAdd_law _ _ _ _ E1) as (Hn1 & _ & Ht1).
  destruct (ok_LinkSetUp fs (TapName cfg) w1 Hh1) as (w2 & E2 & Hh2); [rewrite Ht1; set_solver|]. rewrite E2.
  destruct (LinkSetUp_law _ _ _ _ E2) as (Hn2 & Ht2). exists w2.
  by rewrite Hn2, Hn1, Ht2, Ht1, Ht.
Qed.

Lemma setup_firewall_works ctx w :
  ctx_err ctx = None → healthy fs w → default [] (nft_sets w) = s0 →
  ∃ w', SetupFirewall ctx cfg w = (Ok tt, w') ∧ healthy fs w' ∧ taps w' = taps w ∧
    nft_sets w' = Some (reverse (vm_elements cfg) ++ s0).
Proof.
  intros Hc Hh Hn. unfold SetupFirewall. rewrite cfg_valid.
  destruct (ok_nftTableExists fs ctx w Hh) as (w1 & E1 & Hh1). rewrite E1.
  destruct (nftTableExists_law _ _ _ _ E1) as (Hn1 & Ht1).
  assert (∃ w2, (if negb (bool_decide (is_Some (nft_sets w)))
                 then st_wrap "initialize nftables policy: %w" (nftRun ctx BaseRuleset) w1 else (Ok tt, w1)) = (Ok tt, w2)
          ∧ healthy fs w2 ∧ taps w2 = taps w ∧ nft_sets w2 = Some s0) as (w2 & -> & Hh2 & Ht2 & Hn2).
  { case_bool_decide as Hs; cbn [negb].
    - exists w1. split_and!; [done|done|done|]. destruct Hs as [s Hs]. rewrite Hn1. rewrite Hs in Hn |- *. by f_equal.
    - destruct (ok_nft_base fs ctx w1 Hh1 Hc) as (w2 & E2 & Hh2). unfold st_wrap. rewrite E2. exists w2.
      destruct (nftRun_law _ _ _ _ _ E2) as [Ht2 Hn2]. split_and!; [done|done|by rewrite Ht2|].
      by rewrite Hn2, Hn1, Hn. }
  destruct (ok_nft_elements fs ctx (pair act_add <$> vm_elements cfg) s0 _ w2 Hh2 Hc Hn2 add_elements) as (w3 & E3 & Hh3).
  unfold st_wrap, nftAddVM. rewrite E3. exists w3. destruct (nftRun_law _ _ _ _ _ E3) as [Ht3 (s & s' & Hs & Ha & Hs')].
  split_and!; [done|done|by rewrite Ht3|]. rewrite Hn2 in Hs. injection Hs as <-. rewrite add_elements in Ha. by injection Ha as <-.
Qed.

Lemma setup_works ctx a w :
  ctx_err ctx = None → a_cfg a = cfg → a_released a = false → a_cleanup a = [] → net_before T0 s0 w →
  ∃ w', Setup ctx (a, w) = (Ok tt, (with_cleanup [Clean_TAP; Clean_Firewall] a, w')) ∧ net_after T0 s0 w'.
Proof.
  intros Hc Hcfg Hr Hcl Hw. unfold Setup. rewrite Hr, Hcl, bool_decide_eq_true_2, Hcfg by done. cbn [negb].
  destruct (setup_tap_works w Hw) as (w1 & -> & Hh1 & Ht1 & Hn1). cbn [a_cfg with_cleanup]. rewrite Hcfg.
  destruct (setup_firewall_works ctx w1 Hc Hh1 Hn1) as (w2 & -> & Hh2 & Ht2 & Hn2). exists w2.
  cbn. split; [|by split_and!; [done|rewrite Ht2|]]. by destruct a; cbn in *; subst.
Qed.

Lemma release_works ctx p a w :
  ctx_err ctx = None → a_cfg a = cfg → a_released a = false → a_cleanup a = [Clean_TAP; Clean_Firewall] →
  net_after T0 s0 w →
  ∃ a' w', alloc_Release ctx (p, a, w) = (Ok tt, (Ipam.Release (GuestIP cfg) (a_cid a) p, a', w')) ∧ net_before T0 s0 w'.
Proof.
  intros Hc Hcfg Hr Hcl (Hh & Ht & Hn). unfold alloc_Release. rewrite Hr, Hcl, Hcfg.
  change (reverse [Clean_TAP; Clean_Firewall]) with [Clean_Firewall; Clean_TAP]. cbn [run_cleanup run_step].
  unfold CleanupFirewall. rewrite cfg_valid. unfold st_wrap, nftDeleteVM.
  destruct (ok_nft_elements fs ctx (pair act_delete <$> vm_elements cfg) _ s0 w Hh Hc Hn) as (w1 & E1 & Hh1).
  { by apply vm_delete_after_add, add_elements. }
  rewrite E1. destruct (nftRun_law _ _ _ _ _ E1) as [Ht1 (s & s' & Hs & Ha & Hn1)].
  rewrite Hn in Hs. injection Hs as <-. rewrite (vm_delete_after_add cfg s0 _ entries_new ports_distinct add_elements)
      in Ha. injection Ha as <-.
  unfold CleanupTAP. destruct (ok_LinkByName fs (TapName cfg) w1 Hh1) as (w2 & E2 & Hh2); [rewrite Ht1, Ht; set_solver|].
  rewrite E2. destruct (LinkByName_law _ _ _ _ E2) as (Hn2 & Ht2 & _).
  destruct (ok_LinkDel fs (TapName cfg) w2 Hh2) as (w3 & E3 & Hh3); [rewrite Ht2, Ht1, Ht; set_solver|].
  rewrite E3. destruct (LinkDel_law _ _ _ _ E3) as [Hn3 Ht3]. cbn. rewrite Hcfg. eexists _, w3. split; [done|].
  split_and!; [done| |by rewrite Hn3, Hn2, Hn1]. rewrite Ht3, Ht2, Ht1, Ht. set_solver.
Qed.
End Network.

(** ** One VM *)

Section Machine.
Context {W : Type} `{HealthyHost W} (fs : list string).
Context (cfg : Config) (T0 : gset string) (s0 : NftSets).
Hypothesis cfg_valid : validateNftConfig cfg = Ok tt.
Hypothesis ports_distinct : NoDup (AllowedPorts cfg).
Hypothesis tap_new : TapName cfg ∉ T0.
Hypothesis entries_new : tap_fresh (TapName cfg) s0.

Lemma net_before_step (w w' : W) : healthy fs w' → same_net w w' → net_before fs T0 s0 w → net_before fs T0 s0 w'.
Proof. intros Hh [Ht Hn] (_ & ? & ?). unfold net_before. by rewrite Ht, Hn. Qed.
Lemma net_after_step (w w' : W) : healthy fs w' → same_net w w' → net_after fs cfg T0 s0 w → net_after fs cfg T0 s0 w'.
Proof. intros Hh [Ht Hn] (_ & ? & ?). unfold net_after. by rewrite Ht, Hn. Qed.

(** The configuration boots a kernel that is there. *)
Record bootable (c : vmm_Config) (snap : SnapshotConfig) : Prop := {
  boot_valid : vmm_Validate c = Ok tt;
  boot_cold : EnableResume snap = false;
  boot_args : is_ok (guestKernelArgs (BootArgs c) (GuestAgentPath c)) = true;
  boot_files : KernelPath c ∈ fs ∧ RootfsPath c ∈ fs;
}.

Lemma regular_works path label (w : W) :
  path ≠ "" → path ∈ fs → net_before fs T0 s0 w →
  ∃ w', validateRegularFile path label w = (Ok tt, w') ∧ net_before fs T0 s0 w'.
Proof.
  intros Hp Hin Hw. unfold validateRegularFile. rewrite bool_decide_eq_false_2 by done.
  destruct (ok_Lstat fs path w (proj1 Hw) Hin) as (w1 & -> & Hh1 & Hs1). exists w1. split; [done|].
  by eapply net_before_step.
Qed.
Lemma assets_work c snap (w : W) :
  bootable c snap → net_before fs T0 s0 w →
  ∃ w', validateRuntimeAssets c snap w = (Ok tt, w') ∧ net_before fs T0 s0 w'.
Proof.
  intros [Hv Hcold _ [Hk Hr]] Hw. unfold validateRuntimeAssets. rewrite Hcold.
  unfold vmm_Validate in Hv. case_bool_decide as Hk0; [done|]. case_bool_decide as Hr0; [done|]. clear Hv.
  destruct (regular_works (KernelPath c) "kernel image" w Hk0 Hk Hw) as (w1 & E1 & Hw1).
  destruct (regular_works (RootfsPath c) "root filesystem" w1 Hr0 Hr Hw1) as (w2 & E2 & Hw2).
  exists w2. unfold st_bind. by rewrite E1.
Qed.

Lemma valid_addresses : Validate cfg = Ok tt ∧ is_Some (ParseCIDR (GuestIP cfg)) ∧ is_Some (ParseIP (HostIP cfg)).
Proof.
  unfold validateNftConfig in cfg_valid. destruct (Validate cfg) as [[]|e] eqn:Hv; [|done]. split; [done|].
  unfold Validate in Hv. case_bool_decide; [done|]. case_bool_decide; [done|].
  destruct (ParseIP (HostIP cfg)) as [h|]; [|done]. destruct (To4 h); [|done].
  destruct (ParseCIDR (GuestIP cfg)) as [[g n]|]; [|done]. split; by eexists.
Qed.

Lemma create_machine_works ctx i (w : W) :
  ctx_err ctx = None → bootable (i_cfg i) (i_snapCfg i) → net_after fs cfg T0 s0 w →
  ∃ m w', create_machine ctx i cfg w = (Ok m, w') ∧ net_after fs cfg T0 s0 w'.
Proof.
  intros Hc [_ Hcold Hargs _] Hw. unfold create_machine.
  destruct valid_addresses as (_ & [[g n] ->] & [h ->]). rewrite Hcold.
  destruct (guestKernelArgs _ _) as [args|]; [|done].
  match goal with |- context [NewMachine ctx ?fc None] =>
    destruct (ok_NewMachine fs ctx fc w (proj1 Hw) Hc) as (m & w1 & E & Hh & Hs) end.
  unfold st_wrap. rewrite E. exists m, w1. split; [done|]. by eapply net_after_step.
Qed.

(** An instance with its lease, before and after it is configured *)
Definition created_with (a : Allocation) (i : Instance) : Prop :=
  i_state i = StateCreated ∧ i_network i = Some a ∧ a_cfg a = cfg ∧ a_released a = false ∧ a_cleanup a = [] ∧
  bootable (i_cfg i) (i_snapCfg i).
Definition up_with (st : State) (cid : Z) (i : Instance) : Prop :=
  i_state i = st ∧ is_Some (i_machine i) ∧ EnableResume (i_snapCfg i) = false ∧
  ∃ a, i_network i = Some a ∧ a_cfg a = cfg ∧ a_cid a = cid ∧ a_released a = false ∧
       a_cleanup a = [Clean_TAP; Clean_Firewall].

Lemma configure_works ctx p i a (w : W) :
  ctx_err ctx = None → created_with a i → net_before fs T0 s0 w →
  ∃ i' w', Configure ctx (p, i, w) = (Ok tt, (p, i', w')) ∧ net_after fs cfg T0 s0 w' ∧
    up_with StateConfigured (a_cid a) i' ∧ i_SocketPath i' = i_SocketPath i ∧ i_ID i' = i_ID i.
Proof.
  intros Hc (Hst & Hnet & Hcfg & Hrel & Hcl & Hboot) Hw. unfold Configure, generateInstanceID, st_bind, st_ret.
  destruct (ok_rand_Read fs 16 w (proj1 Hw)) as (b & w1 & -> & Hh1 & Hs1).
  pose proof (net_before_step _ _ Hh1 Hs1 Hw) as Hw1. rewrite (boot_valid _ _ Hboot).
  destruct (assets_work _ _ w1 Hboot Hw1) as (w2 & -> & Hw2). rewrite Hnet, Hcfg.
  rewrite (proj1 valid_addresses). unfold configure_begin. rewrite bool_decide_eq_true_2 by done. cbn [negb].
  set (i1 := set_InstanceID _ _). unfold configure_body.
  destruct (setup_works fs cfg cfg_valid ports_distinct T0 s0 tap_new entries_new ctx a w2 Hc Hcfg Hrel Hcl Hw2) as (w3 & -> & Hw3).
  cbn [a_cfg with_cleanup]. rewrite Hcfg.
  destruct (create_machine_works ctx i1 w3 Hc) as (m & w4 & -> & Hw4); [exact Hboot|done|].
  eexists _, w4. split; [done|]. split; [done|]. split; [|done]. split_and!; [done|by eexists|apply Hboot|].
  eexists. cbn. split; [done|]. by split_and!.
Qed.

Lemma start_works ctx p i cid (w : W) :
  ctx_err ctx = None → up_with StateConfigured cid i → net_after fs cfg T0 s0 w →
  ∃ i' w', Start ctx (p, i, w) = (Ok tt, (p, i', w')) ∧ net_after fs cfg T0 s0 w' ∧
    up_with StateRunning cid i' ∧ i_SocketPath i' = i_SocketPath i ∧ i_ID i' = i_ID i.
Proof.
  intros Hc (Hst & [m Hm] & Hcold & Hnet) Hw. unfold Start, start_begin. rewrite bool_decide_eq_true_2, Hm by done.
  cbn [negb i_snapCfg set_state]. rewrite Hcold.
  destruct (ok_Start fs ctx m w (proj1 Hw) Hc) as (w1 & -> & Hh1 & Hs1).
  unfold start_done. cbn [i_state set_state]. rewrite bool_decide_eq_true_2 by done. cbn [negb].
  eexists _, w1. split; [done|]. split; [by eapply net_after_step|]. split; [|done].
  split_and!; [done|by exists m|done|done].
Qed.

Lemma stop_works ctx p i cid (w : W) :
  ctx_err ctx = None → up_with StateRunning cid i → i_SocketPath i ∉ fs → net_after fs cfg T0 s0 w →
  ∃ i' w', Stop ctx (p, i, w) = (Ok tt, (Ipam.Release (GuestIP cfg) cid p, i', w')) ∧ net_before fs T0 s0 w'.
Proof.
  intros Hc (Hst & [m Hm] & _ & a & Hnet & Hcfg & Hcid & Hrel & Hcl) Hsock Hw. unfold Stop, stop_begin.
  rewrite Hst. cbn [stoppable negb i_machine i_network i_SocketPath set_state]. rewrite Hm, Hnet. unfold stop_machine.
  destruct (ok_StopVMM fs m w (proj1 Hw)) as (w1 & -> & Hh1 & Hs1).
  pose proof (net_after_step _ _ Hh1 Hs1 Hw) as Hw1. unfold stop_network.
  destruct (release_works fs cfg cfg_valid ports_distinct T0 s0 tap_new entries_new ctx p a w1 Hc Hcfg Hrel Hcl Hw1)
    as (a' & w2 & -> & Hw2). unfold stop_socket.
  destruct (ok_Remove fs (i_SocketPath i) w2 (proj1 Hw2) Hsock) as (r & w3 & -> & Hr & Hh3 & Hs3).
  exists (set_state StateStopped (set_machine None (set_network (Some a') (set_state StateStopping i)))), w3. rewrite Hcid.
  split; [|by eapply net_before_step]. by destruct Hr as [-> | ->].
Qed.
End Machine.

(** ** The manager *)

Section Managed.
Context {W : Type} `{HealthyHost W} (fs : list string).
Context (T0 : gset string) (s0 : NftSets).

(** The manager has room for one more VM, whose names are not in use. *)
Record room_for (vmID : string) (m : Manager) : Prop := {
  room_capacity : at_capacity m = false;
  room_id : m_instances m !! vmID = None;
  room_pool : ipam_wf (m_ipam m) ∧ freeSubnets (m_ipam m) ≠ [] ∧ freeCIDs (m_ipam m) ≠ [];
  room_uplink : UplinkInterface (m_netCfg m) ≠ "";
  room_ports : forallb port_ok (AllowedPorts (m_netCfg m)) = true ∧ NoDup (AllowedPorts (m_netCfg m));
  room_boot : bootable fs (m_baseCfg m) (m_snapCfg m);
  room_socket : socket_path (m_tempDir m) vmID ∉ fs;
  room_tap : uniqueTapName vmID ∉ T0 ∧ tap_fresh (uniqueTapName vmID) s0;
}.

(** What the manager [m1] holds for a VM that runs, when it was [m] before. *)
Record vm_up (vmID : string) (m m1 : Manager) (cfg : Config) (cid : Z) (inst : nat) (i : Instance) : Prop := {
  up_entry : m_instances m1 = <[vmID := inst]> (m_instances m);
  up_heap : m_heap m1 !! inst = Some i;
  up_instance : up_with cfg StateRunning cid i ∧ i_ID i = vmID;
  up_socket : i_SocketPath i = socket_path (m_tempDir m) vmID;
  up_lease : Allocate vmID (m_netCfg m) (m_ipam m) = (Ok (cfg, cid), m_ipam m1);
}.

Lemma create_vm_works vmID m (w : W) :
  validateVMID vmID = Ok tt → room_for vmID m →
  ∃ inst m', CreateVM vmID (m, w) = (Ok inst, (m', w)).
Proof.
  intros Hid R. pose proof (room_id _ _ R) as Hnew. destruct (room_pool _ _ R) as (_ & Hpool).
  unfold CreateVM. rewrite Hid. unfold create_admit. rewrite (room_capacity _ _ R), Hnew.
  unfold create_acquire, Acquire. apply (allocate_succeeds_iff vmID (m_netCfg m)) in Hpool.
  destruct (Allocate vmID (m_netCfg m) (m_ipam m)) as [[[cfg cid]|] p]; [|done].
  unfold create_register. cbn [m_instances set_ipam]. rewrite Hnew.
  change (at_capacity (set_ipam p m)) with (at_capacity m). rewrite (room_capacity _ _ R). by eexists _, _.
Qed.

(** An instance's method that succeeds *)
Lemma on_instance_works {A} inst (f : ST (VM W) A) m (w : W) i r p' i' w' :
  m_heap m !! inst = Some i → f (m_ipam m, i, w) = (r, (p', i', w')) →
  on_instance inst f (m, w) = (r, (set_ipam p' (set_heap (<[inst := i']> (m_heap m)) m), w')).
Proof. intros Hi E. unfold on_instance. by rewrite Hi, E. Qed.

(** The configuration that the pool gives is fit for the host. *)
Lemma room_config vmID m cfg cid p :
  room_for vmID m → Allocate vmID (m_netCfg m) (m_ipam m) = (Ok (cfg, cid), p) →
  validateNftConfig cfg = Ok tt ∧ NoDup (AllowedPorts cfg) ∧ TapName cfg ∉ T0 ∧ tap_fresh (TapName cfg) s0.
Proof.
  intros R Hall. destruct (room_pool _ _ R) as (Hwf & _). destruct (room_ports _ _ R) as [Hp Hnd].
  split; [by eapply allocated_config_valid; [..|apply (room_uplink _ _ R)|]|].
  destruct (allocate_inv _ _ _ _ _ _ Hwf Hall) as (k & x & y & _ & _ & _ & _ & _ & _ & _ & _ & -> & -> & _).
  split; [done|]. apply (room_tap _ _ R).
Qed.

Lemma provision_body_works ctx vmID m (w : W) :
  ctx_err ctx = None → validateVMID vmID = Ok tt → room_for vmID m → net_before fs T0 s0 w →
  ∃ inst m1 w1 cfg cid i, provision_body ctx vmID (m, w) = (Ok inst, (m1, w1)) ∧
    vm_up vmID m m1 cfg cid inst i ∧ net_after fs cfg T0 s0 w1 ∧ m_provision m1 = m_provision m.
Proof.
  intros Hc Hv0 R Hw. unfold provision_body. rewrite Hc.
  destruct (create_vm_works vmID m w Hv0 R) as (inst & m1 & E1). rewrite E1.
  destruct (create_succeeds _ _ _ _ _ _ E1) as (_ & _ & Hm1 & _ & _ & Hp1 & a & Hall & Hcl & Hrel & Hh1).
  destruct (room_config _ _ _ _ _ R Hall) as (Hv & Hnd & Ht & He). set (i := NewInstance _ _ _ _ _ _) in Hh1.
  assert (m_heap m1 !! inst = Some i) as Hi by by rewrite Hh1, lookup_insert_eq.
  assert (created_with fs (a_cfg a) a i) as Hcreated by (split_and!; [done..|apply (room_boot _ _ R)]).
  destruct (configure_works fs (a_cfg a) T0 s0 Hv Hnd Ht He ctx (m_ipam m1) i a w Hc Hcreated Hw)
    as (i2 & w2 & E2 & Hw2 & Hup2 & Hs2 & Hid2).
  rewrite (on_instance_works _ _ _ _ _ _ _ _ _ Hi E2). set (m2 := set_ipam _ _).
  assert (m_heap m2 !! inst = Some i2) as Hi2 by (cbn; by rewrite lookup_insert_eq).
  destruct (start_works fs (a_cfg a) T0 s0 ctx (m_ipam m2) i2 (a_cid a) w2 Hc Hup2 Hw2)
    as (i3 & w3 & E3 & Hw3 & Hup3 & Hs3 & Hid3).
  rewrite (on_instance_works _ _ _ _ _ _ _ _ _ Hi2 E3).
  eexists inst, _, w3, (a_cfg a), (a_cid a), i3. split; [done|]. split; [|done].
  split; cbn; [done|by rewrite lookup_insert_eq| |by rewrite Hs3, Hs2|done].
  by rewrite Hid3, Hid2.
Qed.

(** Provisioning succeeds when a slot is free. *)
Lemma provision_works ctx vmID m (w : W) :
  ctx_err ctx = None → validateVMID vmID = Ok tt → m_provision m < MaxConcurrentProvision (m_limits m) →
  room_for vmID m → net_before fs T0 s0 w →
  ∃ inst m1 w1 cfg cid i, ProvisionVM ctx vmID (m, w) = (Ok inst, (m1, w1)) ∧
    vm_up vmID m m1 cfg cid inst i ∧ net_after fs cfg T0 s0 w1.
Proof.
  intros Hc Hv Hslot R Hw. unfold ProvisionVM. rewrite (proj2 (Z.ltb_lt _ _) Hslot).
  assert (room_for vmID (set_provision (m_provision m + 1) m)) as R' by by destruct R; split.
  destruct (provision_body_works ctx vmID _ w Hc Hv R' Hw) as (inst & m1 & w1 & cfg & cid & i & -> & [] & Hw1 & _).
  by eexists inst, _, w1, cfg, cid, i.
Qed.

(** Destroying it gives everything back. *)
Lemma destroy_works ctx vmID m m1 (w1 : W) cfg cid inst i :
  ctx_err ctx = None → room_for vmID m → vm_up vmID m m1 cfg cid inst i → net_after fs cfg T0 s0 w1 →
  ∃ m2 w2, DestroyVM ctx vmID (m1, w1) = (Ok tt, (m2, w2)) ∧ net_before fs T0 s0 w2 ∧
    m_instances m2 = m_instances m ∧ m_ipam m2 = m_ipam m.
Proof.
  intros Hc R [He Hi [Hup _] Hs Hall] Hw. destruct (room_config _ _ _ _ _ R Hall) as (Hv & Hnd & Ht & Hf).
  unfold DestroyVM. rewrite He, lookup_insert_eq.
  destruct (stop_works fs cfg T0 s0 Hv Hnd Ht Hf ctx (m_ipam m1) i cid w1 Hc Hup) as (i2 & w2 & E & Hw2);
    [by rewrite Hs; apply (room_socket _ _ R)|done|].
  rewrite (on_instance_works _ _ _ _ _ _ _ _ _ Hi E). eexists _, w2. split; [done|]. split; [done|].
  unfold remove_entry. cbn. rewrite He, bool_decide_eq_true_2 by by rewrite lookup_insert_eq. cbn.
  split; [|by eapply release_undoes_allocate; [apply (room_pool _ _ R)|]].
  rewrite delete_insert_eq. by apply delete_id, (room_id _ _ R).
Qed.
End Managed.

(** ** The whole life of a sandbox *)

Section Cycle.
Context {W : Type} `{HealthyHost W} (fs : list string).
Context (T0 : gset string) (s0 : NftSets).

(** The job of a create event on the row that waits for it. *)
Lemma create_job_works now ev d m (w : W) s :
  sb_faults d = [] → sandboxes d !! ev_SandboxID ev = Some s → validateVMID (ev_VMID ev) = Ok tt →
  m_provision m < MaxConcurrentProvision (m_limits m) → room_for fs T0 s0 (ev_VMID ev) m → net_before fs T0 s0 w →
  ∃ m1 w1 cfg cid inst i, handleSandboxCreate now ev (d, (m, w)) =
      (Ok tt, (set_sandboxes (<[ev_SandboxID ev := with_status now "running" (with_status now "provisioning" s)]> (sandboxes d)) d,
               (m1, w1))) ∧
    vm_up (ev_VMID ev) m m1 cfg cid inst i ∧ net_after fs cfg T0 s0 w1.
Proof.
  intros Hf Hs Hv Hslot R Hw. unfold handleSandboxCreate. rewrite (update_status_ok _ _ _ _ s) by done.
  destruct (provision_works fs T0 s0 Background (ev_VMID ev) m w eq_refl Hv Hslot R Hw)
    as (inst & m1 & w1 & cfg & cid & i & -> & Hup & Hw1).
  rewrite (update_status_ok _ _ _ _ (with_status now "provisioning" s)); [|done|cbn; by rewrite lookup_insert_eq|done].
  eexists m1, w1, cfg, cid, inst, i. split; [|done]. do 2 f_equal. unfold set_sandboxes. cbn. by rewrite insert_insert_eq.
Qed.

(** The job of a destroy event on the VM that runs. *)
Lemma destroy_job_works now ev d m m1 (w1 : W) cfg cid inst i s :
  sb_faults d = [] → sandboxes d !! ev_SandboxID ev = Some s → room_for fs T0 s0 (ev_VMID ev) m →
  vm_up (ev_VMID ev) m m1 cfg cid inst i → net_after fs cfg T0 s0 w1 →
  ∃ m2 w2, handleSandboxDestroy now ev (d, (m1, w1)) =
      (Ok tt, (set_sandboxes (base.delete (ev_SandboxID ev) (sandboxes d)) d, (m2, w2))) ∧
    net_before fs T0 s0 w2 ∧ m_instances m2 = m_instances m ∧ m_ipam m2 = m_ipam m.
Proof.
  intros Hf Hs R Hup Hw. unfold handleSandboxDestroy.
  destruct (destroy_works fs T0 s0 Background _ _ _ _ _ _ _ _ eq_refl R Hup Hw) as (m2 & w2 & -> & Hw2).
  rewrite (update_status_ok _ _ _ _ s) by done. unfold sandboxRepo_Delete, DeleteSandbox. rewrite statement_ok by done.
  exists m2, w2. split; [|done]. do 2 f_equal. unfold set_sandboxes. cbn. by rewrite delete_insert_eq.
Qed.

End Cycle.

Lemma get_own_sandbox userID id d s :
  userID ≠ 0 → id ≠ 0 → sb_faults d = [] → sandboxes d !! id = Some s → sb_UserID s = userID →
  svc_Get userID id d = (Ok s, d).
Proof.
  intros Hu Hid Hf Hs <-. unfold svc_Get, sandboxRepo_GetByID, GetSandboxByID.
  destruct (Z.eqb_spec (sb_UserID s) 0); [done|]. destruct (Z.eqb_spec id 0); [done|].
  rewrite statement_ok by done. unfold one_row. by rewrite Hs, Z.eqb_refl.
Qed.

Section Requests.
Context `{UnicodeCase} {B : Type} (bus : option (string → LifecycleEvent → string → ST B unit)).

Lemma accepted_create newID vmUUID now userID req d b s d1 b1 :
  sb_faults d = [] → svc_Create bus true newID vmUUID now userID req (d, b) = (Ok s, (d1, b1)) →
  userID ≠ 0 ∧ sandboxes d !! newID = None ∧ d1 = set_sandboxes (<[newID := s]> (sandboxes d)) d ∧
  sb_ID s = newID ∧ sb_UserID s = userID ∧ sb_VmID s = newVMID vmUUID.
Proof.
  intros Hf. unfold svc_Create. destruct (Z.eqb_spec userID 0); [done|]. cbn [negb].
  destruct (validateCreateRequest _); [|done]. unfold sandboxRepo_Create, CreateSandbox. rewrite statement_ok by done.
  destruct (negb _); [done|]. destruct (vm_id_taken _ _); [done|]. destruct (negb _); [done|].
  destruct (_ || _); [done|]. case_bool_decide as Hn; [done|]. rewrite <- eq_None_not_Some in Hn.
  destruct (DispatchCreate _ _ _) as [[[]|e] b2]; [by intros [= <- <- <-]|].
  by destruct (sandboxRepo_UpdateStatus _ _ _ _) as [[] ?].
Qed.

Lemma accepted_delete now userID id s d b b1 :
  userID ≠ 0 → id ≠ 0 → sb_faults d = [] → sandboxes d !! id = Some s → sb_ID s = id → sb_UserID s = userID →
  DispatchDestroy bus (mkLifecycleEvent id userID (sb_VmID s)) b = (Ok tt, b1) →
  svc_Delete bus true now userID id (d, b) =
    (Ok tt, (set_sandboxes (<[id := with_status now "stopping" s]> (sandboxes d)) d, b1)).
Proof.
  intros Hu Hid Hf Hs HsID Hsu Hb. unfold svc_Delete. destruct (Z.eqb_spec userID 0); [done|]. cbn [negb].
  rewrite (get_own_sandbox _ _ _ s) by done. rewrite HsID, (update_status_ok _ _ _ _ s) by done. by rewrite Hb.
Qed.
End Requests.

(** C19: On a host that works, with room for one more VM and a database and a
    bus that answer: once a creation is accepted, its job brings the VM up and
    the owner sees the sandbox running; the deletion is then accepted, and its
    job removes the row and leaves the VM map, the address pool, the TAP
    devices and the firewall as they were before the sandbox. *)
Theorem sandbox_full_cycle `{HealthyHost W} `{UnicodeCase} {B} (bus : option (string → LifecycleEvent → string → ST B unit))
    fs T0 s0 t0 t1 t2 t3 newID vmUUID userID req d b s d1 b1 b2 m (w : W) :
  sb_faults d = [] → newID ≠ 0 →
  m_provision m < MaxConcurrentProvision (m_limits m) → room_for fs T0 s0 (newVMID vmUUID) m → net_before fs T0 s0 w →
  svc_Create bus true newID vmUUID t0 userID req (d, b) = (Ok s, (d1, b1)) →
  let ev := mkLifecycleEvent newID userID (newVMID vmUUID) in
  DispatchDestroy bus ev b1 = (Ok tt, b2) →
  ∃ d2 d3 d4 m2 m4 w2 w4 s2 inst i,
    consume (handleSandboxCreate t1) (Some ev) (d1, (m, w)) = (Ack, (d2, (m2, w2))) ∧
    svc_Get userID newID d2 = (Ok s2, d2) ∧ sb_Status s2 = "running" ∧
    m_instances m2 !! newVMID vmUUID = Some inst ∧ m_heap m2 !! inst = Some i ∧ i_state i = StateRunning ∧
    svc_Delete bus true t2 userID newID (d2, b1) = (Ok tt, (d3, b2)) ∧
    consume (handleSandboxDestroy t3) (Some ev) (d3, (m2, w2)) = (Ack, (d4, (m4, w4))) ∧
    sandboxes d4 = sandboxes d ∧ m_instances m4 = m_instances m ∧ m_ipam m4 = m_ipam m ∧ net_before fs T0 s0 w4.
Proof.
  intros Hf HnewID Hslot R Hw Hcr ev Hbus.
  destruct (accepted_create _ _ _ _ _ _ _ _ _ _ _ Hf Hcr) as (Hu & Hn & -> & Hid & Hsu & Hvm).
  destruct (create_job_works fs T0 s0 t1 ev (set_sandboxes (<[newID := s]> (sandboxes d)) d) m w s Hf)
    as (m2 & w2 & cfg & cid & inst & i & E2 & Hup & Hw2); [cbn; by rewrite lookup_insert_eq|apply newVMID_valid|done..|].
  set (s2 := with_status t1 "running" _) in E2. match type of E2 with _ = (_, (?x, _)) => set (d2 := x) in E2 end.
  assert (sandboxes d2 !! newID = Some s2) as Hs2 by (cbn; by rewrite lookup_insert_eq).
  assert (DispatchDestroy bus (mkLifecycleEvent newID userID (sb_VmID s2)) b1 = (Ok tt, b2)) as Hb by (cbn; by rewrite Hvm).
  pose proof (accepted_delete bus t2 userID newID s2 d2 b1 b2 Hu HnewID Hf Hs2 Hid Hsu Hb) as E3.
  set (d3 := set_sandboxes _ d2) in E3.
  destruct (destroy_job_works fs T0 s0 t3 ev d3 m m2 w2 cfg cid inst i (with_status t2 "stopping" s2) Hf)
    as (m4 & w4 & E4 & Hw4 & Hm4 & Hp4); [cbn; by rewrite lookup_insert_eq|done..|].
  exists d2, d3. eexists _, m2, m4, w2, w4, s2, inst, i. destruct Hup as [He Hi [[Hst _] _] _ _].
  unfold consume. rewrite E2, E4, E3, He, lookup_insert_eq. split_and!; try done; [by apply get_own_sandbox|].
  cbn. by rewrite !insert_insert_eq, delete_insert_id.
Qed.

(** ** The simulated host works *)

Lemma sim_op_works {A} op (f : SimHost → result A * SimHost) w : sim_broken w = ∅ → sim_op op f w = f w.
Proof. intros E. unfold sim_op, sim_fails. rewrite E. by rewrite bool_decide_eq_false_2 by set_solver. Qed.
Definition sim_well (fs : list string) (w : SimHost) : Prop :=
  sim_broken w = ∅ ∧ Forall (λ f, sim_files w !! f = Some RegularFile) fs.

#[export] Instance sim_healthy : HealthyHost SimHost.
Proof.
  refine {| healthy := sim_well |}; cbn; intros fs; intros; unfold same_net;
    match goal with Hw : sim_well _ _ |- _ => destruct Hw as [Hb Hfs] end;
    repeat match goal with Hc : ctx_err _ = None |- _ => rewrite Hc; clear Hc end;
    rewrite ?sim_op_works by done; unfold sim_fails; rewrite ?Hb, ?(bool_decide_eq_false_2 (_ ∈ ∅)) by set_solver.
  all: try by repeat eexists.
  - rewrite bool_decide_eq_false_2 by done. by repeat eexists.
  - rewrite bool_decide_eq_true_2 by done. by repeat eexists.
  - repeat match goal with E : _ = Some _ |- _ => rewrite E; cbn; clear E end. by repeat eexists.
  - match goal with Hin : _ ∈ fs |- _ => rewrite (proj1 (Forall_forall _ _) Hfs _ Hin) end. by repeat eexists.
  - destruct (sim_files w !! path) as [k|]; [|by eexists _, _; split; [done|]; split; [by right|]].
    eexists _, _. split; [done|]. split; [by left|]. split; [|done]. split; [done|]. cbn.
    apply Forall_forall. intros f Hf. rewrite lookup_delete_ne by (intros ->; done).
    by apply (proj1 (Forall_forall _ _) Hfs).
Defined.

(** ** A sandbox of user 2 on the simulated host *)

Definition cycle_event : LifecycleEvent := mkLifecycleEvent 10 2 (newVMID 3).
Lemma demo_room : room_for ["/k"; "/r"] ∅ [] (newVMID 3) demo_manager.
Proof.
  split; [vm_compute; reflexivity|done|split; [apply new_pool_wf|done]|done|
    split; [done|by apply (bool_decide_unpack _); vm_compute]| |by apply (bool_decide_unpack _); vm_compute|split;
        [set_solver|constructor]].
  split; [vm_compute; reflexivity|done|vm_compute; reflexivity|split; set_solver].
Qed.
Lemma sandbox_full_cycle_witness :
  is_ok created.1 = true ∧
  ∃ d2 d4 m2 m4 w2 w4 d3, consume (handleSandboxCreate 6) (Some cycle_event) (created.2.1, (demo_manager, demo_host))
      = (Ack, (d2, (m2, w2))) ∧
    consume (handleSandboxDestroy 8) (Some cycle_event) (d3, (m2, w2)) = (Ack, (d4, (m4, w4))) ∧
    sandboxes d4 = {[9 := pending_row]} ∧ m_ipam m4 = NewIPAMPool ∧ taps w4 = ∅.
Proof.
  split; [vm_compute; reflexivity|]. destruct created as [[s|e] [d1 b1]] eqn:E; [|by vm_compute in E].
  destruct (@sandbox_full_cycle SimHost _ _ _ ascii_case _ list_bus ["/k"; "/r"] ∅ [] 5 6 7 8 10 3 2
    (mkCreateRequest "" 0 0 0 ["Example.COM"]) one_sandbox [] s d1 b1 (b1 ++ [cycle_event]) demo_manager demo_host)
    as (d2 & d3 & d4 & m2 & m4 & w2 & w4 & s2 & inst & i & E2 & _ & _ & _ & _ & _ & _ & E4 & Hd & _ & Hp & _ & Ht & _).
  - reflexivity.
  - done.
  - vm_compute. reflexivity.
  - apply demo_room.
  - split; [split; [reflexivity|by repeat constructor]|done].
  - exact E.
  - reflexivity.
  - exists d2, d4, m2, m4, w2, w4, d3. split; [exact E2|]. split; [exact E4|]. split; [exact Hd|]. split; [exact Hp|exact Ht].
Defined.
