(* ===== verification/OutboxDelivery.v ===== *)
(** * platform/outbox and adapters/nats: delivery at least once

    Any number of relays work on one table while services enqueue events and
    operators redrive quarantined ones; a relay may stop at any point between
    two of its calls, the database may fail, and the bus may answer as
    JetStream documents it.  This file shows that the table, the relays and
    the bus together implement a mailbox: what is marked published has
    arrived as it was written, nothing else arrives, and no event is lost. *)

From stdpp Require Import sorting.
From S2P Require Import Prelude GoStrings AppErrors Outbox OutboxRelay Ids.
Open Scope Z_scope.

(** ** The specification: a mailbox *)

(** What the sender wrote.  A message that carries it has the same subject,
    data and id; its header has the keys without surrounding white space, set
    in some order. *)
Record Letter := mkLetter { l_Subject : string; l_Data : string; l_Headers : gmap string string; l_ID : string }.
Definition carries (m : NatsMsg) (l : Letter) : Prop :=
  msg_Subject m = l_Subject l ∧ msg_Data m = l_Data l ∧ msg_ID m = Some (l_ID l) ∧
  ∃ pairs, pairs ≡ₚ map_to_list (l_Headers l) ∧ msg_Header m = nats_header pairs.
(** No two of its header keys are equal when they are trimmed. *)
Definition keys_apart (l : Letter) : Prop := NoDup (TrimSpace <$> (map_to_list (l_Headers l)).*1).

Lemma nats_header_spec pairs k v :
  NoDup (TrimSpace <$> pairs.*1) →
  nats_header pairs !! k = Some v ↔ k ≠ "" ∧ ∃ key, TrimSpace key = k ∧ (key, v) ∈ pairs.
Proof.
  unfold nats_header. induction pairs as [|[key value] pairs IH] using rev_ind.
  { intros _. cbn. split; [done|]. by intros (_ & key & _ & ?%elem_of_nil). }
  rewrite foldl_app, !fmap_app, NoDup_app. intros (Hnd & Hnew & _). specialize (IH Hnd).
  assert (∀ k', (k', v) ∈ pairs ++ [(key, value)] ↔ (k', v) ∈ pairs ∨ k' = key ∧ v = value) as Hsplit.
  { intros k'. rewrite elem_of_app, list_elem_of_singleton. split; intros [?|E]; auto; [by injection E as -> ->; auto|].
    destruct E as [-> ->]. auto. }
  cbn [foldl]. destruct (bool_decide (TrimSpace key = "")) eqn:Hb.
  - apply bool_decide_eq_true_1 in Hb. rewrite IH. split; intros (Hk & k' & Et & Hin); (split; [done|]); exists k'; (split; [done|]).
    + apply Hsplit. auto.
    + apply Hsplit in Hin as [?|[-> _]]; [done|]. congruence.
  - apply bool_decide_eq_false_1 in Hb. destruct (decide (TrimSpace key = k)) as [<-|Hne].
    + rewrite lookup_insert_eq. split.
      * intros [= <-]. split; [done|]. exists key. split; [done|]. apply Hsplit. auto.
      * intros (_ & k' & Et & [Hin|[_ ->]]%Hsplit); [|done]. exfalso.
        apply (Hnew (TrimSpace key)); [|by left]. rewrite <- Et. apply list_elem_of_fmap_2, list_elem_of_fmap. by exists (k', v).
    + rewrite lookup_insert_ne, IH by done. split; intros (Hk & k' & Et & Hin); (split; [done|]); exists k'; (split; [done|]).
      * apply Hsplit. auto.
      * apply Hsplit in Hin as [?|[-> _]]; [done|]. congruence.
Qed.
(** Then the letter determines the message. *)
Lemma carries_unique m m' l : keys_apart l → carries m l → carries m' l → m = m'.
Proof.
  intros Hl (Hs & Hd & Hi & ps & Hps & Hh) (Hs' & Hd' & Hi' & ps' & Hps' & Hh').
  destruct m, m'. cbn in *. f_equal; [congruence|congruence| |congruence]. subst.
  apply map_eq. intros k. apply option_eq. intros v. rewrite !nats_header_spec by (unfold keys_apart in Hl; by rewrite ?Hps, ?Hps').
  by setoid_rewrite Hps; setoid_rewrite Hps'.
Qed.

Record Mailbox := mkMailbox {
  sent : gmap Z Letter;        (** by event id *)
  arrived : list NatsMsg;
  acknowledged : gset Z;
}.

Definition is_uuid (u : Z) : Prop := 0 ≤ u < 2 ^ 128.

(** A letter carries the id of its event. *)
Inductive mailbox_step : Mailbox → Mailbox → Prop :=
  | mb_send id l b : is_uuid id → l_ID l = uuid_String id → sent b !! id = None →
      mailbox_step b (mkMailbox (<[id := l]> (sent b)) (arrived b) (acknowledged b))
  | mb_arrive id l m b : sent b !! id = Some l → carries m l →
      mailbox_step b (mkMailbox (sent b) (arrived b ++ [m]) (acknowledged b))
  | mb_acknowledge id l m b : sent b !! id = Some l → m ∈ arrived b → carries m l →
      mailbox_step b (mkMailbox (sent b) (arrived b) ({[id]} ∪ acknowledged b)).

Definition empty_mailbox : Mailbox := mkMailbox ∅ [] ∅.

(** What a mailbox promises. *)
Record mailbox_ok (b : Mailbox) : Prop := {
  mo_ids : ∀ id l, sent b !! id = Some l → is_uuid id ∧ l_ID l = uuid_String id;
  mo_arrived : ∀ m, m ∈ arrived b → ∃ id l, sent b !! id = Some l ∧ carries m l;
  mo_acknowledged : ∀ id, id ∈ acknowledged b → ∃ l m, sent b !! id = Some l ∧ m ∈ arrived b ∧ carries m l;
}.

Lemma mailbox_step_ok b b' : mailbox_step b b' → mailbox_ok b → mailbox_ok b'.
Proof.
  intros [id l b1 Hu Hm Hn|id l m b1 Hs Hc|id l m b1 Hs Hm Hc] [Hids Ha Hk]; split; cbn; try done.
  - intros id' l' [[<- <-]|[_ ?]]%lookup_insert_Some; eauto.
  - intros m' (id' & l' & Hid & Hc)%Ha. exists id', l'. rewrite lookup_insert_ne; [done|]. by intros ->; rewrite Hn in Hid.
  - intros id' (l' & m' & Hid & ?)%Hk. exists l', m'. rewrite lookup_insert_ne; [done|]. by intros ->; rewrite Hn in Hid.
  - intros m' [?|E%list_elem_of_singleton]%elem_of_app; [eauto|]. subst. eauto.
  - intros id' (l' & m' & Hid & ? & ?)%Hk. exists l', m'. rewrite elem_of_app. auto.
  - intros id' [E%elem_of_singleton|?]%elem_of_union; [|eauto]. subst. eauto.
Qed.

(** A consumer that keeps one message per message id has one per event. *)
Lemma mailbox_ids_distinguish b id id' l l' :
  mailbox_ok b → sent b !! id = Some l → sent b !! id' = Some l' → l_ID l = l_ID l' → id = id' ∧ l = l'.
Proof.
  intros Hok Hm Hm' E. destruct (mo_ids b Hok _ _ Hm) as [Hu Ei], (mo_ids b Hok _ _ Hm') as [Hu' Ei'].
  rewrite Ei, Ei' in E. apply uuid_String_inj in E; [|done|done]. subst id'. split; [done|]. congruence.
Qed.

(** ** The implementation *)

(** How JetStream answers [PublishMsg]: the message is stored and
    acknowledged; it is acknowledged and dropped when the stream has a message
    with its [Nats-Msg-Id]; or there is an error, with the message stored or
    not. *)
Inductive Answer :=
  | Stored
  | Deduplicated
  | Unacknowledged (text : string)
  | Unreachable (text : string).

Definition has_id (m : NatsMsg) (m' : NatsMsg) : bool :=
  bool_decide (msg_ID m ≠ None ∧ msg_ID m' = msg_ID m).
Definition PublishMsg (a : Answer) (m : NatsMsg) (bus : list NatsMsg) : option string * list NatsMsg :=
  match a with
  | Stored => (None, bus ++ [m])
  | Deduplicated => (None, if existsb (has_id m) bus then bus else bus ++ [m])
  | Unacknowledged text => (Some text, bus ++ [m])
  | Unreachable text => (Some text, bus)
  end.

(** A relay inside [RunOnce]: about to publish the first of its events, or
    about to record what the bus answered. *)
Inductive Phase :=
  | Claimed (todo : list Event)
  | Tried (ev : Event) (answer : option PublishError) (todo : list Event).

Record World := mkWorld {
  w_db : DB;
  w_bus : list NatsMsg;
  w_relays : gmap nat (string * Phase);      (** the owner of each running relay *)
  w_enqueued : gmap Z Event;                 (** what was enqueued, under the id that was answered *)
}.

(** The second half of [processEvent]: what the relay writes to the table. *)
Definition record_answer (owner : string) (now : Z) (ev : Event) (answer : option PublishError) : ST (option DB) unit :=
  match answer with
  | None => MarkPublished now (e_ID ev) owner
  | Some err =>
      let '(class, code) := classifyPublishError (Some err) in
      match class with
      | publishErrorPermanent => Quarantine now (e_ID ev) owner code (pe_text err)
      | _ => Release now (e_ID ev) owner (now + retryDelay (e_PublishFailures ev)) (pe_text err)
      end
  end.
(** The first half: the call of the publisher. *)
Definition publish_event {B} (publish : Publisher (B := B)) (ev : Event) (b : B) : option PublishError * B :=
  publish (e_Subject ev) (default "" (e_Payload ev)) (event_headers ev) (uuid_String (e_ID ev)) b.

Lemma processEvent_halves {B} (publish : Publisher (B := B)) owner now ev d b :
  processEvent publish owner now ev (d, b) =
    let '(answer, b) := publish_event publish ev b in
    let '(r, d) := record_answer owner now ev answer d in (r, (d, b)).
Proof.
  unfold processEvent, publish_event, record_answer. destruct (publish _ _ _ _ b) as [[err|] b1]; [|done].
  destruct (classifyPublishError (Some err)) as [[] code]; done.
Qed.

(** One step of anyone.  [dl_stop] is a relay that is done, gives up or
    crashes; a statement whose answer the relay never saw is [dl_claim] or
    [dl_record] followed by it. *)
Inductive delivery_step `{Jsonb} : World → World → Prop :=
  | dl_enqueue jv uid now ev r d' w :
      is_uuid uid → is_uuid (e_ID ev) → enqueue jv uid now ev (Some (w_db w)) = (r, Some d') →
      delivery_step w (mkWorld d' (w_bus w) (w_relays w)
        (match r with Ok id => <[id := ev]> (w_enqueued w) | Err _ => w_enqueued w end))
  | dl_redrive now id at_ r d' w :
      Redrive now id at_ (Some (w_db w)) = (r, Some d') →
      delivery_step w (mkWorld d' (w_bus w) (w_relays w) (w_enqueued w))
  | dl_database down w :
      delivery_step w (mkWorld (mkDB (events (w_db w)) down) (w_bus w) (w_relays w) (w_enqueued w))
  | dl_claim k now skipped owner evs d' w :
      w_relays w !! k = None →
      ClaimBatch now skipped owner 100 (now - Minute) (Some (w_db w)) = (Ok evs, Some d') →
      delivery_step w (mkWorld d' (w_bus w) (<[k := (owner, Claimed evs)]> (w_relays w)) (w_enqueued w))
  | dl_publish k a order client owner ev evs answer bus' w :
      w_relays w !! k = Some (owner, Claimed (ev :: evs)) → visits_all order →
      publish_event (nats_Publish (PublishMsg a) order client) ev (w_bus w) = (answer, bus') →
      delivery_step w (mkWorld (w_db w) bus' (<[k := (owner, Tried ev answer evs)]> (w_relays w)) (w_enqueued w))
  | dl_record k now owner ev answer evs r d' w :
      w_relays w !! k = Some (owner, Tried ev answer evs) →
      record_answer owner now ev answer (Some (w_db w)) = (r, Some d') →
      delivery_step w (mkWorld d' (w_bus w)
        (if is_ok r then <[k := (owner, Claimed evs)]> (w_relays w) else delete k (w_relays w)) (w_enqueued w))
  | dl_stop k w :
      delivery_step w (mkWorld (w_db w) (w_bus w) (delete k (w_relays w)) (w_enqueued w)).

(** ** The abstraction *)

(** The letter that an event, or a row, stands for. *)
Definition letter_of (ev : Event) : Letter :=
  mkLetter (TrimSpace (e_Subject ev)) (default "" (e_Payload ev)) (event_headers ev) (uuid_String (e_ID ev)).
Definition row_letter (id : Z) (row : Row) : Letter := letter_of (event_of_row id row).
(** The letter of an event that was enqueued under [id]: its subject and
    aggregate type trimmed, its payload and headers as the column gives them
    back. *)
Definition stored_letter `{Jsonb} (id : Z) (ev : Event) : option Letter :=
  match e_Payload ev ≫= jsonb, stored_headers (e_Headers ev) with
  | Some data, Some hs => Some (letter_of
      (mkEvent id (TrimSpace (e_Subject ev)) (TrimSpace (e_AggregateType ev)) (e_AggregateID ev) (Some data) hs 0 0 0 0))
  | _, _ => None
  end.

Definition row_view (id : Z) (row : Row) : Letter * bool :=
  (row_letter id row, negb (bool_decide (published_at row = None))).
Definition table_view (t : gmap Z Row) : gmap Z (Letter * bool) := map_imap (λ id row, Some (row_view id row)) t.
Definition mailbox_at (d : DB) (bus : list NatsMsg) : Mailbox :=
  let v := table_view (events d) in mkMailbox (fst <$> v) bus (dom (filter (λ x, x.2.2 = true) v)).
Definition mailbox_of (w : World) : Mailbox := mailbox_at (w_db w) (w_bus w).

Lemma uuid_String_given u : uuid_String u ≠ "".
Proof. intros E. pose proof (uuid_String_length u) as Hl. by rewrite E in Hl. Qed.

Lemma publish_event_inv a order client ev bus answer bus' :
  visits_all order → publish_event (nats_Publish (PublishMsg a) order client) ev bus = (answer, bus') →
  (∃ m, bus' = bus ++ [m] ∧ carries m (letter_of ev)) ∨
  (bus' = bus ∧ (answer = None → ∃ m, m ∈ bus ∧ msg_ID m = Some (l_ID (letter_of ev)))).
Proof.
  intros Ho. unfold publish_event, nats_Publish. destruct client; cbn [negb]; [|intros [= <- <-]; by right].
  case_bool_decide; [intros [= <- <-]; by right|].
  destruct (maxMessageSize <? _); [intros [= <- <-]; by right|].
  rewrite uuid_String_trimmed, bool_decide_eq_false_2 by apply uuid_String_given.
  set (m := mkNatsMsg _ _ _ _). assert (carries m (letter_of ev)) as Hm.
  { split_and!; try done. eexists. split; [apply Ho|done]. }
  destruct a as [| |text|text]; cbn [PublishMsg];
    [intros [= <- <-]; by left; exists m| |intros [= <- <-]; by left; exists m|intros [= <- <-]; by right].
  destruct (existsb _ bus) eqn:E; intros [= <- <-]; [right|by left; exists m]. split; [done|]. intros _.
  apply existsb_exists in E as (m' & Hm' & [_ Hid]%bool_decide_eq_true). exists m'.
  split; [by apply list_elem_of_In|exact Hid].
Qed.

(** *** What the statements do to the view *)

Lemma table_view_lookup t id : table_view t !! id = row_view id <$> t !! id.
Proof. unfold table_view. rewrite map_lookup_imap. by destruct (t !! id). Qed.
Lemma table_view_insert t id row : table_view (<[id := row]> t) = <[id := row_view id row]> (table_view t).
Proof.
  apply map_eq. intros i. rewrite table_view_lookup.
  destruct (decide (id = i)) as [->|]; [by rewrite !lookup_insert_eq|]. by rewrite !lookup_insert_ne, table_view_lookup.
Qed.

(** A statement that changes neither a message nor a publication. *)
Definition quiet (d d' : DB) : Prop := table_view (events d') = table_view (events d).

Lemma update_where_quiet id cond f fmt lost r d d' :
  update_where id cond f fmt lost (Some d) = (r, Some d') →
  (∀ row, row_view id (f row) = row_view id row) → quiet d d'.
Proof.
  intros E Hf. unfold quiet. destruct (update_where_inv _ _ _ _ _ _ _ _ E) as [[-> _]|(row & Hid & _ & _ & ->)]; [done|].
  cbn. rewrite table_view_insert, Hf. apply insert_id. by rewrite table_view_lookup, Hid.
Qed.
Lemma claim_quiet now skipped owner limit stale r d d' :
  ClaimBatch now skipped owner limit stale (Some d) = (r, Some d') → quiet d d'.
Proof.
  intros E. unfold quiet. destruct (claim_inv _ _ _ _ _ _ _ _ E) as [[-> _]|(_ & _ & _ & ->)]; [done|].
  apply map_eq. intros id. rewrite !table_view_lookup. cbn. rewrite claim_rows_lookup by apply candidates_nodup.
  destruct (decide _); [|done]. by destruct (events d !! id).
Qed.
Lemma redrive_quiet now id at_ r d d' : Redrive now id at_ (Some d) = (r, Some d') → quiet d d'.
Proof. intros E. by eapply update_where_quiet. Qed.
Lemma refusal_quiet owner now ev err r d d' :
  record_answer owner now ev (Some err) (Some d) = (r, Some d') → quiet d d'.
Proof.
  unfold record_answer. destruct (classifyPublishError _) as [[] code]; intros E; try by eapply update_where_quiet.
  revert E. unfold Quarantine. destruct (_ || _); [by intros [= <- <-]|]. intros E. by eapply update_where_quiet.
Qed.

(** *** The simulation *)

Lemma mailbox_at_quiet d d' bus : quiet d d' → mailbox_at d' bus = mailbox_at d bus.
Proof. intros E. unfold mailbox_at. by rewrite E. Qed.

(** What was enqueued is what the table holds. *)
Definition written `{Jsonb} (enqueued : gmap Z Event) (b : Mailbox) : Prop :=
  ∀ id, stored_letter id <$> enqueued !! id = Some <$> sent b !! id.

Lemma mailbox_at_enqueue `{Jsonb} jv uid now ev r d d' bus enqueued :
  enqueue jv uid now ev (Some d) = (r, Some d') → is_uuid uid → is_uuid (e_ID ev) → written enqueued (mailbox_at d bus) →
  rtc mailbox_step (mailbox_at d bus) (mailbox_at d' bus) ∧
  written (match r with Ok id => <[id := ev]> enqueued | Err _ => enqueued end) (mailbox_at d' bus).
Proof.
  intros [[-> Hr]|(id & at_ & text & st & hs & -> & Hid & Hp & Hj & Hh & _ & Hn & ->)]%enqueue_inv Hu He Hw;
    [by destruct r|].
  set (row := new_row now at_ ev st hs).
  assert (is_uuid id) as Hi by (subst id; by destruct (e_ID ev =? 0)).
  assert (mailbox_at (set_events (<[id := row]> (events d)) d) bus =
    mkMailbox (<[id := row_letter id row]> (sent (mailbox_at d bus))) bus (acknowledged (mailbox_at d bus))) as E.
  { unfold mailbox_at. cbn. rewrite table_view_insert, fmap_insert. f_equal.
    rewrite map_filter_insert_not' by (done || by rewrite table_view_lookup, Hn). done. }
  rewrite E. split.
  - apply rtc_once, (mb_send id (row_letter id row) (mailbox_at d bus)); [done|done|].
    cbn. by rewrite lookup_fmap, table_view_lookup, Hn.
  - intros k. cbn [sent]. destruct (decide (id = k)) as [<-|Hne]; [|rewrite !lookup_insert_ne by done; apply Hw].
    rewrite !lookup_insert_eq. cbn. unfold stored_letter. rewrite Hp. cbn. by rewrite Hj, Hh.
Qed.

Lemma mailbox_at_mark now id owner r d d' bus :
  MarkPublished now id owner (Some d) = (r, Some d') →
  mailbox_at d' bus = mailbox_at d bus ∨
  mailbox_at d' bus = let b := mailbox_at d bus in mkMailbox (sent b) (arrived b) ({[id]} ∪ acknowledged b).
Proof.
  intros [[-> _]|(row & Hid & Hc & _ & ->)]%update_where_inv; [by left|right].
  apply claimed_by_true in Hc as (Hp & _ & _). unfold mailbox_at. cbn. rewrite table_view_insert. f_equal.
  - rewrite fmap_insert. apply insert_id. by rewrite lookup_fmap, table_view_lookup, Hid.
  - unfold row_view. cbn. rewrite map_filter_insert_True by done. by rewrite dom_insert_L.
Qed.

(** An event in the hands of a relay is an event of the table. *)
Definition known (b : Mailbox) (ev : Event) : Prop := sent b !! e_ID ev = Some (letter_of ev).
Definition phase_ok (b : Mailbox) (p : Phase) : Prop :=
  match p with
  | Claimed evs => Forall (known b) evs
  | Tried ev answer evs =>
      known b ev ∧ (answer = None → ∃ m, m ∈ arrived b ∧ carries m (letter_of ev)) ∧ Forall (known b) evs
  end.

Record delivery_inv `{Jsonb} (w : World) : Prop := {
  di_mailbox : mailbox_ok (mailbox_of w);
  di_relays : ∀ k owner p, w_relays w !! k = Some (owner, p) → phase_ok (mailbox_of w) p;
  di_written : written (w_enqueued w) (mailbox_of w);
}.

Lemma phase_ok_step b b' p : mailbox_step b b' → phase_ok b p → phase_ok b' p.
Proof.
  intros Hst. assert (∀ ev, known b ev → known b' ev) as Hk.
  { unfold known. intros ev. destruct Hst; cbn; try done. intros E. rewrite lookup_insert_ne; [done|]. congruence. }
  assert (∀ m, m ∈ arrived b → m ∈ arrived b') as Ha by (destruct Hst; cbn; set_solver).
  destruct p as [evs|ev answer evs]; cbn; [intros; by eapply Forall_impl|].
  intros (? & Hm & ?). split_and!; [by apply Hk| |by eapply Forall_impl].
  intros (m & ? & ?)%Hm. exists m. auto.
Qed.
Lemma phase_ok_steps b b' p : rtc mailbox_step b b' → phase_ok b p → phase_ok b' p.
Proof. induction 1; eauto using phase_ok_step. Qed.
Lemma mailbox_steps_ok b b' : rtc mailbox_step b b' → mailbox_ok b → mailbox_ok b'.
Proof. induction 1; eauto using mailbox_step_ok. Qed.

(** The events of a claim are those of the table. *)
Lemma claim_known now skipped owner limit stale evs d d' bus :
  ClaimBatch now skipped owner limit stale (Some d) = (Ok evs, Some d') → Forall (known (mailbox_at d bus)) evs.
Proof.
  intros E. destruct (claim_inv _ _ _ _ _ _ _ _ E) as [[_ ?]|(_ & _ & [= ->] & _)]; [done|].
  apply Forall_fmap, Forall_forall. intros [id row] (Hid & _)%candidates_in. unfold known. cbn in Hid |- *.
  by rewrite lookup_fmap, table_view_lookup, Hid.
Qed.

(** A step of the implementation is a step of the mailbox, or none. *)
Lemma delivery_simulates `{Jsonb} w w' :
  delivery_step w w' → delivery_inv w →
  rtc mailbox_step (mailbox_of w) (mailbox_of w') ∧ written (w_enqueued w') (mailbox_of w').
Proof.
  intros Hst [_ Hrel Hw]. unfold mailbox_of in *.
  destruct Hst as [jv uid now ev r d' w Hu He E|now id at_ r d' w E|down w|k now sk owner evs d' w Hk E
                  |k a order client owner ev evs answer bus' w Hk Ho E|k now owner ev answer evs r d' w Hk E|k w];
    cbn [w_db w_bus w_relays w_enqueued].
  - by eapply mailbox_at_enqueue.
  - apply redrive_quiet in E. by rewrite (mailbox_at_quiet _ _ _ E).
  - done.
  - apply claim_quiet in E. by rewrite (mailbox_at_quiet _ _ _ E).
  - destruct (publish_event_inv _ _ _ _ _ _ _ Ho E) as [(m & -> & Hm)|[-> _]]; [|done]. split; [|exact Hw].
    apply rtc_once, (mb_arrive (e_ID ev) (letter_of ev) m (mailbox_at (w_db w) (w_bus w))); [|done].
    pose proof (Hrel _ _ _ Hk) as [Hev _]%Forall_cons. exact Hev.
  - destruct answer as [err|].
    { apply refusal_quiet in E. by rewrite (mailbox_at_quiet _ _ _ E). }
    destruct (mailbox_at_mark _ _ _ _ _ _ (w_bus w) E) as [->| ->]; [done|]. split; [|exact Hw].
    destruct (Hrel _ _ _ Hk) as (Hev & Ha & _). destruct (Ha eq_refl) as (m & Hm & Hc). apply rtc_once. by eapply mb_acknowledge.
  - done.
Qed.

Lemma delivery_step_inv `{Jsonb} w w' : delivery_step w w' → delivery_inv w → delivery_inv w'.
Proof.
  intros Hst Hinv. destruct (delivery_simulates _ _ Hst Hinv) as [Hsim Hw']. destruct Hinv as [Hok Hrel _].
  assert (∀ k owner p, w_relays w !! k = Some (owner, p) → phase_ok (mailbox_of w') p) as Hold
    by eauto using phase_ok_steps.
  split; [by eapply mailbox_steps_ok| |done]. clear Hw'. unfold mailbox_of in *.
  destruct Hst as [jv uid now ev r d' w Hu He E|now id at_ r d' w E|down w|k now sk owner evs d' w Hk E
                  |k a order client owner ev evs answer bus' w Hk Ho E|k now owner ev answer evs r d' w Hk E|k w];
    cbn [w_db w_bus w_relays] in *; try exact Hold.
  - intros k' o p [[<- [= <- <-]]|[_ ?]]%lookup_insert_Some; [|by eapply Hold].
    rewrite (mailbox_at_quiet _ _ _ (claim_quiet _ _ _ _ _ _ _ _ E)). by eapply claim_known.
  - intros k' o p [[<- [= <- <-]]|[_ ?]]%lookup_insert_Some; [|by eapply Hold].
    pose proof (Hold _ _ _ Hk) as [Hev Hevs]%Forall_cons. split_and!; [done| |done]. intros ->.
    destruct (publish_event_inv _ _ _ _ _ _ _ Ho E) as [(m & -> & Hm)|[-> Hdup]]; cbn [arrived mailbox_at].
    { exists m. split; [set_solver|done]. }
    destruct (Hdup eq_refl) as (m & Hm & Hid). destruct (mo_arrived _ Hok m Hm) as (id & l & Hs & Hc).
    pose proof (Hrel _ _ _ Hk) as [Hev' _]%Forall_cons. exists m. split; [done|].
    destruct (mailbox_ids_distinguish _ _ _ _ _ Hok Hs Hev') as [_ <-]; [|done].
    destruct Hc as (_ & _ & Hc & _). rewrite Hc in Hid. by injection Hid.
  - destruct (Hold _ _ _ Hk) as (_ & _ & Hevs). destruct (is_ok r).
    + intros k' o p [[<- [= <- <-]]|[_ ?]]%lookup_insert_Some; [done|by eapply Hold].
    + intros k' o p [_ ?]%lookup_delete_Some. by eapply Hold.
  - intros k' o p [_ ?]%lookup_delete_Some. by eapply Hold.
Qed.

Lemma delivery_steps `{Jsonb} w w' :
  rtc delivery_step w w' → delivery_inv w → delivery_inv w' ∧ rtc mailbox_step (mailbox_of w) (mailbox_of w').
Proof.
  induction 1 as [w|w1 w2 w3 Hst _ IH]; intros Hinv; [done|].
  destruct IH as [? ?]; [by eapply delivery_step_inv|]. split; [done|].
  etrans; [by apply delivery_simulates|done].
Qed.

(** An empty table, an empty stream and no relay. *)
Definition initial (down : option error) : World := mkWorld (mkDB ∅ down) [] ∅ ∅.
Lemma mailbox_of_initial down : mailbox_of (initial down) = empty_mailbox.
Proof. done. Qed.
Lemma initial_inv `{Jsonb} down : delivery_inv (initial down).
Proof. split; [split| |]; try done; intros ? ?%elem_of_nil; done. Qed.

(** *** The relay's own rounds are such steps *)

Lemma record_answer_total owner now ev answer d : ∃ r d', record_answer owner now ev answer (Some d) = (r, Some d').
Proof.
  unfold record_answer, MarkPublished, Quarantine, Release, update_where.
  destruct answer as [err|]; [destruct (classifyPublishError _) as [[] code]|]; repeat case_match; eauto.
Qed.

Section Rounds.
Context `{Jsonb} (a : Answer) (order : MapOrder (list NatsMsg)) (client : bool) (owner : string) (enqueued : gmap Z Event).
Hypothesis order_visits : visits_all order.
Let publish := nats_Publish (PublishMsg a) order client.

Lemma process_events_steps clock i evs d bus k relays :
  relays !! k = Some (owner, Claimed evs) →
  ∃ r d' bus', process_events publish owner clock i evs (Some d, bus) = (r, (Some d', bus')) ∧
    rtc delivery_step (mkWorld d bus relays enqueued) (mkWorld d' bus' (delete k relays) enqueued).
Proof.
  revert i d bus relays. induction evs as [|ev evs IH]; intros i d bus relays Hk; cbn [process_events].
  { eexists _, _, _. split; [done|]. apply rtc_once, (dl_stop k (mkWorld d bus relays enqueued)). }
  rewrite processEvent_halves. destruct (publish_event publish ev bus) as [answer bus1] eqn:Hp.
  destruct (record_answer_total owner (clock i) ev answer d) as (r1 & d1 & Hr). rewrite Hr.
  set (relays1 := <[k := (owner, Tried ev answer evs)]> relays).
  pose proof (dl_publish k a order client owner ev evs answer bus1 (mkWorld d bus relays enqueued) Hk order_visits Hp) as H1.
  pose proof (dl_record k (clock i) owner ev answer evs r1 d1 (mkWorld d bus1 relays1 enqueued)
    (lookup_insert_eq relays k _) Hr) as H2. cbn [w_db w_bus w_relays w_enqueued] in H1, H2.
  destruct r1 as [[]|e]; cbn [is_ok] in *.
  - destruct (IH (S i) d1 bus1 (<[k := (owner, Claimed evs)]> relays1)) as (r & d' & bus' & E & Hsteps);
      [apply lookup_insert_eq|]. exists r, d', bus'. split; [exact E|].
    unfold relays1 in Hsteps at 2. rewrite !delete_insert_eq in Hsteps. eapply rtc_l, rtc_l; eassumption.
  - eexists _, _, _. split; [done|]. unfold relays1 in H2 at 2. rewrite delete_insert_eq in H2.
    eapply rtc_l, rtc_once; eassumption.
Qed.

Lemma RunOnce_steps skipped clock d bus k relays :
  relays !! k = None →
  ∃ r d' bus', RunOnce (NewRelay (Some publish) owner) skipped clock (Some d, bus) = (r, (Some d', bus')) ∧
    rtc delivery_step (mkWorld d bus relays enqueued) (mkWorld d' bus' relays enqueued).
Proof.
  intros Hk. unfold RunOnce, NewRelay. cbn [r_publisher r_owner r_batchSize r_lockAge].
  destruct (ClaimBatch _ _ _ _ _ _) as [r1 d1] eqn:Hc.
  assert (∃ d2, d1 = Some d2) as [d2 ->].
  { revert Hc. unfold ClaimBatch. repeat case_match; intros [=]; subst; eauto. }
  destruct r1 as [evs|e].
  - destruct (process_events_steps clock 1 evs d2 bus k (<[k := (owner, Claimed evs)]> relays))
      as (r & d' & bus' & E & Hsteps); [apply lookup_insert_eq|].
    exists r, d', bus'. split; [exact E|]. rewrite delete_insert_id in Hsteps by done.
    eapply rtc_l; [exact (dl_claim k _ _ _ _ _ (mkWorld d bus relays enqueued) Hk Hc)|exact Hsteps].
  - destruct (claim_inv _ _ _ _ _ _ _ _ Hc) as [[-> _]|(_ & _ & ? & _)]; [|done]. by eexists _, _, _.
Qed.

Lemma run_rounds_steps clocks d bus k relays :
  relays !! k = None →
  ∃ r d' bus', run_rounds (NewRelay (Some publish) owner) clocks (Some d, bus) = (r, (Some d', bus')) ∧
    rtc delivery_step (mkWorld d bus relays enqueued) (mkWorld d' bus' relays enqueued).
Proof.
  intros Hk. revert d bus. induction clocks as [|c cs IH]; intros d bus; cbn [run_rounds]; [by eexists _, _, _|].
  destruct (RunOnce_steps ∅ c d bus k relays Hk) as (r & d1 & bus1 & -> & H1).
  destruct r as [[]|e]; [|by eexists _, _, _].
  destruct (IH d1 bus1) as (r & d' & bus' & -> & H2). eexists _, _, _. split; [done|]. by etrans.
Qed.
End Rounds.

(** The adapter takes a message with a subject and at most [maxMessageSize]
    bytes of payload, and refuses any other for good. *)
Definition nats_takes (subject data : string) : bool :=
  negb (bool_decide (TrimSpace subject = "")) && (len data <=? maxMessageSize).
Lemma nats_settles order subject data headers id bus :
  match (nats_Publish (PublishMsg Stored) order true subject data headers id bus).1 with
  | None => nats_takes subject data = true
  | Some err => nats_takes subject data = false ∧ permanent err ∧ says_why err
  end.
Proof.
  unfold nats_Publish, nats_takes. cbn [negb]. case_bool_decide; cbn [fst negb].
  { split; [done|]. split; [done|]. by split; vm_compute. }
  destruct (Z.ltb_spec maxMessageSize (len data)); cbn [fst PublishMsg].
  - split; [apply andb_false_iff; right; lia|]. split; [done|]. by split; vm_compute.
  - apply andb_true_iff. split; [done|lia].
Qed.

(** *** Reading the mailbox back *)

Lemma sent_spec w id l :
  sent (mailbox_of w) !! id = Some l ↔ ∃ row, events (w_db w) !! id = Some row ∧ l = row_letter id row.
Proof.
  cbn. rewrite lookup_fmap, table_view_lookup. destruct (events (w_db w) !! id) as [row|]; cbn.
  - split; [intros [= <-]; eauto|]. by intros (row' & [= <-] & ->).
  - split; [done|]. by intros (row' & ? & _).
Qed.
Lemma acknowledged_spec w id row :
  events (w_db w) !! id = Some row → published_at row ≠ None → id ∈ acknowledged (mailbox_of w).
Proof.
  intros Hid Hp. cbn. apply elem_of_dom. exists (row_view id row). apply map_lookup_filter_Some.
  rewrite table_view_lookup, Hid. split; [done|]. cbn. by rewrite bool_decide_eq_false_2.
Qed.
Lemma mailbox_steps_sent b b' id l : rtc mailbox_step b b' → sent b !! id = Some l → sent b' !! id = Some l.
Proof.
  induction 1 as [|b1 b2 b3 Hst _ IH]; [done|]. intros E. apply IH. destruct Hst; cbn; try done.
  rewrite lookup_insert_ne; [done|]. congruence.
Qed.
Lemma published_on_bus `{Jsonb} w id row :
  delivery_inv w → events (w_db w) !! id = Some row → published_at row ≠ None →
  ∃ m, m ∈ w_bus w ∧ carries m (row_letter id row).
Proof.
  intros Hinv Hid Hp. destruct (mo_acknowledged _ (di_mailbox _ Hinv) id) as (l & m & Hl & Hin & Hc).
  - by eapply acknowledged_spec.
  - apply sent_spec in Hl as (row' & Hid' & ->). rewrite Hid in Hid'. injection Hid' as <-. by exists m.
Qed.
(** The table holds what was enqueued, and nothing else. *)
Lemma written_rows `{Jsonb} w id :
  delivery_inv w → stored_letter id <$> w_enqueued w !! id = Some <$> (row_letter id <$> events (w_db w) !! id).
Proof.
  intros Hinv. rewrite (di_written _ Hinv id). cbn. rewrite lookup_fmap, table_view_lookup. by destruct (events (w_db w) !! id).
Qed.

(** ** The theorems *)

(** C2: The outbox refines an at-least-once mailbox.  However enqueuing, redriving,
    any number of relays, their crashes, the failures of the database, the
    answers of the bus and the order in which a header is built interleave,
    every run of the system is a run of the mailbox.  The rows of the table
    are the events that were enqueued, each with its own subject, aggregate
    and id, and with its payload and headers as the JSONB columns give them
    back; an event that is marked published is on the bus with this subject,
    payload, headers (their keys trimmed) and message id; everything on the
    bus is such an event; two messages with one id carry the same letter, and
    are the same message unless two of its header keys differ in white space
    only; and no event disappears or changes its letter. *)
Theorem outbox_refines_mailbox `{Jsonb} down w w' :
  rtc delivery_step (initial down) w → rtc delivery_step w w' →
  rtc mailbox_step empty_mailbox (mailbox_of w) ∧ rtc mailbox_step (mailbox_of w) (mailbox_of w') ∧
  (∀ id, stored_letter id <$> w_enqueued w !! id = Some <$> (row_letter id <$> events (w_db w) !! id)) ∧
  (∀ id row, events (w_db w) !! id = Some row → published_at row ≠ None →
     ∃ m, m ∈ w_bus w ∧ carries m (row_letter id row)) ∧
  (∀ m, m ∈ w_bus w → ∃ id row, events (w_db w) !! id = Some row ∧ carries m (row_letter id row)) ∧
  (∀ m m', m ∈ w_bus w → m' ∈ w_bus w → msg_ID m = msg_ID m' →
     ∃ l, carries m l ∧ carries m' l ∧ (keys_apart l → m = m')) ∧
  (∀ id row, events (w_db w) !! id = Some row →
     ∃ row', events (w_db w') !! id = Some row' ∧ row_letter id row' = row_letter id row).
Proof.
  intros H1 H2. destruct (delivery_steps _ _ H1 (initial_inv down)) as [Hinv Hm1].
  destruct (delivery_steps _ _ H2 Hinv) as [_ Hm2]. pose proof (di_mailbox _ Hinv) as Hok. split_and!.
  - by rewrite <- (mailbox_of_initial down).
  - done.
  - intros id. by apply written_rows.
  - intros id row. by apply published_on_bus.
  - intros m (id & l & (row & Hid & ->)%sent_spec & Hc)%(mo_arrived _ Hok). by exists id, row.
  - intros m m' (id & l & Hl & Hc)%(mo_arrived _ Hok) (id' & l' & Hl' & Hc')%(mo_arrived _ Hok) E.
    destruct (mailbox_ids_distinguish _ _ _ _ _ Hok Hl Hl') as [_ <-].
    { destruct Hc as (_ & _ & Hi & _), Hc' as (_ & _ & Hi' & _). rewrite Hi, Hi' in E. by injection E. }
    exists l. split_and!; [done|done|]. intros Hk. by eapply carries_unique.
  - intros id row Hid. assert (sent (mailbox_of w') !! id = Some (row_letter id row)) as Hs.
    { eapply mailbox_steps_sent; [exact Hm2|]. apply sent_spec. eauto. }
    apply sent_spec in Hs as (row' & ? & ?). by exists row'.
Qed.

(** C12: No event is lost to a crash.  From any state that enqueuing, relays,
    crashes and failures can lead to, once the database and the bus work
    again, [p / 100 + 1] rounds of one relay (with a trimmed owner) settle
    every open event that is due and whose lock, if a stopped relay left one,
    is over a minute old: its message is on the bus and its row says so, or,
    when the payload is larger than the adapter takes, it is quarantined. *)
Theorem outbox_delivers `{Jsonb} down w order owner start clocks :
  rtc delivery_step (initial down) w → db_down (w_db w) = None → visits_all order →
  TrimSpace owner = owner → owner ≠ "" →
  Forall (λ c, IsZero (c 0%nat - Minute) = false ∧ start ≤ c 0%nat) clocks →
  (size (pending (events (w_db w))) / 100 + 1 ≤ length clocks)%nat →
  ∃ d' bus', run_rounds (NewRelay (Some (nats_Publish (PublishMsg Stored) order true)) owner) clocks (Some (w_db w), w_bus w)
             = (Ok tt, (Some d', bus')) ∧
    ∀ id row, events (w_db w) !! id = Some row → row_open row → available_at row ≤ start →
      (∀ t, locked_at row = Some t → t < start - Minute) →
      ∃ row', events d' !! id = Some row' ∧
        if nats_takes (subject row) (payload row)
        then published_at row' ≠ None ∧ ∃ m, m ∈ bus' ∧ carries m (row_letter id row) else quarantined_at row' ≠ None.
Proof.
  intros Hreach Hd Hord Ho Hne Hz Hn. destruct (delivery_steps _ _ Hreach (initial_inv down)) as [Hinv _].
  set (publish := nats_Publish (PublishMsg Stored) order true) in *.
  assert (∀ subject data headers id b err, (publish subject data headers id b).1 = Some err → permanent err ∧ says_why err) as Hwhy.
  { intros sb data hs id b err E. pose proof (nats_settles order sb data hs id b) as Hs. fold publish in Hs.
    rewrite E in Hs. tauto. }
  destruct (rounds_drain publish owner start ltac:(intros; by eapply Hwhy) Ho Hne clocks (w_db w) (w_bus w) Hd)
    as (d' & bus' & E & Hset).
  { eapply Forall_impl; [exact Hz|]. intros c [Hc Ht]. split; [done|done|].
    intros i (sb & data & hs & id & b & err & He & Hper). by destruct (Hwhy _ _ _ _ _ _ He). }
  { pose proof (overdue_pending start (events (w_db w))).
    pose proof (Nat.mul_succ_div_gt (size (pending (events (w_db w)))) 100). lia. }
  exists d', bus'. split; [exact E|]. intros id row Hid [Hp Hq] Hdue Hlock.
  destruct (Hset id row Hid) as (row' & Hid' & [_ _ Ha]).
  { unfold claimable. rewrite !bool_decide_eq_true_2 by done. cbn. apply andb_true_iff.
    split; [lia|]. destruct (locked_at row) as [t|]; [|done]. apply Z.ltb_lt. by apply Hlock. }
  set (k := fresh (dom (w_relays w))).
  destruct (run_rounds_steps Stored order true owner (w_enqueued w) Hord clocks (w_db w) (w_bus w) k (w_relays w))
    as (r & d2 & bus2 & E2 & Hst).
  { apply not_elem_of_dom, is_fresh. }
  pose proof (eq_trans (eq_sym E) E2) as [= <- <- <-]. destruct w as [d bus rs enq]. cbn [w_db w_bus w_relays w_enqueued] in *.
  destruct (delivery_steps _ _ Hst Hinv) as [Hinv' Hm].
  assert (row_letter id row' = row_letter id row) as Hl.
  { assert (sent (mailbox_of (mkWorld d' bus' rs enq)) !! id = Some (row_letter id row)) as Hs.
    { eapply mailbox_steps_sent; [exact Hm|]. apply sent_spec. by exists row. }
    apply sent_spec in Hs as (row2 & H2 & ->). cbn in H2. congruence. }
  assert (nats_takes (subject row) (payload row) = nats_takes (subject row') (payload row')) as Ht.
  { pose proof (f_equal l_Subject Hl : TrimSpace (subject row') = TrimSpace (subject row)) as Hsub.
    pose proof (f_equal l_Data Hl : payload row' = payload row) as Hpay. unfold nats_takes. by rewrite Hsub, Hpay. }
  exists row'. split; [done|]. rewrite Ht, <- Hl.
  assert (∀ b, match publish_row publish id row' b with
               | None => nats_takes (subject row') (payload row') = true
               | Some err => nats_takes (subject row') (payload row') = false ∧ permanent err ∧ says_why err
               end) as Hsettle by (intros b; apply nats_settles).
  destruct Ha as [b Hp' Hb|b err Hq' Hb _ _|b err _ Hb Hper _ _ _]; specialize (Hsettle b); rewrite Hb in Hsettle.
  - rewrite Hsettle. split; [done|]. exact (published_on_bus _ _ _ Hinv' Hid' Hp').
  - by destruct Hsettle as [-> _].
  - by destruct Hsettle as (_ & ? & _).
Qed.

(** ** An event, a relay that stops after publishing it, and the rounds that follow

    The column drops the space in the payload, and the header is built in the
    order of the map. *)

Definition demo_event : Event := mkEvent 1 "s" "sandbox" 7 (Some "{ }") ∅ 0 0 0 0.
Definition demo_row : Row := new_row 5 0 demo_event "{}" ∅.
Definition demo_claimed : Row := claim_row 6 "w" demo_row.
Definition map_order : MapOrder (list NatsMsg) := λ _ m, map_to_list m.
Lemma map_order_visits : visits_all map_order.
Proof. intros b m. reflexivity. Qed.
Definition demo_message : NatsMsg :=
  mkNatsMsg "s" "{}" (nats_header (map_to_list (event_headers (event_of_row 1 demo_claimed)))) (Some (uuid_String 1)).
Definition demo_world : World := mkWorld (mkDB {[1 := demo_claimed]} None) [demo_message] ∅ {[1 := demo_event]}.

Lemma demo_reachable : rtc (@delivery_step squeezing) (initial None) demo_world.
Proof.
  eapply rtc_l; [apply (@dl_enqueue squeezing (λ _, true) 9 5 demo_event (Ok 1) (mkDB {[1 := demo_row]} None));
    [unfold is_uuid; lia|unfold is_uuid; cbn; lia|by vm_compute]|].
  eapply rtc_l.
  { apply (@dl_claim squeezing 0%nat 6 ∅ "w" [event_of_row 1 demo_claimed] (mkDB {[1 := demo_claimed]} None)); by vm_compute. }
  eapply rtc_l.
  { apply (@dl_publish squeezing 0%nat Stored map_order true "w" (event_of_row 1 demo_claimed) [] None [demo_message]);
      [by vm_compute|apply map_order_visits|by vm_compute]. }
  eapply rtc_l; [apply (@dl_stop squeezing 0%nat)|].
  match goal with |- rtc _ ?w _ => replace w with demo_world by (vm_compute; reflexivity) end. apply rtc_refl.
Qed.

Lemma outbox_refines_mailbox_witness :
  rtc mailbox_step empty_mailbox (mailbox_of demo_world) ∧
  ∃ id row, events (w_db demo_world) !! id = Some row ∧ carries demo_message (row_letter id row).
Proof.
  destruct (@outbox_refines_mailbox squeezing None demo_world demo_world demo_reachable (rtc_refl _ _))
    as (Hm & _ & _ & _ & Hbus & _).
  split; [exact Hm|]. apply Hbus. by left.
Defined.
(** A header key with a space before it: which value the message has depends
    on the order of the visit. *)
Example header_depends_on_order :
  nats_header [("k", "1"); (" k", "2")] ≠ nats_header [(" k", "2"); ("k", "1")].
Proof. by vm_compute. Qed.

Lemma outbox_delivers_witness :
  ∃ d' bus', run_rounds (NewRelay (Some (nats_Publish (PublishMsg Stored) map_order true)) "v") [λ i, 100 * Minute + Z.of_nat i]
               (Some (w_db demo_world), w_bus demo_world) = (Ok tt, (Some d', bus')) ∧
             ∃ row', events d' !! 1 = Some row' ∧ published_at row' ≠ None.
Proof.
  destruct (@outbox_delivers squeezing None demo_world map_order "v" (100 * Minute) [λ i, 100 * Minute + Z.of_nat i])
    as (d' & bus' & E & Hs); [apply demo_reachable|done|apply map_order_visits|done|done|by repeat constructor|by vm_compute; lia|].
  exists d', bus'. split; [exact E|]. destruct (Hs 1 demo_claimed) as (row' & Hr & Hp & _); try done.
  - by intros t [= <-].
  - by exists row'.
Defined.
