(* ===== verification/Handlers.v ===== *)
(** * The HTTP handlers of identity/session, identity/users, identity/pat and
      identity/teamtoken

    A handler reads the principal that the middleware put in the context and
    the path parameters and body that gin parsed: [None] stands for an id
    that [uuid.Parse] refuses, an error for a body that does not bind.  It
    answers a status and an envelope, and may set or clear the cookie. *)

From S2P Require Import Prelude GoStrings GoTime GoCrypto GoNet AppErrors IdentityDB Repositories Walk Identity.
Open Scope Z_scope.

Inductive Cookie := KeepCookie | SetCookie (token : string) (maxAge : Z) | ClearCookie.

(** [int(time.Until(expiresAt).Seconds())], not below zero. *)
Definition cookie_for (now : Z) (token : string) (expiresAt : Z) : Cookie :=
  SetCookie token (Z.max 0 (Z.quot (expiresAt - now) Second)).

Definition required {A} : Response A := httputil_Error (NewUnauthorized "authentication required").

(** ** identity/session/handler.go *)

Definition current_session (ctx : option Principal) : option Z :=
  match ctx with
  | Some p => if negb (String.eqb (pr_CredentialType p) CredentialSession) || (pr_CredentialID p =? 0)
              then None else Some (pr_CredentialID p)
  | None => None
  end.

(** What a response shows of a session: the hash is not part of it. *)
Record SessionResponse := mkSessionResponse {
  so_ID : Z; so_UserID : Z; so_IPAddress : option string; so_UserAgent : option string;
  so_ExpiresAt : string; so_LastSeenAt : string; so_CreatedAt : string;
}.
Definition session_newResponse `{Location} (s : Session) : SessionResponse :=
  mkSessionResponse (s_ID s) (s_UserID s) (Addr_String <$> s_IpAddress s) (s_UserAgent s)
    (FormatTime (Some (s_ExpiresAt s))) (FormatTime (s_LastSeenAt s)) (FormatTime (Some (s_CreatedAt s))).

Definition session_handler_List `{Location} (now : Z) (ctx : option Principal) (d : IdDB)
  : Response (list SessionResponse) * IdDB :=
  match UserIDFromContext ctx with
  | None => (required, d)
  | Some userID =>
      match session_List now userID d with
      | (Err e, d) => (httputil_Error e, d)
      | (Ok l, d) => (httputil_OK (session_newResponse <$> l), d)
      end
  end.
Definition session_handler_Revoke (now : Z) (ctx : option Principal) (id : option Z) (d : IdDB)
  : Response string * Cookie * IdDB :=
  match UserIDFromContext ctx with
  | None => (required, KeepCookie, d)
  | Some userID =>
      match id with
      | None => (httputil_Error (NewBadRequest "invalid session id"), KeepCookie, d)
      | Some sessionID =>
          match session_Revoke now sessionID userID d with
          | (Err e, d) => (httputil_Error e, KeepCookie, d)
          | (Ok _, d) =>
              (httputil_OK "session revoked",
               if bool_decide (current_session ctx = Some sessionID) then ClearCookie else KeepCookie, d)
          end
      end
  end.
Definition session_handler_RevokeAll (now : Z) (ctx : option Principal) (d : IdDB)
  : Response string * Cookie * IdDB :=
  match UserIDFromContext ctx with
  | None => (required, KeepCookie, d)
  | Some userID =>
      match session_RevokeAll now userID d with
      | (Err e, d) => (httputil_Error e, KeepCookie, d)
      | (Ok _, d) => (httputil_OK "logged out from all sessions", ClearCookie, d)
      end
  end.

(** ** identity/users/handler.go *)

Record UserResponse := mkUserResponse {
  uo_ID : Z; uo_Email : string; uo_EmailVerified : bool; uo_Name : option string;
  uo_CreatedAt : string; uo_UpdatedAt : string;
}.
Definition user_newResponse `{Location} (u : User) : UserResponse :=
  mkUserResponse (u_ID u) (u_Email u) (u_EmailVerified u) (u_Name u)
    (FormatTime (Some (u_CreatedAt u))) (FormatTime (Some (u_UpdatedAt u))).

Definition user_handler_GetMe `{Location} (ctx : option Principal) (d : IdDB) : Response UserResponse * IdDB :=
  match UserIDFromContext ctx with
  | None => (required, d)
  | Some userID =>
      match GetMe userID d with
      | (Err e, d) => (httputil_Error e, d)
      | (Ok u, d) => (httputil_OK (user_newResponse u), d)
      end
  end.
Definition user_handler_UpdateMe `{UnicodeCase} `{Location} (now : Z) (ctx : option Principal)
    (body : result (option string)) (d : IdDB) : Response UserResponse * IdDB :=
  match body with
  | Err e => (httputil_Error e, d)
  | Ok name =>
      match UserIDFromContext ctx with
      | None => (required, d)
      | Some userID =>
          match UpdateMe now userID name d with
          | (Err e, d) => (httputil_Error e, d)
          | (Ok u, d) => (httputil_OK (user_newResponse u), d)
          end
      end
  end.
Definition user_handler_DeleteMe (now : Z) (ctx : option Principal) (d : IdDB)
  : Response string * Cookie * IdDB :=
  match UserIDFromContext ctx with
  | None => (required, KeepCookie, d)
  | Some userID =>
      match DeleteMe now userID d with
      | (Err e, d) => (httputil_Error e, KeepCookie, d)
      | (Ok _, d) => (httputil_OK "user deleted", ClearCookie, d)
      end
  end.

(** ** identity/pat/handler.go *)

Definition pat_handler_Create (newID now : Z) (random : result (list Z)) (ctx : option Principal)
    (body : result TokenRequest) (d : IdDB) : Response (TokenResponse * string) * IdDB :=
  match UserIDFromContext ctx with
  | None => (required, d)
  | Some userID =>
      match body with
      | Err _ => (httputil_Error (NewBadRequest "invalid request body"), d)
      | Ok req =>
          match pat_Create newID now random userID req d with
          | (Err e, d) => (httputil_Error e, d)
          | (Ok x, d) => (httputil_Created x, d)
          end
      end
  end.
Definition pat_handler_List (ctx : option Principal) (d : IdDB) : Response (list TokenResponse) * IdDB :=
  match UserIDFromContext ctx with
  | None => (required, d)
  | Some userID =>
      match pat_List userID d with
      | (Err e, d) => (httputil_Error e, d)
      | (Ok l, d) => (httputil_OK l, d)
      end
  end.
Definition pat_handler_Revoke (ctx : option Principal) (id : option Z) (d : IdDB) : Response string * IdDB :=
  match UserIDFromContext ctx with
  | None => (required, d)
  | Some userID =>
      match id with
      | None => (httputil_Error (NewBadRequest "invalid token ID"), d)
      | Some tokenID =>
          match pat_Revoke userID tokenID d with
          | (Err e, d) => (httputil_Error e, d)
          | (Ok _, d) => (httputil_OK "token revoked", d)
          end
      end
  end.

(** ** identity/teamtoken/handler.go *)

Definition requestIDs (ctx : option Principal) (team : option Z) : result (Z * Z) :=
  match UserIDFromContext ctx with
  | None => Err (NewUnauthorized "authentication required")
  | Some userID => match team with
                   | None => Err (NewBadRequest "invalid team ID")
                   | Some teamID => Ok (teamID, userID)
                   end
  end.
Definition tat_handler_Create (newID now : Z) (random : result (list Z)) (ctx : option Principal)
    (team : option Z) (body : result TokenRequest) (d : IdDB) : Response (TokenResponse * string) * IdDB :=
  match requestIDs ctx team with
  | Err e => (httputil_Error e, d)
  | Ok (teamID, userID) =>
      match body with
      | Err _ => (httputil_Error (NewBadRequest "invalid request body"), d)
      | Ok req =>
          match tat_Create newID now random teamID userID req d with
          | (Err e, d) => (httputil_Error e, d)
          | (Ok x, d) => (httputil_Created x, d)
          end
      end
  end.
Definition tat_handler_List (ctx : option Principal) (team : option Z) (d : IdDB)
  : Response (list TokenResponse) * IdDB :=
  match requestIDs ctx team with
  | Err e => (httputil_Error e, d)
  | Ok (teamID, userID) =>
      match tat_List teamID userID d with
      | (Err e, d) => (httputil_Error e, d)
      | (Ok l, d) => (httputil_OK l, d)
      end
  end.
Definition tat_handler_Revoke (ctx : option Principal) (team id : option Z) (d : IdDB)
  : Response string * IdDB :=
  match requestIDs ctx team with
  | Err e => (httputil_Error e, d)
  | Ok (teamID, userID) =>
      match id with
      | None => (httputil_Error (NewBadRequest "invalid token ID"), d)
      | Some tokenID =>
          match tat_Revoke teamID userID tokenID d with
          | (Err e, d) => (httputil_Error e, d)
          | (Ok _, d) => (httputil_OK "token revoked", d)
          end
      end
  end.

(** ** All routes *)

Inductive IdRequest :=
  | ListSessionsReq | RevokeSessionReq (id : option Z) | RevokeAllReq
  | GetMeReq | UpdateMeReq (body : result (option string)) | DeleteMeReq
  | CreatePATReq (newID : Z) (random : result (list Z)) (body : result TokenRequest)
  | ListPATsReq | RevokePATReq (id : option Z)
  | CreateTATReq (newID : Z) (random : result (list Z)) (team : option Z) (body : result TokenRequest)
  | ListTATsReq (team : option Z) | RevokeTATReq (team id : option Z).

Definition answer {A} (x : Response A * IdDB) : Z * IdDB := (resp_status x.1, x.2).
(** The status and the tables after a request. *)
Definition handle `{UnicodeCase} `{Location} (now : Z) (ctx : option Principal) (req : IdRequest) (d : IdDB) : Z * IdDB :=
  match req with
  | ListSessionsReq => answer (session_handler_List now ctx d)
  | RevokeSessionReq id => let '(r, _, d) := session_handler_Revoke now ctx id d in answer (r, d)
  | RevokeAllReq => let '(r, _, d) := session_handler_RevokeAll now ctx d in answer (r, d)
  | GetMeReq => answer (user_handler_GetMe ctx d)
  | UpdateMeReq body => answer (user_handler_UpdateMe now ctx body d)
  | DeleteMeReq => let '(r, _, d) := user_handler_DeleteMe now ctx d in answer (r, d)
  | CreatePATReq newID random body => answer (pat_handler_Create newID now random ctx body d)
  | ListPATsReq => answer (pat_handler_List ctx d)
  | RevokePATReq id => answer (pat_handler_Revoke ctx id d)
  | CreateTATReq newID random team body => answer (tat_handler_Create newID now random ctx team body d)
  | ListTATsReq team => answer (tat_handler_List ctx team d)
  | RevokeTATReq team id => answer (tat_handler_Revoke ctx team id d)
  end.

(** What user [u] may have changed between [d] and [d']: its own row,
    sessions and tokens, and the tokens of teams it manages.  Every row that
    was added is one of these, and a team token that was added names [u] as
    its creator. *)
Record own_rows (u : Z) (d d' : IdDB) : Prop := {
  own_users k : k ≠ u → users d' !! k = users d !! k;
  own_sessions : same_rows (λ s, s_UserID s ≠ u) (sessions d) (sessions d');
  own_pats : same_rows (λ t, t_Owner t ≠ u) (pats d) (pats d');
  own_team_tokens : same_rows (λ t, may_manage d (t_Owner t) u = false) (team_tokens d) (team_tokens d');
  own_created k t : team_tokens d' !! k = Some t → team_tokens d !! k = Some t ∨ t_CreatedBy t = u;
  own_members : team_members d' = team_members d;
  own_transactions : transactions d' = transactions d;
  own_challenges : challenges d' = challenges d;
}.

Section OwnRows.
Context (u : Z).

Lemma own_refl d : own_rows u d d.
Proof. by split; try (left; done). Qed.
Lemma own_trans d1 d2 d3 : own_rows u d1 d2 → own_rows u d2 d3 → own_rows u d1 d3.
Proof.
  intros [U S P T N M X C] [U' S' P' T' N' M' X' C']. split; try congruence.
  - intros k Hk. by rewrite U', U.
  - by etrans.
  - by etrans.
  - etrans; [exact T|]. intros k t Hm. apply T'. unfold may_manage in *. by rewrite M.
  - intros k t [Hk|Hk]%N'; [by apply N|by right].
Qed.
#[export] Instance own_table : TableRel (own_rows u).
Proof. split; [|intros; by split; try (left; done)]. split; [exact own_refl|exact own_trans]. Qed.
Lemma own_update_users P f d : own_rows u d (update_returning (users d) set_users u P f d).2.
Proof.
  unfold update_returning. destruct (users d !! u) as [v|]; [|apply own_refl].
  destruct (P v); [|apply own_refl]. split; try done; [|by left]. intros k Hk. cbn. by rewrite lookup_insert_ne.
Qed.
Lemma own_update_sessions id P f d :
  (∀ s, P s = true → s_UserID s = u ∧ s_UserID (f s) = u) →
  own_rows u d (update_returning (sessions d) set_sessions id P f d).2.
Proof.
  intros HP. apply (update_rel (own_rows u) sessions). intros s Hs [Hu Hf]%HP. split; try done; [|by left].
  apply same_rows_insert; [|by intros []]. intros w. rewrite Hs. by intros [= <-] [].
Qed.
Lemma own_new_pat id t d :
  pats d !! id = None → t_Owner t = u → own_rows u d (set_pats (<[id := t]> (pats d)) d).
Proof.
  intros Hn Hu. split; try done; [|by left]. apply same_rows_insert; [by rewrite Hn|by intros []].
Qed.
Lemma own_new_team_token id t d :
  team_tokens d !! id = None → may_manage d (t_Owner t) u = true → t_CreatedBy t = u →
  own_rows u d (set_team_tokens (<[id := t]> (team_tokens d)) d).
Proof.
  intros Hn Hm Hc. split; try done.
  - apply same_rows_insert; [by rewrite Hn|by rewrite Hm].
  - intros k x. cbn. rewrite lookup_insert_Some. intros [[_ <-]|[_ Hk]]; [by right|by left].
Qed.
End OwnRows.

(** The statements, issued for user [u]. *)
Section OwnStatements.
Context `{UnicodeCase} (u : Z).
Implicit Types d : IdDB.

Lemma own_RevokeSession now id d : own_rows u d (RevokeSession now id u d).2.
Proof.
  apply (query_rel (own_rows u)). intros e. apply own_update_sessions. by intros s [Hu%Z.eqb_eq _]%andb_true_iff.
Qed.
Lemma own_RevokeUserSessions now d : own_rows u d (RevokeUserSessions now u d).2.
Proof.
  apply (query_rel (own_rows u)). intros e. split; try done; [|by left]. apply same_rows_fmap.
  - intros s Hne. by rewrite (proj2 (Z.eqb_neq _ _) Hne).
  - intros s Hs. by destruct (_ && _).
  - intros s. destruct (decide (s_UserID s = u)); [by right; intros []|by left].
Qed.
Lemma own_UpdateUserProfile now name d : own_rows u d (UpdateUserProfile now u name None d).2.
Proof. apply (query_rel (own_rows u)). intros e. apply own_update_users. Qed.
Lemma own_DisableUser now d : own_rows u d (DisableUser now u d).2.
Proof. apply (query_rel (own_rows u)). intros e. apply own_update_users. Qed.
Lemma own_SetUserPassword now hash d : own_rows u d (SetUserPassword now u hash d).2.
Proof. apply (query_rel (own_rows u)). intros e. apply own_update_users. Qed.
Lemma own_CreateToken newID now name hash prefix scopes exp d :
  own_rows u d (CreateToken newID now u name hash prefix scopes exp d).2.
Proof.
  apply (query_rel (own_rows u)). intros e. cbn. case_bool_decide; [reflexivity|].
  destruct (hash_taken _ _); [reflexivity|]. case_bool_decide as Hn; [reflexivity|].
  apply own_new_pat; [by apply eq_None_not_Some|done].
Qed.
Lemma own_RevokeToken id d : own_rows u d (RevokeToken id u d).2.
Proof.
  apply (query_rel (own_rows u)). intros e. cbn. unfold delete_if. destruct (pats e !! id) as [t|] eqn:Ht; [|by split; try (left; done)].
  destruct (Z.eqb_spec (t_Owner t) u) as [<-|]; [|by split; try (left; done)]. split; try done; [|by left].
  apply same_rows_delete. intros w. rewrite Ht. by intros [= <-] [].
Qed.
Lemma own_CreateTeamToken newID now team name hash prefix scopes exp d :
  own_rows u d (CreateTeamToken newID now team name hash prefix scopes exp u d).2.
Proof.
  apply (query_rel (own_rows u)). intros e. cbn. destruct (may_manage _ _ _) eqn:Hm; [|reflexivity].
  destruct (hash_taken _ _); [reflexivity|]. case_bool_decide as Hn; [reflexivity|].
  apply own_new_team_token; [by apply eq_None_not_Some|done|done].
Qed.
Lemma own_RevokeTeamToken id team d : own_rows u d (RevokeTeamToken id team u d).2.
Proof.
  apply (query_rel (own_rows u)). intros e. destruct (team_tokens e !! id) as [t|] eqn:Ht; [|reflexivity].
  destruct (Z.eqb_spec (t_Owner t) team) as [<-|]; [|reflexivity].
  destruct (may_manage e (t_Owner t) u) eqn:Hm; [|reflexivity]. split; try done.
  - apply same_rows_delete. intros w. rewrite Ht. intros [= <-]. by rewrite Hm.
  - intros k x. cbn. rewrite lookup_delete_Some. intros [_ Hk]. by left.
Qed.
End OwnStatements.
#[export] Hint Resolve own_RevokeSession own_RevokeUserSessions own_UpdateUserProfile own_DisableUser
  own_SetUserPassword own_CreateToken own_RevokeToken own_CreateTeamToken own_RevokeTeamToken : walk.

(** What the services behind the routes do, called for user [u]. *)
Definition services_related `{UnicodeCase} (R : IdDB → IdDB → Prop) (u now : Z) (d : IdDB) : Prop :=
  ∀ id newID random team name req,
  R d (session_List now u d).2 ∧ R d (session_Revoke now id u d).2 ∧
  R d (session_RevokeAll now u d).2 ∧ R d (GetMe u d).2 ∧
  R d (UpdateMe now u name d).2 ∧ R d (DeleteMe now u d).2 ∧
  R d (pat_Create newID now random u req d).2 ∧ R d (pat_List u d).2 ∧
  R d (pat_Revoke u id d).2 ∧ R d (tat_Create newID now random team u req d).2 ∧
  R d (tat_List team u d).2 ∧ R d (tat_Revoke team u id d).2.

Section Related.
Context `{UnicodeCase} `{Location} (R : IdDB → IdDB → Prop).

(** A service call followed by the translation of its outcome. *)
Lemma related_answer {A B} (c : result A * IdDB) (ko : error → Response B) (ok : A → Response B) d :
  R d c.2 → R d (answer (match c with (Err e, d) => (ko e, d) | (Ok x, d) => (ok x, d) end)).2.
Proof. by destruct c as [[] ?]. Qed.
Lemma related_answer_cookie {A B} (c : result A * IdDB) (ko : error → Response B) (ok : A → Response B)
    (c1 c2 : Cookie) d :
  R d c.2 →
  R d (let '(r, _, d) := match c with (Err e, d) => (ko e, c1, d) | (Ok x, d) => (ok x, c2, d) end in
       answer (r, d)).2.
Proof. by destruct c as [[] ?]. Qed.

(** A request of an authenticated user does what its service does. *)
Lemma handle_related u now ctx req d :
  R d d → UserIDFromContext ctx = Some u → services_related R u now d → R d (handle now ctx req d).2.
Proof.
  intros Hd Hu Hs.
  destruct req as [|id| | |body| |newID random body| |id|newID random team body|team|team id]; cbn [handle];
    unfold session_handler_List, session_handler_Revoke, session_handler_RevokeAll, user_handler_GetMe,
      user_handler_UpdateMe, user_handler_DeleteMe, pat_handler_Create, pat_handler_List, pat_handler_Revoke,
      tat_handler_Create, tat_handler_List, tat_handler_Revoke, requestIDs; rewrite Hu;
    repeat match goal with
           | |- context [match ?x with None => _ | Some _ => _ end] => is_var x; destruct x
           | |- context [match ?x with Ok _ => _ | Err _ => _ end] => is_var x; destruct x
           end; try exact Hd; first [apply related_answer | apply related_answer_cookie].
  all: eapply Hs. Unshelve. all: first [exact 0|exact (Ok [])|exact None|exact (mkTokenRequest "" [] None)].
Qed.
End Related.

(** The services, called for user [u]. *)
Lemma own_services `{UnicodeCase} u now d : services_related (own_rows u) u now d.
Proof.
  intros id newID random team name req.
  split_and!; unfold session_List, sessionRepo_ListByUserID, session_Revoke, sessionRepo_Revoke, session_RevokeAll,
      sessionRepo_RevokeUserSessions, GetMe, UpdateMe, usersRepo_GetByID, usersRepo_UpdateProfile, DeleteMe,
      usersRepo_Disable, pat_Create, pat_generateToken, patRepo_Create, pat_List, patRepo_ListByUser, pat_Revoke,
      patRepo_Revoke, tat_Create, tat_generateToken, tat_ValidateCreateRequest, tat_tokenPrefixValue,
      tat_normalizeScopes, tatRepo_Create, tat_List, tatRepo_List, tat_Revoke, tatRepo_Revoke; walk.
Qed.

(** A request without an authenticated user changes nothing and is answered
    401, whatever its parameters (a body that does not bind apart, which the
    profile update looks at first); a request of user [u] changes only rows
    of [u], and tokens of teams that [u] manages. *)
Theorem identity_requests_touch_own_rows `{UnicodeCase} `{Location} now ctx req d :
  match UserIDFromContext ctx with
  | None => (handle now ctx req d).2 = d ∧
            ((handle now ctx req d).1 = 401 ∨ ∃ e, req = UpdateMeReq (Err e))
  | Some u => own_rows u d (handle now ctx req d).2
  end.
Proof.
  destruct (UserIDFromContext ctx) as [u|] eqn:Hu.
  - apply (handle_related (own_rows u) u); [apply own_refl|done|apply own_services].
  - destruct req as [|id| | |body| |newID random body| |id|newID random team body|team|team id]; cbn [handle];
      unfold session_handler_List, session_handler_Revoke, session_handler_RevokeAll, user_handler_GetMe,
        user_handler_UpdateMe, user_handler_DeleteMe, pat_handler_Create, pat_handler_List, pat_handler_Revoke,
        tat_handler_Create, tat_handler_List, tat_handler_Revoke, requestIDs; rewrite ?Hu; try (by split; [|left]).
    destruct body as [name|e]; (split; [done|]); [by left|right; by exists e].
Qed.

(** What the browser keeps, of a cookie that is sent while the session lives:
    it ends no later than the session, and less than a second before. *)
Lemma cookie_lifetime sent token expiresAt :
  sent ≤ expiresAt →
  ∃ maxAge, cookie_for sent token expiresAt = SetCookie token maxAge ∧ 0 ≤ maxAge ∧
    sent + maxAge * Second ≤ expiresAt < sent + (maxAge + 1) * Second.
Proof.
  intros Hs. eexists. split; [done|]. unfold Second. rewrite Z.quot_div_nonneg by lia.
  pose proof (Z.div_pos (expiresAt - sent) 1000000000). rewrite Z.max_r by lia.
  pose proof (Z.mod_pos_bound (expiresAt - sent) 1000000000). pose proof (Z.div_mod (expiresAt - sent) 1000000000). lia.
Qed.

(** A body that does not bind makes the profile update answer an internal
    error, where the other handlers answer a bad request. *)
Lemma unbound_profile_is_internal `{UnicodeCase} `{Location} now ctx e d :
  as_app_error e = None → (handle now ctx (UpdateMeReq (Err e)) d).1 = 500.
Proof. intros E. cbn. by rewrite E. Qed.
