(* ===== verification/Auth.v ===== *)
(** * identity/auth: logging in with a password or a one-time code

    [argon2.IDKey] (golang.org/x/crypto) is a parameter; the theorems use
    that it returns the 32 bytes that are asked of it. *)

From Stdlib Require Import Ascii.
From stdpp Require Import sorting.
From S2P Require Import Prelude GoStrings GoTime GoCrypto GoNet AppErrors IdentityDB Repositories Identity Handlers.
Open Scope Z_scope.

Definition authTransactionTTL : Z := 10 * Minute.
Definition authChallengeTTL : Z := 10 * Minute.
Definition otpMaxAttempts : Z := 5.

(** ** validation.go *)

Definition ValidateStart (email : string) : result unit :=
  let email := TrimSpace email in
  if bool_decide (email = "") then Err (NewBadRequest "email is required")
  else if 254 <? RuneCountInString email then Err (NewBadRequest "email is too long")
  else Ok tt.
Definition validatePassword (password : string) : result unit :=
  let length := RuneCountInString password in
  if length <? 8 then Err (NewBadRequest "password must be at least 8 characters")
  else if 128 <? length then Err (NewBadRequest "password must not exceed 128 characters")
  else Ok tt.
Definition ValidatePasswordLogin (transactionID password : string) : result unit :=
  if bool_decide (TrimSpace transactionID = "") then Err (NewBadRequest "transaction_id is required")
  else if bool_decide (password = "") then Err (NewBadRequest "password is required")
  else validatePassword password.
Definition ValidateSendOTP (transactionID : string) : result unit :=
  if bool_decide (TrimSpace transactionID = "") then Err (NewBadRequest "transaction_id is required")
  else Ok tt.
Definition ValidateVerifyOTP (transactionID code : string) : result unit :=
  if bool_decide (TrimSpace transactionID = "") then Err (NewBadRequest "transaction_id is required")
  else
    let code := TrimSpace code in
    if bool_decide (code = "") then Err (NewBadRequest "code is required")
    else if negb (len code =? 6) then Err (NewBadRequest "code must be 6 digits")
    else if existsb (λ '(c, _), (c <? 48) || (57 <? c)) (runes code) then
      Err (NewBadRequest "code must contain only digits")
    else Ok tt.
Definition ValidateSetPassword (password : string) : result unit :=
  if bool_decide (password = "") then Err (NewBadRequest "password is required")
  else validatePassword password.

(** ** service.go *)

(** [fmt.Sprintf("%06d", v)] of [v < 1000000] *)
Definition pad6 (v : Z) : string :=
  of_bytes ((λ k, 48 + v / 10 ^ k mod 10) <$> [5; 4; 3; 2; 1; 0]).
Definition generateOTP (random : result (list Z)) : result string :=
  match random with
  | Err e => Err e
  | Ok buffer =>
      let at_ i := nth i buffer 0 in
      let value := uint32 (Z.lor (Z.shiftl (at_ 0%nat) 24) (Z.lor (Z.shiftl (at_ 1%nat) 16)
                     (Z.lor (Z.shiftl (at_ 2%nat) 8) (at_ 3%nat)))) in
      Ok (pad6 (value mod 1000000))
  end.

Section Auth.
Context `{UnicodeCase} `{Location}.
Context (IDKey : string → list Z → list Z).

Definition normalizeEmail (email : string) : string := ToLower (TrimSpace email).

Definition hashPassword (random : result (list Z)) (password : string) : result string :=
  match random with
  | Err e => Err (NewInternal "failed to generate password salt" (Some e))
  | Ok salt =>
      Ok ("argon2id$v=19$m=65536,t=3,p=4$" +:+ hex_encode salt +:+ "$" +:+ hex_encode (IDKey password salt))
  end.

Definition verifyPassword (password encoded : string) : bool :=
  match Split encoded "$"%char with
  | [p0; p1; p2; p3; p4] =>
      if negb (String.eqb p0 "argon2id") then false
      else match hex_decode p3, hex_decode p4 with
           | Some salt, Some expected =>
               let actual := IDKey password salt in
               if negb (Nat.eqb (length actual) (length expected)) then false
               else bool_decide (actual = expected)
           | _, _ => false
           end
  | _ => false
  end.

Definition auth_Start (newID now : Z) (email : string) : ST IdDB AuthTransaction := λ d,
  let email := normalizeEmail email in
  if bool_decide (email = "") then (Err (NewBadRequest "email is required"), d)
  else match authRepo_GetUserByEmail email d with
       | (Err e, d) => (Err e, d)
       | (Ok user, d) => authRepo_CreateAuthTransaction newID now email (Some (u_ID user)) (now + authTransactionTTL) d
       end.

(** The clocks that one login reads, in this order: the database looks the
    transaction up, the host checks its expiry, the database closes it.
    Nothing relates them: hosts disagree, and time passes in between. *)
Record LoginClock := mkLoginClock { at_lookup : Z; at_check : Z; at_close : Z }.
Definition at_once (now : Z) : LoginClock := mkLoginClock now now now.

Definition getValidTransaction (t : LoginClock) (transactionID : Z) : ST IdDB AuthTransaction := λ d,
  if transactionID =? 0 then (Err (NewBadRequest "invalid transaction_id"), d)
  else match authRepo_GetAuthTransactionByID (at_lookup t) transactionID d with
       | (Err _, d) => (Err (NewUnauthorized "invalid authentication transaction"), d)
       | (Ok x, d) =>
           if x_ExpiresAt x <? at_check t then
             (Err (NewUnauthorized "authentication transaction has expired"),
              (authRepo_ExpireAuthTransaction (at_close t) transactionID d).2)
           else (Ok x, d)
       end.

Definition LoginWithPassword (t : LoginClock) (transactionID : Z) (password : string) : ST IdDB User := λ d,
  match getValidTransaction t transactionID d with
  | (Err e, d) => (Err e, d)
  | (Ok x, d) =>
      match x_UserID x with
      | None => (Err (NewUnauthorized "invalid credentials"), d)
      | Some uid =>
          match authRepo_GetUserByID uid d with
          | (Err _, d) => (Err (NewUnauthorized "invalid credentials"), d)
          | (Ok user, d) =>
              if negb (is_none (u_DisabledAt user)) then (Err (NewUnauthorized "account is disabled"), d)
              else match u_PasswordHash user with
                   | None | Some "" => (Err (NewBadRequest "password is not enrolled"), d)
                   | Some hash =>
                       if negb (verifyPassword password hash) then
                         (Err (NewUnauthorized "invalid credentials"), d)
                       else match authRepo_MarkAuthTransactionAuthenticated (at_close t) transactionID d with
                            | (Err e, d) => (Err e, d)
                            | (Ok _, d) => (Ok user, d)
                            end
                   end
          end
      end
  end.

Definition SetPassword (now : Z) (random : result (list Z)) (userID : Z) (password : string)
  : ST IdDB User := λ d,
  if userID =? 0 then (Err (NewUnauthorized "authentication required"), d)
  else match hashPassword random password with
       | Err e => (Err e, d)
       | Ok hash => authRepo_SetUserPassword now userID (Some hash) d
       end.

Definition SendOTP (newID now : Z) (t : LoginClock) (random : result (list Z)) (transactionID : Z) : ST IdDB string := λ d,
  match getValidTransaction t transactionID d with
  | (Err e, d) => (Err e, d)
  | (Ok x, d) =>
      match generateOTP random with
      | Err e => (Err (NewInternal "failed to generate authentication code" (Some e)), d)
      | Ok code =>
          match authRepo_CreateAuthChallenge newID now (Some transactionID) (x_Identifier x) (hashToken code) "otp"
                  None otpMaxAttempts (now + authChallengeTTL) d with
          | (Err e, d) => (Err e, d)
          | (Ok _, d) => (Ok code, d)
          end
      end
  end.

Definition getOrCreateOTPUser (newID now : Z) (x : AuthTransaction) : ST IdDB User := λ d,
  match x_UserID x with
  | Some uid => authRepo_GetUserByID uid d
  | None =>
      let email := normalizeEmail (x_Identifier x) in
      if bool_decide (email = "") then (Err (NewBadRequest "authentication identifier is missing"), d)
      else authRepo_CreateUser newID now None email None d
  end.

Definition VerifyOTP (newID now : Z) (t : LoginClock) (transactionID : Z) (code : string) : ST IdDB User := λ d,
  match getValidTransaction t transactionID d with
  | (Err e, d) => (Err e, d)
  | (Ok x, d) =>
      match authRepo_GetActiveAuthChallenge now (Some transactionID) "otp" d with
      | (Err _, d) => (Err (NewUnauthorized "invalid or expired authentication code"), d)
      | (Ok c, d) =>
          if negb (is_none (c_ConsumedAt c)) then
            (Err (NewUnauthorized "authentication code has already been used"), d)
          else if c_ExpiresAt c <? at_check t then (Err (NewUnauthorized "authentication code has expired"), d)
          else if otpMaxAttempts <=? c_Attempts c then
            (Err (NewUnauthorized "too many authentication attempts"), d)
          else if negb (String.eqb (hashToken (TrimSpace code)) (c_SecretHash c)) then
            (Err (NewUnauthorized "invalid authentication code"),
             (authRepo_IncrementAuthChallengeAttempts now (c_ID c) d).2)
          else
            match authRepo_ConsumeAuthChallenge now (c_ID c) d with
            | (Err e, d) => (Err e, d)
            | (Ok _, d) =>
                match getOrCreateOTPUser newID now x d with
                | (Err e, d) => (Err e, d)
                | (Ok user, d) =>
                    if negb (is_none (u_DisabledAt user)) then
                      (Err (NewUnauthorized "account is disabled"), d)
                    else match authRepo_MarkUserEmailVerified now (u_ID user) d with
                         | (Err e, d) => (Err e, d)
                         | (Ok _, d) =>
                             match authRepo_MarkAuthTransactionAuthenticated (at_close t) transactionID d with
                             | (Err e, d) => (Err e, d)
                             | (Ok _, d) => (Ok user, d)
                             end
                         end
                end
            end
      end
  end.

(** ** model.go and handler.go *)

(** The bodies of requests.  [TransactionID] is what [parseUUID] makes of the
    text, [None] where it refuses it. *)
Record startRequest := mkStartRequest { st_Email : string }.
Record passwordLoginRequest := mkPasswordLoginRequest { pl_TransactionID : option Z; pl_Password : string }.
Record sendOTPRequest := mkSendOTPRequest { so_TransactionID : option Z }.
Record verifyOTPRequest := mkVerifyOTPRequest { vo_TransactionID : option Z; vo_Code : string }.
Record setPasswordRequest := mkSetPasswordRequest { sp_Password : string }.
(** The bodies of responses *)
Record startResponse := mkStartResponse { sr_TransactionID : Z; sr_Methods : list string }.
Record authenticationResponse := mkAuthenticationResponse { ar_UserID : Z; ar_SessionExpiry : string }.
Record sendOTPResponse := mkSendOTPResponse { or_TransactionID : Z }.

(** [c.ClientIP()] and the header, empty where there is none. *)
Definition clientIP (ip : string) : option string := if bool_decide (ip = "") then None else Some ip.
Definition userAgent (value : string) : option string := if bool_decide (value = "") then None else Some value.
Definition authenticationMethods : list string := ["password"; "otp"].

Definition invalid_body {A} : Response A := httputil_Error (NewBadRequest "invalid request body").
Definition invalid_transaction {A} : Response A := httputil_Error (NewBadRequest "invalid transaction_id").

(** [createSession]: the token set as a cookie, for the user's browser.  The
    clock is read again, at [sent], for what the cookie has left to live. *)
Definition handler_createSession (newID now sent : Z) (random : result (list Z)) (userID : Z)
    (ip agent : string) (d : IdDB) : Response authenticationResponse * Cookie * IdDB :=
  match session_Create newID now random userID (clientIP ip) (userAgent agent) d with
  | (Err e, d) => (httputil_Error e, KeepCookie, d)
  | (Ok (token, s), d) =>
      (httputil_OK (mkAuthenticationResponse userID (Format (s_ExpiresAt s))), cookie_for sent token (s_ExpiresAt s), d)
  end.
Definition handler_Start (newID now : Z) (body : result startRequest) (d : IdDB) : Response startResponse * IdDB :=
  match body with
  | Err _ => (invalid_body, d)
  | Ok req =>
      match auth_Start newID now (normalizeEmail (st_Email req)) d with
      | (Err e, d) => (httputil_Error e, d)
      | (Ok x, d) => (httputil_OK (mkStartResponse (x_ID x) authenticationMethods), d)
      end
  end.
Definition handler_LoginWithPassword (newID : Z) (t : LoginClock) (now sent : Z) (random : result (list Z))
    (body : result passwordLoginRequest) (ip agent : string) (d : IdDB)
  : Response authenticationResponse * Cookie * IdDB :=
  match body with
  | Err _ => (invalid_body, KeepCookie, d)
  | Ok req =>
      match pl_TransactionID req with
      | None => (invalid_transaction, KeepCookie, d)
      | Some tx =>
          match LoginWithPassword t tx (pl_Password req) d with
          | (Err e, d) => (httputil_Error e, KeepCookie, d)
          | (Ok user, d) => handler_createSession newID now sent random (u_ID user) ip agent d
          end
      end
  end.
Definition handler_SendOTP (newID now : Z) (t : LoginClock) (random : result (list Z)) (body : result sendOTPRequest) (d : IdDB)
  : Response sendOTPResponse * IdDB :=
  match body with
  | Err _ => (invalid_body, d)
  | Ok req =>
      match so_TransactionID req with
      | None => (invalid_transaction, d)
      | Some tx =>
          match SendOTP newID now t random tx d with
          | (Err e, d) => (httputil_Error e, d)
          | (Ok _, d) => (httputil_OK (mkSendOTPResponse tx), d)
          end
      end
  end.
Definition handler_VerifyOTP (newUser newID : Z) (t : LoginClock) (now sent : Z) (random : result (list Z)) (body : result verifyOTPRequest)
    (ip agent : string) (d : IdDB) : Response authenticationResponse * Cookie * IdDB :=
  match body with
  | Err _ => (invalid_body, KeepCookie, d)
  | Ok req =>
      match vo_TransactionID req with
      | None => (invalid_transaction, KeepCookie, d)
      | Some tx =>
          match VerifyOTP newUser now t tx (TrimSpace (vo_Code req)) d with
          | (Err e, d) => (httputil_Error e, KeepCookie, d)
          | (Ok user, d) => handler_createSession newID now sent random (u_ID user) ip agent d
          end
      end
  end.
Definition handler_SetPassword (now : Z) (random : result (list Z)) (ctx : option Principal)
    (body : result setPasswordRequest) (d : IdDB) : Response authenticationResponse * IdDB :=
  match body with
  | Err _ => (invalid_body, d)
  | Ok req =>
      match UserIDFromContext ctx with
      | None => (httputil_Error (NewUnauthorized "authentication required"), d)
      | Some userID =>
          match SetPassword now random userID (sp_Password req) d with
          | (Err e, d) => (httputil_Error e, d)
          | (Ok user, d) => (httputil_OK (mkAuthenticationResponse (u_ID user) ""), d)
          end
      end
  end.
End Auth.

(** ** Passwords *)

Lemma hex_no_dollar l : Forall is_byte l → 36 ∉ bytes (hex_encode l).
Proof.
  intros Hl. unfold hex_encode. rewrite bytes_of_bytes by by apply hex_bytes_range.
  rewrite list_elem_of_In, in_flat_map. intros (b & Hb & Hin). rewrite <- list_elem_of_In in Hb.
  rewrite Forall_forall in Hl. specialize (Hl b Hb). unfold is_byte in Hl.
  assert (∀ x, hex_digit x ≠ 36 ∨ x < 0) as Hd.
  { intros x. unfold hex_digit. destruct (x <? 10); lia. }
  cbn in Hin. destruct Hin as [E|[E|[]]].
  - destruct (Hd (b / 16)) as [?|?]; [done|]. pose proof (Z.div_pos b 16). lia.
  - destruct (Hd (b mod 16)) as [?|?]; [done|]. pose proof (Z.mod_pos_bound b 16). lia.
Qed.

(** ** Passwords and codes *)

Section Passwords.
Context (IDKey : string → list Z → list Z).
(** [argon2.IDKey] returns bytes. *)
Hypothesis IDKey_bytes : ∀ password salt, Forall is_byte (IDKey password salt).

Lemma stored_password salt password h other :
  Forall is_byte salt → hashPassword IDKey (Ok salt) password = Ok h →
  verifyPassword IDKey other h = bool_decide (IDKey other salt = IDKey password salt).
Proof.
  intros Hs [= <-]. set (k := IDKey password salt).
  assert (Split ("argon2id$v=19$m=65536,t=3,p=4$" +:+ hex_encode salt +:+ "$" +:+ hex_encode k) "$"%char
          = ["argon2id"; "v=19"; "m=65536,t=3,p=4"; hex_encode salt; hex_encode k]) as E.
  { unfold Split. change (byte_of "$"%char) with 36. rewrite !bytes_app.
    change (bytes "argon2id$v=19$m=65536,t=3,p=4$") with
      (bytes "argon2id" ++ 36 :: bytes "v=19" ++ 36 :: bytes "m=65536,t=3,p=4" ++ [36]).
    change (bytes "$") with [36].
    repeat (rewrite <- ?app_assoc; cbn [app]; rewrite split_bytes_app by (by vm_compute; set_solver)).
    rewrite <- ?app_assoc. cbn [app].
    rewrite split_bytes_app by by apply hex_no_dollar.
    rewrite split_bytes_no_sep by (apply hex_no_dollar, IDKey_bytes).
    cbn [fmap list_fmap app]. by rewrite !of_bytes_bytes. }
  unfold verifyPassword. rewrite E. change (negb (String.eqb "argon2id" "argon2id")) with false.
  rewrite !hex_decode_encode by (done || apply IDKey_bytes).
  case_match eqn:Hl; [|done]. apply negb_true_iff, Nat.eqb_neq in Hl.
  symmetry. apply bool_decide_eq_false_2. intros Heq. by rewrite Heq in Hl.
Qed.
End Passwords.

(** The stored form of a password is accepted for exactly the passwords
    that argon2 cannot tell from it: parameters, salt and digest survive
    the encoding. *)
Theorem password_roundtrip (IDKey : string → list Z → list Z) salt password h other :
  (∀ p s, Forall is_byte (IDKey p s)) → Forall is_byte salt →
  hashPassword IDKey (Ok salt) password = Ok h →
  (verifyPassword IDKey other h = true ↔ IDKey other salt = IDKey password salt).
Proof. intros Hb Hs Hh. rewrite (stored_password IDKey Hb salt password h other Hs Hh). apply bool_decide_eq_true. Qed.

Lemma lor_shiftl_add a n x : 0 ≤ n → 0 ≤ x < 2 ^ n → Z.lor (Z.shiftl a n) x = a * 2 ^ n + x.
Proof.
  intros Hn Hx. rewrite <- Z.shiftl_mul_pow2 by done.
  assert (Z.land (Z.shiftl a n) x = 0) as E.
  { apply Z.bits_inj'. intros i Hi. rewrite Z.land_spec, Z.bits_0.
    destruct (Z.lt_ge_cases i n) as [Hin|Hin].
    - by rewrite Z.shiftl_spec_low.
    - rewrite <- (Z.mod_small x (2 ^ n)) by done. rewrite Z.mod_pow2_bits_high by lia. apply andb_false_r. }
  pose proof (Z.add_lor_land (Z.shiftl a n) x). lia.
Qed.

(** The number that a string of digits writes. *)
Definition decimal (s : string) : Z := foldl (λ acc b, acc * 10 + (b - 48)) 0 (bytes s).

Lemma pad6_digits v : 0 ≤ v < 1000000 →
  len (pad6 v) = 6 ∧ Forall (λ b, 48 ≤ b ≤ 57) (bytes (pad6 v)) ∧ decimal (pad6 v) = v.
Proof.
  intros Hv. unfold decimal, pad6. split; [done|]. rewrite bytes_of_bytes.
  - split.
    + apply Forall_fmap, Forall_forall. intros k _. cbn.
      pose proof (Z.mod_pos_bound (v / 10 ^ k) 10). lia.
    + cbn. Z.to_euclidean_division_equations. lia.
  - apply Forall_fmap, Forall_forall. intros k _. cbn. unfold is_byte.
    pose proof (Z.mod_pos_bound (v / 10 ^ k) 10). lia.
Qed.

(** A one-time code is six decimal digits, leading zeros kept, that write
    the big-endian number of the four random bytes modulo a million. *)
Theorem generateOTP_six_digits b0 b1 b2 b3 :
  Forall is_byte [b0; b1; b2; b3] →
  ∃ code, generateOTP (Ok [b0; b1; b2; b3]) = Ok code ∧ len code = 6 ∧
    Forall (λ b, 48 ≤ b ≤ 57) (bytes code) ∧ decimal code = be_word [b0; b1; b2; b3] mod 1000000.
Proof.
  rewrite !Forall_cons. intros (H0 & H1 & H2 & H3 & _). unfold is_byte in *.
  eexists. split; [reflexivity|].
  set (v := uint32 _).
  assert (v = be_word [b0; b1; b2; b3]) as ->.
  { subst v. cbn [nth]. rewrite (lor_shiftl_add b2 8), (lor_shiftl_add b1 16), (lor_shiftl_add b0 24) by lia.
    unfold uint32, wrap_u. rewrite Z.mod_small by lia. cbn. lia. }
  apply pad6_digits, Z.mod_pos_bound. lia.
Qed.

(** ** Logging in *)

(** What a password login requires of the tables. *)
Definition may_log_in (IDKey : string → list Z → list Z) (d : IdDB) (t : LoginClock) (tx : Z) (password : string)
    (user : User) : Prop :=
  tx ≠ 0 ∧ u_DisabledAt user = None ∧
  ∃ x uid hash, transactions d !! tx = Some x ∧
    open_transaction (at_lookup t) x = true ∧ at_check t ≤ x_ExpiresAt x ∧ at_close t < x_ExpiresAt x ∧ x_UserID x = Some uid ∧
    users d !! uid = Some user ∧ u_PasswordHash user = Some hash ∧ verifyPassword IDKey password hash = true.

(** The tables after the state of a transaction was set. *)
Definition set_state (state : string) (now tx : Z) (d : IdDB) : IdDB :=
  set_transactions (alter (with_state now state) tx (transactions d)) d.
(** The database finds the transaction open, and the host finds it expired. *)
Definition found_expired (t : LoginClock) (tx : Z) (d : IdDB) : bool :=
  negb (tx =? 0) &&
  match transactions d !! tx with
  | Some x => open_transaction (at_lookup t) x && (x_ExpiresAt x <? at_check t)
  | None => false
  end.

Lemma set_state_insert state now tx d x :
  transactions d !! tx = Some x →
  set_transactions (<[tx := with_state now state x]> (transactions d)) d = set_state state now tx d.
Proof.
  intros Hx. unfold set_state. f_equal. apply map_eq. intros k. destruct (decide (k = tx)) as [->|Hk].
  - by rewrite lookup_insert_eq, lookup_alter_eq, Hx.
  - by rewrite lookup_insert_ne, lookup_alter_ne by done.
Qed.

Lemma getValidTransaction_ok t tx d :
  id_faults d = [] →
  getValidTransaction t tx d
  = (if tx =? 0 then Err (NewBadRequest "invalid transaction_id")
     else match transactions d !! tx with
          | Some x =>
              if open_transaction (at_lookup t) x then
                if x_ExpiresAt x <? at_check t then Err (NewUnauthorized "authentication transaction has expired") else Ok x
              else Err (NewUnauthorized "invalid authentication transaction")
          | None => Err (NewUnauthorized "invalid authentication transaction")
          end, if found_expired t tx d then set_state "expired" (at_close t) tx d else d).
Proof.
  intros Hf. unfold getValidTransaction, authRepo_GetAuthTransactionByID, authRepo_ExpireAuthTransaction, found_expired.
  destruct (tx =? 0); [done|]. unfold GetAuthTransactionByID. rewrite query_ok by done.
  destruct (transactions d !! tx) as [x|] eqn:Hx; [|done]. cbn.
  destruct (open_transaction (at_lookup t) x) eqn:Ho; [|done]. cbn. destruct (x_ExpiresAt x <? at_check t); [|done].
  unfold ExpireAuthTransaction. rewrite query_ok by done. unfold update_returning. rewrite Hx.
  apply andb_true_iff in Ho as [_ ->]. cbn. by rewrite (set_state_insert _ _ _ _ x).
Qed.

Lemma login_ok IDKey t tx password d user :
  id_faults d = [] → may_log_in IDKey d t tx password user →
  LoginWithPassword IDKey t tx password d = (Ok user, set_state "authenticated" (at_close t) tx d).
Proof.
  intros Hf (Htx & Hdis & x & uid & hash & Hx & Ho & Hck & Hcl & Hu & Huser & Hh & Hv).
  unfold LoginWithPassword, authRepo_GetUserByID, authRepo_MarkAuthTransactionAuthenticated. rewrite getValidTransaction_ok by done.
  unfold found_expired. rewrite (proj2 (Z.eqb_neq _ _) Htx), Hx, Ho, (proj2 (Z.ltb_ge _ _) Hck), Hu. cbn [negb andb].
  unfold GetUserByID. rewrite query_ok, Huser by done. cbn. rewrite Hdis. cbn. rewrite Hdis, Hh. cbn [is_none negb].
  destruct hash as [|c hash]; [by vm_compute in Hv|]. rewrite Hv. cbn [negb].
  unfold MarkAuthTransactionAuthenticated. rewrite query_ok by done. unfold update_returning. rewrite Hx.
  unfold open_transaction, closed in Ho. apply andb_true_iff in Ho as [_ Hst].
  rewrite negb_orb in Hst. apply andb_true_iff in Hst as [_ ->]. rewrite (proj2 (Z.ltb_lt _ _) Hcl). cbn [andb].
  by rewrite set_state_insert.
Qed.

Lemma login_cases IDKey t tx password d :
  id_faults d = [] →
  (∃ user, may_log_in IDKey d t tx password user) ∨
  ∃ e, LoginWithPassword IDKey t tx password d
       = (Err e, if found_expired t tx d then set_state "expired" (at_close t) tx d else d).
Proof.
  intros Hf. unfold may_log_in, LoginWithPassword, authRepo_GetUserByID, authRepo_MarkAuthTransactionAuthenticated.
  rewrite getValidTransaction_ok by done. unfold found_expired.
  destruct (Z.eqb_spec tx 0) as [->|Htx]; [by eauto|]. cbn [negb andb].
  destruct (transactions d !! tx) as [x|] eqn:Hx; [|by eauto].
  destruct (open_transaction (at_lookup t) x) eqn:Ho; [|by eauto]. cbn [andb].
  destruct (Z.ltb_spec (x_ExpiresAt x) (at_check t)) as [Hck|Hck]; [by eauto|].
  destruct (x_UserID x) as [uid|] eqn:Hu; [|by eauto].
  unfold GetUserByID. rewrite query_ok by done.
  destruct (users d !! uid) as [u|] eqn:Huser; cbn; [|by eauto].
  destruct (u_DisabledAt u) eqn:Hdis; cbn; [by eauto|]. rewrite Hdis. cbn [is_none negb].
  destruct (u_PasswordHash u) as [[|c h]|] eqn:Hh; [by eauto| |by eauto].
  destruct (verifyPassword IDKey password (String c h)) eqn:Hv; cbn [negb]; [|by eauto].
  destruct (Z.ltb_spec (at_close t) (x_ExpiresAt x)) as [Hcl|Hcl].
  - left. exists u. split_and!; [done..|]. by exists x, uid, (String c h).
  - right. unfold MarkAuthTransactionAuthenticated. rewrite query_ok by done. unfold update_returning. rewrite Hx.
    rewrite (proj2 (Z.ltb_ge _ _) Hcl). by eexists.
Qed.

(** A transaction in one of the two final states lets no one in. *)
Lemma closed_is_final IDKey state now tx d t other user :
  closed state = true → ¬ may_log_in IDKey (set_state state now tx d) t tx other user.
Proof.
  intros Hc (_ & _ & x & _ & _ & Hx & Ho & _). cbn in Hx.
  apply lookup_alter_Some in Hx as [(_ & y & _ & ->)|[Hne _]]; [|done].
  unfold open_transaction in Ho. cbn in Ho. by rewrite Hc, andb_false_r in Ho.
Qed.

(** C21: A password login, without database faults, succeeds exactly when the
    transaction is open, has not expired on any of the clocks that the login
    reads (the database looks it up, the host checks it, the database closes
    it), belongs to an enabled user, and the password matches the stored
    hash.  A login closes the transaction, which no second login can use.  A
    refused login changes nothing, except that a transaction which the
    database finds open and the host finds expired is closed as expired;
    no login can use that one either. *)
Theorem password_login_exact IDKey t tx password d :
  id_faults d = [] →
  let login := LoginWithPassword IDKey t tx password d in
  (∀ user, login.1 = Ok user ↔ may_log_in IDKey d t tx password user) ∧
  login.2 = (if is_ok login.1 then set_state "authenticated" (at_close t) tx d
             else if found_expired t tx d then set_state "expired" (at_close t) tx d else d) ∧
  (is_ok login.1 || found_expired t tx d = true →
   ∀ t2 other, is_ok (LoginWithPassword IDKey t2 tx other login.2).1 = false).
Proof.
  intros Hf login. subst login.
  assert (∀ state now t2 other, closed state = true →
    is_ok (LoginWithPassword IDKey t2 tx other (set_state state now tx d)).1 = false) as Hfinal.
  { intros state now t2 other Hc. destruct (login_cases IDKey t2 tx other (set_state state now tx d)) as [[v Hv]|[e He]].
    - done.
    - by apply closed_is_final in Hv.
    - by rewrite He. }
  destruct (login_cases IDKey t tx password d Hf) as [[u Hu]|[e He]].
  - rewrite (login_ok _ _ _ _ _ _ Hf Hu). cbn. split_and!; [|done|intros _ t2 other; by apply Hfinal].
    intros user. split; [by intros [= <-]|]. intros Hm%login_ok; [|done].
    rewrite (login_ok _ _ _ _ _ _ Hf Hu) in Hm. congruence.
  - rewrite He. cbn. split_and!; [|done|].
    + intros user. split; [done|]. intros Hm%login_ok; [|done]. congruence.
    + intros -> t2 other. by apply Hfinal.
Qed.

Lemma set_password_inv IDKey now random userID password d u d' :
  id_faults d = [] → SetPassword IDKey now random userID password d = (Ok u, d') →
  ∃ h, hashPassword IDKey random password = Ok h ∧ d' = set_users (<[userID := u]> (users d)) d ∧
    u_PasswordHash u = Some h ∧ u_DisabledAt u = None.
Proof.
  intros Hf. unfold SetPassword, authRepo_SetUserPassword. destruct (userID =? 0); [done|].
  destruct (hashPassword _ _ _) as [h|] eqn:Hh; [|done].
  unfold SetUserPassword. rewrite query_ok by done. unfold update_returning.
  destruct (users d !! userID) as [v|]; [|done].
  destruct (u_DisabledAt v) eqn:Hdis; [done|]. cbn. intros [= <- <-]. by exists h.
Qed.

Lemma start_inv `{UnicodeCase} newID now email d x d' :
  id_faults d = [] → auth_Start newID now email d = (Ok x, d') →
  d' = set_transactions (<[newID := x]> (transactions d)) d ∧ x_State x = "started" ∧
  x_ExpiresAt x = now + authTransactionTTL.
Proof.
  intros Hf. unfold auth_Start, authRepo_GetUserByEmail, authRepo_CreateAuthTransaction. destruct (bool_decide _); [done|].
  unfold GetUserByEmail. rewrite query_ok by done.
  destruct (find_row _ (users d)) as [u|]; [|done]. cbn [one].
  unfold CreateAuthTransaction. rewrite query_ok by done.
  case_match; [done|]. case_match; [done|]. case_match; [done|]. by intros [= <- <-].
Qed.

(** C22: From enrolment to login: once a user has set a password and started a
    transaction, the password logs this user in for ten minutes, and a
    password that argon2 tells apart does not. *)
Theorem password_login_flow `{UnicodeCase} (IDKey : string → list Z → list Z) now salt userID password d u d1
    newID email x d2 t other :
  (∀ p s, Forall is_byte (IDKey p s)) → Forall is_byte salt → id_faults d = [] → newID ≠ 0 →
  SetPassword IDKey now (Ok salt) userID password d = (Ok u, d1) →
  auth_Start newID now email d1 = (Ok x, d2) → x_UserID x = Some userID →
  at_lookup t < now + 10 * Minute → at_check t ≤ now + 10 * Minute → at_close t < now + 10 * Minute →
  ((LoginWithPassword IDKey t newID password d2).1 = Ok u) ∧
  (IDKey other salt ≠ IDKey password salt → is_ok (LoginWithPassword IDKey t newID other d2).1 = false).
Proof.
  intros Hb Hs Hf Hid Hset Hstart Hx Hlook Hck Hcl.
  destruct (set_password_inv _ _ _ _ _ _ _ _ Hf Hset) as (h & Hh & -> & Hph & Hdis).
  apply start_inv in Hstart as (-> & Hst & Hexp); [|done].
  set (d2 := set_transactions _ _).
  assert (transactions d2 !! newID = Some x ∧ users d2 !! userID = Some u) as [Htx Hu].
  { cbn. by rewrite !lookup_insert_eq. }
  pose proof (λ p, stored_password IDKey Hb salt password h p Hs Hh) as Hver.
  split.
  - rewrite (login_ok _ _ _ _ _ u); [done|done|]. split_and!; [done..|]. exists x, userID, h.
    split_and!; try done.
    + unfold open_transaction. rewrite Hst, Hexp, andb_true_r. apply Z.ltb_lt. done.
    + by rewrite Hexp.
    + by rewrite Hexp.
    + rewrite Hver. by apply bool_decide_eq_true_2.
  - intros Hne. destruct (login_cases IDKey t newID other d2) as [[v Hv]|[e He]]; [done| |by rewrite He].
    destruct Hv as (_ & _ & x' & uid & h' & Hx' & _ & _ & _ & Hu' & Huid & Hh' & Hv').
    rewrite Htx in Hx'. injection Hx' as <-. rewrite Hx in Hu'. injection Hu' as <-.
    rewrite Hu in Huid. injection Huid as <-. rewrite Hph in Hh'. injection Hh' as <-.
    rewrite Hver in Hv'. by apply bool_decide_eq_true_1 in Hv'.
Qed.

(** ** One-time codes *)

(** The migration's CHECK on the purpose of a challenge. *)
Definition purposes_checked (d : IdDB) : Prop :=
  map_Forall (λ _ c, existsb (String.eqb (c_Purpose c)) challenge_purposes = true) (challenges d).

Lemma query_purposes {A} (f : IdDB → result A * IdDB) d :
  (∀ e, purposes_checked e → purposes_checked (f e).2) → purposes_checked d → purposes_checked (query f d).2.
Proof. intros Hf Hd. unfold query. destruct (id_faults d) as [|[]]; [by apply Hf|done|by apply Hf]. Qed.

Lemma update_purposes id P f d :
  (∀ c, c_Purpose (f c) = c_Purpose c) → purposes_checked d →
  purposes_checked (update_returning (challenges d) set_challenges id P f d).2.
Proof.
  intros Hf Hd. unfold update_returning. destruct (challenges d !! id) as [c|] eqn:Hc; [|done].
  destruct (P c); [|done]. cbn. apply map_Forall_insert_2; [|done]. rewrite Hf. by apply (Hd id).
Qed.

Lemma filter_elem_purposes now tx purpose d c :
  purposes_checked d → (GetActiveAuthChallenge now tx purpose d).1 = Ok c →
  existsb (String.eqb purpose) challenge_purposes = true.
Proof.
  intros Hd. unfold GetActiveAuthChallenge, query.
  assert (∀ e : IdDB, challenges e = challenges d →
    one (head (merge_sort challenge_newer (filter (λ c, c_AuthTransactionID c = tx ∧ tx ≠ None ∧
      c_Purpose c = purpose ∧ challenge_active now c = true) (map_to_list (challenges e)).*2))) = Ok c →
    existsb (String.eqb purpose) challenge_purposes = true) as Hgen.
  { intros e -> E. destruct (head _) as [c'|] eqn:Hh; [|done]. injection E as ->.
    apply head_Some_elem_of in Hh. rewrite merge_sort_Permutation in Hh.
    apply list_elem_of_filter in Hh as [(_ & _ & <- & _) Hin].
    apply list_elem_of_fmap in Hin as ([k c'] & -> & Hkc%elem_of_map_to_list). by apply (Hd k). }
  destruct (id_faults d) as [|[]]; cbn; [by apply Hgen|done|by apply Hgen].
Qed.

(** The constraint is kept by every statement on the table. *)
Lemma challenges_keep_purposes d now id tx identifier hash purpose state n expires :
  purposes_checked d →
  purposes_checked (CreateAuthChallenge id now tx identifier hash purpose state n expires d).2 ∧
  purposes_checked (ConsumeAuthChallenge now id d).2 ∧
  purposes_checked (IncrementAuthChallengeAttempts now id d).2 ∧
  purposes_checked (DeleteExpiredAuthChallenges now d).2.
Proof.
  intros Hd. split_and!; apply query_purposes; try done.
  - intros e He. destruct state as [st|]; [|done]. destruct (negb _) eqn:Hp; [done|].
    case_match; [done|]. case_match; [done|]. cbn. apply map_Forall_insert_2; [|done].
    by apply negb_false_iff in Hp.
  - intros e He. by apply update_purposes.
  - intros e He. by apply update_purposes.
  - intros e He. cbn. intros k c [Hc _]%map_lookup_filter_Some. by apply (He k).
Qed.

(** The service creates and looks up challenges with the purpose "otp",
    which the migration does not allow, and without the state it requires:
    no code is ever sent or accepted, whatever else happens. *)
Theorem otp_login_is_impossible `{UnicodeCase} newID now t random tx code d :
  purposes_checked d →
  is_ok (SendOTP newID now t random tx d).1 = false ∧ is_ok (VerifyOTP newID now t tx code d).1 = false.
Proof.
  intros Hd. assert (∀ r d', getValidTransaction t tx d = (r, d') → purposes_checked d') as Hget.
  { intros r d'. unfold getValidTransaction, authRepo_GetAuthTransactionByID, authRepo_ExpireAuthTransaction. destruct
      (tx =? 0); [by intros [= <- <-]|].
    destruct (GetAuthTransactionByID (at_lookup t) tx d) as [r1 d1] eqn:E.
    assert (purposes_checked d1) as Hd1.
    { change d1 with (r1, d1).2. rewrite <- E. by apply query_purposes. }
    destruct r1 as [x|]; [|by intros [= <- <-]]. destruct (_ <? _); [|by intros [= <- <-]].
    intros [= <- <-]. apply query_purposes; [|done]. intros e He. unfold update_returning. cbn.
    destruct (transactions e !! tx); [|done]. by destruct (negb _). }
  unfold SendOTP, authRepo_CreateAuthChallenge, VerifyOTP, authRepo_MarkUserEmailVerified,
      authRepo_MarkAuthTransactionAuthenticated, authRepo_GetActiveAuthChallenge,
      authRepo_IncrementAuthChallengeAttempts, authRepo_ConsumeAuthChallenge. destruct (getValidTransaction t tx d)
      as [[x|] d1] eqn:E; [|done].
  specialize (Hget _ _ eq_refl). split.
  - destruct (generateOTP random); [|done]. unfold CreateAuthChallenge, query.
    by destruct (id_faults d1) as [|[]].
  - destruct (GetActiveAuthChallenge now (Some tx) "otp" d1) as [[c|] d2] eqn:Ec; [|done]. exfalso.
    assert (existsb (String.eqb "otp") challenge_purposes = true) as Ho; [|by vm_compute in Ho].
    eapply (filter_elem_purposes now (Some tx) "otp" d1 c); [done|]. by rewrite Ec.
Qed.

(** ** What the handlers give away and let through *)

Lemma start_unknown `{UnicodeCase} newID now email d :
  id_faults d = [] → normalizeEmail email ≠ "" →
  (∀ k u, users d !! k = Some u → citext_eq (u_Email u) (normalizeEmail email) = true → u_DisabledAt u ≠ None) →
  auth_Start newID now email d = (Err ErrNoRows, d).
Proof.
  intros Hf He Hu. unfold auth_Start, authRepo_GetUserByEmail, authRepo_CreateAuthTransaction. rewrite bool_decide_eq_false_2 by done.
  unfold GetUserByEmail. rewrite query_ok by done.
  destruct (find_row _ (users d)) as [u|] eqn:Hr; [|done]. exfalso.
  apply find_row_Some in Hr as (k & Hk & [Hc Hd]%andb_true_iff).
  apply (Hu k u Hk Hc). by destruct (u_DisabledAt u).
Qed.

(** The comment in [Start] says that the reply does not tell whether an
    address has an account.  It does: a transaction for an enabled user, an
    internal error for every other address. *)
Theorem start_reveals_accounts `{UnicodeCase} newID now email d :
  id_faults d = [] → transactions d !! newID = None →
  (∀ k u, users d !! k = Some u → u_ID u = k) →
  let address := normalizeEmail (normalizeEmail email) in
  address ≠ "" →
  resp_status (handler_Start newID now (Ok (mkStartRequest email)) d).1
  = if bool_decide (map_Exists (λ _ u, citext_eq (u_Email u) address = true ∧ u_DisabledAt u = None) (users d))
    then 200 else 500.
Proof.
  intros Hf Hnew Hkey address Hne. case_bool_decide as Hex; unfold handler_Start; cbn [st_Email].
  - assert (∃ u, find_row (λ u, citext_eq (u_Email u) address && is_none (u_DisabledAt u)) (users d) = Some u
            ∧ users d !! u_ID u = Some u) as (u & Hu & Hid).
    { destruct Hex as (k & u & Hk & Hc & Hdis). destruct (find_row _ _) as [v|] eqn:Hr.
      - exists v. split; [done|]. apply find_row_Some in Hr as (k' & Hk' & _). by rewrite (Hkey _ _ Hk').
      - exfalso. pose proof (find_row_None _ _ Hr k u Hk) as Hf'. cbn in Hf'. by rewrite Hc, Hdis in Hf'. }
    unfold auth_Start, authRepo_GetUserByEmail, authRepo_CreateAuthTransaction. fold address. rewrite
        bool_decide_eq_false_2 by done. unfold GetUserByEmail.
    rewrite query_ok by done. fold address. rewrite Hu. cbn [one].
    unfold CreateAuthTransaction. rewrite query_ok by done. rewrite Hid, Hnew.
    rewrite !bool_decide_eq_false_2 by (try done; by intros []).
    by destruct (Z.leb_spec (now + authTransactionTTL) now); [unfold authTransactionTTL, Minute, Second in *; lia|].
  - rewrite start_unknown; [done|done|done|]. intros k u Hk Hc Hdis. apply Hex. by exists k, u.
Qed.

(** No handler calls the validation of auth/validation.go: an enabled user
    may set any password that the body binds, one of a single character
    included. *)
Theorem set_password_is_not_validated IDKey now salt ctx password d u userID :
  id_faults d = [] → UserIDFromContext ctx = Some userID → users d !! userID = Some u →
  u_DisabledAt u = None → userID ≠ 0 →
  resp_status (handler_SetPassword IDKey now (Ok salt) ctx (Ok (mkSetPasswordRequest password)) d).1 = 200 ∧
  ValidateSetPassword "a" = Err (NewBadRequest "password must be at least 8 characters").
Proof.
  intros Hf Hc Hu Hd H0. split; [|done]. unfold handler_SetPassword, SetPassword, authRepo_SetUserPassword. rewrite Hc.
  rewrite (proj2 (Z.eqb_neq _ _) H0). cbn [hashPassword]. unfold SetUserPassword.
  rewrite query_ok by done. unfold update_returning. rewrite Hu, Hd. done.
Qed.

(** ** A key derivation and a user to run on

    The stand-in for argon2 hashes the password with the salt. *)
Definition toy_IDKey (password : string) (salt : list Z) : list Z := Sum256 (bytes password ++ salt).
Lemma toy_IDKey_bytes p s : Forall is_byte (toy_IDKey p s).
Proof. apply Sum256_range. Qed.
Definition ident_case : UnicodeCase := {| unicode_ToLower := λ r, r |}.
Definition ana_enrolled : result User * IdDB := SetPassword toy_IDKey 0 (Ok [9; 9]) 1 "correct horse" ana_db.
Definition ana_started : result AuthTransaction * IdDB :=
  @auth_Start ident_case 3 0 " Ana@Example.com " ana_enrolled.2.

Lemma password_roundtrip_witness :
  ∃ h, hashPassword toy_IDKey (Ok [9; 9]) "correct horse" = Ok h ∧
    verifyPassword toy_IDKey "correct horse" h = true ∧ verifyPassword toy_IDKey "wrong" h = false.
Proof.
  eexists. split; [reflexivity|].
  assert (Forall is_byte [9; 9]) as Hs by (by repeat constructor).
  split.
  - by apply (password_roundtrip toy_IDKey [9; 9] "correct horse" _ "correct horse" toy_IDKey_bytes Hs eq_refl).
  - apply not_true_iff_false.
    rewrite (password_roundtrip toy_IDKey [9; 9] "correct horse" _ "wrong" toy_IDKey_bytes Hs eq_refl).
    by vm_compute.
Defined.

Lemma password_login_flow_witness :
  ∃ u, ana_enrolled.1 = Ok u ∧ (LoginWithPassword toy_IDKey (at_once 100) 3 "correct horse" ana_started.2).1 = Ok u.
Proof.
  destruct ana_enrolled as [[u|e] d1] eqn:E1; [|by vm_compute in E1]. exists u. split; [done|].
  destruct ana_started as [[x|e] d2] eqn:E2; [|by vm_compute in E2].
  apply (@password_login_flow ident_case toy_IDKey 0 [9; 9] 1 "correct horse" ana_db u d1 3
           " Ana@Example.com " x d2 (at_once 100) "wrong").
  - apply toy_IDKey_bytes.
  - by repeat constructor.
  - done.
  - done.
  - exact E1.
  - unfold ana_started in E2. rewrite E1 in E2. exact E2.
  - pose proof (f_equal fst E2) as E3. vm_compute in E3. by injection E3 as <-.
  - done.
  - done.
  - done.
Defined.

Lemma password_login_exact_witness :
  is_ok (LoginWithPassword toy_IDKey (at_once 100) 3 "correct horse" ana_started.2).1 = true ∧
  is_ok (LoginWithPassword toy_IDKey (at_once 200) 3 "correct horse"
           (LoginWithPassword toy_IDKey (at_once 100) 3 "correct horse" ana_started.2).2).1 = false.
Proof.
  destruct (password_login_exact toy_IDKey (at_once 100) 3 "correct horse" ana_started.2) as (_ & _ & Honce);
    [vm_compute; reflexivity|].
  assert (is_ok (LoginWithPassword toy_IDKey (at_once 100) 3 "correct horse" ana_started.2).1 = true) as Hok
    by (vm_compute; reflexivity).
  split; [done|]. by apply Honce.
Defined.
(** The host is eleven minutes ahead of the database: the login is refused,
    and the transaction is closed as expired. *)
Example host_ahead_of_database :
  let login := LoginWithPassword toy_IDKey (mkLoginClock 100 (11 * Minute) 100) 3 "correct horse" ana_started.2 in
  is_ok login.1 = false ∧ x_State <$> transactions login.2 !! 3 = Some "expired".
Proof. vm_compute. done. Qed.

Lemma otp_login_is_impossible_witness : is_ok (SendOTP 4 100 (at_once 100) (Ok [0; 0; 0; 7]) 3 ana_started.2).1 = false.
Proof.
  apply (@otp_login_is_impossible ident_case 4 100 (at_once 100) (Ok [0; 0; 0; 7]) 3 "000007" ana_started.2).
  intros k c Hc. by vm_compute in Hc.
Defined.

Lemma generateOTP_six_digits_witness : ∃ code, generateOTP (Ok [0; 0; 0; 7]) = Ok code ∧ decimal code = 7.
Proof.
  destruct (generateOTP_six_digits 0 0 0 7) as (code & Hc & _ & _ & Hd); [by repeat constructor|].
  exists code. split; [exact Hc|]. rewrite Hd. vm_compute. reflexivity.
Defined.
