(* ===== verification/Tables.v ===== *)
(** * The constraints of the migrations

    What migrations/ declares of the tables (primary and foreign keys, UNIQUE
    and CHECK), as a predicate on the model, and that every statement and
    every service keeps it. *)

From S2P Require Import Prelude GoStrings GoTime GoCrypto GoNet AppErrors Outbox Sandbox IdentityDB Repositories Walk Identity Handlers Auth.
Open Scope Z_scope.

(** ** Rows and tables *)

Section Table.
Context {V : Type} (id : V → Z).

(** A row is stored under its id, refers to users that exist, and passes
    the CHECK. *)
Definition table_ok (us : gset Z) (refs : V → list Z) (check : V → bool) (t : gmap Z V) : Prop :=
  map_Forall (λ k v, id v = k ∧ Forall (.∈ us) (refs v) ∧ check v = true) t.
(** [UNIQUE] *)
Definition unique_by {K} (key : V → K) (t : gmap Z V) : Prop :=
  ∀ k k' v v', t !! k = Some v → t !! k' = Some v' → key v = key v' → k = k'.

Lemma table_insert us refs check t k v :
  table_ok us refs check t → id v = k → Forall (.∈ us) (refs v) → check v = true →
  table_ok us refs check (<[k := v]> t).
Proof. intros. by apply map_Forall_insert_2. Qed.
Lemma table_modify us refs check t k v w :
  table_ok us refs check t → t !! k = Some v → id w = id v → refs w = refs v → (check v = true → check w = true) →
  table_ok us refs check (<[k := w]> t).
Proof.
  intros Ht Hk Hi Hr Hc. destruct (Ht k v Hk) as (? & ? & ?). apply table_insert; [done|congruence|by rewrite Hr|auto].
Qed.
Lemma table_mono us us' refs check t : us ⊆ us' → table_ok us refs check t → table_ok us' refs check t.
Proof.
  intros Hs Ht k v Hk. destruct (Ht k v Hk) as (? & Hr & ?). split_and!; [done| |done].
  eapply Forall_impl; [exact Hr|]. set_solver.
Qed.
Lemma table_sub us refs check t t' : t' ⊆ t → table_ok us refs check t → table_ok us refs check t'.
Proof. intros Hs Ht k v Hk. apply Ht. by eapply lookup_weaken. Qed.
Lemma table_fmap us refs check t (f : V → V) :
  (∀ v, id (f v) = id v ∧ refs (f v) = refs v ∧ check (f v) = check v) →
  table_ok us refs check t → table_ok us refs check (f <$> t).
Proof.
  intros Hf Ht k v. rewrite lookup_fmap_Some. intros (w & <- & Hw). destruct (Hf w) as (-> & -> & ->). by apply Ht.
Qed.

Lemma unique_new {K} (key : V → K) t k v :
  unique_by key t → (∀ k' v', t !! k' = Some v' → key v' ≠ key v) → unique_by key (<[k := v]> t).
Proof.
  intros Hu Hn k1 k2 v1 v2. rewrite !lookup_insert_Some. intros [[<- <-]|[_ H1]] [[<- <-]|[_ H2]] E; try done.
  - by destruct (Hn k2 v2 H2).
  - by destruct (Hn k1 v1 H1).
  - by eapply Hu.
Qed.
Lemma unique_modify {K} (key : V → K) t k v w :
  unique_by key t → t !! k = Some v → key w = key v → unique_by key (<[k := w]> t).
Proof.
  intros Hu Hk Hw k1 k2 v1 v2. rewrite !lookup_insert_Some. intros [[<- <-]|[_ H1]] [[<- <-]|[_ H2]] E; try done;
    eapply Hu; eauto; congruence.
Qed.
Lemma unique_sub {K} (key : V → K) t t' : t' ⊆ t → unique_by key t → unique_by key t'.
Proof. intros Hs Hu k1 k2 v1 v2 H1 H2. eapply Hu; by eapply lookup_weaken. Qed.
Lemma unique_fmap {K} (key : V → K) t (f : V → V) :
  (∀ v, key (f v) = key v) → unique_by key t → unique_by key (f <$> t).
Proof.
  intros Hf Hu k1 k2 v1 v2. rewrite !lookup_fmap_Some. intros (w1 & <- & H1) (w2 & <- & H2). rewrite !Hf. by eapply Hu.
Qed.
End Table.

(** The check for a taken key, as [hash_taken] and its like write it. *)
Lemma not_taken {V} (p : V → bool) (t : gmap Z V) k v :
  existsb (λ x, p x.2) (map_to_list t) = false → t !! k = Some v → p v = false.
Proof.
  intros He Hk. destruct (p v) eqn:Hp; [|done]. apply not_true_iff_false in He. destruct He.
  apply existsb_elem. exists (k, v). split; [by apply elem_of_map_to_list|done].
Qed.

(** ** The identity tables *)

Section Identity.
Context `{UnicodeCase}.

Definition session_check (s : Session) : bool := s_CreatedAt s <? s_ExpiresAt s.
Definition transaction_check (x : AuthTransaction) : bool :=
  existsb (String.eqb (x_State x)) transaction_states && (x_CreatedAt x <? x_ExpiresAt x) &&
  match x_SelectedMethod x with Some m => existsb (String.eqb m) ["otp"; "password"] | None => true end.
Definition challenge_check (c : AuthChallenge) : bool :=
  existsb (String.eqb (c_Purpose c)) challenge_purposes && (0 <=? c_Attempts c) && (0 <? c_MaxAttempts c) &&
  (c_Attempts c <=? c_MaxAttempts c) && (c_CreatedAt c <? c_ExpiresAt c).

(** migrations/002 to 008.  The bound on the attempts is not declared there:
    the statements keep it. *)
Record id_wf (d : IdDB) : Prop := {
  wf_users : table_ok u_ID ∅ (λ _, []) (λ _, true) (users d);
  wf_emails : unique_by (λ u, ToLower (u_Email u)) (users d);
  wf_sessions : table_ok s_ID (dom (users d)) (λ s, [s_UserID s]) session_check (sessions d);
  wf_session_hashes : unique_by s_TokenHash (sessions d);
  wf_pats : table_ok t_ID (dom (users d)) (λ t, [t_Owner t]) (λ _, true) (pats d);
  wf_pat_hashes : unique_by t_TokenHash (pats d);
  wf_team_tokens : table_ok t_ID (dom (users d)) (λ t, [t_CreatedBy t]) (λ _, true) (team_tokens d);
  wf_team_hashes : unique_by t_TokenHash (team_tokens d);
  wf_members : ∀ team u, is_Some (team_members d !! (team, u)) → u ∈ dom (users d);
  wf_transactions : table_ok x_ID (dom (users d)) (λ x, option_list (x_UserID x)) transaction_check (transactions d);
  wf_challenges : table_ok c_ID ∅ (λ _, []) challenge_check (challenges d);
}.
(** The fields of the predicate that are at hand. *)
Local Ltac fields := constructor; cbn; try assumption.
(** The constraints hold after it, and no user is removed. *)
Definition keeps (d d' : IdDB) : Prop := id_wf d → id_wf d' ∧ dom (users d) ⊆ dom (users d').
#[export] Instance keeps_rel : TableRel keeps.
Proof.
  split; [|intros d fs Hd; split; [destruct Hd; fields|done]]. split; [by intros d Hd|].
  intros d1 d2 d3 H1 H2 Hd. destruct (H1 Hd) as [Hd2 ?]. destruct (H2 Hd2) as [? ?]. split; [done|set_solver].
Qed.

(** One table changes at a time. *)
Lemma keeps_users t d :
  (id_wf d → table_ok u_ID ∅ (λ _, []) (λ _, true) t ∧ unique_by (λ u, ToLower (u_Email u)) t ∧
             dom (users d) ⊆ dom t) → keeps d (set_users t d).
Proof.
  intros Ht Hd. destruct (Ht Hd) as (Hk & Hu & Hs). destruct Hd. split; [|done]. fields.
  - by eapply table_mono.
  - by eapply table_mono.
  - by eapply table_mono.
  - intros team u Hm. set_solver.
  - by eapply table_mono.
Qed.
Lemma keeps_sessions t d :
  (id_wf d → table_ok s_ID (dom (users d)) (λ s, [s_UserID s]) session_check t ∧ unique_by s_TokenHash t) →
  keeps d (set_sessions t d).
Proof. intros Ht Hd. destruct (Ht Hd), Hd. split; [fields|done]. Qed.
Lemma keeps_pats t d :
  (id_wf d → table_ok t_ID (dom (users d)) (λ t, [t_Owner t]) (λ _, true) t ∧ unique_by t_TokenHash t) →
  keeps d (set_pats t d).
Proof. intros Ht Hd. destruct (Ht Hd), Hd. split; [fields|done]. Qed.
Lemma keeps_team_tokens t d :
  (id_wf d → table_ok t_ID (dom (users d)) (λ t, [t_CreatedBy t]) (λ _, true) t ∧ unique_by t_TokenHash t) →
  keeps d (set_team_tokens t d).
Proof. intros Ht Hd. destruct (Ht Hd), Hd. split; [fields|done]. Qed.
Lemma keeps_transactions t d :
  (id_wf d → table_ok x_ID (dom (users d)) (λ x, option_list (x_UserID x)) transaction_check t) →
  keeps d (set_transactions t d).
Proof. intros Ht Hd. specialize (Ht Hd). destruct Hd. split; [fields|done]. Qed.
Lemma keeps_challenges t d :
  (id_wf d → table_ok c_ID ∅ (λ _, []) challenge_check t) → keeps d (set_challenges t d).
Proof. intros Ht Hd. specialize (Ht Hd). destruct Hd. split; [fields|done]. Qed.

(** A row of a table is replaced by [f] of it. *)
Lemma keeps_update_users id P f d :
  (∀ u, u_ID (f u) = u_ID u ∧ u_Email (f u) = u_Email u) →
  keeps d (update_returning (users d) set_users id P f d).2.
Proof.
  intros Hf. apply (update_rel keeps users). intros v Hv _. apply keeps_users. intros [].
  destruct (Hf v) as [Hi He]. split_and!.
  - by eapply table_modify.
  - eapply unique_modify; [done|done|by rewrite He].
  - rewrite dom_insert. set_solver.
Qed.
Lemma keeps_update_sessions id P f d :
  (∀ s, s_ID (f s) = s_ID s ∧ s_UserID (f s) = s_UserID s ∧ s_TokenHash (f s) = s_TokenHash s ∧
        session_check (f s) = session_check s) →
  keeps d (update_returning (sessions d) set_sessions id P f d).2.
Proof.
  intros Hf. apply (update_rel keeps sessions). intros v Hv _. apply keeps_sessions. intros [].
  destruct (Hf v) as (Hi & Hu & Hh & Hc). split; [|by eapply unique_modify].
  eapply table_modify; [done|done|done|by rewrite Hu|by rewrite Hc].
Qed.
Lemma keeps_update_transactions id P (f : AuthTransaction → AuthTransaction) d :
  (∀ x, P x = true → x_ID (f x) = x_ID x ∧ Forall (.∈ dom (users d)) (option_list (x_UserID (f x))) ∨
        x_ID (f x) = x_ID x ∧ x_UserID (f x) = x_UserID x) →
  (∀ x, transaction_check x = true → transaction_check (f x) = true) →
  keeps d (update_returning (transactions d) set_transactions id P f d).2.
Proof.
  intros Hf Hc. apply (update_rel keeps transactions). intros v Hv HP. apply keeps_transactions. intros [].
  destruct (wf_transactions0 id v Hv) as (? & ? & ?).
  destruct (Hf v HP) as [[Hi Hr]|[Hi Hr]]; (apply table_insert; [done|congruence| |auto]); [done|by rewrite Hr].
Qed.
Lemma keeps_update_challenges id P f d :
  (∀ c, P c = true → c_ID (f c) = c_ID c ∧ (challenge_check c = true → challenge_check (f c) = true)) →
  keeps d (update_returning (challenges d) set_challenges id P f d).2.
Proof.
  intros Hf. apply (update_rel keeps challenges). intros v Hv HP. apply keeps_challenges. intros [].
  destruct (Hf v HP) as [Hi Hc]. by eapply table_modify.
Qed.
End Identity.

(** ** Every statement keeps the constraints *)

Section Statements.
Context `{UnicodeCase}.
Implicit Types d : IdDB.

Lemma active_user d id : user_active d id = true → id ∈ dom (users d).
Proof. unfold user_active. rewrite elem_of_dom. destruct (users d !! id); [by eauto|done]. Qed.
Lemma manager_user d team id : id_wf d → may_manage d team id = true → id ∈ dom (users d).
Proof.
  unfold may_manage. destruct (team_members d !! (team, id)) eqn:E; [|done]. intros [] _.
  apply (wf_members0 team). by rewrite E.
Qed.
Lemma known_user d id : bool_decide (users d !! id = None) = false → id ∈ dom (users d).
Proof. intros Hn%bool_decide_eq_false_1. apply elem_of_dom. by destruct (users d !! id). Qed.

Lemma keeps_CreateUser newID now name email hash d : keeps d (CreateUser newID now name email hash d).2.
Proof.
  apply (query_rel keeps). intros e. cbn. destruct (email_taken _ _) eqn:Ht; [reflexivity|].
  destruct (bool_decide (is_Some _)); [reflexivity|]. apply keeps_users. intros []. split_and!.
  - by apply table_insert.
  - apply unique_new; [done|]. intros k v Hk. cbn. apply String.eqb_neq. by eapply (not_taken (λ v, citext_eq (u_Email v) email)).
  - rewrite dom_insert. set_solver.
Qed.
Lemma keeps_UpdateUserProfile now id name email d : keeps d (UpdateUserProfile now id name email d).2.
Proof.
  apply (query_rel keeps). intros e. destruct email as [m|]; [|by apply keeps_update_users].
  destruct (email_taken _ _) eqn:Ht; [reflexivity|]. apply (update_rel keeps users). intros v Hv _.
  apply keeps_users. intros []. split_and!.
  - by eapply table_modify.
  - rewrite <- insert_delete_eq. apply unique_new; [eapply unique_sub; [apply delete_subseteq|done]|].
    intros k u Hk. cbn. apply String.eqb_neq. by eapply (not_taken (λ v, citext_eq (u_Email v) m)).
  - rewrite dom_insert. set_solver.
Qed.
Lemma keeps_DisableUser now id d : keeps d (DisableUser now id d).2.
Proof. apply (query_rel keeps). intros e. by apply keeps_update_users. Qed.
Lemma keeps_MarkUserEmailVerified now id d : keeps d (MarkUserEmailVerified now id d).2.
Proof. apply (query_rel keeps). intros e. by apply keeps_update_users. Qed.
Lemma keeps_SetUserPassword now id hash d : keeps d (SetUserPassword now id hash d).2.
Proof. apply (query_rel keeps). intros e. by apply keeps_update_users. Qed.

Lemma keeps_CreateSession newID now userID hash ip agent expires d :
  keeps d (CreateSession newID now userID hash ip agent expires d).2.
Proof.
  apply (query_rel keeps). intros e. destruct (user_active e userID) eqn:Ha; [|reflexivity]. cbn.
  destruct (existsb _ _) eqn:Ht; [reflexivity|]. destruct (Z.leb_spec expires now); [reflexivity|].
  destruct (bool_decide (is_Some _)); [reflexivity|]. apply keeps_sessions. intros []. split.
  - apply table_insert; [done|done| |by apply Z.ltb_lt]. constructor; [by apply active_user|done].
  - apply unique_new; [done|]. intros k v Hk. apply String.eqb_neq.
    by eapply (not_taken (λ v, String.eqb (s_TokenHash v) hash)).
Qed.
Lemma keeps_RevokeSession now id userID d : keeps d (RevokeSession now id userID d).2.
Proof. apply (query_rel keeps). intros e. by apply keeps_update_sessions. Qed.
Lemma keeps_TouchSession now id userID d : keeps d (TouchSession now id userID d).2.
Proof. apply (query_rel keeps). intros e. by apply keeps_update_sessions. Qed.
Lemma keeps_RevokeUserSessions now userID d : keeps d (RevokeUserSessions now userID d).2.
Proof.
  apply (query_rel keeps). intros e. apply keeps_sessions. intros [].
  split; [apply table_fmap; [|done]|apply unique_fmap; [|done]]; intros v; by destruct (_ && _).
Qed.

Lemma keeps_CreateToken newID now userID name hash prefix scopes expires d :
  keeps d (CreateToken newID now userID name hash prefix scopes expires d).2.
Proof.
  apply (query_rel keeps). intros e. cbn. destruct (bool_decide (users e !! userID = None)) eqn:Hu; [reflexivity|].
  destruct (hash_taken _ _) eqn:Ht; [reflexivity|]. destruct (bool_decide (is_Some _)); [reflexivity|].
  apply keeps_pats. intros []. split.
  - apply table_insert; [done|done| |done]. constructor; [by apply known_user|done].
  - apply unique_new; [done|]. intros k v Hk. apply String.eqb_neq.
    by eapply (not_taken (λ v, String.eqb (t_TokenHash v) hash)).
Qed.
Lemma keeps_RevokeToken id userID d : keeps d (RevokeToken id userID d).2.
Proof.
  apply (query_rel keeps). intros e. apply keeps_pats. intros [].
  assert (delete_if (λ t, t_Owner t =? userID) id (pats e) ⊆ pats e) as Hs.
  { unfold delete_if. destruct (pats e !! id); [|done]. case_match; [apply delete_subseteq|done]. }
  split; [by eapply table_sub|by eapply unique_sub].
Qed.
Lemma keeps_TouchToken now id d : keeps d (TouchToken now id d).2.
Proof.
  apply (query_rel keeps). intros e. apply (update_rel keeps pats). intros v Hv _. apply keeps_pats. intros [].
  split; [by eapply table_modify|by eapply unique_modify].
Qed.
Lemma keeps_CreateTeamToken newID now team name hash prefix scopes expires by_ d :
  keeps d (CreateTeamToken newID now team name hash prefix scopes expires by_ d).2.
Proof.
  apply (query_rel keeps). intros e. cbn. destruct (may_manage e team by_) eqn:Hm; [|reflexivity]. cbn.
  destruct (hash_taken _ _) eqn:Ht; [reflexivity|]. destruct (bool_decide (is_Some _)); [reflexivity|].
  apply keeps_team_tokens. intros Hd. pose proof (manager_user _ _ _ Hd Hm). destruct Hd. split.
  - apply table_insert; [done|done| |done]. by constructor.
  - apply unique_new; [done|]. intros k v Hk. apply String.eqb_neq.
    by eapply (not_taken (λ v, String.eqb (t_TokenHash v) hash)).
Qed.
Lemma keeps_RevokeTeamToken id team userID d : keeps d (RevokeTeamToken id team userID d).2.
Proof.
  apply (query_rel keeps). intros e. destruct (team_tokens e !! id); [|reflexivity].
  destruct (_ && _); [|reflexivity]. apply keeps_team_tokens. intros [].
  split; [eapply table_sub|eapply unique_sub]; by try apply delete_subseteq.
Qed.

Lemma keeps_CreateAuthTransaction newID now identifier userID expires d :
  keeps d (CreateAuthTransaction newID now identifier userID expires d).2.
Proof.
  apply (query_rel keeps). intros e. cbn. case_match eqn:Hu; [reflexivity|].
  destruct (Z.leb_spec expires now); [reflexivity|]. destruct (bool_decide (is_Some _)); [reflexivity|].
  apply keeps_transactions. intros []. apply table_insert; [done|done| |].
  - destruct userID; cbn; [|done]. constructor; [by apply known_user|done].
  - unfold transaction_check. cbn. by rewrite (proj2 (Z.ltb_lt _ _)).
Qed.
Lemma transaction_with_state now st x :
  existsb (String.eqb st) transaction_states = true → transaction_check x = true →
  transaction_check (with_state now st x) = true.
Proof. unfold transaction_check. cbn [with_state x_State x_CreatedAt x_ExpiresAt x_SelectedMethod]. intros ->. by
    rewrite andb_true_l, !andb_true_iff; intros ((_ & ->) & ->). Qed.
Lemma keeps_with_state now st id P d :
  existsb (String.eqb st) transaction_states = true →
  keeps d (update_returning (transactions d) set_transactions id P (with_state now st) d).2.
Proof. intros Hs. apply keeps_update_transactions; [by right|]. intros x. by apply transaction_with_state. Qed.
Lemma keeps_ExpireAuthTransaction now id d : keeps d (ExpireAuthTransaction now id d).2.
Proof. apply (query_rel keeps). intros e. by apply keeps_with_state. Qed.
Lemma keeps_MarkAuthTransactionAuthenticated now id d : keeps d (MarkAuthTransactionAuthenticated now id d).2.
Proof. apply (query_rel keeps). intros e. by apply keeps_with_state. Qed.
Lemma keeps_SetAuthTransactionState now id state d : keeps d (SetAuthTransactionState now id state d).2.
Proof.
  apply (query_rel keeps). intros e. destruct (existsb _ _) eqn:Hs; [|reflexivity]. by apply keeps_with_state.
Qed.
Lemma keeps_SetAuthTransactionMethod now id method d : keeps d (SetAuthTransactionMethod now id method d).2.
Proof.
  apply (query_rel keeps). intros e. case_match eqn:Hm; [reflexivity|].
  apply keeps_update_transactions; [by right|]. intros x. unfold transaction_check. cbn.
  rewrite !andb_true_iff. intros [? _]. split; [done|]. destruct method; [by apply negb_false_iff|done].
Qed.
Lemma keeps_SetAuthTransactionUser now id userID d : keeps d (SetAuthTransactionUser now id userID d).2.
Proof.
  apply (query_rel keeps). intros e. case_match eqn:Hm; [reflexivity|].
  apply keeps_update_transactions; [|done]. intros x _. left. split; [done|]. cbn.
  destruct userID; cbn; [|done]. constructor; [by apply known_user|done].
Qed.
Lemma keeps_DeleteExpiredAuthTransactions now d : keeps d (DeleteExpiredAuthTransactions now d).2.
Proof.
  apply (query_rel keeps). intros e. apply keeps_transactions. intros [].
  eapply table_sub; [apply map_filter_subseteq|done].
Qed.

Lemma keeps_CreateAuthChallenge newID now tx identifier hash purpose state n expires d :
  keeps d (CreateAuthChallenge newID now tx identifier hash purpose state n expires d).2.
Proof.
  apply (query_rel keeps). intros e. destruct state as [st|]; [|reflexivity]. cbn -[challenge_purposes].
  destruct (existsb _ _) eqn:Hp; [|reflexivity]. cbn [negb]. destruct (_ || _) eqn:Hn; [reflexivity|].
  destruct (bool_decide (is_Some _)); [reflexivity|]. apply keeps_challenges. intros []. apply table_insert; [done..|].
  unfold challenge_check. cbn -[challenge_purposes]. rewrite Hp. lia.
Qed.
Lemma keeps_ConsumeAuthChallenge now id d : keeps d (ConsumeAuthChallenge now id d).2.
Proof. apply (query_rel keeps). intros e. by apply keeps_update_challenges. Qed.
Lemma keeps_IncrementAuthChallengeAttempts now id d : keeps d (IncrementAuthChallengeAttempts now id d).2.
Proof.
  apply (query_rel keeps). intros e. apply keeps_update_challenges. intros c Hc. split; [done|].
  unfold challenge_active in Hc. unfold challenge_check. cbn -[challenge_purposes]. destruct (existsb _ _); lia.
Qed.
Lemma keeps_DeleteExpiredAuthChallenges now d : keeps d (DeleteExpiredAuthChallenges now d).2.
Proof.
  apply (query_rel keeps). intros e. apply keeps_challenges. intros [].
  eapply table_sub; [apply map_filter_subseteq|done].
Qed.
End Statements.
#[export] Hint Resolve keeps_CreateUser keeps_UpdateUserProfile keeps_DisableUser keeps_MarkUserEmailVerified
  keeps_SetUserPassword keeps_CreateSession keeps_RevokeSession keeps_TouchSession keeps_RevokeUserSessions
  keeps_CreateToken keeps_RevokeToken keeps_TouchToken keeps_CreateTeamToken keeps_RevokeTeamToken
  keeps_CreateAuthTransaction keeps_ExpireAuthTransaction keeps_MarkAuthTransactionAuthenticated
  keeps_SetAuthTransactionState keeps_SetAuthTransactionMethod keeps_SetAuthTransactionUser
  keeps_DeleteExpiredAuthTransactions keeps_CreateAuthChallenge keeps_ConsumeAuthChallenge
  keeps_IncrementAuthChallengeAttempts keeps_DeleteExpiredAuthChallenges : walk.
(** ** The services *)

(** What the requests that need no credential may do: the statements of
    starting a login and of logging in. *)
Class LoginRel `{UnicodeCase} (R : IdDB → IdDB → Prop) : Prop := {
  login_table :: TableRel R;
  login_CreateUser newID now name email hash d : R d (CreateUser newID now name email hash d).2;
  login_MarkUserEmailVerified now id d : R d (MarkUserEmailVerified now id d).2;
  login_CreateSession newID now userID hash ip agent expires d :
    R d (CreateSession newID now userID hash ip agent expires d).2;
  login_CreateAuthTransaction newID now identifier userID expires d :
    R d (CreateAuthTransaction newID now identifier userID expires d).2;
  login_ExpireAuthTransaction now id d : R d (ExpireAuthTransaction now id d).2;
  login_MarkAuthTransactionAuthenticated now id d : R d (MarkAuthTransactionAuthenticated now id d).2;
  login_CreateAuthChallenge newID now tx identifier hash purpose state n expires d :
    R d (CreateAuthChallenge newID now tx identifier hash purpose state n expires d).2;
  login_ConsumeAuthChallenge now id d : R d (ConsumeAuthChallenge now id d).2;
  login_IncrementAuthChallengeAttempts now id d : R d (IncrementAuthChallengeAttempts now id d).2;
}.

Section Login.
Context `{UnicodeCase} `{Location} (IDKey : string → list Z → list Z) (R : IdDB → IdDB → Prop) `{!LoginRel R}.
Implicit Types d : IdDB.
#[local] Hint Extern 1 (R _ _) => first
  [ apply login_CreateUser | apply login_MarkUserEmailVerified | apply login_CreateSession
  | apply login_CreateAuthTransaction | apply login_ExpireAuthTransaction
  | apply login_MarkAuthTransactionAuthenticated | apply login_CreateAuthChallenge
  | apply login_ConsumeAuthChallenge | apply login_IncrementAuthChallengeAttempts ] : walk.

Lemma login_session_Create newID now random userID ip agent d :
  R d (session_Create newID now random userID ip agent d).2.
Proof. unfold session_Create, sessionRepo_Create. walk. Qed.
Lemma login_getValidTransaction t tx d : R d (getValidTransaction t tx d).2.
Proof. unfold getValidTransaction, authRepo_GetAuthTransactionByID, authRepo_ExpireAuthTransaction. walk. Qed.
Lemma login_getOrCreateOTPUser newID now x d : R d (getOrCreateOTPUser newID now x d).2.
Proof. unfold getOrCreateOTPUser, authRepo_GetUserByID, authRepo_CreateUser. walk. Qed.
#[local] Hint Resolve login_session_Create login_getValidTransaction login_getOrCreateOTPUser : walk.
Lemma login_auth_Start newID now email d : R d (auth_Start newID now email d).2.
Proof. unfold auth_Start, authRepo_GetUserByEmail, authRepo_CreateAuthTransaction. walk. Qed.
Lemma login_LoginWithPassword t tx password d : R d (LoginWithPassword IDKey t tx password d).2.
Proof. unfold LoginWithPassword, authRepo_GetUserByID, authRepo_MarkAuthTransactionAuthenticated. walk. Qed.
Lemma login_SendOTP newID now t random tx d : R d (SendOTP newID now t random tx d).2.
Proof. unfold SendOTP, authRepo_CreateAuthChallenge. walk. Qed.
Lemma login_VerifyOTP newID now t tx code d : R d (VerifyOTP newID now t tx code d).2.
Proof. unfold VerifyOTP, authRepo_MarkUserEmailVerified, authRepo_MarkAuthTransactionAuthenticated,
    authRepo_GetActiveAuthChallenge, authRepo_IncrementAuthChallengeAttempts, authRepo_ConsumeAuthChallenge. walk. Qed.
Lemma login_handler_createSession newID now sent random userID ip agent d :
  R d (handler_createSession newID now sent random userID ip agent d).2.
Proof. unfold handler_createSession. walk. Qed.
#[local] Hint Resolve login_auth_Start login_LoginWithPassword login_SendOTP login_VerifyOTP
  login_handler_createSession : walk.

Lemma login_handler_Start newID now body d : R d (handler_Start newID now body d).2.
Proof. unfold handler_Start. walk. Qed.
Lemma login_handler_LoginWithPassword newID t now sent random body ip agent d :
  R d (handler_LoginWithPassword IDKey newID t now sent random body ip agent d).2.
Proof. unfold handler_LoginWithPassword. walk. Qed.
Lemma login_handler_SendOTP newID now t random body d : R d (handler_SendOTP newID now t random body d).2.
Proof. unfold handler_SendOTP. walk. Qed.
Lemma login_handler_VerifyOTP newUser newID t now sent random body ip agent d :
  R d (handler_VerifyOTP newUser newID t now sent random body ip agent d).2.
Proof. unfold handler_VerifyOTP. walk. Qed.
End Login.

#[export] Instance keeps_login `{UnicodeCase} : LoginRel keeps.
Proof. split; try apply _; eauto with walk. Qed.

(** The middleware writes the last use of a token and nothing else. *)
Section Middleware.
Context (R : IdDB → IdDB → Prop) `{!TableRel R} (touch : ∀ now id d, R d (TouchToken now id d).2).
Implicit Types d : IdDB.
#[local] Hint Resolve touch : walk.

Lemma rel_session_Get now token d : R d (session_Get now token d).2.
Proof. unfold session_Get, sessionRepo_GetByTokenHash. walk. Qed.
Lemma rel_pat_Resolve now input d : R d (pat_Resolve now input d).2.
Proof. unfold pat_Resolve, patRepo_GetByHash, patRepo_Touch. walk. Qed.
#[local] Hint Resolve rel_session_Get rel_pat_Resolve : walk.
Lemma rel_auth_Handler now c d : R d (auth_Handler true true now c d).2.
Proof.
  assert (∀ d, R d (resolveBearer true now c d).2) as Hb by (intros e; unfold resolveBearer; walk).
  assert (∀ d, R d (resolveSession true now c d).2) as Hs by (intros e; unfold resolveSession; walk).
  assert (∀ p d, R d (userEnabled p d).2) as He by (intros p e; unfold userEnabled, GetMe, usersRepo_GetByID; walk).
  unfold auth_Handler. etrans; [apply Hb|]. destruct (resolveBearer _ _ _ _) as [[p|] d1]; cbn [fst snd].
  - etrans; [apply (He p)|]. destruct (userEnabled p d1). reflexivity.
  - etrans; [apply Hs|]. destruct (resolveSession _ _ _ _) as [[p|] d2]; cbn [fst snd]; [|reflexivity].
    etrans; [apply (He p)|]. destruct (userEnabled p d2). reflexivity.
Qed.
End Middleware.

Section Keeps.
Context `{UnicodeCase} `{Location} (IDKey : string → list Z → list Z).
Implicit Types d : IdDB.

Lemma keeps_auth_Handler now c d : keeps d (auth_Handler true true now c d).2.
Proof. apply (rel_auth_Handler keeps). apply keeps_TouchToken. Qed.
Lemma keeps_handler_SetPassword now random ctx body d :
  keeps d (handler_SetPassword IDKey now random ctx body d).2.
Proof.
  assert (∀ u password d, keeps d (SetPassword IDKey now random u password d).2) by (intros u password e; unfold
      SetPassword, authRepo_SetUserPassword; walk).
  unfold handler_SetPassword. walk.
Qed.

(** The services behind the authenticated identity routes *)
Lemma keeps_services u now d : services_related keeps u now d.
Proof.
  intros id newID random team name req. split_and!; unfold session_List, sessionRepo_ListByUserID, session_Revoke,
      sessionRepo_Revoke, session_RevokeAll, sessionRepo_RevokeUserSessions, GetMe, UpdateMe, usersRepo_GetByID,
      usersRepo_UpdateProfile, DeleteMe, usersRepo_Disable, pat_Create, pat_generateToken, patRepo_Create, pat_List,
      patRepo_ListByUser, pat_Revoke, patRepo_Revoke, tat_Create, tat_generateToken, tat_ValidateCreateRequest,
      tat_tokenPrefixValue, tat_normalizeScopes, tatRepo_Create, tat_List, tatRepo_List, tat_Revoke, tatRepo_Revoke;
      walk.
Qed.
End Keeps.

(** ** The table of sandboxes *)

(** migrations/009, and the limits of validation.go, which the service
    checks before it inserts. *)
Definition sandbox_check (s : Sandbox) : bool :=
  status_ok (sb_Status s) && negb (outside 1 8 (sb_Vcpu s)) && negb (outside 128 8192 (sb_MemoryMb s)) &&
  negb (outside 30 3600 (sb_TimeoutSeconds s)).
Definition sb_wf (d : SandboxDB) : Prop :=
  table_ok sb_ID (sb_users d) (λ s, [sb_UserID s]) sandbox_check (sandboxes d) ∧ unique_by sb_VmID (sandboxes d).

(** What a request of user [u] may do to the table: the constraints hold
    after it, and the rows of other users are as they were: none was changed,
    removed or added. *)
Definition tenant (u : Z) (d d' : SandboxDB) : Prop :=
  sb_wf d → sb_wf d' ∧ sb_users d' = sb_users d ∧
  same_rows (λ s, sb_UserID s ≠ u) (sandboxes d) (sandboxes d').

Section Tenant.
Context `{UnicodeCase} {B : Type} (bus : option (string → LifecycleEvent → string → ST B unit)) (u : Z).

#[export] Instance tenant_preorder : PreOrder (tenant u).
Proof.
  split; [by intros d|]. intros d1 d2 d3 H1 H2 Hd. destruct (H1 Hd) as (Hd2 & E2 & Ho).
  destruct (H2 Hd2) as (? & ? & Ho'). split_and!; [done|congruence|by etrans].
Qed.
Lemma tenant_under_wf d d' : (sb_wf d → tenant u d d') → tenant u d d'.
Proof. intros Ht Hd. by apply Ht. Qed.
Lemma tenant_statement {A} (f : SandboxDB → result A * SandboxDB) d :
  (∀ e, sandboxes e = sandboxes d → tenant u e (f e).2) → tenant u d (statement f d).2.
Proof.
  intros Hf. unfold statement. destruct (sb_faults d) as [|[e|] fs]; [by apply Hf|by intros Hd|].
  intros Hd. exact (Hf (mkSandboxDB (sandboxes d) (sb_users d) fs) eq_refl Hd).
Qed.
Lemma tenant_read {A} (f : SandboxDB → result A) d : tenant u d (statement (λ d, (f d, d)) d).2.
Proof. apply tenant_statement. intros e _. reflexivity. Qed.
Lemma tenant_update now id status d s :
  sandboxes d !! id = Some s → sb_UserID s = u → tenant u d (sandboxRepo_UpdateStatus now id status d).2.
Proof.
  intros Hs Hu. apply tenant_statement. intros e He. rewrite He, Hs. destruct (status_ok status) eqn:Hst; [|reflexivity].
  cbn [negb snd]. intros [Ht Huq]. rewrite He in Ht, Huq. split_and!; [split|done|].
  - eapply table_modify; [exact Ht|exact Hs|done|done|]. unfold sandbox_check. cbn [with_status sb_Status sb_Vcpu
      sb_MemoryMb sb_TimeoutSeconds].
    rewrite Hst, !andb_true_iff. intros (((_ & ?) & ?) & ?). done.
  - eapply unique_modify; [exact Huq|exact Hs|done].
  - rewrite He. apply same_rows_insert; [|by intros []]. intros w. rewrite Hs. by intros [= <-] [].
Qed.

Lemma tenant_create newID now arg d :
  p_UserID arg = u → p_Status arg = Some "pending" → outside 1 8 (p_Vcpu arg) = false →
  outside 128 8192 (p_MemoryMb arg) = false → outside 30 3600 (p_TimeoutSeconds arg) = false →
  tenant u d (sandboxRepo_Create newID now arg d).2.
Proof.
  intros Hu Hst Hc Hm Ht. apply tenant_statement. intros e _. rewrite Hst. cbn [sb_Status].
  change (status_ok (default "" (Some "pending"))) with true.
  destruct (bool_decide (p_UserID arg ∈ sb_users e)) eqn:Hfk; [|reflexivity]. cbn [negb].
  destruct (vm_id_taken _ _) eqn:Hvm; [reflexivity|].
  destruct (_ || _); [reflexivity|]. destruct (bool_decide (is_Some _)) eqn:Hn; [reflexivity|]. apply bool_decide_eq_false_1 in Hn.
  rewrite <- eq_None_not_Some in Hn. apply bool_decide_eq_true_1 in Hfk.
  intros [Hok Huq]. split_and!; [split|done|].
  - apply table_insert; [done|done|by constructor|]. unfold sandbox_check. cbn. by rewrite Hc, Hm, Ht.
  - apply unique_new; [done|]. intros k v Hk. apply String.eqb_neq.
    by eapply (not_taken (λ v, String.eqb (sb_VmID v) (p_VmID arg))).
  - apply same_rows_insert; [by rewrite Hn|by intros []].
Qed.
Lemma create_row newID now arg d s d' :
  sandboxRepo_Create newID now arg d = (Ok s, d') →
  sandboxes d' !! newID = Some s ∧ sb_ID s = newID ∧ sb_UserID s = p_UserID arg.
Proof.
  unfold sandboxRepo_Create, CreateSandbox, statement. destruct (sb_faults d) as [|[e|] fs]; [|done|]; cbn [sandboxes sb_users];
    repeat (case_match; [done|]); intros [= <- <-]; cbn; by rewrite lookup_insert_eq.
Qed.

Lemma tenant_svc_Get id d : tenant u d (svc_Get u id d).2.
Proof.
  unfold svc_Get. destruct (_ =? _); [reflexivity|]. destruct (_ =? _); [reflexivity|].
  assert (tenant u d (sandboxRepo_GetByID id d).2) as Hr by apply tenant_read.
  destruct (sandboxRepo_GetByID id d) as [[s|] d1]; [|exact Hr]. by destruct (negb _).
Qed.
Lemma tenant_svc_List d : tenant u d (svc_List u d).2.
Proof. unfold svc_List. destruct (_ =? _); [reflexivity|]. apply tenant_read. Qed.

Lemma tenant_svc_Create newID vmUUID now req d b :
  tenant u d (svc_Create bus true newID vmUUID now u req (d, b)).2.1.
Proof.
  unfold svc_Create. destruct (_ =? _); [reflexivity|]. cbn [negb]. set (q := normalizeCreateRequest req).
  destruct (validateCreateRequest q) as [[]|e] eqn:Hv; [|reflexivity].
  set (arg := mkCreateSandboxParams _ _ _ _ _ _ _ _).
  assert (tenant u d (sandboxRepo_Create newID now arg d).2) as Hc.
  { revert Hv. unfold validateCreateRequest.
    destruct (outside 1 8 _) eqn:?; [done|]. destruct (outside 128 _ _) eqn:?; [done|].
    destruct (outside 30 _ _) eqn:?; [done|]. intros _. by apply tenant_create. }
  destruct (sandboxRepo_Create newID now arg d) as [[s|e] d1] eqn:Ec; [|exact Hc]. cbn [snd] in Hc.
  destruct (create_row _ _ _ _ _ _ Ec) as (Hs & Hid & Hu).
  destruct (DispatchCreate bus _ b) as [[[]|e] b1]; [exact Hc|].
  assert (tenant u d1 (sandboxRepo_UpdateStatus now (sb_ID s) "failed" d1).2) as Hf.
  { eapply tenant_update; [by rewrite Hid|done]. }
  etrans; [exact Hc|]. by destruct (sandboxRepo_UpdateStatus now (sb_ID s) "failed" d1) as [[] ?].
Qed.

Lemma update_row now id status d s :
  sandboxes d !! id = Some s → ∃ s', sandboxes (sandboxRepo_UpdateStatus now id status d).2 !! id = Some s' ∧ sb_UserID s' = sb_UserID s.
Proof.
  intros Hs. unfold sandboxRepo_UpdateStatus, UpdateSandboxStatus, statement.
  destruct (sb_faults d) as [|[e|] fs]; cbn; [|by exists s|]; rewrite Hs;
    (destruct (negb _); [by exists s|]); cbn; rewrite lookup_insert_eq; by eexists.
Qed.
Lemma tenant_svc_Delete now id d b : tenant u d (svc_Delete bus true now u id (d, b)).2.1.
Proof.
  unfold svc_Delete. destruct (_ =? _); [reflexivity|]. cbn [negb].
  pose proof (tenant_svc_Get id d) as Hg. destruct (svc_Get u id d) as [[s|e] d1] eqn:Eg; [|exact Hg].
  destruct (get_cases _ _ _ _ _ Eg) as (Hd1 & Hs & Hu & _).
  apply tenant_under_wf. intros [Hk _]. destruct (Hk id s Hs) as (Hid & _). rewrite <- Hid, <- Hd1 in Hs.
  assert (tenant u d1 (sandboxRepo_UpdateStatus now (sb_ID s) "stopping" d1).2) as Hst by by eapply tenant_update.
  destruct (update_row now (sb_ID s) "stopping" d1 s Hs) as (s' & Hs' & Hu').
  etrans; [exact Hg|]. etrans; [exact Hst|]. cbn [snd].
  destruct (sandboxRepo_UpdateStatus now (sb_ID s) "stopping" d1) as [[x|e] d2]; [|reflexivity]. cbn [snd] in Hs' |- *.
  destruct (DispatchDestroy bus _ b) as [[[]|e] b1]; [reflexivity|].
  assert (tenant u d2 (sandboxRepo_UpdateStatus now (sb_ID s) "cleanup_failed" d2).2) as Hf.
  { eapply tenant_update; [done|congruence]. }
  by destruct (sandboxRepo_UpdateStatus now (sb_ID s) "cleanup_failed" d2) as [[] ?].
Qed.
End Tenant.
