(* ===== verification/Router.v ===== *)
(** * The HTTP API of the daemon

    A request from the middleware to the tables: which routes are behind the
    authentication middleware, and what a request can change.  Gin's choice
    of the route is not modelled: an [Endpoint] is a request that reached its
    route, with the parameters and the body that gin parsed. *)

From S2P Require Import Prelude GoStrings GoTime GoCrypto GoNet AppErrors Routes Vsock Outbox Sandbox IdentityDB Repositories Walk Identity Handlers Auth Tables.
Open Scope Z_scope.

(** ** Requests *)

(** [newID], [newID2] and [random] stand for the ids and the random bytes
    that serving the request draws, [t] and [sent] for the clocks that a
    login reads before it creates the session and after it. *)
Inductive Endpoint :=
  | Healthz
  | AuthStart (newID : Z) (body : result startRequest)
  | PasswordLogin (newID : Z) (t : LoginClock) (sent : Z) (random : result (list Z))
      (body : result passwordLoginRequest) (ip agent : string)
  | OTPSend (newID : Z) (t : LoginClock) (random : result (list Z)) (body : result sendOTPRequest)
  | OTPVerify (newID newID2 : Z) (t : LoginClock) (sent : Z) (random : result (list Z))
      (body : result verifyOTPRequest) (ip agent : string)
  | PasswordEnroll (random : result (list Z)) (body : result setPasswordRequest)
  | Identity (req : IdRequest)
  | SandboxList | SandboxGet (id : option Z) | SandboxExec (id : option Z)
  | SandboxCreate (newID vmUUID : Z) (body : result CreateRequest)
  | SandboxDelete (id : option Z).

Definition identity_route (req : IdRequest) : RouteName :=
  match req with
  | ListSessionsReq => RSessionList | RevokeSessionReq _ => RSessionRevoke | RevokeAllReq => RSessionRevokeAll
  | GetMeReq => RGetMe | UpdateMeReq _ => RUpdateMe | DeleteMeReq => RDeleteMe
  | CreatePATReq _ _ _ => RTokenCreate | ListPATsReq => RTokenList | RevokePATReq _ => RTokenRevoke
  | CreateTATReq _ _ _ _ => RTeamTokenCreate | ListTATsReq _ => RTeamTokenList | RevokeTATReq _ _ => RTeamTokenRevoke
  end.
Definition route_of (e : Endpoint) : RouteName :=
  match e with
  | Healthz => RHealthz | AuthStart _ _ => RAuthStart | PasswordLogin _ _ _ _ _ _ _ => RPasswordLogin
  | OTPSend _ _ _ _ => ROTPSend | OTPVerify _ _ _ _ _ _ _ _ => ROTPVerify | PasswordEnroll _ _ => RPasswordEnroll
  | Identity req => identity_route req
  | SandboxList => RSandboxList | SandboxGet _ => RSandboxGet | SandboxExec _ => RSandboxExec
  | SandboxCreate _ _ _ => RSandboxCreate | SandboxDelete _ => RSandboxDelete
  end.
(** The registered route has the middleware. *)
Definition protected (e : Endpoint) : bool :=
  existsb (λ r, bool_decide (r_name r = route_of e) && r_auth r) RegisterRoutes.

Section Serve.
Context {B : Type} `{UnicodeCase} `{Location}.
Context (IDKey : string → list Z → list Z).
Context (bus : option (string → LifecycleEvent → string → ST B unit)).

(** The tables are in one database: a sandbox refers to a row of [users]. *)
Record Api := mkApi { a_id : IdDB; a_rows : gmap Z Sandbox; a_faults : list (option error); a_bus : B }.
Definition a_sb (a : Api) : SandboxDB := mkSandboxDB (a_rows a) (dom (users (a_id a))) (a_faults a).
Definition set_id (d : IdDB) (a : Api) : Api := mkApi d (a_rows a) (a_faults a) (a_bus a).
Definition set_sb (d : SandboxDB) (b : B) (a : Api) : Api := mkApi (a_id a) (sandboxes d) (sb_faults d) b.

Definition on_id {A} (a : Api) (x : Response A * IdDB) : Z * Api := (resp_status x.1, set_id x.2 a).
Definition on_id_cookie {A} (a : Api) (x : Response A * Cookie * IdDB) : Z * Api :=
  (resp_status x.1.1, set_id x.2 a).
Definition on_sb {A} (a : Api) (x : Response A * SandboxDB) : Z * Api := (resp_status x.1, set_sb x.2 (a_bus a) a).
Definition on_bus {A} (a : Api) (x : Response A * (SandboxDB * B)) : Z * Api :=
  (resp_status x.1, set_sb x.2.1 x.2.2 a).

(** The handler of a route, under the principal that the middleware left in
    the context; 101 is the upgrade to a WebSocket. *)
Definition handle_endpoint (now : Z) (ctx : option Principal) (e : Endpoint) (a : Api) : Z * Api :=
  let user := UserIDFromContext ctx in
  match e with
  | Healthz => (204, a)
  | AuthStart newID body => on_id a (handler_Start newID now body (a_id a))
  | PasswordLogin newID t sent random body ip agent =>
      on_id_cookie a (handler_LoginWithPassword IDKey newID t now sent random body ip agent (a_id a))
  | OTPSend newID t random body => on_id a (handler_SendOTP newID now t random body (a_id a))
  | OTPVerify newID newID2 t sent random body ip agent =>
      on_id_cookie a (handler_VerifyOTP newID newID2 t now sent random body ip agent (a_id a))
  | PasswordEnroll random body => on_id a (handler_SetPassword IDKey now random ctx body (a_id a))
  | Identity req => let x := handle now ctx req (a_id a) in (x.1, set_id x.2 a)
  | SandboxList => on_sb a (handler_List user (a_sb a))
  | SandboxGet id => on_sb a (handler_Get user id (a_sb a))
  | SandboxExec id =>
      let x := exec_target user id (a_sb a) in
      (match x.1 with Ok _ => 101 | Err e => resp_status (@httputil_Error unit e) end, set_sb x.2 (a_bus a) a)
  | SandboxCreate newID vmUUID body =>
      on_bus a (handler_Create bus true newID vmUUID now user body (a_sb a, a_bus a))
  | SandboxDelete id => on_bus a (handler_Delete bus true now user id (a_sb a, a_bus a))
  end.

(** A request, through the middleware where the route has it *)
Definition serve_request (now : Z) (c : Request) (e : Endpoint) (a : Api) : Z * Api :=
  if protected e then
    match auth_Handler true true now c (a_id a) with
    | (None, d) => (401, set_id d a)
    | (Some p, d) => handle_endpoint now (Some p) e (set_id d a)
    end
  else handle_endpoint now None e a.
End Serve.
Arguments Api : clear implicits.
Arguments mkApi {B}.

(** ** What a request may change *)

(** The routes without the middleware start a login or log in: they leave
    the credentials of existing users, their sessions and all tokens. *)
Record public (d d' : IdDB) : Prop := {
  pub_users k u : users d !! k = Some u → ∃ u', users d' !! k = Some u' ∧
    u_PasswordHash u' = u_PasswordHash u ∧ u_DisabledAt u' = u_DisabledAt u ∧ u_Email u' = u_Email u;
  pub_sessions : sessions d ⊆ sessions d';
  pub_pats : pats d' = pats d;
  pub_team_tokens : team_tokens d' = team_tokens d;
  pub_members : team_members d' = team_members d;
}.

Lemma public_same d d' :
  users d' = users d → sessions d' = sessions d → pats d' = pats d → team_tokens d' = team_tokens d →
  team_members d' = team_members d → public d d'.
Proof. intros Hu Hs Hp Ht Hm. split; rewrite ?Hu, ?Hs; try done. by intros k u Hk; exists u. Qed.
#[export] Instance public_table : TableRel public.
Proof.
  split; [|intros; by apply public_same]. split; [intros d; by apply public_same|].
  intros d1 d2 d3 [U S P T M] [U' S' P' T' M']. split; try congruence.
  - intros k u Hk. destruct (U k u Hk) as (v & Hv & ? & ? & ?). destruct (U' k v Hv) as (w & Hw & ? & ? & ?).
    exists w. split_and!; congruence.
  - by etrans.
Qed.
Lemma public_transactions id P f d : public d (update_returning (transactions d) set_transactions id P f d).2.
Proof. apply (update_rel public transactions). intros v _ _. by apply public_same. Qed.
Lemma public_challenges id P f d : public d (update_returning (challenges d) set_challenges id P f d).2.
Proof. apply (update_rel public challenges). intros v _ _. by apply public_same. Qed.

Lemma public_new_user k u d : bool_decide (is_Some (users d !! k)) = false → public d (set_users (<[k := u]> (users d)) d).
Proof.
  intros Hn%bool_decide_eq_false_1. split; try done. intros k' v Hv. exists v. split; [|done]. cbn.
  rewrite lookup_insert_ne; [done|]. intros ->. by destruct Hn; eexists.
Qed.
Lemma public_new_session k x d :
  bool_decide (is_Some (sessions d !! k)) = false → public d (set_sessions (<[k := x]> (sessions d)) d).
Proof.
  intros Hn%bool_decide_eq_false_1. rewrite <- eq_None_not_Some in Hn. split; try done.
  - intros k' v Hv. by exists v.
  - by apply insert_subseteq.
Qed.
Lemma public_verified now id d : public d (MarkUserEmailVerified now id d).2.
Proof.
  apply (query_rel public). intros e. apply (update_rel public users). intros v Hv _. split; try done.
  intros k u Hk. cbn. destruct (decide (k = id)) as [->|Hne].
  - rewrite lookup_insert_eq. eexists. split; [done|]. cbn. by rewrite Hk in Hv; injection Hv as <-.
  - rewrite lookup_insert_ne by done. by exists u.
Qed.
#[export] Instance public_login `{UnicodeCase} : LoginRel public.
Proof.
  split; [apply _|..]; intros; try apply public_verified; apply (query_rel public); intros e; cbn;
    repeat first [apply public_transactions | apply public_challenges | apply public_same; done
                 | reflexivity | case_match]; first [by apply public_new_user | by apply public_new_session].
Qed.

(** The token that the request presents is marked as used. *)
Definition touched (now : Z) (c : Request) (d d' : IdDB) : Prop :=
  d' = d ∨ ∃ scheme value k t, Fields (TrimSpace (req_Authorization c)) = [scheme; value] ∧
    pats d !! k = Some t ∧ t_TokenHash t = hashToken value ∧ token_unexpired now t = true ∧
    d' = set_pats (<[k := touch_token now t]> (pats d)) d.

Lemma own_touch k t now d : pats d !! k = Some t → own_rows (t_Owner t) d (set_pats (<[k := touch_token now t]> (pats d)) d).
Proof.
  intros Hk. split; try done; [|by left]. apply same_rows_insert; [|by intros []].
  intros w. rewrite Hk. by intros [= <-] [].
Qed.

Lemma resolve_effect now input d p d' :
  id_faults d = [] → (∀ k t, pats d !! k = Some t → t_ID t = k) → pat_Resolve now input d = (Ok p, d') →
  own_rows (pr_SubjectID p) d d' ∧
  (d' = d ∨ ∃ k t, pats d !! k = Some t ∧ t_TokenHash t = hashToken (in_Value input) ∧ token_unexpired now t = true ∧
     d' = set_pats (<[k := touch_token now t]> (pats d)) d).
Proof.
  intros Hf Hkey. unfold pat_Resolve, patRepo_GetByHash, patRepo_Touch. destruct (_ || _); [done|]. unfold
      GetTokenByHash. rewrite query_ok by done.
  destruct (find_row _ (pats d)) as [t|] eqn:Hx; [|done]. cbn [one].
  apply find_row_Some in Hx as (k & Hk & [Hh%String.eqb_eq Hun]%andb_true_iff).
  unfold TouchToken. rewrite query_ok by done. intros [= <- <-]. cbn [pr_SubjectID].
  unfold update_returning. rewrite (Hkey k t Hk), Hk. case_match; cbn [snd].
  - split; [by apply own_touch|]. right. by exists k, t.
  - split; [apply own_refl|by left].
Qed.

Lemma enabled_effect p d : id_faults d = [] → (userEnabled p d).2 = d.
Proof. intros Hf. unfold userEnabled, GetMe, usersRepo_GetByID, GetUserByID. rewrite query_ok by done. by destruct (_ || _). Qed.
Lemma session_effect now c d : id_faults d = [] → (resolveSession true now c d).2 = d.
Proof.
  intros Hf. unfold resolveSession, session_Get, sessionRepo_GetByTokenHash, GetSessionByTokenHash. cbn [negb].
  destruct (req_cookie c); [|done]. destruct (bool_decide _); [done|]. destruct (bool_decide _); [done|].
  rewrite query_ok by done. destruct (find_row _ _); [|done]. cbn [one]. by destruct (_ <? _).
Qed.

(** What the middleware does to the tables *)
Lemma handler_effect now c d r d' :
  id_faults d = [] → (∀ k t, pats d !! k = Some t → t_ID t = k) → auth_Handler true true now c d = (r, d') →
  id_faults d' = [] ∧ touched now c d d' ∧ match r with Some p => own_rows (pr_SubjectID p) d d' | None => True end.
Proof.
  intros Hf Hkey. unfold auth_Handler. destruct (resolveBearer true now c d) as [[p|] d1] eqn:Eb.
  - assert (id_faults d1 = [] ∧ own_rows (pr_SubjectID p) d d1 ∧ touched now c d d1) as (Hf1 & Ho & Ht).
    { revert Eb. unfold resolveBearer. cbn [negb]. destruct (bool_decide _); [done|].
      destruct (Fields _) as [|x [|y [|? ?]]] eqn:Ef; try done. destruct (negb _); [done|].
      destruct (pat_Resolve now _ d) as [[q|e] d2] eqn:Er; [|done]. intros [= <- <-].
      destruct (resolve_inv _ _ _ _ _ Hf Er) as (_ & Hf2 & _).
      destruct (resolve_effect _ _ _ _ _ Hf Hkey Er) as (Ho & Ht). split_and!; [done|done|].
      destruct Ht as [->|(k & t & Hk & Hh & Hu & ->)]; [by left|]. right. exists x, y, k, t. by split_and!. }
    pose proof (enabled_effect p d1 Hf1) as He. destruct (userEnabled p d1) as [[] d2]; cbn in He; subst d2;
      intros [= <- <-]; by split_and!.
  - assert (d1 = d) as ->.
    { revert Eb. unfold resolveBearer. cbn [negb]. destruct (bool_decide _); [by intros [= <-]|].
      destruct (Fields _) as [|x [|y [|? ?]]]; try by intros [= <-]. destruct (negb _); [by intros [= <-]|].
      destruct (pat_Resolve now _ d) as [[q|e] d2] eqn:Er; [done|]. intros [= <-]. by eapply resolve_err. }
    pose proof (session_effect now c d Hf) as Hs. destruct (resolveSession true now c d) as [[p|] d2]; cbn in Hs; subst d2.
    + pose proof (enabled_effect p d Hf) as He. destruct (userEnabled p d) as [[] d2]; cbn in He; subst d2;
        intros [= <- <-]; (split_and!; [done|by left|]); [apply own_refl|done].
    + intros [= <- <-]. split_and!; [done|by left|done].
Qed.

(** ** The API as a whole *)

Section Requests.
Context {B : Type} `{UnicodeCase} `{Location}.
Context (IDKey : string → list Z → list Z).
Context (bus : option (string → LifecycleEvent → string → ST B unit)).
Implicit Types a : Api B.

(** A sandbox handler, for the user in the context *)
Lemma sandbox_handlers u now newID vmUUID id body a :
  tenant u (a_sb a) (handler_List (Some u) (a_sb a)).2 ∧
  tenant u (a_sb a) (handler_Get (Some u) id (a_sb a)).2 ∧
  tenant u (a_sb a) (exec_target (Some u) id (a_sb a)).2 ∧
  tenant u (a_sb a) (handler_Create bus true newID vmUUID now (Some u) body (a_sb a, a_bus a)).2.1 ∧
  tenant u (a_sb a) (handler_Delete bus true now (Some u) id (a_sb a, a_bus a)).2.1.
Proof.
  split_and!; unfold handler_List, handler_Get, exec_target, handler_Create, handler_Delete.
  - pose proof (tenant_svc_List u (a_sb a)) as Ht. by destruct (svc_List _ _) as [[] ?].
  - destruct id as [id|]; [|reflexivity]. pose proof (tenant_svc_Get u id (a_sb a)) as Ht.
    by destruct (svc_Get _ _ _) as [[] ?].
  - destruct id as [id|]; [|reflexivity]. pose proof (tenant_svc_Get u id (a_sb a)) as Ht.
    destruct (svc_Get _ _ _) as [[] ?]; [|exact Ht]. by destruct (negb _).
  - destruct body as [req|]; [|reflexivity].
    pose proof (tenant_svc_Create bus u newID vmUUID now req (a_sb a) (a_bus a)) as Ht.
    by destruct (svc_Create _ _ _ _ _ _ _ _) as [[] ?].
  - destruct id as [id|]; [|reflexivity]. pose proof (tenant_svc_Delete bus u now id (a_sb a) (a_bus a)) as Ht.
    by destruct (svc_Delete _ _ _ _ _ _) as [[] ?].
Qed.

Lemma own_SetPassword now random u password d :
  own_rows u d (SetPassword IDKey now random u password d).2.
Proof.
  unfold SetPassword, authRepo_SetUserPassword. walk.
Qed.

(** A protected handler, for the user in the context: it changes rows of
    the identity tables or sandboxes, not both. *)
Lemma protected_effect now p u e a :
  UserIDFromContext (Some p) = Some u → protected e = true →
  let a' := (handle_endpoint IDKey bus now (Some p) e a).2 in
  own_rows u (a_id a) (a_id a') ∧ keeps (a_id a) (a_id a') ∧
  (a' = set_id (a_id a') a ∨ ∃ d b, tenant u (a_sb a) d ∧ a' = set_sb d b a).
Proof.
  intros Hu Hp. assert (Hs := λ newID vmUUID id body, sandbox_handlers u now newID vmUUID id body a).
  assert (∀ d b, tenant u (a_sb a) d → own_rows u (a_id a) (a_id (set_sb d b a)) ∧
    keeps (a_id a) (a_id (set_sb d b a)) ∧
    (set_sb d b a = set_id (a_id (set_sb d b a)) a ∨ ∃ d' b', tenant u (a_sb a) d' ∧ set_sb d b a = set_sb d' b' a)) as Hsb.
  { intros d b Ht. split_and!; [apply own_refl|reflexivity|]. right. by exists d, b. }
  destruct e; try done; cbn [handle_endpoint on_id on_sb on_bus snd]; rewrite ?Hu; cbn zeta; try (apply Hsb, Hs; first
      [exact 0 | exact None | exact (Err ErrNoRows)]).
  - split_and!; [|apply keeps_handler_SetPassword|by left].
    unfold handler_SetPassword. rewrite Hu. destruct body as [req|?]; [|apply own_refl].
    pose proof (own_SetPassword now random u (sp_Password req) (a_id a)). by destruct (SetPassword _ _ _ _ _ _) as [[] ?].
  - split_and!; [| |by left].
    + apply (handle_related (own_rows u) u); [apply own_refl|done|apply own_services].
    + apply (handle_related keeps u); [reflexivity|done|apply keeps_services].
Qed.

(** A handler without the middleware *)
Lemma public_effect now e a :
  protected e = false →
  let a' := (handle_endpoint IDKey bus now None e a).2 in
  a' = set_id (a_id a') a ∧ ∀ R, LoginRel R → R (a_id a) (a_id a').
Proof.
  intros Hp. destruct e as [| | | | | |req| | | | |]; try done; [..|by destruct req]; cbn.
  - split; [by destruct a|]. intros R HR. reflexivity.
  - split; [done|]. intros R HR. apply (login_handler_Start R).
  - split; [done|]. intros R HR. apply (login_handler_LoginWithPassword IDKey R).
  - split; [done|]. intros R HR. apply (login_handler_SendOTP R).
  - split; [done|]. intros R HR. apply (login_handler_VerifyOTP R).
Qed.

(** The constraints of all tables *)
Definition api_wf (a : Api B) : Prop := id_wf (a_id a) ∧ sb_wf (a_sb a).

Lemma api_wf_set_id d a : keeps (a_id a) d → api_wf a → api_wf (set_id d a).
Proof.
  intros Hk [Hi [Ht Hu]]. destruct (Hk Hi) as [? ?]. split; [done|]. split; [|done]. by eapply table_mono.
Qed.
Lemma api_wf_set_sb u d b a : tenant u (a_sb a) d → api_wf a → api_wf (set_sb d b a).
Proof.
  intros Ht [Hi Hs]. destruct (Ht Hs) as ([Hk Hq] & Hu & _). split; [done|]. split; [|done].
  by rewrite Hu in Hk.
Qed.
Lemma protected_wf now p u e a :
  UserIDFromContext (Some p) = Some u → protected e = true → api_wf a →
  api_wf (handle_endpoint IDKey bus now (Some p) e a).2.
Proof.
  intros Hu Hp Ha. destruct (protected_effect now p u e a Hu Hp) as (_ & Hk & [->|(d & b & Ht & ->)]).
  - by apply api_wf_set_id.
  - by eapply api_wf_set_sb.
Qed.

Lemma handler_subject now c d p d' :
  auth_Handler true true now c d = (Some p, d') → UserIDFromContext (Some p) = Some (pr_SubjectID p).
Proof.
  assert (∀ q e, (let '(ok, e) := userEnabled q e in (if ok then Some q else None, e)) = (Some p, d') →
    UserIDFromContext (Some p) = Some (pr_SubjectID p)) as Hq.
  { intros q e. unfold userEnabled, UserIDFromContext. destruct (_ || _) eqn:E; [done|].
    destruct (GetMe _ e) as [[] ?]; [|done]. intros [= <- <-]. by rewrite E. }
  unfold auth_Handler. destruct (resolveBearer _ _ _ _) as [[q|] d1]; [apply Hq|].
  destruct (resolveSession _ _ _ _) as [[q|] d2]; [apply Hq|done].
Qed.

Lemma serve_keeps_wf now c e a : api_wf a → api_wf (serve_request IDKey bus now c e a).2.
Proof.
  intros Ha. unfold serve_request. destruct (protected e) eqn:Hp.
  - pose proof (keeps_auth_Handler now c (a_id a)) as Hk.
    destruct (auth_Handler true true now c (a_id a)) as [[p|] d] eqn:Eh; [|by apply api_wf_set_id].
    eapply protected_wf; [by eapply handler_subject|done|]. by apply api_wf_set_id.
  - destruct (public_effect now e a Hp) as [-> HR]. apply api_wf_set_id; [|done]. apply (HR keeps), _.
Qed.

(** Requests of any number of clients, one after the other *)
Definition serve_all (reqs : list (Z * Request * Endpoint)) (a : Api B) : Api B :=
  foldl (λ a '(now, c, e), (serve_request IDKey bus now c e a).2) a reqs.

(** C15: Whatever the requests are, and whatever statements the connection loses,
    the tables keep the constraints of the migrations: rows under their own
    id, unique emails, token hashes and VM ids, references to users that
    exist, the allowed states, methods, purposes and attempts, and sandboxes
    within the resource limits. *)
Theorem api_keeps_constraints reqs a : api_wf a → api_wf (serve_all reqs a).
Proof.
  revert a. induction reqs as [|[[now c] e] reqs IH]; intros a Ha; [done|]. by apply IH, serve_keeps_wf.
Qed.

(** C6: Access control of the whole API.  A request to a protected route is
    answered 401 and changes nothing but the last use of the token it
    presents, or it carries a valid credential of an enabled user and
    changes, removes and adds rows of this user only, and tokens of teams
    that the user manages as owner or admin: what is not the user's, in the
    identity tables and among the sandboxes, is the same before and after.
    A request to the other routes changes no sandbox, event, token, session
    or credential that exists.  (Of a connection that loses no statement on
    the identity tables.) *)
Theorem api_access_control now c e a :
  api_wf a → id_faults (a_id a) = [] →
  let '(status, a') := serve_request IDKey bus now c e a in
  if protected e then
    (status = 401 ∧ touched now c (a_id a) (a_id a') ∧ a' = set_id (a_id a') a) ∨
    ∃ p, credential now c (a_id a) p ∧ own_rows (pr_SubjectID p) (a_id a) (a_id a') ∧
      same_rows (λ s, sb_UserID s ≠ pr_SubjectID p) (a_rows a) (a_rows a')
  else public (a_id a) (a_id a') ∧ a' = set_id (a_id a') a.
Proof.
  intros Ha Hf. unfold serve_request. destruct (protected e) eqn:Hp.
  2: { destruct (public_effect now e a Hp) as [He HR]. destruct (handle_endpoint _ _ _ _ _ _) as [st a'].
       split; [|done]. apply (HR public), _. }
  assert (∀ k t, pats (a_id a) !! k = Some t → t_ID t = k) as Hkey.
  { intros k t Hk. by apply (wf_pats _ (proj1 Ha) k t). }
  destruct (auth_Handler true true now c (a_id a)) as [[p|] d] eqn:Eh.
  - destruct (handler_effect _ _ _ _ _ Hf Hkey Eh) as (Hf1 & _ & Ho).
    pose proof (middleware_authenticates _ _ _ _ _ _ _ Hf Eh) as Hc.
    assert (api_wf (set_id d a)) as Ha1.
    { apply api_wf_set_id; [|done]. change d with (Some p, d).2. rewrite <- Eh. apply keeps_auth_Handler. }
    destruct (protected_effect now p _ e (set_id d a) (proj1 (proj2 Hc)) Hp) as (Ho' & _ & Hs).
    destruct (handle_endpoint IDKey bus now (Some p) e (set_id d a)) as [st a']. right. exists p.
    split; [done|]. split; [by eapply own_trans|]. cbn [snd] in Hs.
    destruct Hs as [->|(d' & b & Ht & ->)]; [done|]. by apply (Ht (proj2 Ha1)).
  - destruct (handler_effect _ _ _ _ _ Hf Hkey Eh) as (_ & Ht & _). by left.
Qed.
End Requests.

(** ** Ana's sandbox, and requests with and without her session *)

Definition ana_api : Api (list LifecycleEvent) := mkApi ana_session_db {[9 := pending_row]} [] [].
Lemma ana_api_wf : @api_wf _ ascii_case ana_api.
Proof.
  assert (∀ {V K} (key : V → K) (k : Z) (v : V), unique_by key {[k := v]}) as Hu.
  { intros V K key k v k1 k2 v1 v2 [<- _]%lookup_singleton_Some [<- _]%lookup_singleton_Some _. done. }
  split; [constructor|split]; cbn; try apply Hu; try done; try (apply map_Forall_singleton; split_and!; [done| |done]).
  - constructor.
  - by repeat constructor.
  - intros team u [r [[= _ <-] _]%lookup_singleton_Some]. set_solver.
  - by repeat constructor.
Qed.
Definition with_session : Request := mkRequest "" (Some "0102").
Definition some_requests : list (Z * Request * Endpoint) :=
  [(100, with_session, SandboxCreate 10 3 (Ok (mkCreateRequest "" 0 0 0 [])));
   (200, mkRequest "" None, AuthStart 4 (Ok (mkStartRequest "ana@example.com")));
   (300, with_session, PasswordEnroll (Ok [9; 9]) (Ok (mkSetPasswordRequest "correct horse")));
   (400, mkRequest "" None, SandboxDelete (Some 9));
   (500, with_session, Identity (CreatePATReq 6 (Ok [3; 4]) (Ok (mkTokenRequest "ci" [] None))))].
Lemma api_keeps_constraints_witness :
  @api_wf _ ascii_case (@serve_all _ ascii_case UTC toy_IDKey list_bus some_requests ana_api).
Proof. apply (@api_keeps_constraints _ ascii_case UTC toy_IDKey list_bus some_requests ana_api), ana_api_wf. Defined.
Example some_requests_change_tables :
  let a := @serve_all _ ascii_case UTC toy_IDKey list_bus some_requests ana_api in
  (size (a_rows a), size (transactions (a_id a)), size (pats (a_id a)), length (a_bus a)) = (2, 1, 1, 1)%nat.
Proof. vm_compute. reflexivity. Qed.

Definition ana_deletes : Z * Api (list LifecycleEvent) :=
  @serve_request _ ascii_case UTC toy_IDKey list_bus 100 with_session (SandboxDelete (Some 9)) ana_api.
Lemma api_access_control_witness :
  ana_deletes.1 = 200 ∧ ∃ p, credential 100 with_session ana_session_db p.
Proof.
  assert (ana_deletes.1 = 200) as Hst by (vm_compute; reflexivity). split; [done|].
  pose proof (@api_access_control _ ascii_case UTC toy_IDKey list_bus 100 with_session (SandboxDelete (Some 9)) ana_api
                ana_api_wf eq_refl) as Ha.
  fold ana_deletes in Ha. destruct ana_deletes as [st a']. cbn [fst] in Hst. subst st.
  change (protected (SandboxDelete (Some 9))) with true in Ha. cbv iota in Ha.
  destruct Ha as [(E & _)|(p & Hc & _)]; [done|]. by exists p.
Defined.
