(* ===== verification/SignIn.v ===== *)
(** * Signing in: from the login request to the last request of a session

    The login handler, the session service, the cookie, the middleware and
    everything that other users may do in between, composed over the tables. *)

From S2P Require Import Prelude GoStrings GoTime GoCrypto GoNet AppErrors Routes Vsock Outbox Sandbox IdentityDB Repositories Walk Identity Ids Handlers Auth Tables Router.
Open Scope Z_scope.

(** ** A session survives what does not concern its user *)

Definition enabled (u : Z) (d : IdDB) : Prop := ∃ v, users d !! u = Some v ∧ u_DisabledAt v = None.
(** The row of session [k] is [s], and its user is enabled. *)
Definition signed_in (k : Z) (s : Session) (d : IdDB) : Prop := sessions d !! k = Some s ∧ enabled (s_UserID s) d.
Definition spares (k : Z) (s : Session) (d d' : IdDB) : Prop := signed_in k s d → signed_in k s d'.

Section Spares.
Context (k : Z) (s : Session).

#[export] Instance spares_rel : TableRel (spares k s).
Proof. split; [|intros d fs Hd; exact Hd]. split; [intros d Hd; exact Hd|]. intros d1 d2 d3 H1 H2 Hd. by apply H2, H1. Qed.
Lemma spares_own u d d' : own_rows u d d' → u ≠ s_UserID s → spares k s d d'.
Proof.
  intros [Hu Hs _ _ _ _ _ _] Hne [Hk (v & Hv & Hen)]. split; [by apply Hs|]. exists v. by rewrite Hu.
Qed.
Lemma spares_public d d' : public d d' → spares k s d d'.
Proof.
  intros [Hu Hs _ _ _] [Hk (v & Hv & Hen)]. split; [by eapply lookup_weaken|].
  destruct (Hu _ _ Hv) as (v' & Hv' & _ & Hd & _). exists v'. by rewrite Hd.
Qed.
Lemma spares_touch now id d : spares k s d (TouchToken now id d).2.
Proof.
  apply (query_rel (spares k s)). intros e. cbn. apply (update_rel (spares k s) pats). by intros v _ _ Hd.
Qed.
End Spares.

Section Requests.
Context {B : Type} `{UnicodeCase} `{Location}.
Context (IDKey : string → list Z → list Z).
Context (bus : option (string → LifecycleEvent → string → ST B unit)).
Implicit Types a : Api B.

(** The request is not authenticated as user [u]. *)
Definition not_from (u now : Z) (c : Request) (a : Api B) : Prop :=
  ∀ p, (auth_Handler true true now c (a_id a)).1 = Some p → pr_SubjectID p ≠ u.
(** None of the requests is, each in the state that the ones before leave. *)
Fixpoint all_from_others (u : Z) (reqs : list (Z * Request * Endpoint)) (a : Api B) : Prop :=
  match reqs with
  | [] => True
  | (now, c, e) :: reqs =>
      (protected e = true → not_from u now c a) ∧ all_from_others u reqs (serve_request IDKey bus now c e a).2
  end.

Lemma serve_spares k s now c e a :
  (protected e = true → not_from (s_UserID s) now c a) → spares k s (a_id a) (a_id (serve_request IDKey bus now c e a).2).
Proof.
  intros Hn. unfold serve_request. destruct (protected e) eqn:Hp.
  - specialize (Hn eq_refl). pose proof (rel_auth_Handler (spares k s) (spares_touch k s) now c (a_id a)) as Hm.
    unfold not_from in Hn. destruct (auth_Handler true true now c (a_id a)) as [[p|] d] eqn:Eh; [|exact Hm].
    etrans; [exact Hm|]. cbn [snd]. eapply spares_own; [|by apply Hn].
    apply (protected_effect IDKey bus now p _ e (set_id d a)); [by eapply handler_subject|done].
  - destruct (public_effect IDKey bus now e a Hp) as [_ HR]. apply spares_public, (HR public), _.
Qed.
Lemma serve_all_spares k s reqs a :
  all_from_others (s_UserID s) reqs a → spares k s (a_id a) (a_id (serve_all IDKey bus reqs a)).
Proof.
  revert a. induction reqs as [|[[now c] e] reqs IH]; intros a Hr; [reflexivity|]. destruct Hr as [Hc Hr].
  etrans; [by apply serve_spares|]. by apply IH.
Qed.
End Requests.

(** ** Logging in, and presenting the cookie *)

Lemma token_given bytes : length bytes = 32%nat → Forall is_byte bytes → TrimSpace (hex_encode bytes) ≠ "".
Proof.
  intros Hl Hb. rewrite TrimSpace_plain.
  - intros E. apply (f_equal String.length) in E. by rewrite hex_encode_length, Hl in E.
  - rewrite bytes_hex by done. eapply Forall_impl; [by apply hex_bytes_alnum|]. unfold plain. cbn. intros b. lia.
Qed.

(** The login handler, for a user who may log in and a token that is new. *)
Lemma login_signs_in `{UnicodeCase} `{Location} IDKey newID t now sent bytes tx password ip agent d user :
  id_wf d → id_faults d = [] → may_log_in IDKey d t tx password user → u_ID user ≠ 0 →
  sessions d !! newID = None → (∀ k s, sessions d !! k = Some s → s_TokenHash s ≠ hashToken (hex_encode bytes)) →
  ∃ d', handler_LoginWithPassword IDKey newID t now sent (Ok bytes) (Ok (mkPasswordLoginRequest (Some tx) password)) ip agent d
        = (httputil_OK (mkAuthenticationResponse (u_ID user) (Format (now + sessionTTL))),
           cookie_for sent (hex_encode bytes) (now + sessionTTL), d') ∧
    signed_in newID (mkSession newID (u_ID user) (hashToken (hex_encode bytes)) (parseIP (clientIP ip)) (userAgent agent)
                       (now + sessionTTL) (Some now) None now) d'.
Proof.
  intros Hwf Hf Hmay Hu0 Hnew Hfresh. unfold handler_LoginWithPassword. cbn [pl_TransactionID pl_Password]. rewrite
      (login_ok _ _ _ _ _ user) by done.
  destruct Hmay as (_ & Hen & x & uid & hash & _ & _ & _ & _ & _ & Huser & _).
  assert (u_ID user = uid) as Hid by by apply (wf_users _ Hwf uid user). rewrite Hid in *.
  unfold handler_createSession, session_Create, sessionRepo_Create. rewrite (proj2 (Z.eqb_neq _ _) Hu0). cbn [generate_token].
  change ("" +:+ hex_encode bytes) with (hex_encode bytes). unfold CreateSession. rewrite query_ok by done.
  assert (user_active (set_state "authenticated" (at_close t) tx d) uid = true) as ->.
  { unfold user_active. cbn. by rewrite Huser, Hen. }
  cbn [negb]. destruct (existsb _ _) eqn:Hex.
  { exfalso. apply existsb_elem in Hex as ([k s] & Hk%elem_of_map_to_list & Hh%String.eqb_eq). by eapply Hfresh. }
  destruct (Z.leb_spec (now + sessionTTL) now) as [Hle|_]; [unfold sessionTTL, Hour, Minute, Second in Hle; lia|].
  rewrite bool_decide_eq_false_2 by (cbn; rewrite Hnew; by intros []).
  eexists. split; [done|]. split; cbn.
  - by rewrite lookup_insert_eq.
  - exists user. split; [exact Huser|exact Hen].
Qed.

(** A request with the cookie of a session and no other credential *)
Lemma cookie_authenticates `{UnicodeCase} now k s token d :
  id_wf d → id_faults d = [] → signed_in k s d → s_TokenHash s = hashToken token → s_RevokedAt s = None →
  s_UserID s ≠ 0 → TrimSpace token ≠ "" →
  (auth_Handler true true now (mkRequest "" (Some token)) d).1 =
    if now <? s_ExpiresAt s then Some (mkPrincipal (s_UserID s) SubjectUser (s_ID s) CredentialSession) else None.
Proof.
  intros Hwf Hf [Hk (v & Hv & Hen)] Hh Hr H0 Ht. unfold auth_Handler, resolveBearer. cbn [negb req_Authorization].
  change (TrimSpace "") with "". rewrite bool_decide_eq_true_2 by done.
  unfold resolveSession. cbn [negb req_cookie]. rewrite bool_decide_eq_false_2 by done.
  unfold session_Get, sessionRepo_GetByTokenHash. rewrite bool_decide_eq_false_2 by (intros ->; by apply Ht).
  unfold GetSessionByTokenHash. rewrite query_ok by done.
  assert (∀ k' s', sessions d !! k' = Some s' → s_TokenHash s' = hashToken token → k' = k) as Hu.
  { intros k' s' Hk' E. eapply (wf_session_hashes _ Hwf); [done|done|congruence]. }
  assert (session_live now d s = (now <? s_ExpiresAt s)) as Hlive.
  { unfold session_live, user_active. by rewrite Hr, Hv, Hen, !andb_true_r. }
  destruct (now <? s_ExpiresAt s) eqn:Hexp.
  - rewrite (find_row_unique _ _ k s); [|done|by rewrite Hh, String.eqb_refl, Hlive|].
    2: { intros k' s' Hk' [E%String.eqb_eq _]%andb_true_iff. by eapply Hu. }
    cbn [one]. apply Z.ltb_lt in Hexp. destruct (Z.ltb_spec (s_ExpiresAt s) now); [lia|].
    unfold userEnabled, GetMe, usersRepo_GetByID, GetUserByID. cbn [pr_SubjectType pr_SubjectID]. rewrite
        String.eqb_refl, (proj2 (Z.eqb_neq _ _) H0).
    cbn [negb orb]. rewrite query_ok by done. by rewrite Hv; cbn; rewrite Hen.
  - destruct (find_row _ _) as [s'|] eqn:Hx; [|done]. exfalso.
    apply find_row_Some in Hx as (k' & Hk' & [E%String.eqb_eq Hl]%andb_true_iff).
    rewrite (Hu _ _ Hk' E), Hk in Hk'. injection Hk' as <-. congruence.
Qed.

(** C9: Signing in, end to end.  A login that may succeed answers 200, creates
    a session that expires 30 days after the clock was read for it, and sets
    a cookie for the whole seconds that are left when the cookie is written:
    the browser keeps it until the session expires or less than a second
    before.  From then on, through any requests of other users and of clients
    without an account, a request with this cookie is authenticated as the
    user who logged in until the session expires, and answered 401
    afterwards; no one else can end the session or take it over.  (The
    database loses no statement of the login and of the last request; the
    new id and the token are fresh.) *)
Theorem sign_in_lasts {B} `{UnicodeCase} `{Location} IDKey (bus : option (string → LifecycleEvent → string → ST B unit))
    newID t now sent bytes tx password ip agent (a : Api B) user :
  api_wf a → id_faults (a_id a) = [] → may_log_in IDKey (a_id a) t tx password user → u_ID user ≠ 0 →
  length bytes = 32%nat → Forall is_byte bytes → sessions (a_id a) !! newID = None →
  let token := hex_encode bytes in
  (∀ k s, sessions (a_id a) !! k = Some s → s_TokenHash s ≠ hashToken token) →
  sent ≤ now + sessionTTL →
  let '(r, cookie, d) := handler_LoginWithPassword IDKey newID t now sent (Ok bytes) (Ok (mkPasswordLoginRequest (Some tx)
      password)) ip agent (a_id a) in
  r = httputil_OK (mkAuthenticationResponse (u_ID user) (Format (now + 30 * 24 * Hour))) ∧
  (∃ maxAge, cookie = SetCookie token maxAge ∧
     sent + maxAge * Second ≤ now + 30 * 24 * Hour < sent + (maxAge + 1) * Second) ∧
  ∀ reqs now2, let a' := serve_all IDKey bus reqs (set_id d a) in
    all_from_others IDKey bus (u_ID user) reqs (set_id d a) → id_faults (a_id a') = [] →
    (auth_Handler true true now2 (mkRequest "" (Some token)) (a_id a')).1 =
      if now2 <? now + 30 * 24 * Hour then Some (mkPrincipal (u_ID user) SubjectUser newID CredentialSession) else None.
Proof.
  intros Hwf Hf Hmay Hu0 Hl Hb Hnew token Hfresh Hsent.
  destruct (login_signs_in IDKey newID t now sent bytes tx password ip agent (a_id a) user) as (d & E & Hin); try done; [apply Hwf|].
  assert (api_wf (set_id d a)) as Hwf1.
  { apply api_wf_set_id; [|done]. change d with (httputil_OK (mkAuthenticationResponse (u_ID user) (Format (now +
      sessionTTL))), cookie_for sent (hex_encode bytes) (now + sessionTTL), d).2.
    rewrite <- E. apply (login_handler_LoginWithPassword IDKey keeps). }
  rewrite E. split_and!; [done| |].
  { destruct (cookie_lifetime sent token _ Hsent) as (m & Hm & _ & Hb'). by exists m. }
  intros reqs now2 a' Hothers Hf'.
  assert (api_wf a') as Hwf'.
  { unfold a'. clear Hothers Hf'. revert Hwf1. generalize (set_id d a) as a1.
    induction reqs as [|[[n c] e] reqs IH]; intros a1 Ha1; [done|]. by apply IH, serve_keeps_wf. }
  match type of Hin with signed_in _ ?s _ =>
    pose proof (serve_all_spares IDKey bus newID s reqs (set_id d a) Hothers Hin) as Hin' end. fold a' in Hin'.
  apply (cookie_authenticates now2 _ _ token _ (proj1 Hwf') Hf' Hin'); try done. by apply token_given.
Qed.

(** ** Ana sets a password, signs in again, and someone else is busy *)

Definition ready : Api (list LifecycleEvent) :=
  @serve_all _ ascii_case UTC toy_IDKey list_bus
    [(300, with_session, PasswordEnroll (Ok [9; 9]) (Ok (mkSetPasswordRequest "correct horse")));
     (400, mkRequest "" None, AuthStart 4 (Ok (mkStartRequest "ana@example.com")))] ana_api.
Lemma ready_wf : @api_wf _ ascii_case ready.
Proof. unfold ready, serve_all. cbn [foldl]. repeat apply (@serve_keeps_wf _ ascii_case UTC). apply ana_api_wf. Qed.

Definition ana_user : result User := (LoginWithPassword toy_IDKey (at_once 500) 4 "correct horse" (a_id ready)).1.
Lemma ready_may_log_in : ∃ user, ana_user = Ok user ∧ u_ID user = 1 ∧ may_log_in toy_IDKey (a_id ready) (at_once 500) 4 "correct horse" user.
Proof.
  assert (match ana_user with Ok u => u_ID u = 1 | Err _ => False end) as Hid by (vm_compute; reflexivity).
  assert (id_faults (a_id ready) = []) as Hf by (vm_compute; reflexivity).
  destruct (login_cases toy_IDKey (at_once 500) 4 "correct horse" (a_id ready) Hf) as [[user Hmay]|[e He]].
  - exists user. pose proof (f_equal fst (login_ok toy_IDKey (at_once 500) 4 "correct horse" (a_id ready) user Hf Hmay)) as E.
    change (ana_user = Ok user) in E. rewrite E in Hid. exact (conj E (conj Hid Hmay)).
  - apply (f_equal fst) in He. change (ana_user = Err e) in He. rewrite He in Hid. destruct Hid.
Qed.

Definition other_requests : list (Z * Request * Endpoint) :=
  [(600, mkRequest "" (Some "guess"), SandboxDelete (Some 9)); (700, mkRequest "" None, AuthStart 8 (Ok
      (mkStartRequest "ana@example.com")))].
Definition new_token : list Z := repeat 17 32.
Definition ana_login : Response authenticationResponse * Cookie * IdDB :=
  @handler_LoginWithPassword UTC toy_IDKey 7 (at_once 500) 500 501 (Ok new_token) (Ok (mkPasswordLoginRequest (Some 4) "correct horse")) "" "" (a_id ready).
Definition later : Api (list LifecycleEvent) :=
  @serve_all _ ascii_case UTC toy_IDKey list_bus other_requests (set_id ana_login.2 ready).

Lemma new_token_bytes : Forall is_byte new_token.
Proof. unfold new_token, is_byte. cbn. repeat (constructor; [lia|]). constructor. Qed.
Lemma ready_token_fresh k s : sessions (a_id ready) !! k = Some s → s_TokenHash s ≠ hashToken (hex_encode new_token).
Proof.
  assert (sessions (a_id ready) = {[5 := ana_session]}) as -> by (vm_compute; reflexivity).
  intros [_ <-]%lookup_singleton_Some E. vm_compute in E. discriminate.
Qed.
Lemma ana_others : @all_from_others _ ascii_case UTC toy_IDKey list_bus 1 other_requests (set_id ana_login.2 ready).
Proof.
  split; [intros _ p Hp; vm_compute in Hp; discriminate|]. split; [|exact I]. intros Hp. vm_compute in Hp. discriminate.
Qed.

(** Already a nanosecond after the session was created, the cookie lives a
    second less than 30 days. *)
Example cookie_loses_a_second : ana_login.1.2 = SetCookie (hex_encode new_token) (30 * 24 * 3600 - 1).
Proof. vm_compute. reflexivity. Qed.

Lemma sign_in_lasts_witness :
  (auth_Handler true true (500 + 24 * Hour) (mkRequest "" (Some (hex_encode new_token))) (a_id later)).1
  = Some (mkPrincipal 1 SubjectUser 7 CredentialSession).
Proof.
  destruct ready_may_log_in as (user & _ & Hid & Hmay).
  pose proof (@sign_in_lasts _ ascii_case UTC toy_IDKey list_bus 7 (at_once 500) 500 501 new_token 4 "correct horse" "" "" ready user
    ready_wf ltac:(vm_compute; reflexivity) Hmay ltac:(rewrite Hid; discriminate) eq_refl
    new_token_bytes ltac:(vm_compute; reflexivity) ready_token_fresh ltac:(vm_compute; discriminate)) as Hs.
  fold ana_login in Hs. unfold later. pose proof ana_others as Ho. rewrite <- Hid in Ho.
  destruct ana_login as [[r cookie] d] eqn:El. destruct Hs as (_ & _ & Hs).
  pose proof (Hs other_requests (500 + 24 * Hour) Ho) as Hp. rewrite Hid in Hp. apply Hp.
  change d with (r, cookie, d).2. rewrite <- El. vm_compute. reflexivity.
Defined.
