(* ===== verification/Runtime.v ===== *)
(** * Start and stop of the daemon and the worker

    config, adapters/postgres, adapters/redis, adapters/nats (the client, the
    streams, the consumers, the health check), runtime/worker/registry.go and
    the subscription of consumer.go, runtime/daemon/registry.go, cmd/daemon
    and cmd/worker.  The drivers behind the adapters are an interface whose
    laws say which connections and consumers are live. *)

From S2P Require Import Prelude Effects GoStrings GoNet AppErrors Routes Wiring Network VmmConfig Instance Manager Outbox Sandbox Ids.
Open Scope Z_scope.

(** ** config/config.go *)

Record AppConfig := mkAppConfig {
  HTTPPort : string; DatabaseURL : string; RedisURL : string; NATSURL : string;
  CORSOrigins : list string; Development : bool;
  VMMKernelPath : string; VMMRootfsPath : string; VMMGuestAgentPath : string;
  VMMVCPUCount : Z; VMMMemoryMB : Z; VMMBootArgs : string; VMMUplinkInterface : string;
}.

(** ** adapters/nats/jetstream.go and subjects.go *)

Definition JobsStreamName : string := "SHIYAO_JOBS".
Definition DLQStreamName : string := "SHIYAO_DLQ".
Definition JobsSubject : string := "shiyao.job.>".
Definition DLQSubject : string := "shiyao.dlq.>".

Record StreamLimits := mkStreamLimits {
  JobsMaxBytes : Z; DLQMaxBytes : Z; JobsMaxAge : Z; DLQMaxAge : Z; Replicas : Z;
}.
Definition DefaultStreamLimits : StreamLimits :=
  mkStreamLimits (5 * 1024 * 1024 * 1024) (5 * 1024 * 1024 * 1024) (7 * 24 * Hour) (90 * 24 * Hour) 1.

Definition positive_or (d x : Z) : Z := if x <=? 0 then d else x.
Definition normalizeStreamLimits (l : StreamLimits) : StreamLimits :=
  mkStreamLimits (positive_or (JobsMaxBytes DefaultStreamLimits) (JobsMaxBytes l))
    (positive_or (DLQMaxBytes DefaultStreamLimits) (DLQMaxBytes l))
    (positive_or (JobsMaxAge DefaultStreamLimits) (JobsMaxAge l))
    (positive_or (DLQMaxAge DefaultStreamLimits) (DLQMaxAge l))
    (positive_or (Replicas DefaultStreamLimits) (Replicas l)).

Inductive RetentionPolicy := LimitsPolicy | WorkQueuePolicy.
Inductive DiscardPolicy := DiscardOld | DiscardNew.
Inductive StorageType := FileStorage | MemoryStorage.
Record StreamConfig := mkStreamConfig {
  st_Name : string; st_Description : string; st_Subjects : list string; st_Storage : StorageType;
  st_Retention : RetentionPolicy; st_Discard : DiscardPolicy;
  st_Replicas : Z; st_MaxBytes : Z; st_MaxAge : Z; st_MaxMsgSize : Z; st_Duplicates : Z;
}.
Definition StreamConfigs (limits : StreamLimits) : list StreamConfig :=
  let l := normalizeStreamLimits limits in
  [mkStreamConfig JobsStreamName "Durable Shiyao sandbox lifecycle jobs" [JobsSubject] FileStorage
     WorkQueuePolicy DiscardNew (Replicas l) (JobsMaxBytes l) (JobsMaxAge l) maxMessageSize (10 * Minute);
   mkStreamConfig DLQStreamName "Shiyao jobs requiring operator inspection or redrive" [DLQSubject] FileStorage
     LimitsPolicy DiscardOld (Replicas l) (DLQMaxBytes l) (DLQMaxAge l) maxMessageSize (10 * Minute)].

(** ** The drivers *)

Record PoolConfig := mkPoolConfig {
  pc_URL : string; pc_MaxConns : Z; pc_MinConns : Z; pc_MaxConnIdleTime : Z; pc_MaxConnLifetime : Z;
}.
Record RedisOptions := mkRedisOptions { ro_URL : string; ro_DialTimeout : Z; ro_ReadTimeout : Z; ro_WriteTimeout : Z }.
Record NatsOptions := mkNatsOptions { no_Name : string; no_Timeout : Z; no_MaxReconnects : Z; no_ReconnectWait : Z }.
Inductive AckPolicy := AckExplicitPolicy | AckNonePolicy | AckAllPolicy.
Record ConsumerConfig := mkConsumerConfig {
  cc_Durable : string; cc_Name : string; cc_FilterSubject : string; cc_AckPolicy : AckPolicy; cc_AckWait : Z; cc_MaxDeliver : Z;
}.
(** The function that a consumer calls with a message, by its name. *)
Inductive LifecycleHandler := handle_sandbox_create | handle_sandbox_destroy.
(** What the daemon's [select] sees first *)
Inductive ServeOutcome := ShutdownSignal | ServerError (e : error).

Class Drivers (R : Type) := {
  godotenv_Load : ST R unit;
  env_Parse : ST R AppConfig;
  pg_ParseConfig : string → ST R PoolConfig;
  pg_NewWithConfig : PoolConfig → ST R Z;
  pg_Ping : Z → ST R unit;
  pg_Close : Z → ST R unit;
  redis_ParseURL : string → ST R RedisOptions;
  redis_NewClient : RedisOptions → ST R Z;
  redis_Ping : Z → ST R unit;
  redis_Close : Z → ST R unit;
  nats_Connect : string → NatsOptions → ST R Z;
  js_New : Z → ST R unit;
  js_AccountInfo : Z → ST R unit;
  conn_Close : Z → ST R unit;
  conn_IsClosed : Z → R → bool;
  conn_IsConnected : Z → R → bool;
  conn_Drain : Z → ST R unit;
  js_CreateOrUpdateStream : Z → StreamConfig → ST R unit;
  js_CreateOrUpdateConsumer : Z → string → ConsumerConfig → ST R unit;
  js_Consume : Z → string → ConsumerConfig → LifecycleHandler → ST R Z;
  handle_Stop : Z → ST R unit;
  http_Serve : ST R ServeOutcome;
  http_Shutdown : ST R unit;
  ctx_Done : ST R unit;
}.

Section Start.
Context {R : Type} `{Drivers R}.
Local Open Scope go_scope.

(** A missing .env file is no error. *)
Definition config_Load : ST R AppConfig :=
  e <- st_try godotenv_Load;;
  match e with
  | Err e => if errors_Is "file does not exist" e then st_wrap "parse environment: %w" env_Parse
             else st_fail (Errorf "load .env: %w" [e])
  | Ok _ => st_wrap "parse environment: %w" env_Parse
  end.

(** *** adapters/postgres/client.go, adapters/redis/client.go *)

Definition NewPool (url : string) : ST R Z :=
  cfg <- st_wrap "parse postgres URL: %w" (pg_ParseConfig url);;
  let cfg := mkPoolConfig (pc_URL cfg) 20 5 (30 * Minute) (1 * Hour) in
  pool <- st_wrap "create postgres pool: %w" (pg_NewWithConfig cfg);;
  ping <- st_try (pg_Ping pool);;
  match ping with
  | Err e => st_try (pg_Close pool);; st_fail (Errorf "ping postgres: %w" [e])
  | Ok _ => st_ret pool
  end.

Definition redis_New (url : string) : ST R Z :=
  opts <- st_wrap "parse redis URL: %w" (redis_ParseURL url);;
  let opts := mkRedisOptions (ro_URL opts) (5 * Second) (3 * Second) (3 * Second) in
  client <- redis_NewClient opts;;
  ping <- st_try (redis_Ping client);;
  match ping with
  | Err e => st_try (redis_Close client);; st_fail (Errorf "ping redis: %w" [e])
  | Ok _ => st_ret client
  end.

(** *** adapters/nats/client.go *)

Definition defaultClientName : string := "shiyao".
Definition connectionOptions (name : string) : NatsOptions :=
  mkNatsOptions name (5 * Second) (-1) (2 * Second).
Definition ErrClientUnavailable : error := Sentinel "JetStream client is unavailable".
(** A client holds its connection, and a JetStream context on it. *)
Record Client := mkClient { c_connection : option Z; c_jetStream : option Z }.

Definition client_name (clientName : list string) : string :=
  match clientName with
  | n :: _ => if bool_decide (TrimSpace n = "") then defaultClientName else TrimSpace n
  | [] => defaultClientName
  end.
Definition nats_New (serverURL : string) (clientName : list string) : ST R Client :=
  let serverURL := TrimSpace serverURL in
  if bool_decide (serverURL = "") then st_fail (Errorf "NATS URL is required" [])
  else
    connection <- st_wrap "connect to NATS: %w" (nats_Connect serverURL (connectionOptions (client_name clientName)));;
    js <- st_try (js_New connection);;
    match js with
    | Err e => st_try (conn_Close connection);; st_fail (Errorf "initialize JetStream: %w" [e])
    | Ok _ =>
        info <- st_try (js_AccountInfo connection);;
        match info with
        | Err e => st_try (conn_Close connection);; st_fail (Errorf "verify JetStream account: %w" [e])
        | Ok _ => st_ret (mkClient (Some connection) (Some connection))
        end
    end.

Definition client_Close (c : option Client) : ST R unit :=
  match c ≫= c_connection with
  | None => st_ret tt
  | Some conn => λ w,
      if conn_IsClosed conn w then (Ok tt, w)
      else (d <- st_try (conn_Drain conn);;
            match d with
            | Ok _ => st_ret tt
            | Err e => st_try (conn_Close conn);; st_fail (Errorf "drain NATS connection: %w" [e])
            end) w
  end.

(** *** adapters/nats/health.go, jetstream.go and consumer.go *)

Definition client_Ping (c : option Client) : ST R unit :=
  match c with
  | Some (mkClient (Some conn) (Some js)) => λ w,
      if conn_IsConnected conn w then st_wrap "read JetStream account info: %w" (js_AccountInfo js) w
      else (Err (Errorf "JetStream client is not connected" []), w)
  | _ => st_fail ErrClientUnavailable
  end.

Fixpoint provision_all (js : Z) (configs : list StreamConfig) : ST R unit :=
  match configs with
  | [] => st_ret tt
  | c :: configs =>
      st_wrap "provision JetStream stream %s: %w" (js_CreateOrUpdateStream js c);; provision_all js configs
  end.
Definition Provision (c : option Client) (limits : StreamLimits) : ST R unit :=
  match c ≫= c_jetStream with
  | None => st_fail ErrClientUnavailable
  | Some js => provision_all js (StreamConfigs limits)
  end.

Definition blank (s : string) : bool := bool_decide (TrimSpace s = "").
Definition CreateOrUpdateConsumer (c : option Client) (stream : string) (cfg : ConsumerConfig) : ST R unit :=
  match c ≫= c_jetStream with
  | None => st_fail ErrClientUnavailable
  | Some js =>
      if blank stream then st_fail (Errorf "JetStream stream name is required" [])
      else if blank (cc_Durable cfg) && blank (cc_Name cfg) then
        st_fail (Errorf "JetStream consumer durable or name is required" [])
      else st_wrap "create or update consumer %q on %s: %w" (js_CreateOrUpdateConsumer js (TrimSpace stream) cfg)
  end.
End Start.

(** ** runtime/worker *)

Definition sandboxCreateConsumer : string := "shiyao-sandbox-create-worker".
Definition sandboxDestroyConsumer : string := "shiyao-sandbox-destroy-worker".
Definition consumerAckWait : Z := 2 * Minute.
Definition consumerMaxDeliver : Z := 5.
Definition consumer_config (durable subject : string) : ConsumerConfig :=
  mkConsumerConfig durable durable subject AckExplicitPolicy consumerAckWait consumerMaxDeliver.

Record WorkerRegistry := mkWorkerRegistry {
  wr_DB : option Z; wr_NATS : option Client; wr_VMM : Manager; wr_Consumers : list Z;
}.

Section Worker.
Context {R : Type} `{Drivers R}.
Local Open Scope go_scope.

Definition consumeSandboxLifecycle (nats : option Client) (durable subject : string) (handler : LifecycleHandler) : ST R Z :=
  CreateOrUpdateConsumer nats JobsStreamName (consumer_config durable subject);;
  match nats ≫= c_jetStream with
  | None => st_fail (Panic "nil consumer")
  | Some js => st_wrap "consume %s: %w" (js_Consume js JobsStreamName (consumer_config durable subject) handler)
  end.

Definition subscribe (nats : option Client) : ST R (list Z) :=
  Provision nats DefaultStreamLimits;;
  createHandle <- consumeSandboxLifecycle nats sandboxCreateConsumer SubjectSandboxCreate handle_sandbox_create;;
  d <- st_try (consumeSandboxLifecycle nats sandboxDestroyConsumer SubjectSandboxDestroy handle_sandbox_destroy);;
  match d with
  | Err e => st_try (handle_Stop createHandle);; st_fail e
  | Ok destroyHandle => st_ret [createHandle; destroyHandle]
  end.

Fixpoint stop_all (handles : list Z) : ST R unit :=
  match handles with
  | [] => st_ret tt
  | h :: handles => st_try (handle_Stop h);; stop_all handles
  end.
Definition close_db (db : option Z) : ST R unit :=
  match db with None => st_ret tt | Some p => st_try (pg_Close p);; st_ret tt end.
Definition worker_Close (r : WorkerRegistry) : ST R unit :=
  stop_all (wr_Consumers r);;
  st_try (client_Close (wr_NATS r));;
  close_db (wr_DB r).

Definition worker_vmm_config (cfg : AppConfig) : vmm_Config :=
  {| KernelPath := VMMKernelPath cfg; RootfsPath := VMMRootfsPath cfg; VCPUCount := VMMVCPUCount cfg;
     MemSizeMB := VMMMemoryMB cfg; BootArgs := VMMBootArgs cfg; GuestAgentPath := VMMGuestAgentPath cfg |}.
Definition worker_net_config (cfg : AppConfig) : Config :=
  let n := DefaultConfig "" in
  mkConfig (TapName n) (HostIP n) (GuestIP n) (AllowedPorts n) (VMMUplinkInterface cfg).
Definition NewManager (tempDir : string) (base : vmm_Config) (net : Config) (snap : SnapshotConfig) : Manager :=
  NewManagerWithLimits tempDir base net snap DefaultManagerLimits.

Definition worker_New (tempDir : string) (cfg : AppConfig) (db : option Z) (nats : option Client) : ST R WorkerRegistry :=
  st_wrap "validate vmm config: %w" (λ w, (vmm_Validate (worker_vmm_config cfg), w));;
  let vmm := NewManager tempDir (worker_vmm_config cfg) (worker_net_config cfg) (Build_SnapshotConfig "" "" false) in
  s <- st_try (subscribe nats);;
  match s with
  | Err e => st_try (worker_Close (mkWorkerRegistry db nats vmm []));; st_fail e
  | Ok handles => st_ret (mkWorkerRegistry db nats vmm handles)
  end.

(** cmd/worker: [log.Fatalf] ends the process where it stands; otherwise the
    worker runs until the signal and its deferred calls follow. *)
Definition worker_main (tempDir : string) : ST R unit :=
  cfg <- st_wrap "load config: %v" config_Load;;
  db <- st_wrap "connect to postgres: %v" (NewPool (DatabaseURL cfg));;
  nats <- st_wrap "connect to nats: %v" (nats_New (NATSURL cfg) []);;
  registry <- st_wrap "initialize worker: %v" (worker_New tempDir cfg (Some db) (Some nats));;
  ctx_Done;;
  worker_Close registry;;
  st_try (client_Close (Some nats));;
  st_try (pg_Close db);;
  st_ret tt.
End Worker.

(** ** runtime/daemon and cmd/daemon *)

Section Daemon.
Context {R : Type} `{Drivers R}.
Local Open Scope go_scope.

Record DaemonRegistry := mkDaemonRegistry {
  dr_DB : option Z; dr_Redis : option Z; dr_NATS : option Client; dr_Router : Engine; dr_Modules : Modules;
}.
(** [Registry.Close] *)
Definition daemon_Close (r : DaemonRegistry) : ST R unit :=
  match dr_Redis r with None => st_ret tt | Some c => st_try (redis_Close c);; st_ret tt end;;
  st_try (client_Close (dr_NATS r));;
  close_db (dr_DB r).

(** [New]; building the modules cannot fail. *)
Definition daemon_New (cfg : AppConfig) (db redis : Z) (nats : Client) : result DaemonRegistry :=
  let modules := NewModules db (c_connection nats) in
  let router := mkEngine [Logger; Recovery; UseSecure Secure; UseCORS (CORS (CORSOrigins cfg) (Development cfg))]
                  (bd_route <$> bind_routes modules) in
  Ok (mkDaemonRegistry (Some db) (Some redis) (Some nats) router modules).

(** From the server to the end of [run]. *)
Definition serve_until_done : ST R unit :=
  o <- http_Serve;;
  match o with
  | ServerError e => st_fail (Errorf "http server error: %w" [e])
  | ShutdownSignal => st_wrap "graceful shutdown failed: %w" http_Shutdown
  end.

Definition run : ST R unit :=
  cfg <- st_wrap "load config: %w" config_Load;;
  db <- st_wrap "connect to postgres: %w" (NewPool (DatabaseURL cfg));;
  st_defer (pg_Close db)
    (redis <- st_wrap "connect to redis: %w" (redis_New (RedisURL cfg));;
     st_defer (redis_Close redis)
       (nats <- st_wrap "connect to nats: %w" (nats_New (NATSURL cfg) ["shiyao-daemon"]);;
        st_defer (client_Close (Some nats))
          (registry <- st_wrap "initialize daemon: %w" (λ w, (daemon_New cfg db redis nats, w));;
           st_defer (daemon_Close registry) serve_until_done))).
End Daemon.

(** ** What is live *)

Inductive Kind := KPool | KRedis | KNats | KConsumer.
#[export] Instance kind_eq_dec : EqDecision Kind.
Proof. solve_decision. Defined.
#[export] Instance kind_countable : Countable Kind.
Proof.
  apply (inj_countable (λ k, match k with KPool => 0 | KRedis => 1 | KNats => 2 | KConsumer => 3 end)%nat
    (λ n, match n with 0 => Some KPool | 1 => Some KRedis | 2 => Some KNats | 3 => Some KConsumer | _ => None end)%nat).
  by intros [].
Defined.

Section Live.
Context {R : Type} (live : R → gset (Kind * Z)).
(** [c] opens a new resource of kind [k], or none when it fails. *)
Definition acquires (k : Kind) (c : ST R Z) : Prop := ∀ w r w', c w = (r, w') →
  match r with
  | Ok x => (k, x) ∉ live w ∧ live w' = {[(k, x)]} ∪ live w
  | Err _ => live w' = live w
  end.
Definition releases (x : Kind * Z) (c : ST R unit) : Prop := ∀ w, live (c w).2 = live w ∖ {[x]}.
(** Up to the resources [X] *)
Definition live_but (X : gset (Kind * Z)) (w : R) : gset (Kind * Z) := live w ∖ X.
End Live.

(** The documented behaviour of the drivers; a connection that drains
    closes by itself.  [consumers] are the consumers that the server has, by
    stream and durable name, [readers] says for each handle which one it
    reads and which handler it calls. *)
Class DriverLaws (R : Type) `{Drivers R} := {
  live : R → gset (Kind * Z);
  streams : R → gmap string StreamConfig;
  consumers : R → gmap (string * string) ConsumerConfig;
  readers : R → gmap Z (string * string * LifecycleHandler);
  dl_dotenv : preserves live godotenv_Load;
  dl_env : preserves live env_Parse;
  dl_pg_parse u : preserves live (pg_ParseConfig u);
  dl_pg_new c : acquires live KPool (pg_NewWithConfig c);
  dl_pg_ping p : preserves live (pg_Ping p);
  dl_pg_close p : releases live (KPool, p) (pg_Close p);
  dl_redis_parse u : preserves live (redis_ParseURL u);
  dl_redis_new o : acquires live KRedis (redis_NewClient o);
  dl_redis_ping c : preserves live (redis_Ping c);
  dl_redis_close c : releases live (KRedis, c) (redis_Close c);
  dl_connect u o : acquires live KNats (nats_Connect u o);
  dl_js_new c : preserves live (js_New c);
  dl_account c : preserves live (js_AccountInfo c);
  dl_conn_close c : releases live (KNats, c) (conn_Close c);
  dl_is_closed c w : conn_IsClosed c w = true → (KNats, c) ∉ live w;
  dl_drain c w : live (conn_Drain c w).2 =
    if is_ok (conn_Drain c w).1 then live w ∖ {[(KNats, c)]} else live w;
  dl_stream c s : preserves live (js_CreateOrUpdateStream c s);
  dl_consumer c s cfg : preserves live (js_CreateOrUpdateConsumer c s cfg);
  dl_consume c s cfg h : acquires live KConsumer (js_Consume c s cfg h);
  dl_stop h : releases live (KConsumer, h) (handle_Stop h);
  dl_serve : preserves live http_Serve;
  dl_shutdown : preserves live http_Shutdown;
  dl_done : preserves live ctx_Done;
  ds_stream c s w : streams (js_CreateOrUpdateStream c s w).2 =
    if is_ok (js_CreateOrUpdateStream c s w).1 then <[st_Name s := s]> (streams w) else streams w;
  ds_consumer c s cfg : preserves streams (js_CreateOrUpdateConsumer c s cfg);
  ds_consume c s cfg h : preserves streams (js_Consume c s cfg h);
  dc_consumer c s cfg w w' : js_CreateOrUpdateConsumer c s cfg w = (Ok tt, w') →
    consumers w' = <[(s, cc_Durable cfg) := cfg]> (consumers w) ∧ readers w' = readers w;
  dc_consume c s cfg h w k w' : js_Consume c s cfg h w = (Ok k, w') →
    consumers w' = consumers w ∧ readers w' = <[k := (s, cc_Durable cfg, h)]> (readers w);
}.

Section Resources.
Context {R : Type} `{HD : Drivers R} `{HL : !DriverLaws R}.
Notation keeps X := (preserves (live_but live X)).

Lemma keeps_of {A} X (c : ST R A) : preserves live c → keeps X c.
Proof. intros Hc w. unfold live_but. by rewrite Hc. Qed.
Lemma keeps_release X x c : releases live x c → x ∈ X → keeps X c.
Proof. intros Hc Hx w. unfold live_but. rewrite Hc. set_solver. Qed.

(** A resource that is opened, and closed by a deferred call, at the latest. *)
Lemma keeps_bracket {A} X k (acq : ST R Z) (rel : Z → ST R unit) (c : Z → ST R A) :
  acquires live k acq → (∀ x, releases live (k, x) (rel x)) → (∀ x, keeps ({[(k, x)]} ∪ X) (c x)) →
  keeps X (st_bind acq (λ x, st_defer (rel x) (c x))).
Proof.
  intros Ha Hr Hc w. unfold st_bind. destruct (acq w) as [[x|e] w1] eqn:E; apply Ha in E.
  2: { unfold live_but. simpl. by rewrite E. }
  destruct E as [Hf E]. unfold st_defer. specialize (Hc x w1). destruct (c x w1) as [r w2]. simpl in *.
  unfold live_but in *. rewrite Hr. set_solver.
Qed.

Lemma acquires_wrap k s c : acquires live k c → acquires live k (st_wrap s c).
Proof.
  intros Hc w r w'. unfold st_wrap. destruct (c w) as [[x|e] w1] eqn:E; apply Hc in E; by intros [= <- <-].
Qed.
Lemma acquires_pre {B} k (p : ST R B) c :
  preserves live p → (∀ b, acquires live k (c b)) → acquires live k (st_bind p c).
Proof.
  intros Hp Hc w r w'. unfold st_bind. specialize (Hp w). destruct (p w) as [[b|e] w1]; simpl in *.
  - intros E%Hc. by rewrite Hp in E.
  - by intros [= <- <-].
Qed.
(** [x := open(); if err := check(x); err != nil { close(x); fail }] *)
Lemma acquires_checked {B} k acq (check : Z → ST R B) (rel : Z → ST R unit) msg :
  acquires live k acq → (∀ x, preserves live (check x)) → (∀ x, releases live (k, x) (rel x)) →
  acquires live k (st_bind acq (λ x, st_bind (st_try (check x)) (λ p,
    match p with
    | Err e => st_bind (st_try (rel x)) (λ _, st_fail (Errorf msg [e]))
    | Ok _ => st_ret x
    end))).
Proof.
  intros Ha Hc Hr w r w'. run. destruct (acq w) as [[x|e] w1] eqn:E; apply Ha in E; [|by intros [= <- <-]].
  destruct E as [Hf E]. specialize (Hc x w1). destruct (check x w1) as [[b|e] w2]; simpl in *.
  - intros [= <- <-]. by rewrite Hc.
  - specialize (Hr x w2). destruct (rel x w2) as [r3 w3]. simpl in *. intros [= <- <-].
    rewrite Hr, Hc, E. set_solver.
Qed.

Lemma NewPool_acquires u : acquires live KPool (NewPool u).
Proof.
  apply acquires_pre; [apply preserves_wrap, dl_pg_parse|]. intros cfg.
  apply acquires_checked; [apply acquires_wrap, dl_pg_new|apply dl_pg_ping|apply dl_pg_close].
Qed.
Lemma redis_New_acquires u : acquires live KRedis (redis_New u).
Proof.
  apply acquires_pre; [apply preserves_wrap, dl_redis_parse|]. intros cfg.
  apply acquires_checked; [apply dl_redis_new|apply dl_redis_ping|apply dl_redis_close].
Qed.
Lemma config_Load_keeps : preserves live config_Load.
Proof.
  unfold config_Load. pose proof dl_dotenv. pose proof dl_env. frame.
Qed.

(** The client as its connection *)
Definition connected (c : Z) : Client := mkClient (Some c) (Some c).
Lemma nats_New_cases u names w r w' :
  nats_New u names w = (r, w') →
  match r with
  | Ok cl => ∃ c, cl = connected c ∧ (KNats, c) ∉ live w ∧ live w' = {[(KNats, c)]} ∪ live w
  | Err _ => live w' = live w
  end.
Proof.
  unfold nats_New. case_bool_decide; [by intros [= <- <-]|]. run.
  destruct (nats_Connect _ _ w) as [[c|e] w1] eqn:E; apply dl_connect in E; [|by intros [= <- <-]].
  destruct E as [Hf E].
  assert (∀ w2, live w2 = live w1 → live (conn_Close c w2).2 = live w) as Hclose.
  { intros w2 E2. rewrite dl_conn_close, E2, E. set_solver. }
  pose proof (dl_js_new c w1) as E2. destruct (js_New c w1) as [[u2|e] w2]; simpl in *.
  2: { specialize (Hclose w2 E2). destruct (conn_Close c w2) as [r3 w3]. by intros [= <- <-]. }
  pose proof (dl_account c w2) as E3. destruct (js_AccountInfo c w2) as [[u3|e] w3]; simpl in *.
  2: { specialize (Hclose w3 ltac:(congruence)). destruct (conn_Close c w3) as [r4 w4]. by intros [= <- <-]. }
  intros [= <- <-]. exists c. split; [done|]. split; [done|]. congruence.
Qed.
Lemma client_Close_releases c : releases live (KNats, c) (client_Close (Some (connected c))).
Proof.
  intros w. unfold client_Close. simpl. destruct (conn_IsClosed c w) eqn:Ec.
  - apply dl_is_closed in Ec. simpl. set_solver.
  - run. pose proof (dl_drain c w) as Hd. destruct (conn_Drain c w) as [[u|e] w1]; simpl in *; [done|].
    pose proof (dl_conn_close c w1) as Hc. destruct (conn_Close c w1) as [r2 w2]. simpl in *. by rewrite Hc, Hd.
Qed.
Lemma keeps_nats_bracket {A} X s u names (k : Client → ST R A) :
  (∀ c, keeps ({[(KNats, c)]} ∪ X) (k (connected c))) →
  keeps X (st_bind (st_wrap s (nats_New u names)) (λ cl, st_defer (client_Close (Some cl)) (k cl))).
Proof.
  intros Hk w. unfold st_bind, st_wrap. destruct (nats_New u names w) as [[cl|e] w1] eqn:E; apply nats_New_cases in E.
  2: { unfold live_but. simpl. by rewrite E. }
  destruct E as (c & -> & Hf & E). unfold st_defer. specialize (Hk c w1). destruct (k (connected c) w1) as [r w2].
  simpl in *. unfold live_but in *. rewrite client_Close_releases. set_solver.
Qed.
End Resources.

(** C27: The daemon gives back every connection that it opened, whether a step of
    its start fails, the server fails, the shutdown fails or all goes well;
    closing a connection twice, as [Close] and the deferred calls do, is
    harmless. *)
Theorem daemon_releases_connections {R} `{DriverLaws R} w r w' : run w = (r, w') → live w' = live w.
Proof.
  intros E. assert (preserves (live_but live ∅) run) as Hp.
  { unfold run. apply preserves_bind; [apply keeps_of, preserves_wrap, config_Load_keeps|]. intros cfg.
    apply (keeps_bracket _ KPool); [apply acquires_wrap, NewPool_acquires|apply dl_pg_close|]. intros db.
    apply (keeps_bracket _ KRedis); [apply acquires_wrap, redis_New_acquires|apply dl_redis_close|]. intros rd.
    apply keeps_nats_bracket. intros c. apply preserves_bind_ok; [done|].
    intros reg v v' [= <- _]. apply preserves_defer.
    - unfold daemon_Close, close_db. simpl. frame.
      + eapply keeps_release; [apply dl_redis_close|set_solver].
      + eapply keeps_release; [apply client_Close_releases|set_solver].
      + eapply keeps_release; [apply dl_pg_close|set_solver].
    - apply keeps_of. unfold serve_until_done. pose proof dl_serve. pose proof dl_shutdown. frame. }
  specialize (Hp w). rewrite E in Hp. unfold live_but in Hp. simpl in Hp. by rewrite !difference_empty_L in Hp.
Qed.

(** ** The worker *)

Section WorkerResources.
Context {R : Type} `{HD : Drivers R} `{HL : !DriverLaws R}.

Lemma provision_all_keeps js l : preserves live (provision_all js l).
Proof. induction l as [|s l IH]; cbn [provision_all]; pose proof (dl_stream js); frame. Qed.
Lemma provision_all_streams js l w w' :
  provision_all js l w = (Ok tt, w') →
  streams w' = foldl (λ m s, <[st_Name s := s]> m) (streams w) l.
Proof.
  revert w. induction l as [|s l IH]; intros w; cbn [provision_all foldl]; [by intros [= <-]|]. run.
  pose proof (ds_stream js s w) as Hs. destruct (js_CreateOrUpdateStream js s w) as [[u|e] w1]; simpl in Hs; [|done].
  intros E%IH. by rewrite E, Hs.
Qed.

Lemma consume_cases c durable subject handler w r w' :
  blank durable = false →
  consumeSandboxLifecycle (Some (connected c)) durable subject handler w = (r, w') →
  streams w' = streams w ∧
  match r with
  | Ok h => (KConsumer, h) ∉ live w ∧ live w' = {[(KConsumer, h)]} ∪ live w ∧
      consumers w' = <[(JobsStreamName, durable) := consumer_config durable subject]> (consumers w) ∧
      readers w' = <[h := (JobsStreamName, durable, handler)]> (readers w)
  | Err _ => live w' = live w
  end.
Proof.
  intros Hb. unfold consumeSandboxLifecycle, CreateOrUpdateConsumer. simpl. rewrite Hb. cbn [andb]. run.
  change (blank JobsStreamName) with false. cbn iota.
  pose proof (dl_consumer c (TrimSpace JobsStreamName) (consumer_config durable subject) w) as E1.
  pose proof (ds_consumer c (TrimSpace JobsStreamName) (consumer_config durable subject) w) as S1.
  destruct (js_CreateOrUpdateConsumer _ _ _ w) as [[[]|e] w1] eqn:Ec; simpl in E1, S1; [|by intros [= <- <-]].
  apply dc_consumer in Ec as [C1 R1]. change (TrimSpace JobsStreamName) with JobsStreamName in C1.
  pose proof (ds_consume c JobsStreamName (consumer_config durable subject) handler w1) as S2.
  destruct (js_Consume c JobsStreamName (consumer_config durable subject) handler w1) as [[h|e] w2] eqn:E2;
    simpl in S2; pose proof E2 as E3; apply dl_consume in E3; rewrite E1 in E3; intros [= <- <-];
    (split; [congruence|]); [|done].
  apply dc_consume in E2 as [C2 R2]. rewrite C2, R2, C1, R1. by destruct E3.
Qed.

Lemma subscribe_cases c w r w' :
  subscribe (Some (connected c)) w = (r, w') →
  match r with
  | Ok hs => ∃ h1 h2, hs = [h1; h2] ∧ h1 ≠ h2 ∧ (KConsumer, h1) ∉ live w ∧ (KConsumer, h2) ∉ live w ∧
      live w' = {[(KConsumer, h1); (KConsumer, h2)]} ∪ live w ∧
      streams w' = foldl (λ m s, <[st_Name s := s]> m) (streams w) (StreamConfigs DefaultStreamLimits) ∧
      consumers w' !! (JobsStreamName, sandboxCreateConsumer) = Some (consumer_config sandboxCreateConsumer SubjectSandboxCreate) ∧
      consumers w' !! (JobsStreamName, sandboxDestroyConsumer) = Some (consumer_config sandboxDestroyConsumer SubjectSandboxDestroy) ∧
      readers w' !! h1 = Some (JobsStreamName, sandboxCreateConsumer, handle_sandbox_create) ∧
      readers w' !! h2 = Some (JobsStreamName, sandboxDestroyConsumer, handle_sandbox_destroy)
  | Err _ => live w' = live w
  end.
Proof.
  unfold subscribe, Provision. cbn [mbind option_bind connected c_jetStream].
  generalize (StreamConfigs DefaultStreamLimits) as l. intros l. run.
  pose proof (provision_all_keeps c l w) as E1.
  destruct (provision_all _ _ w) as [[[]|e] w1] eqn:Ep; simpl in E1; [|by intros [= <- <-]].
  apply provision_all_streams in Ep.
  destruct (consumeSandboxLifecycle _ sandboxCreateConsumer _ _ w1) as [[h1|e] w2] eqn:E2;
    apply consume_cases in E2 as [S2 E2]; try done; [|intros [= <- <-]; congruence].
  destruct E2 as (F1 & E2 & C1 & R1).
  destruct (consumeSandboxLifecycle _ sandboxDestroyConsumer _ _ w2) as [[h2|e] w3] eqn:E3;
    apply consume_cases in E3 as [S3 E3]; try done.
  - destruct E3 as (F2 & E3 & C2 & R2). intros [= <- <-]. exists h1, h2. rewrite E2 in F2, E3.
    assert (h1 ≠ h2) as Hne by (intros ->; set_solver).
    split; [done|]. split; [done|]. rewrite <- E1. split; [done|]. split; [set_solver|].
    split; [rewrite E3; set_solver|]. split; [congruence|]. rewrite C2, R2, C1, R1.
    split_and!; [by rewrite lookup_insert_ne, lookup_insert_eq by done|by rewrite lookup_insert_eq| |by rewrite lookup_insert_eq].
    by rewrite lookup_insert_ne, lookup_insert_eq by done.
  - pose proof (dl_stop h1 w3) as E4. destruct (handle_Stop h1 w3) as [r4 w4]. simpl in *. intros [= <- <-].
    rewrite E4, E3, E2, E1. rewrite E1 in F1. set_solver.
Qed.

Lemma stop_all_releases hs w :
  live (stop_all hs w).2 = live w ∖ list_to_set ((λ h, (KConsumer, h)) <$> hs) ∧ (stop_all hs w).1 = Ok tt.
Proof.
  revert w. induction hs as [|h hs IH]; intros w; cbn [stop_all]; [split; [set_solver|done]|]. run.
  pose proof (dl_stop h w) as E. destruct (handle_Stop h w) as [r w1]. simpl in E.
  destruct (IH w1) as [E2 E3]. rewrite E2, E3, E. split; [set_solver|done].
Qed.
Lemma worker_Close_releases vmm c p hs w :
  live (worker_Close (mkWorkerRegistry (Some p) (Some (connected c)) vmm hs) w).2 =
    live w ∖ (list_to_set ((λ h, (KConsumer, h)) <$> hs) ∪ {[(KNats, c); (KPool, p)]}) ∧
  (worker_Close (mkWorkerRegistry (Some p) (Some (connected c)) vmm hs) w).1 = Ok tt.
Proof.
  unfold worker_Close, close_db. run. destruct (stop_all_releases hs w) as [E1 E2].
  destruct (stop_all hs w) as [r1 w1]. simpl in *. subst r1.
  pose proof (client_Close_releases c w1) as E3. destruct (client_Close _ w1) as [r2 w2]. simpl in *.
  pose proof (dl_pg_close p w2) as E4. destruct (pg_Close p w2) as [r3 w3]. simpl in *.
  split; [|done]. rewrite E4, E3, E1. set_solver.
Qed.
End WorkerResources.

(** C28: The worker starts whole or not at all: when it starts, the two streams
    are provisioned and exactly two new consumers run; when the subscription
    fails, no consumer is left and its connections are closed; an invalid
    configuration is refused before anything happens. *)
Theorem worker_starts_whole {R} `{DriverLaws R} tempDir cfg p c (w : R) r w' :
  worker_New tempDir cfg (Some p) (Some (connected c)) w = (r, w') →
  match r with
  | Ok reg => ∃ h1 h2, wr_Consumers reg = [h1; h2] ∧ h1 ≠ h2 ∧
      live w' = {[(KConsumer, h1); (KConsumer, h2)]} ∪ live w ∧ (KConsumer, h1) ∉ live w ∧ (KConsumer, h2) ∉ live w ∧
      (∀ s, s ∈ StreamConfigs DefaultStreamLimits → streams w' !! st_Name s = Some s) ∧
      live (worker_Close reg w').2 = live w ∖ {[(KNats, c); (KPool, p)]}
  | Err _ => is_ok (vmm_Validate (worker_vmm_config cfg)) = false ∧ w' = w ∨
      live w' = live w ∖ {[(KNats, c); (KPool, p)]}
  end.
Proof.
  unfold worker_New. run. destruct (vmm_Validate (worker_vmm_config cfg)) as [u|e] eqn:Ev;
    [|intros [= <- <-]; by left].
  destruct (subscribe _ w) as [[hs|e] w1] eqn:Es; apply subscribe_cases in Es.
  - destruct Es as (h1 & h2 & -> & Hne & F1 & F2 & El & Est & _). intros [= <- <-]. exists h1, h2.
    split; [done|]. split; [done|]. split; [done|]. split; [done|]. split; [done|]. split.
    + intros s Hs. rewrite Est. cbn in Hs |- *. apply elem_of_cons in Hs as [->|Hs%list_elem_of_singleton]; [|subst s].
      * cbn. rewrite lookup_insert_ne by done. by rewrite lookup_insert_eq.
      * cbn. by rewrite lookup_insert_eq.
    + rewrite (proj1 (worker_Close_releases _ _ _ _ _)), El. cbn. set_solver.
  - match goal with |- context [worker_Close ?reg w1] => pose proof (worker_Close_releases (wr_VMM reg) c p [] w1) as [E2 _] end.
    simpl in *. destruct (worker_Close _ w1) as [r2 w2]. simpl in *. intros [= <- <-]. right. rewrite E2, Es. set_solver.
Qed.

(** ** Streams, subjects and consumers *)

Definition positive_limits (l : StreamLimits) : Prop :=
  0 < JobsMaxBytes l ∧ 0 < DLQMaxBytes l ∧ 0 < JobsMaxAge l ∧ 0 < DLQMaxAge l ∧ 0 < Replicas l.
Lemma positive_or_pos d x : 0 < d → 0 < positive_or d x.
Proof. unfold positive_or. intros. destruct (Z.leb_spec x 0); lia. Qed.
Lemma positive_or_id d x : 0 < x → positive_or d x = x.
Proof. unfold positive_or. intros. destruct (Z.leb_spec x 0); lia. Qed.
Lemma normalize_positive l : positive_limits (normalizeStreamLimits l).
Proof. by repeat split; apply positive_or_pos. Qed.
Lemma normalize_id l : positive_limits l → normalizeStreamLimits l = l.
Proof. intros (? & ? & ? & ? & ?). unfold normalizeStreamLimits. rewrite !positive_or_id by done. by destruct l. Qed.

(** Subjects as the server matches them: a filter without wildcards matches
    itself, and [p.>] whatever follows [p.]. *)
Definition literal (f : string) : bool := negb (ContainsAny f "*>").
Class SubjectMatch := {
  matches : string → string → bool;
  match_literal f s : literal f = true → matches f s = true ↔ s = f;
  match_tail p s : literal p = true → matches (p +:+ ".>") s = true ↔ ∃ t, t ≠ "" ∧ s = p +:+ "." +:+ t;
}.
Definition captures `{SubjectMatch} (s : StreamConfig) (subject : string) : bool :=
  existsb (λ f, matches f subject) (st_Subjects s).
(** The handles among [hs] that get a message with this subject: the consumer
    that they read has a filter that matches it, on a stream of the server
    that captures it. *)
Definition receives `{SubjectMatch} {R} `{DriverLaws R} (w : R) (subject : string) (h : Z) : bool :=
  match readers w !! h with
  | Some (stream, durable, _) =>
      match streams w !! stream, consumers w !! (stream, durable) with
      | Some st, Some cfg => captures st subject && matches (cc_FilterSubject cfg) subject
      | _, _ => false
      end
  | None => false
  end.

(** The payload of a lifecycle event, for ids that JSON does not escape *)
Definition quote (s : string) : string := of_bytes [34] +:+ s +:+ of_bytes [34].
Definition json_event (ev : LifecycleEvent) : string :=
  "{" +:+ quote "sandbox_id" +:+ ":" +:+ quote (uuid_String (ev_SandboxID ev)) +:+ "," +:+
  quote "user_id" +:+ ":" +:+ quote (uuid_String (ev_UserID ev)) +:+ "," +:+
  quote "vm_id" +:+ ":" +:+ quote (ev_VMID ev) +:+ "}".

Lemma json_event_length ev u : ev_VMID ev = newVMID u → len (json_event ev) = 153.
Proof.
  intros E. unfold len, json_event, quote. rewrite E. unfold newVMID.
  repeat (rewrite str_length_app || rewrite uuid_String_length). reflexivity.
Qed.

(** [Client.Publish] as the publisher of the dispatcher *)
Definition nats_bus {B} (PublishMsg : NatsMsg → B → option string * B) (order : MapOrder B) (client : bool)
  : option (string → LifecycleEvent → string → ST B unit) :=
  Some (λ subject ev id b,
    match nats_Publish PublishMsg order client subject (json_event ev) ∅ id b with
    | (None, b) => (Ok tt, b)
    | (Some e, b) => (Err (Errorf (pe_text e) []), b)
    end).
(** What the dispatcher is called for, and the handler that is meant. *)
Definition dispatch {B} (bus : option (string → LifecycleEvent → string → ST B unit)) (h : LifecycleHandler)
  : LifecycleEvent → ST B unit :=
  match h with handle_sandbox_create => DispatchCreate bus | handle_sandbox_destroy => DispatchDestroy bus end.
Definition lifecycle_subject (h : LifecycleHandler) : string :=
  match h with handle_sandbox_create => SubjectSandboxCreate | handle_sandbox_destroy => SubjectSandboxDestroy end.

(** A dispatched event is handed to the bus, whatever it answers. *)
Lemma dispatch_publishes {B} (PublishMsg : NatsMsg → B → option string * B) order h ev u b :
  visits_all order → ev_VMID ev = newVMID u →
  let m := mkNatsMsg (lifecycle_subject h) (json_event ev) ∅
             (Some (uuid_String (ev_SandboxID ev) +:+ ":" +:+ lifecycle_subject h)) in
  ∃ r, dispatch (nats_bus PublishMsg order true) h ev b = (r, (PublishMsg m b).2) ∧
    (is_ok r = true ↔ (PublishMsg m b).1 = None).
Proof.
  intros Ho Hv m.
  assert (TrimSpace (lifecycle_subject h) = lifecycle_subject h) as Hs by (destruct h; vm_compute; reflexivity).
  assert (∀ id, TrimSpace id = id → id ≠ "" →
    nats_Publish PublishMsg order true (lifecycle_subject h) (json_event ev) ∅ id b =
    match PublishMsg (mkNatsMsg (lifecycle_subject h) (json_event ev) ∅ (Some id)) b with
    | (Some text, b) => (Some (nats_error ("publish JetStream message to " +:+ lifecycle_subject h +:+ ": " +:+ text)
                           "jetstream_publish_failed" true false), b)
    | (None, b) => (None, b)
    end) as Hp.
  { intros id Hid Hne. unfold nats_Publish. cbn [negb]. rewrite Hs, Hid.
    rewrite bool_decide_eq_false_2 by (destruct h; done).
    change (maxMessageSize <? len (json_event ev)) with (65536 <? len (json_event ev)).
    rewrite (json_event_length _ _ Hv). change (65536 <? 153) with false. cbn iota.
    rewrite bool_decide_eq_false_2 by done.
    assert (order b ∅ = []) as ->; [|done]. apply Permutation_nil. symmetry. etrans; [apply Ho|]. by rewrite map_to_list_empty. }
  set (id := uuid_String (ev_SandboxID ev) +:+ ":" +:+ lifecycle_subject h) in *.
  assert (dispatch (nats_bus PublishMsg order true) h ev b =
    match nats_Publish PublishMsg order true (lifecycle_subject h) (json_event ev) ∅ id b with
    | (None, b) => (Ok tt, b)
    | (Some e, b) => (Err (Errorf (pe_text e) []), b)
    end) as -> by by destruct h.
  rewrite Hp.
  - fold m. destruct (PublishMsg m b) as [[text|] b1]; cbn; eexists; (split; [done|]); by split.
  - unfold id. apply TrimSpace_plain. rewrite !bytes_app, !Forall_app. split; [apply uuid_String_plain|].
    unfold plain. split; apply (bool_decide_eq_true_1 (Forall _ _)); by destruct h; vm_compute.
  - unfold id. intros E. apply (f_equal String.length) in E. rewrite str_length_app, uuid_String_length in E. done.
Qed.

(** C29: A lifecycle event finds its way.  Once a worker has started, an event that
    the dispatcher publishes for a creation or a destruction reaches the bus
    as one message with the event as its payload, and fails only when the bus
    does; of the streams that the worker provisioned, the jobs stream and no
    other captures its subject; and of the consumers that the worker runs,
    exactly one receives it, the one whose handler is meant. *)
Theorem lifecycle_events_are_routed `{SubjectMatch} {R} `{DriverLaws R} {B} (PublishMsg : NatsMsg → B → option string * B)
    order tempDir cfg p c (w : R) reg w' h ev u b :
  worker_New tempDir cfg (Some p) (Some (connected c)) w = (Ok reg, w') →
  visits_all order → ev_VMID ev = newVMID u →
  ∃ m r, dispatch (nats_bus PublishMsg order true) h ev b = (r, (PublishMsg m b).2) ∧
    (is_ok r = true ↔ (PublishMsg m b).1 = None) ∧ msg_Data m = json_event ev ∧
    (∀ s, s ∈ StreamConfigs DefaultStreamLimits →
       streams w' !! st_Name s = Some s ∧ captures s (msg_Subject m) = bool_decide (st_Name s = JobsStreamName)) ∧
    ∃ k stream durable, filter (λ k, receives w' (msg_Subject m) k = true) (wr_Consumers reg) = [k] ∧
      readers w' !! k = Some (stream, durable, h).
Proof.
  intros E Ho Hv. destruct (dispatch_publishes PublishMsg order h ev u b Ho Hv) as (r & Hd & Hr).
  set (m := mkNatsMsg _ _ _ _) in *. exists m, r. split; [done|]. split; [done|]. split; [done|].
  change (msg_Subject m) with (lifecycle_subject h).
  assert (∀ f, literal f = true → matches f (lifecycle_subject h) = bool_decide (lifecycle_subject h = f)) as Hlit.
  { intros f Hf. apply Bool.eq_iff_eq_true. rewrite match_literal by done. by rewrite bool_decide_eq_true. }
  assert (∃ t, t ≠ "" ∧ lifecycle_subject h = "shiyao.job" +:+ "." +:+ t) as (t & Ht & Et).
  { destruct h; [exists "sandbox.create"|exists "sandbox.destroy"]; done. }
  assert (∀ s, s ∈ StreamConfigs DefaultStreamLimits →
    captures s (lifecycle_subject h) = bool_decide (st_Name s = JobsStreamName)) as Hcap.
  { intros s Hin. unfold captures. cbn in Hin. apply elem_of_cons in Hin as [->|Hin%list_elem_of_singleton]; [|subst s]; cbn.
    - rewrite orb_false_r. apply Bool.eq_iff_eq_true. rewrite (match_tail "shiyao.job") by done.
      split; [done|]. intros _. by exists t.
    - rewrite orb_false_r. apply not_true_iff_false. rewrite (match_tail "shiyao.dlq") by done.
      intros (t' & _ & E'). rewrite Et in E'. discriminate. }
  revert E. unfold worker_New. run. destruct (vmm_Validate (worker_vmm_config cfg)); [|done].
  destruct (subscribe _ w) as [[hs|e] w1] eqn:Es; [|by destruct (worker_Close _ w1)]. intros [= <- <-].
  apply subscribe_cases in Es as (h1 & h2 & -> & Hne & _ & _ & _ & Est & C1 & C2 & R1 & R2).
  assert (∀ s, s ∈ StreamConfigs DefaultStreamLimits → streams w1 !! st_Name s = Some s) as Hst.
  { intros s Hin. rewrite Est. cbn in Hin |- *. apply elem_of_cons in Hin as [->|Hin%list_elem_of_singleton]; [|subst s].
    - cbn. rewrite lookup_insert_ne by done. by rewrite lookup_insert_eq.
    - cbn. by rewrite lookup_insert_eq. }
  split; [by auto|]. cbn [wr_Consumers].
  assert (∃ jobs, jobs ∈ StreamConfigs DefaultStreamLimits ∧ st_Name jobs = JobsStreamName) as (jobs & Hj & Ej)
    by (eexists; split; [left|done]).
  pose proof (Hst jobs Hj) as Hjs. rewrite Ej in Hjs. pose proof (Hcap jobs Hj) as Hjc. rewrite Ej in Hjc.
  assert (receives w1 (lifecycle_subject h) h1 = bool_decide (lifecycle_subject h = SubjectSandboxCreate)) as V1.
  { unfold receives. rewrite R1, Hjs, C1, Hjc. cbn [consumer_config cc_FilterSubject]. by rewrite Hlit. }
  assert (receives w1 (lifecycle_subject h) h2 = bool_decide (lifecycle_subject h = SubjectSandboxDestroy)) as V2.
  { unfold receives. rewrite R2, Hjs, C2, Hjc. cbn [consumer_config cc_FilterSubject]. by rewrite Hlit. }
  rewrite !filter_cons, V1, V2. by destruct h; [exists h1|exists h2]; do 2 eexists.
Qed.

(** ** Simulated drivers *)

Record SimR := mkSimR {
  sr_live : gset (Kind * Z); sr_streams : gmap string StreamConfig; sr_next : Z;
  sr_config : AppConfig; sr_broken : gset string;     (** names of the operations that fail *)
  sr_consumers : gmap (string * string) ConsumerConfig; sr_readers : gmap Z (string * string * LifecycleHandler);
}.
Definition sr_set_live (l : gset (Kind * Z)) (w : SimR) : SimR :=
  mkSimR l (sr_streams w) (sr_next w) (sr_config w) (sr_broken w) (sr_consumers w) (sr_readers w).
Definition sr_op {A} (op : string) (f : SimR → result A * SimR) : ST SimR A := λ w,
  if bool_decide (op ∈ sr_broken w) then (Err (Errorf op []), w) else f w.
Definition sr_ok (op : string) : ST SimR unit := sr_op op (λ w, (Ok tt, w)).
Definition sr_open (op : string) (k : Kind) : ST SimR Z := sr_op op (λ w,
  if bool_decide ((k, sr_next w) ∈ sr_live w) then (Err (Errorf "busy" []), w)
  else (Ok (sr_next w), mkSimR ({[(k, sr_next w)]} ∪ sr_live w) (sr_streams w) (sr_next w + 1) (sr_config w) (sr_broken w)
             (sr_consumers w) (sr_readers w))).
Definition sr_close (x : Kind * Z) : ST SimR unit := λ w, (Ok tt, sr_set_live (sr_live w ∖ {[x]}) w).

#[export] Instance sim_drivers : Drivers SimR := {
  godotenv_Load := λ w, (Err (Sentinel "file does not exist"), w);
  env_Parse := sr_op "env" (λ w, (Ok (sr_config w), w));
  pg_ParseConfig u := sr_op "pg_parse" (λ w, (Ok (mkPoolConfig u 4 0 0 0), w));
  pg_NewWithConfig c := sr_open "pg_new" KPool;
  pg_Ping p := sr_ok "pg_ping";
  pg_Close p := sr_close (KPool, p);
  redis_ParseURL u := sr_op "redis_parse" (λ w, (Ok (mkRedisOptions u 0 0 0), w));
  redis_NewClient o := sr_open "redis_new" KRedis;
  redis_Ping c := sr_ok "redis_ping";
  redis_Close c := sr_close (KRedis, c);
  nats_Connect u o := sr_open "connect" KNats;
  js_New c := sr_ok "js_new";
  js_AccountInfo c := sr_ok "account";
  conn_Close c := sr_close (KNats, c);
  conn_IsClosed c w := negb (bool_decide ((KNats, c) ∈ sr_live w));
  conn_IsConnected c w := bool_decide ((KNats, c) ∈ sr_live w);
  conn_Drain c := sr_op "drain" (sr_close (KNats, c));
  js_CreateOrUpdateStream c s := sr_op "stream" (λ w,
    (Ok tt, mkSimR (sr_live w) (<[st_Name s := s]> (sr_streams w)) (sr_next w) (sr_config w) (sr_broken w)
              (sr_consumers w) (sr_readers w)));
  js_CreateOrUpdateConsumer c s cfg := sr_op (cc_Name cfg) (λ w,
    (Ok tt, mkSimR (sr_live w) (sr_streams w) (sr_next w) (sr_config w) (sr_broken w)
              (<[(s, cc_Durable cfg) := cfg]> (sr_consumers w)) (sr_readers w)));
  js_Consume c s cfg h w :=
    match sr_open "consume" KConsumer w with
    | (Ok k, w) => (Ok k, mkSimR (sr_live w) (sr_streams w) (sr_next w) (sr_config w) (sr_broken w)
                            (sr_consumers w) (<[k := (s, cc_Durable cfg, h)]> (sr_readers w)))
    | (Err e, w) => (Err e, w)
    end;
  handle_Stop h := sr_close (KConsumer, h);
  http_Serve := sr_op "serve" (λ w, (Ok ShutdownSignal, w));
  http_Shutdown := sr_ok "shutdown";
  ctx_Done := st_ret tt;
}.

Lemma sr_ok_keeps {V} (f : SimR → V) op : preserves f (sr_ok op).
Proof. intros w. unfold sr_ok, sr_op. by case_bool_decide. Qed.
Lemma sr_open_acquires op k : acquires sr_live k (sr_open op k).
Proof.
  intros w r w'. unfold sr_open, sr_op. case_bool_decide; [by intros [= <- <-]|].
  case_bool_decide; by intros [= <- <-].
Qed.
Lemma sr_open_streams op k : preserves sr_streams (sr_open op k).
Proof. intros w. unfold sr_open, sr_op. by repeat case_bool_decide. Qed.
#[export] Instance sim_driver_laws : DriverLaws SimR.
Proof.
  refine {| live := sr_live; streams := sr_streams; consumers := sr_consumers; readers := sr_readers |};
    try (intros; apply sr_ok_keeps); try (intros; apply sr_open_acquires); try (intros; apply sr_open_streams); try done.
  all: try (intros; intros w; cbn; unfold sr_op; by case_bool_decide).
  - intros c w. cbn. by rewrite negb_true_iff, bool_decide_eq_false.
  - intros c w. cbn. unfold sr_op. by case_bool_decide.
  - intros c s cfg h w r w'. cbn. destruct (sr_open "consume" KConsumer w) as [[k|e] w1] eqn:E;
      apply sr_open_acquires in E; by intros [= <- <-].
  - intros c s w. cbn. unfold sr_op. by case_bool_decide.
  - intros c s cfg h w. cbn. pose proof (sr_open_streams "consume" KConsumer w). by destruct (sr_open _ _ w) as [[] ?].
  - intros c s cfg w w'. cbn. unfold sr_op. case_bool_decide; [done|]. by intros [= <-].
  - intros c s cfg h w k w'. cbn. unfold sr_open, sr_op. repeat case_bool_decide; try done. by intros [= <- <-].
Defined.

Definition sim_config : AppConfig :=
  mkAppConfig "8080" "postgres://" "redis://" "nats://" [] false "/k" "/r" "/a" 2 512 "" "eth0".
Definition sim_runtime (broken : list string) : SimR := mkSimR ∅ ∅ 1 sim_config (list_to_set broken) ∅ ∅.

(** The JetStream account cannot be verified, and the connections are gone. *)
Lemma daemon_releases_connections_witness :
  is_ok (run (sim_runtime ["account"])).1 = false ∧ live (run (sim_runtime ["account"])).2 = live (sim_runtime ["account"]).
Proof.
  split; [vm_compute; reflexivity|].
  apply (daemon_releases_connections (sim_runtime ["account"]) (run (sim_runtime ["account"])).1). apply surjective_pairing.
Defined.

(** The second consumer cannot be created. *)
Definition half_worker : result WorkerRegistry * SimR :=
  worker_New "/tmp" sim_config (Some 1) (Some (connected 2))
    (mkSimR {[(KPool, 1); (KNats, 2)]} ∅ 3 sim_config {[sandboxDestroyConsumer]} ∅ ∅).
Lemma worker_starts_whole_witness : is_ok half_worker.1 = false ∧ sr_live half_worker.2 = ∅.
Proof.
  assert (is_ok half_worker.1 = false) as Hf by (vm_compute; reflexivity). split; [done|].
  pose proof (worker_starts_whole "/tmp" sim_config 1 2
    (mkSimR {[(KPool, 1); (KNats, 2)]} ∅ 3 sim_config {[sandboxDestroyConsumer]} ∅ ∅) half_worker.1 half_worker.2
    (surjective_pairing _)) as Hw.
  destruct half_worker.1 as [reg|e]; [done|]. destruct Hw as [[Hv _]|Hw]; [vm_compute in Hv; done|].
  change (sr_live half_worker.2) with (live half_worker.2). rewrite Hw. cbn. set_solver.
Defined.

(** A matcher for filters with at most a trailing wildcard *)
Definition strip_tail (f : string) : option string :=
  match reverse (bytes f) with
  | 62 :: 46 :: p => Some (of_bytes (reverse p))
  | _ => None
  end.
Definition tail_matches (f s : string) : bool :=
  match strip_tail f with
  | Some p => HasPrefix s (p +:+ ".") && (len p + 1 <? len s)
  | None => bool_decide (s = f)
  end.
Lemma strip_tail_literal f : literal f = true → strip_tail f = None.
Proof.
  unfold literal, strip_tail. intros Hl%negb_true_iff. destruct (reverse (bytes f)) as [|b p] eqn:E; [done|].
  assert (b ∈ bytes f) as Hb by (rewrite <- elem_of_reverse, E; left).
  assert (b ≠ 62) as Hne.
  { intros ->. apply not_true_iff_false in Hl. apply Hl. unfold ContainsAny. apply existsb_elem. by exists 62. }
  repeat case_match; done.
Qed.
Lemma strip_tail_app p : strip_tail (p +:+ ".>") = Some p.
Proof.
  unfold strip_tail. rewrite bytes_app, reverse_app. change (reverse (bytes ".>")) with [62; 46].
  cbn [app]. by rewrite reverse_involutive, of_bytes_bytes.
Qed.
Definition tail_match : SubjectMatch.
Proof.
  refine {| matches := tail_matches |}; unfold tail_matches.
  - intros f s Hl. by rewrite strip_tail_literal, bool_decide_eq_true by done.
  - intros p s _. rewrite strip_tail_app, andb_true_iff, Z.ltb_lt. unfold HasPrefix. rewrite prefix_bytes_spec.
    rewrite !len_bytes. split.
    + intros [(k & E) Hlen]. exists (of_bytes k).
      assert (s = p +:+ "." +:+ of_bytes k) as Es.
      { apply bytes_inj. rewrite E, !bytes_app, bytes_of_bytes, app_assoc; [done|].
        pose proof (bytes_range s) as Hr. rewrite E in Hr. by apply Forall_app in Hr as [_ Hr]. }
      split; [|done]. intros Ek. rewrite E, bytes_app, !length_app in Hlen.
      assert (length k = 0%nat) by (by rewrite <- length_of_bytes, Ek). cbn in Hlen. lia.
    + intros (t & Ht & ->). rewrite !bytes_app. split; [exists (bytes t); by rewrite app_assoc|].
      rewrite !length_app. cbn. assert (length (bytes t) ≠ 0%nat); [|lia].
      intros E%nil_length_inv. apply Ht. by rewrite <- (of_bytes_bytes t), E.
Defined.

Definition sample_event : LifecycleEvent := mkLifecycleEvent 10 2 (newVMID 3).
(** A worker on connections that work, and a bus that keeps what it is given *)
Definition whole_worker : result WorkerRegistry * SimR :=
  worker_New "/tmp" sim_config (Some 1) (Some (connected 2)) (mkSimR {[(KPool, 1); (KNats, 2)]} ∅ 3 sim_config ∅ ∅ ∅).
Definition list_order : MapOrder (list NatsMsg) := λ _ m, map_to_list m.
Definition keep_msg (m : NatsMsg) (b : list NatsMsg) : option string * list NatsMsg := (None, m :: b).
Lemma lifecycle_events_are_routed_witness :
  ∃ reg m, whole_worker.1 = Ok reg ∧
    dispatch (nats_bus keep_msg list_order true) handle_sandbox_destroy sample_event [] = (Ok tt, [m]) ∧
    ∃ k stream durable, filter (λ k, @receives tail_match _ _ _ whole_worker.2 (msg_Subject m) k = true) (wr_Consumers reg) = [k] ∧
      readers whole_worker.2 !! k = Some (stream, durable, handle_sandbox_destroy).
Proof.
  destruct whole_worker.1 as [reg|e] eqn:E; [|vm_compute in E; discriminate].
  destruct (@lifecycle_events_are_routed tail_match _ _ _ _ keep_msg list_order "/tmp" sim_config 1 2
    (mkSimR {[(KPool, 1); (KNats, 2)]} ∅ 3 sim_config ∅ ∅ ∅) reg whole_worker.2 handle_sandbox_destroy sample_event 3 [])
    as (m & r & Hd & Hr & _ & _ & Hk).
  - rewrite <- E. apply surjective_pairing.
  - intros b m. reflexivity.
  - reflexivity.
  - exists reg, m. split; [done|]. split; [|exact Hk]. rewrite Hd. cbn in Hr |- *.
    destruct r as [[]|e]; [done|]. by destruct (proj2 Hr eq_refl).
Defined.
