(* ===== verification/Tools.v ===== *)
(** * The command line tool and the boot benchmark

    [cmd/cli/main.go]: the output and the exit code for every argument list.
    [internal/core/vmm/benchmark.go]: [MeasureBoots] over two operations that
    the caller supplies, on a world with a clock. *)

From S2P Require Import Prelude GoStrings.
Open Scope Z_scope.

(** ** cmd/cli *)

Record Output := mkOutput { out_stdout : string; out_stderr : string; out_exit : Z }.
Definition nl : string := of_bytes [10].
Definition Println (s : string) : string := s +:+ nl.
Definition unlines (l : list string) : string := foldr (λ s acc, Println s +:+ acc) "" l.

Definition banner : string := nl +:+ unlines
  ["   _____ _     _";
   "  / ____| |   (_)";
   " | (___ | |__  _  _   _  __ _  ___";
   "  \___ \| '_ \| || | | |/ _` |/ _ \";
   "  ____) | | | | || |_| | (_| | (_) |";
   " |_____/|_| |_|_| \__, |\__,_|\___/";
   "                   __/ |";
   "                  |___/";
   "";
   "Shiyao CLI — Secure, sub-second microVM execution for AI agents"].
Definition usage : string := banner +:+ unlines
  ["Usage:"; "  go run cmd/command/main.go <command>"; ""; "Available Commands:";
   "  hello      Print a greeting"; "  version    Print the CLI version"; "  help       Show this help message"].

(** [main]; [args] is [os.Args], with the name of the program first. *)
Definition cli_main (args : list string) : Output :=
  match args with
  | [] | [_] => mkOutput usage "" 1
  | _ :: command :: _ =>
      if bool_decide (command = "hello") then mkOutput (Println "Hello from Shiyao! 🛡️⚡") "" 0
      else if bool_decide (command ∈ ["version"; "--version"; "-v"]) then mkOutput (Println "shiyao CLI v0.1.0") "" 0
      else if bool_decide (command ∈ ["help"; "--help"; "-h"]) then mkOutput usage "" 0
      else mkOutput usage ("Error: unknown command '" +:+ command +:+ "'" +:+ nl +:+ nl) 1
  end.

(** The exit code tells a known command from anything else, only an unknown
    command writes to the error output, and the usage is shown exactly for a
    missing, an unknown or a help command. *)
Lemma cli_exit_code args :
  let known := ["hello"; "version"; "--version"; "-v"; "help"; "--help"; "-h"] in
  (out_exit (cli_main args) = 0 ↔ ∃ c, args !! 1%nat = Some c ∧ c ∈ known) ∧
  (out_stderr (cli_main args) ≠ "" ↔ ∃ c, args !! 1%nat = Some c ∧ c ∉ known).
Proof.
  destruct args as [|prog [|command rest]]; cbn; [split; split; naive_solver..|].
  assert (∀ P : string → Prop, (∃ c, Some command = Some c ∧ P c) ↔ P command) as Hex by naive_solver.
  rewrite !Hex. repeat case_bool_decide; cbn; split; split; try done; set_solver.
Qed.

(** ** core/vmm/benchmark.go *)

Record BootMeasurements := mkBootMeasurements { ColdBoot : Z; SnapshotResume : Z }.

Section Measure.
Context {W : Type} (Now : W → Z * W).

(** An operation that is nil is [None]. *)
Definition MeasureBoots (coldBoot snapshotResume : option (ST W unit)) : ST W BootMeasurements := λ w,
  match coldBoot, snapshotResume with
  | Some coldBoot, Some snapshotResume =>
      let '(start, w) := Now w in
      match coldBoot w with
      | (Err e, w) => (Err (Errorf "cold boot: %w" [e]), w)
      | (Ok _, w) =>
          let '(t, w) := Now w in
          let cold := t - start in
          let '(start, w) := Now w in
          match snapshotResume w with
          | (Err e, w) => (Err (Errorf "snapshot resume: %w" [e]), w)
          | (Ok _, w) => let '(t, w) := Now w in (Ok (mkBootMeasurements cold (t - start)), w)
          end
      end
  | _, _ => (Err (Errorf "cold boot and snapshot resume functions are required" []), w)
  end.

(** With a clock that only the operations advance, the measurements are the
    durations of the two operations, one after the other; the resume is not
    tried after a failed boot. *)
Context (clock : W → Z).
Hypothesis now_reads : ∀ w, Now w = (clock w, w).

Lemma measure_boots_durations cold resume w :
  let '(r1, w1) := cold w in
  let '(r2, w2) := resume w1 in
  MeasureBoots (Some cold) (Some resume) w =
    match r1, r2 with
    | Err e, _ => (Err (Errorf "cold boot: %w" [e]), w1)
    | Ok _, Err e => (Err (Errorf "snapshot resume: %w" [e]), w2)
    | Ok _, Ok _ => (Ok (mkBootMeasurements (clock w1 - clock w) (clock w2 - clock w1)), w2)
    end.
Proof.
  unfold MeasureBoots. rewrite now_reads. destruct (cold w) as [[u|e] w1]; destruct (resume w1) as [r2 w2] eqn:E; [|done].
  rewrite !now_reads, E. destruct r2; [by rewrite now_reads|done].
Qed.
End Measure.
